(* ===== verification/_CoqProject ===== *)
-Q . S2P
Prelude.v
Utf8.v
Json.v
Message.v
JsonValidation.v
Codec.v
CommandPayload.v
Ledger.v
LedgerLogic.v
LedgerFacts.v
LedgerHistory.v
Connection.v
NodeHelper.v
Authorization.v
Sha256.v
Service.v
ServiceTraces.v
Replay.v
AtMostOnce.v
RequestLock.v
Schema.v
SchemaFacts.v
OpenApi.v
OpenApiModels.v
OpenApiRequests.v
OpenApiValues.v
Sacctmgr.v
NodeCache.v
NodeSource.v
OpenApiFacts.v
Documents.v
Stream.v
StreamHistory.v
Dispatcher.v
Printing.v
Session.v
Server.v
Channel.v
Wire.v
Startup.v
CommandReply.v
Lifecycle.v
Boundary.v
Daemon.v
Privilege.v
Process.v
