(* ===== verification/Prelude.v ===== *)
(** * cockpit-slurm: verification development (root file)

    cockpit-slurm is a daemon that shows the nodes of a Slurm cluster in Cockpit
    and lets an administrator drain and resume them. This library models the Go
    program under src/internal and src/cmd and proves what makes it correct.

    ** The program and its parts

    A Cockpit user connects over a Unix socket. [ipc/server.go] accepts the
    connection, takes the identity of the peer from the kernel
    ([connection/connection.go]), registers a node stream
    ([stream/node_registry.go]) and reads length-prefixed JSON envelopes
    ([protocol/]). [dispatcher/dispatcher.go] routes them to hello, ping, the node
    query, the capabilities of the requester ([service/]) and the command service
    ([command/service.go]). A node command is reserved in a SQLite ledger
    ([ledger/ledger.go]), authorized against the registry of operations and the
    Slurm user database ([authorization/], [identity/]), and executed over D-Bus
    ([command/dbus_executor.go]) by a helper that runs [scontrol] as SlurmUser
    ([nodehelper/helper.go]). A synchronizer lists the nodes with [scontrol],
    validates and commits the listing to the cache ([resource/]), which publishes
    the changes to the streams. [cmd/cockpit-slurm/main.go] puts it together.

    ** Files

    Foundations: this file ([result], strings, tactics and the hint databases);
    Utf8 (runes, [unicode] and [strings]); Json ([encoding/json]: parser,
    unquoting, printing, compaction, the struct decoder); Schema (decoding into a
    universe of Go types); SchemaFacts (the same, field by field); Sha256
    ([crypto/sha256]); Printing (what is marshalled parses back).

    Protocol: Message (message.go, envelope.go, errors.go); JsonValidation
    (json_validation.go); Codec (codec.go); CommandPayload (command.go,
    capabilities.go).

    Ledger: Ledger (ledger.go, every function, over a database that answers each
    call with success, a failure before or a failure after its effect);
    LedgerLogic (weakest preconditions of its monad); LedgerFacts (the contract of
    every operation, against an abstract table); LedgerHistory (sequences of
    operations, crashes and restarts).

    Identity: Connection (connection.go); Authorization (identity/capabilities.go,
    registry.go, authorizer.go); Sacctmgr (sacctmgr.go).

    Slurm's types, hack/openapi/slurm_openapi.gen.go: OpenApi (what the daemon
    decodes: the answers on nodes and users), OpenApiModels and OpenApiRequests
    (the other types), OpenApiValues (the constants), OpenApiFacts (all of them),
    Documents (what the two documents the daemon reads come to).

    Commands: Service (service.go: [Handle] is a program, a tree of calls to the
    ledger, the authorizer, the executor, the cache and the clock); ServiceTraces
    (the order of these calls); Replay (answers to repeated requests); AtMostOnce
    (handlers interleaved over one ledger, with crashes); CommandReply (what is
    stored and answered can be encoded); RequestLock (the lock of a command);
    NodeHelper (helper.go and dbus_executor.go).

    Nodes: NodeCache (node.go, node_snapshot.go, node_change.go, node_cache.go);
    NodeSource (node_adapter.go, node_synchronizer.go and the mapping in node.go);
    Stream (node_registry.go and the outbound queue of server.go); StreamHistory
    (refreshes, registrations and connections in any order, each in one step);
    Boundary (the same between any two critical sections of [refreshMu],
    [publicationMu], the mutex of the registry and the [sync.Once] of a stream).

    The daemon: Dispatcher (dispatcher.go, service/query.go,
    service/capabilities.go); Session (the request loop and the replay cache of
    server.go); Lifecycle (the reader and the writer goroutine of one connection,
    with its node stream and the deferred calls of [serveConnection]); Server (the
    listener, its socket file, tracking and shutdown of server.go); Channel (channel.go); Wire (the composition of
    marshallers, codec, dispatcher and streams); Startup (main.go as far as [Serve]);
    Process (main.go from there to the exit).

    Compositions: Daemon (connections, their caches and requests, the dispatcher
    and the handlers of commands over one ledger, from the bytes of the peers to
    the calls of the executor); Privilege (the same with the code of the
    authorizer, of the D-Bus client and of the helper, as far as the command lines
    that [scontrol] is run with).

    ** How code becomes definitions

    A Go string or byte slice is a [string] of bytes. An integer is a [Z] with its
    wrap-around written out ([uint64_wrap]). A [(T, error)] is [result]. A map is
    a [gmap]; where Go iterates over one, the order is an argument [o : order] and
    theorems ask only that it is [fair]. State is passed explicitly; goroutines
    are the steps of a relation, one step for each critical section or channel
    operation, so a run of the relation is an interleaving. A coarser relation is
    justified by a refinement theorem: the calls of a handler in AtMostOnce.v by
    Daemon.v, the requests of Session.v by Lifecycle.v, the steps of
    StreamHistory.v are runs of Boundary.v. What is not code of this repository is
    an argument: the answers of SQLite, of D-Bus, of [scontrol], [sacctmgr] and the
    operating system, the clock, [strconv.IsPrint] beyond ASCII. Nothing is assumed
    of them beyond what a theorem names. The standard library is modelled as the
    code uses it: closing a listener of [net.Listen] unlinks its socket file.

    ** What is shown

    - End to end: every command line that [scontrol] was run with is the one of a
      command that was decoded from a connection of its user, whom Slurm had
      named an administrator, and there is at most one for every record the
      ledger kept or lost (Privilege, Daemon).
    - Commands: at most one execution of a command per ledger record, in every
      interleaving and across crashes (AtMostOnce); an execution only after a
      durable reservation, authorization and start by the same request
      (ServiceTraces); a repeated request is answered from the record, whatever
      the record stores (Replay); mutual exclusion and progress of the lock (RequestLock).
    - Ledger: every operation refines an operation on an abstract table, rows move
      along the transition diagram only, the gate closes on a persistence failure
      of any operation and only a successful [Reconcile] opens it again
      (LedgerFacts, LedgerHistory).
    - Protocol: decoding what was encoded, the duplicate-key check against the
      parsed value, exact acceptance of command payloads, bounds on frames (Codec,
      JsonValidation, CommandPayload); what the daemon sends can be encoded and
      decoded by the peer (Wire), replies to commands included (CommandReply).
    - Slurm's types: decoding into any of them is decoding each field by itself,
      well typed (SchemaFacts, OpenApiFacts); and every node and user that Slurm
      reports arrives, each member in its place (Documents).
    - Authority: only a Slurm administrator passes the authorizer, what the
      capabilities say is what the authorizer decides (Authorization, Dispatcher),
      the helper serves one account and runs one of two command lines (NodeHelper);
      whatever the bus does, forged replies included, one call runs at most one
      line; and over a faithful bus a success means that [scontrol] succeeded and
      a definite failure that the helper ran nothing or saw it fail (Privilege).
    - Nodes: the mapping of Slurm's node, atomic and minimal commits, all or
      nothing refreshes, continuity of every feed at every moment, locks that are
      always given up (NodeCache, NodeSource, Stream, StreamHistory, Boundary).
    - Daemon: routing, the cache of requests of a connection, termination of its
      loop and of both its goroutines with their stream out of the registry, an
      error reply that is written before the connection is closed (Session,
      Lifecycle), taking over the socket path only when it is free or freed,
      shutdown without leaks, a start-up that serves only when everything is in
      the state the other theorems start from (Dispatcher, Server, Startup), and
      an exit that closes what the daemon uses only after [Serve] (Process).

    ** Bounds and fuel

    Recursion is structural or carries fuel with a theorem that it suffices: the
    parser's depth is Go's own limit of 10000 and its fuel the length of the
    input; the loops over the outside world recurse on the list of what it
    answers ([io_turn], [turn], [wakeup], the answers of the database), and
    [serve_terminates] bounds the turns a session takes by its input. The sizes
    of the code are kept: frames of 4 MiB, 4096 requests a connection, queues of
    32, 30 days of retention, generations modulo 2^64.

    ** What modelling showed

    Keys that differ only by case pass the duplicate-key check
    ([folded_duplicate_key_accepted]), whose recursion has no bound
    ([consume_depth_unbounded]). A node with an empty name hides its host name
    and spoils the whole listing ([empty_name_hides_fallback]). A recovered
    command is answered with a retryable internal error
    ([recovered_unknown_reply]); a time-out of the helper is taken for a definite
    failure ([helper_timeout_is_definite]). [Serve] returns while [Close] still
    waits for the handlers, and [main] then closes what they use, and may exit
    before the socket file is gone ([Serve_returns_before_Close],
    [ledger_closed_under_handlers]). [Close] unlinks the socket before it waits
    and removes whatever is at the path after it, the socket of a successor
    included ([successor_socket_removed]). The reply that announces the request
    limit may be lost, since the writer prefers the cancelled context to its
    queue ([limit_reply_lost]). A client that goes away while a transaction begins makes
    the ledger take the commands of others for interrupted
    ([cancelled_begin_disturbs_others]); an error that the bus library returns by
    value hides a definite failure ([error_by_value_is_unknown]); the commit that
    wraps the generation is not published ([wrapped_generation_dropped]); a user
    whose level Slurm reports as not set is refused as having an unknown one, and
    is not the visitor of the role model ([admin_levels]).

    ** Not modelled

    The go:generate file; the comments and the [form] tags of the generated types,
    which no code reads; the TypeScript front end; the log lines; a second [Listen]
    in the interleavings of Server.v, where [CloseAll] of the streams and of the
    connections, which cancels their contexts, is what lets a handler end; the
    client library of D-Bus behind the calls of the helper and of the executor,
    which is taken to deliver a call at most once; the real-time behaviour of
    timers. *)
From stdpp Require Export base gmap strings list numbers pretty relations.
From Stdlib Require Export Ascii ZArith Lia.

(** ** Scopes and databases of the development *)

Declare Scope slurm_scope.
Delimit Scope slurm_scope with slurm.

Create HintDb slurm.

(** ** Fallible computations

    A Go function that returns [(T, error)] is modelled by [result E T]. *)

Inductive result (E A : Type) : Type :=
| Ok (a : A)
| Err (e : E).
Arguments Ok {E A} a.
Arguments Err {E A} e.

#[export] Instance result_ret E : MRet (result E) := fun A a => Ok a.
#[export] Instance result_bind E : MBind (result E) :=
  fun A B f m => match m with Ok a => f a | Err e => Err e end.
#[export] Instance result_fmap E : FMap (result E) :=
  fun A B f m => match m with Ok a => Ok (f a) | Err e => Err e end.

#[export] Instance result_eq_dec E A `{EqDecision E, EqDecision A} :
  EqDecision (result E A).
Proof. solve_decision. Defined.

(** [guard_err b e]: the Go idiom [if !b { return ..., e }]. *)
Definition guard_err {E} (b : bool) (e : E) : result E unit :=
  if b then Ok tt else Err e.

Definition is_Ok {E A} (r : result E A) : bool :=
  match r with Ok _ => true | Err _ => false end.

Lemma bind_Ok_inv {E A B} (m : result E A) (f : A → result E B) b :
  (m ≫= f) = Ok b → ∃ a, m = Ok a ∧ f a = Ok b.
Proof. destruct m; simpl; [eauto | discriminate]. Qed.

Lemma guard_err_Ok_inv {E} b (e : E) u : guard_err b e = Ok u → b = true.
Proof. by destruct b. Qed.

Lemma guard_bind_Err {E A} b (e e' : E) (f : unit → result E A) :
  (guard_err b e ≫= f) = Err e' → e' = e ∨ f tt = Err e'.
Proof. destruct b; simpl; [auto|]. intros [= <-]. auto. Qed.

(** Unfolds a successful chain of [≫=] and [guard_err] into its steps. *)
Ltac inv_ok :=
  repeat match goal with
  | H : (_ ≫= _) = Ok _ |- _ =>
      let x := fresh "x" in let Hx := fresh "Hx" in
      apply bind_Ok_inv in H as (x & Hx & H)
  | H : guard_err _ _ = Ok _ |- _ => apply guard_err_Ok_inv in H
  | H : Ok _ = Ok _ |- _ => injection H as H
  | H : Err _ = Ok _ |- _ => discriminate H
  | H : Ok _ = Err _ |- _ => discriminate H
  end.

(** Splits every boolean conjunction in the context. *)
Ltac split_bools :=
  repeat match goal with
  | H : (_ && _)%bool = true |- _ => apply andb_true_iff in H as [? ?]
  | H : (_ || _)%bool = false |- _ => apply orb_false_iff in H as [? ?]
  | H : negb _ = true |- _ => apply negb_true_iff in H
  | H : negb _ = false |- _ => apply negb_false_iff in H
  | H : bool_decide _ = true |- _ => apply bool_decide_eq_true in H
  | H : bool_decide _ = false |- _ => apply bool_decide_eq_false in H
  end.

(** ** Reachable states

    What holds at first and is kept by every step holds in every state a run of
    the relation reaches. *)
Lemma rtc_invariant {A} (R : relation A) (P : A → Prop) x y :
  (∀ a b, R a b → P a → P b) → rtc R x y → P x → P y.
Proof. intros Hstep Hr. induction Hr as [|a b c Hs _ IH]; [done|]. intros Ha. by eapply IH, Hstep. Qed.

(** ** Bytes

    A Go [string] or [[]byte] is a Rocq [string]: a list of 8-bit characters.
    [code] and [chr] move between a character and its number. *)

Definition code (c : ascii) : Z := Z.of_N (Ascii.N_of_ascii c).
Definition chr (z : Z) : ascii := Ascii.ascii_of_N (Z.to_N z).

Lemma chr_code c : chr (code c) = c.
Proof. unfold chr, code. rewrite N2Z.id. apply Ascii.ascii_N_embedding. Qed.

Lemma code_range c : (0 ≤ code c < 256)%Z.
Proof.
  unfold code. pose proof (Ascii.N_ascii_bounded c). lia.
Qed.

Lemma code_chr z : (0 ≤ z < 256)%Z → code (chr z) = z.
Proof.
  intros Hz. unfold code, chr. rewrite Ascii.N_ascii_embedding by lia. lia.
Qed.

Lemma code_inj c d : code c = code d → c = d.
Proof. intros H. by rewrite <-(chr_code c), <-(chr_code d), H. Qed.

Notation slen := String.length.

(** [ch =? d] on characters, as a boolean. *)
Notation "c =a d" := (Ascii.eqb c d) (at level 70) : slurm_scope.
Open Scope slurm_scope.

Definition dquote : ascii := chr 34.
Definition bslash : ascii := chr 92.

(** ** Strings *)

Lemma sapp_assoc (a b c : string) : (a +:+ b) +:+ c = a +:+ b +:+ c.
Proof. induction a as [|x a IH]; [done|]. unfold String.app in *; simpl. by rewrite IH. Qed.

Lemma sapp_nil_r (a : string) : a +:+ "" = a.
Proof. induction a as [|x a IH]; [done|]. unfold String.app in *; simpl. by rewrite IH. Qed.

Lemma sapp_nil_l (a : string) : "" +:+ a = a.
Proof. done. Qed.

Lemma sapp_cons c (a b : string) : String c a +:+ b = String c (a +:+ b).
Proof. done. Qed.

Lemma slen_app (a b : string) : slen (a +:+ b) = slen a + slen b.
Proof. induction a as [|x a IH]; [done|]. rewrite sapp_cons; simpl. lia. Qed.

#[export] Hint Rewrite sapp_assoc sapp_nil_r sapp_nil_l sapp_cons slen_app : slurm.

Fixpoint sdrop (n : nat) (s : string) : string :=
  match n, s with
  | O, _ => s
  | S n, EmptyString => EmptyString
  | S n, String _ s => sdrop n s
  end.

Fixpoint stake (n : nat) (s : string) : string :=
  match n, s with
  | O, _ => EmptyString
  | S n, EmptyString => EmptyString
  | S n, String c s => String c (stake n s)
  end.

Lemma stake_sdrop n s : stake n s +:+ sdrop n s = s.
Proof.
  revert s; induction n as [|n IH]; intros [|c s]; simpl; [done..|].
  by rewrite sapp_cons, IH.
Qed.

Lemma stake_app a b : stake (slen a) (a +:+ b) = a.
Proof. induction a as [|c a IH]; simpl; [by destruct b|]. by rewrite IH. Qed.

Lemma sdrop_app a b : sdrop (slen a) (a +:+ b) = b.
Proof. induction a as [|c a IH]; simpl; [done|]. by rewrite IH. Qed.

Lemma slen_sdrop n s : slen (sdrop n s) = slen s - n.
Proof. revert s; induction n as [|n IH]; intros [|c s]; simpl; auto. Qed.

Lemma slen_stake n s : slen (stake n s) = n `min` slen s.
Proof. revert s; induction n as [|n IH]; intros [|c s]; simpl; auto. Qed.

(** All characters satisfy a boolean predicate. *)
Fixpoint sforallb (p : ascii → bool) (s : string) : bool :=
  match s with
  | EmptyString => true
  | String c s => p c && sforallb p s
  end.

Lemma sforallb_app p a b : sforallb p (a +:+ b) = sforallb p a && sforallb p b.
Proof.
  induction a as [|c a IH]; [done|]. rewrite sapp_cons; simpl.
  by rewrite IH, andb_assoc.
Qed.

Lemma sforallb_impl (p q : ascii → bool) s :
  (∀ c, p c = true → q c = true) → sforallb p s = true → sforallb q s = true.
Proof.
  intros Hpq. induction s as [|c s IH]; simpl; [done|].
  rewrite !andb_true_iff. naive_solver.
Qed.

Definition streq (a b : string) : bool := String.eqb a b.

Lemma streq_true a b : streq a b = true ↔ a = b.
Proof. apply String.eqb_eq. Qed.
Lemma streq_refl a : streq a a = true.
Proof. apply String.eqb_refl. Qed.
Lemma streq_false a b : streq a b = false ↔ a ≠ b.
Proof. apply String.eqb_neq. Qed.

(** Left-pads a decimal rendering with zeros: the verb [%0nd] of [fmt]. *)
Definition zeros (n : nat) : string := Nat.iter n (String (chr 48)) "".
Definition pad_left (width : nat) (s : string) : string :=
  zeros (width - slen s) +:+ s.
Definition fmt_d (n : N) : string := pretty n.
Definition fmt_0d (width : nat) (n : N) : string := pad_left width (pretty n).

(** ** Machine integers *)

Definition uint32_max : Z := 2 ^ 32 - 1.
Definition uint64_wrap (z : Z) : Z := z mod 2 ^ 64.

Lemma uint64_wrap_small z : (0 ≤ z < 2 ^ 64)%Z → uint64_wrap z = z.
Proof. apply Z.mod_small. Qed.

(** Case analysis on the 256 values of a character: each value contradicts a
    hypothesis or closes the goal by computation. *)
Ltac byte_cases c :=
  destruct c as [[] [] [] [] [] [] [] []];
  first [ reflexivity
        | match goal with H : _ = true |- _ => discriminate H end
        | match goal with H : _ = false |- _ => discriminate H end ].
