(* ===== verification/Utf8.v ===== *)
(** * Utf8: runes of a Go string

    The parts of [unicode/utf8], [unicode] and [strings] that the daemon's
    validators use: decoding and encoding of runes, the [range] loop over a
    string, [IsSpace], [IsControl], [TrimSpace] and [ToLower]. *)
From S2P Require Import Prelude.
Open Scope Z_scope.

(** [utf8.RuneError] *)
Definition rune_error : Z := 65533.

Definition is_cont (b : Z) : bool := (128 <=? b) && (b <=? 191).

(** Second byte ranges of the three- and four-byte forms: overlong forms,
    surrogates and values above U+10FFFF are excluded here. *)
Definition second3_ok (b0 b1 : Z) : bool :=
  (if b0 =? 224 then 160 <=? b1 else 128 <=? b1) &&
  (if b0 =? 237 then b1 <=? 159 else b1 <=? 191).
Definition second4_ok (b0 b1 : Z) : bool :=
  (if b0 =? 240 then 144 <=? b1 else 128 <=? b1) &&
  (if b0 =? 244 then b1 <=? 143 else b1 <=? 191).

Definition decode2 (b0 : Z) (s : string) : Z * nat :=
  match s with
  | String c1 _ =>
      if is_cont (code c1) then ((b0 - 192) * 64 + (code c1 - 128), 2%nat)
      else (rune_error, 1%nat)
  | EmptyString => (rune_error, 1%nat)
  end.

Definition decode3 (b0 : Z) (s : string) : Z * nat :=
  match s with
  | String c1 (String c2 _) =>
      if second3_ok b0 (code c1) && is_cont (code c2)
      then ((b0 - 224) * 4096 + (code c1 - 128) * 64 + (code c2 - 128), 3%nat)
      else (rune_error, 1%nat)
  | _ => (rune_error, 1%nat)
  end.

Definition decode4 (b0 : Z) (s : string) : Z * nat :=
  match s with
  | String c1 (String c2 (String c3 _)) =>
      if second4_ok b0 (code c1) && is_cont (code c2) && is_cont (code c3)
      then ((b0 - 240) * 262144 + (code c1 - 128) * 4096
            + (code c2 - 128) * 64 + (code c3 - 128), 4%nat)
      else (rune_error, 1%nat)
  | _ => (rune_error, 1%nat)
  end.

(** [utf8.DecodeRuneInString]: the rune at the head and its width; an invalid
    head is [rune_error] of width 1. *)
Definition decode_rune (s : string) : Z * nat :=
  match s with
  | EmptyString => (rune_error, 0%nat)
  | String c0 s0 =>
      let b0 := code c0 in
      if b0 <? 128 then (b0, 1%nat)
      else if b0 <? 194 then (rune_error, 1%nat)
      else if b0 <? 224 then decode2 b0 s0
      else if b0 <? 240 then decode3 b0 s0
      else if b0 <? 245 then decode4 b0 s0
      else (rune_error, 1%nat)
  end.

Definition is_surrogate (r : Z) : bool := (55296 <=? r) && (r <=? 57343).
Definition valid_rune (r : Z) : bool :=
  (0 <=? r) && (r <=? 1114111) && negb (is_surrogate r).

(** The bytes of one rune: lead byte and continuation bytes. *)
Definition bytes1 (z : Z) : string := String (chr z) "".
Definition encode_valid (r : Z) : string :=
  if r <? 128 then bytes1 r
  else if r <? 2048 then
    String (chr (192 + r / 64)) (bytes1 (128 + r mod 64))
  else if r <? 65536 then
    String (chr (224 + r / 4096))
      (String (chr (128 + r / 64 mod 64)) (bytes1 (128 + r mod 64)))
  else
    String (chr (240 + r / 262144))
      (String (chr (128 + r / 4096 mod 64))
         (String (chr (128 + r / 64 mod 64)) (bytes1 (128 + r mod 64)))).

(** [utf8.AppendRune]: invalid runes are encoded as U+FFFD. *)
Definition encode_rune (r : Z) : string :=
  encode_valid (if valid_rune r then r else rune_error).

(** ** Decoding inverts encoding *)

Ltac zbool :=
  repeat match goal with
  | |- context [?a <? ?b] => destruct (Z.ltb_spec a b); try lia
  | |- context [?a <=? ?b] => destruct (Z.leb_spec a b); try lia
  | |- context [?a =? ?b] => destruct (Z.eqb_spec a b); try lia
  end.

Lemma valid_rune_true r :
  valid_rune r = true ↔ 0 ≤ r ≤ 1114111 ∧ ¬ (55296 ≤ r ≤ 57343).
Proof.
  unfold valid_rune, is_surrogate.
  rewrite !andb_true_iff, negb_true_iff, andb_false_iff, !Z.leb_le, !Z.leb_gt.
  lia.
Qed.

Lemma is_cont_mod r : is_cont (128 + r mod 64) = true.
Proof.
  pose proof (Z.mod_pos_bound r 64). unfold is_cont. zbool; done.
Qed.

Lemma code_chr_cont r : code (chr (128 + r mod 64)) = 128 + r mod 64.
Proof. pose proof (Z.mod_pos_bound r 64). apply code_chr. lia. Qed.

Lemma decode_encode2 r s :
  128 ≤ r < 2048 → decode_rune (encode_valid r +:+ s) = (r, 2%nat).
Proof.
  intros Hr. unfold encode_valid. zbool. unfold bytes1.
  rewrite !sapp_cons, sapp_nil_l. unfold decode_rune, decode2.
  assert (2 ≤ r / 64 < 32) by (split; [apply Z.div_le_lower_bound | apply Z.div_lt_upper_bound]; lia).
  rewrite (code_chr (192 + r / 64)) by lia. zbool.
  rewrite code_chr_cont, is_cont_mod. f_equal.
  rewrite (Z.div_mod r 64) at 3 by lia. lia.
Qed.

Lemma decode_encode3 r s :
  2048 ≤ r < 65536 → ¬ (55296 ≤ r ≤ 57343) →
  decode_rune (encode_valid r +:+ s) = (r, 3%nat).
Proof.
  intros Hr Hs. unfold encode_valid. zbool. unfold bytes1.
  rewrite !sapp_cons, sapp_nil_l. unfold decode_rune, decode3.
  assert (Hd : r / 4096 = r / 64 / 64) by (rewrite Z.div_div; [done | lia | lia]).
  pose proof (Z.div_mod r 64 ltac:(lia)). pose proof (Z.mod_pos_bound r 64 ltac:(lia)).
  pose proof (Z.div_mod (r / 64) 64 ltac:(lia)).
  pose proof (Z.mod_pos_bound (r / 64) 64 ltac:(lia)).
  rewrite (code_chr (224 + r / 4096)) by lia. zbool.
  rewrite !code_chr_cont, is_cont_mod, andb_true_r. unfold second3_ok. zbool; simpl;
  f_equal; lia.
Qed.

Lemma decode_encode4 r s :
  65536 ≤ r ≤ 1114111 → decode_rune (encode_valid r +:+ s) = (r, 4%nat).
Proof.
  intros Hr. unfold encode_valid. zbool. unfold bytes1.
  rewrite !sapp_cons, sapp_nil_l. unfold decode_rune, decode4.
  assert (Hd : r / 262144 = r / 64 / 64 / 64) by (rewrite !Z.div_div; [done | lia..]).
  assert (He : r / 4096 = r / 64 / 64) by (rewrite Z.div_div; [done | lia | lia]).
  pose proof (Z.div_mod r 64 ltac:(lia)). pose proof (Z.mod_pos_bound r 64 ltac:(lia)).
  pose proof (Z.div_mod (r / 64) 64 ltac:(lia)).
  pose proof (Z.mod_pos_bound (r / 64) 64 ltac:(lia)).
  pose proof (Z.div_mod (r / 64 / 64) 64 ltac:(lia)).
  pose proof (Z.mod_pos_bound (r / 64 / 64) 64 ltac:(lia)).
  rewrite (code_chr (240 + r / 262144)) by lia. zbool.
  rewrite !code_chr_cont, !is_cont_mod, !andb_true_r. unfold second4_ok.
  rewrite He. zbool; simpl; f_equal; lia.
Qed.

Lemma decode_encode_valid r s :
  valid_rune r = true →
  decode_rune (encode_valid r +:+ s) = (r, slen (encode_valid r)).
Proof.
  intros Hv. apply valid_rune_true in Hv.
  destruct (Z.ltb_spec r 128).
  { unfold encode_valid. zbool. unfold bytes1. rewrite sapp_cons, sapp_nil_l.
    simpl. rewrite code_chr by lia. zbool. done. }
  destruct (Z.ltb_spec r 2048).
  { rewrite decode_encode2 by lia. unfold encode_valid. by zbool. }
  destruct (Z.ltb_spec r 65536).
  { rewrite decode_encode3 by lia. unfold encode_valid. by zbool. }
  rewrite decode_encode4 by lia. unfold encode_valid. by zbool.
Qed.

(** ** The [range] loop over a string *)

(** The segmentation of a string into (rune, bytes of the rune). [skip]
    counts the bytes of the current rune that are still to be passed over. *)
Fixpoint segs_from (skip : nat) (s : string) : list (Z * string) :=
  match s with
  | EmptyString => []
  | String _ s' =>
      match skip with
      | S k => segs_from k s'
      | O => let '(r, n) := decode_rune s in
             (r, stake n s) :: segs_from (n - 1) s'
      end
  end.
Definition segs (s : string) : list (Z * string) := segs_from 0 s.
Definition runes (s : string) : list Z := (segs s).*1.

Lemma decode_rune_width s : s ≠ "" →
  (1 ≤ (decode_rune s).2)%nat ∧ ((decode_rune s).2 ≤ slen s)%nat.
Proof.
  destruct s as [|c0 s0]; [done|]. intros _.
  unfold decode_rune, decode2, decode3, decode4.
  repeat case_match; simpl; lia.
Qed.

Lemma segs_from_skip k s : segs_from k s = segs (sdrop k s).
Proof.
  unfold segs. revert s; induction k as [|k IH]; intros [|c s]; simpl; auto.
Qed.

Lemma segs_cons s : s ≠ "" →
  segs s = ((decode_rune s).1, stake (decode_rune s).2 s)
             :: segs (sdrop (decode_rune s).2 s).
Proof.
  intros Hs. pose proof (decode_rune_width s Hs) as [Hw _].
  destruct s as [|c s]; [done|]. unfold segs at 1. cbn [segs_from].
  destruct (decode_rune (String c s)) as [r n]. cbn [fst snd] in *.
  f_equal. rewrite segs_from_skip. destruct n as [|n]; [lia|].
  simpl. by replace (n - 0)%nat with n by lia.
Qed.

(** Strings can be read rune by rune. *)
Lemma rune_ind (P : string → Prop) :
  P "" → (∀ s, s ≠ "" → P (sdrop (decode_rune s).2 s) → P s) → ∀ s, P s.
Proof.
  intros H0 Hs s. remember (slen s) as n eqn:Hn.
  revert s Hn. induction n as [n IH] using lt_wf_ind. intros s ->.
  destruct (decide (s = "")) as [->|Hne]; [done|].
  apply Hs; [done|]. eapply IH; [|reflexivity].
  rewrite slen_sdrop. pose proof (decode_rune_width s Hne). lia.
Qed.

Definition sconcat (l : list string) : string := foldr String.append "" l.

Lemma sconcat_cons x l : sconcat (x :: l) = x +:+ sconcat l.
Proof. done. Qed.

(** The segments of a string are exactly the string. *)
Lemma sconcat_segs s : sconcat (segs s).*2 = s.
Proof.
  induction s as [|s Hs IH] using rune_ind; [done|].
  rewrite segs_cons by done. rewrite fmap_cons, sconcat_cons, IH. apply stake_sdrop.
Qed.

(** ASCII strings have one rune per byte. *)
Definition is_ascii (c : ascii) : bool := code c <? 128.

Lemma segs_ascii c s : is_ascii c = true → segs (String c s) = (code c, String c "") :: segs s.
Proof.
  intros Hc. rewrite segs_cons by done. unfold is_ascii in Hc.
  cbn [decode_rune]. rewrite Hc. cbn [fst snd sdrop stake]. done.
Qed.

Lemma segs_encode r s : valid_rune r = true →
  segs (encode_valid r +:+ s) = (r, encode_valid r) :: segs s.
Proof.
  intros Hr. rewrite segs_cons.
  - rewrite decode_encode_valid by done. cbn [fst snd].
    by rewrite stake_app, sdrop_app.
  - unfold encode_valid. by repeat case_match.
Qed.

(** [utf8.ValidString]: no segment is a decoding error of width 1. *)
Definition seg_valid (p : Z * string) : bool :=
  negb ((p.1 =? rune_error) && (slen p.2 =? 1)%nat).
Definition valid_utf8 (s : string) : bool := forallb seg_valid (segs s).

Ltac cont_facts :=
  unfold second3_ok, second4_ok, is_cont in *; split_bools;
  repeat case_match;
  repeat match goal with
  | H : (_ <=? _) = true |- _ => apply Z.leb_le in H
  | H : (_ =? _) = true |- _ => apply Z.eqb_eq in H
  | H : (_ =? _) = false |- _ => apply Z.eqb_neq in H
  end.

(** Recovers a byte from the digit of the code point it contributes. *)
Ltac byte_eq :=
  match goal with
  | |- String _ _ = String _ _ => f_equal; [|byte_eq]
  | |- ?c = chr _ => rewrite <-(chr_code c) at 1; f_equal; lia
  | |- EmptyString = EmptyString => reflexivity
  end.

Lemma decode2_canonical b0 c1 s r n :
  194 ≤ b0 < 224 → decode2 b0 (String c1 s) = (r, n) →
  (r = rune_error ∧ n = 1%nat) ∨
  (n = 2%nat ∧ 128 ≤ r < 2048 ∧ b0 = 192 + r / 64 ∧ c1 = chr (128 + r mod 64)).
Proof.
  intros Hb. unfold decode2. destruct (is_cont (code c1)) eqn:Hc; intros [= <- <-]; [right|by left].
  assert (128 ≤ code c1 ≤ 191) by (cont_facts; lia).
  set (r := (b0 - 192) * 64 + (code c1 - 128)).
  assert (Hd : b0 - 192 = r / 64) by (eapply Z.div_unique with (r := code c1 - 128); unfold r; lia).
  assert (Hm : code c1 - 128 = r mod 64) by (eapply Z.mod_unique with (q := b0 - 192); unfold r; lia).
  rewrite <-Hd, <-Hm. repeat split; try lia. byte_eq.
Qed.

Lemma decode3_canonical b0 c1 c2 s r n :
  224 ≤ b0 < 240 → decode3 b0 (String c1 (String c2 s)) = (r, n) →
  (r = rune_error ∧ n = 1%nat) ∨
  (n = 3%nat ∧ 2048 ≤ r < 65536 ∧ ¬ (55296 ≤ r ≤ 57343) ∧ b0 = 224 + r / 4096
   ∧ c1 = chr (128 + r / 64 mod 64) ∧ c2 = chr (128 + r mod 64)).
Proof.
  intros Hb. unfold decode3.
  destruct (second3_ok _ _ && is_cont _) eqn:Hc; intros [= <- <-]; [right|by left].
  assert (128 ≤ code c1 ≤ 191 ∧ 128 ≤ code c2 ≤ 191 ∧ (b0 = 224 → 160 ≤ code c1)
      ∧ (b0 = 237 → code c1 ≤ 159)) as (Hx & Hy & Hz & Hw) by (cont_facts; lia).
  set (r := (b0 - 224) * 4096 + (code c1 - 128) * 64 + (code c2 - 128)).
  assert (Hd : b0 - 224 = r / 4096)
    by (eapply Z.div_unique with (r := (code c1 - 128) * 64 + (code c2 - 128)); unfold r; lia).
  assert (He : (b0 - 224) * 64 + (code c1 - 128) = r / 64)
    by (eapply Z.div_unique with (r := code c2 - 128); unfold r; lia).
  assert (Hm : code c2 - 128 = r mod 64)
    by (eapply Z.mod_unique with (q := (b0 - 224) * 64 + (code c1 - 128)); unfold r; lia).
  assert (Hn : code c1 - 128 = (r / 64) mod 64)
    by (rewrite <-He; eapply Z.mod_unique with (q := b0 - 224); lia).
  rewrite <-Hd, <-Hn, <-Hm. repeat split; try lia; byte_eq.
Qed.

Lemma decode4_canonical b0 c1 c2 c3 s r n :
  240 ≤ b0 < 245 → decode4 b0 (String c1 (String c2 (String c3 s))) = (r, n) →
  (r = rune_error ∧ n = 1%nat) ∨
  (n = 4%nat ∧ 65536 ≤ r ≤ 1114111 ∧ b0 = 240 + r / 262144
   ∧ c1 = chr (128 + r / 4096 mod 64) ∧ c2 = chr (128 + r / 64 mod 64)
   ∧ c3 = chr (128 + r mod 64)).
Proof.
  intros Hb. unfold decode4.
  destruct (second4_ok _ _ && is_cont _ && is_cont _) eqn:Hc; intros [= <- <-]; [right|by left].
  assert (128 ≤ code c1 ≤ 191 ∧ 128 ≤ code c2 ≤ 191 ∧ 128 ≤ code c3 ≤ 191
      ∧ (b0 = 240 → 144 ≤ code c1) ∧ (b0 = 244 → code c1 ≤ 143))
    as (Hx & Hy & Hy2 & Hz & Hw) by (cont_facts; lia).
  set (a := b0 - 240). set (b := code c1 - 128). set (c := code c2 - 128). set (d := code c3 - 128).
  set (r := a * 262144 + b * 4096 + c * 64 + d).
  assert (Hd : a = r / 262144) by (eapply Z.div_unique with (r := b * 4096 + c * 64 + d); unfold r; lia).
  assert (He : a * 64 + b = r / 4096) by (eapply Z.div_unique with (r := c * 64 + d); unfold r; lia).
  assert (Hf : (a * 64 + b) * 64 + c = r / 64) by (eapply Z.div_unique with (r := d); unfold r; lia).
  assert (Hm : d = r mod 64) by (eapply Z.mod_unique with (q := (a * 64 + b) * 64 + c); unfold r; lia).
  assert (Hn : c = (r / 64) mod 64) by (rewrite <-Hf; eapply Z.mod_unique with (q := a * 64 + b); lia).
  assert (Ho : b = (r / 4096) mod 64) by (rewrite <-He; eapply Z.mod_unique with (q := a); lia).
  rewrite <-Hd, <-Ho, <-Hn, <-Hm. unfold a, b, c, d in *. repeat split; try lia; byte_eq.
Qed.

(** A valid segment is the encoding of its rune. *)
Lemma decode_rune_canonical s r n :
  s ≠ "" → decode_rune s = (r, n) → seg_valid (r, stake n s) = true →
  valid_rune r = true ∧ stake n s = encode_valid r.
Proof.
  destruct s as [|c0 s0]; [done|]. intros _. unfold decode_rune.
  pose proof (code_range c0).
  destruct (Z.ltb_spec (code c0) 128) as [H1|H1].
  { intros [= <- <-] _. split; [apply valid_rune_true; lia|].
    unfold encode_valid. zbool. simpl. unfold bytes1. by rewrite chr_code. }
  destruct (Z.ltb_spec (code c0) 194) as [H2|H2]; [by intros [= <- <-]|].
  destruct (Z.ltb_spec (code c0) 224) as [H3|H3].
  { destruct s0 as [|c1 s1]; [by intros [= <- <-]|].
    intros [[-> ->]|(-> & Hr & Hb & ->)]%decode2_canonical; [done| |lia]. intros _.
    split; [apply valid_rune_true; lia|]. unfold encode_valid. zbool. simpl. by rewrite <-Hb, chr_code. }
  destruct (Z.ltb_spec (code c0) 240) as [H4|H4].
  { destruct s0 as [|c1 [|c2 s2]]; [by intros [= <- <-]..|].
    intros [[-> ->]|(-> & Hr & Hs & Hb & -> & ->)]%decode3_canonical; [done| |lia]. intros _.
    split; [apply valid_rune_true; lia|]. unfold encode_valid. zbool. simpl. by rewrite <-Hb, chr_code. }
  destruct (Z.ltb_spec (code c0) 245) as [H5|H5]; [|by intros [= <- <-]].
  destruct s0 as [|c1 [|c2 [|c3 s3]]]; [by intros [= <- <-]..|].
  intros [[-> ->]|(-> & Hr & Hb & -> & -> & ->)]%decode4_canonical; [done| |lia]. intros _.
  split; [apply valid_rune_true; lia|]. unfold encode_valid. zbool. simpl. by rewrite <-Hb, chr_code.
Qed.

(** ** Classification and trimming *)

Definition in_range (lo hi r : Z) : bool := (lo <=? r) && (r <=? hi).

(** [unicode.IsSpace]: the White_Space property. *)
Definition is_space_rune (r : Z) : bool :=
  in_range 9 13 r || (r =? 32) || (r =? 133) || (r =? 160) || (r =? 5760)
  || in_range 8192 8202 r || in_range 8232 8233 r || (r =? 8239)
  || (r =? 8287) || (r =? 12288).

(** [unicode.IsControl]: category Cc. *)
Definition is_control (r : Z) : bool := in_range 0 31 r || in_range 127 159 r.

Fixpoint drop_while {A} (p : A → bool) (l : list A) : list A :=
  match l with
  | [] => []
  | x :: l' => if p x then drop_while p l' else l
  end.

(** [strings.TrimSpace] and [bytes.TrimSpace]. Encoded runes are
    self-synchronising, so trimming from the right follows the same
    segmentation as trimming from the left. *)
Definition trim_space (s : string) : string :=
  let p := λ x : Z * string, is_space_rune x.1 in
  sconcat (rev (drop_while p (rev (drop_while p (segs s))))).*2.

(** [strings.ToLower], exact on every rune whose lower case is ASCII: the ASCII
    letters, U+0130 and U+212A. The lower case of any other rune is not ASCII,
    and the callers compare the result with ASCII words only. *)
Definition lower_rune (r : Z) (bytes : string) : string :=
  if in_range 65 90 r then bytes1 (r + 32)
  else if r =? 304 then bytes1 105
  else if r =? 8490 then bytes1 107
  else bytes.
Definition to_lower (s : string) : string :=
  sconcat (map (λ x, lower_rune x.1 x.2) (segs s)).

Lemma drop_while_nil {A} (p : A → bool) l : drop_while p l = [] ↔ forallb p l = true.
Proof.
  induction l as [|x l IH]; simpl; [done|]. destruct (p x); simpl; [done|].
  split; discriminate.
Qed.

Lemma drop_while_head {A} (p : A → bool) l x l' : drop_while p l = x :: l' → p x = false.
Proof.
  induction l as [|y l IH]; simpl; [done|]. destruct (p y) eqn:Hy; [done|]. by intros [= <- <-].
Qed.

Lemma segs_nonempty s x : x ∈ segs s → x.2 ≠ "".
Proof.
  induction s as [|s Hs IH] using rune_ind; [by intros ?%elem_of_nil|].
  rewrite segs_cons by done. intros [->|Hx]%elem_of_cons; [|by apply IH].
  pose proof (decode_rune_width s Hs). simpl.
  destruct s; [done|]. destruct (decode_rune _).2; [simpl in *; lia|]. done.
Qed.

Lemma drop_while_elem {A} (p : A → bool) l x : x ∈ drop_while p l → x ∈ l.
Proof.
  induction l as [|y l IH]; simpl; [done|]. destruct (p y); [|done]. set_solver.
Qed.

Lemma drop_while_snoc {A} (p : A → bool) l x :
  p x = false → ∃ l', drop_while p (l ++ [x]) = l' ++ [x].
Proof.
  intros Hx. induction l as [|y l IH]; simpl.
  - rewrite Hx. by exists [].
  - destruct (p y); [done|]. by exists (y :: l).
Qed.

(** [strings.TrimSpace(s) == ""] holds exactly when every rune is a space. *)
Lemma trim_space_empty s :
  trim_space s = "" ↔ forallb is_space_rune (runes s) = true.
Proof.
  unfold trim_space, runes. set (p := λ x : Z * string, is_space_rune x.1).
  assert (Hf : forallb is_space_rune (segs s).*1 = forallb p (segs s)).
  { induction (segs s) as [|x l IH]; [done|]. rewrite fmap_cons. cbn [forallb].
    by rewrite IH. }
  rewrite Hf, <-drop_while_nil. split; [|by intros ->].
  destruct (drop_while p (segs s)) as [|x l] eqn:Hd; [done|]. intros He. exfalso.
  destruct (drop_while_snoc p (rev l) x) as [l' Hl']; [by eapply drop_while_head|].
  simpl in He. rewrite Hl', rev_app_distr in He. simpl in He.
  apply (segs_nonempty s x); [|by destruct x.2].
  apply (drop_while_elem p). rewrite Hd. set_solver.
Qed.

(** An ASCII byte never belongs to the encoding before it. *)
Lemma decode_rune_app s c t : s ≠ "" → is_ascii c = true →
  decode_rune (s +:+ String c t) = decode_rune s.
Proof.
  intros Hs Hc. unfold is_ascii in Hc. apply Z.ltb_lt in Hc.
  assert (Hcont : is_cont (code c) = false).
  { unfold is_cont. by replace (128 <=? code c) with false by (symmetry; apply Z.leb_gt; lia). }
  assert (H3 : ∀ b, second3_ok b (code c) = false).
  { intros b. unfold second3_ok. destruct (b =? 224); apply andb_false_iff; left; apply Z.leb_gt; lia. }
  assert (H4 : ∀ b, second4_ok b (code c) = false).
  { intros b. unfold second4_ok. destruct (b =? 240); apply andb_false_iff; left; apply Z.leb_gt; lia. }
  destruct s as [|a [|b [|d [|e s]]]]; [done|..]; rewrite ?sapp_cons, ?sapp_nil_l;
    unfold decode_rune, decode2, decode3, decode4;
    repeat first [rewrite Hcont | rewrite H3 | rewrite H4 | rewrite andb_false_r | rewrite andb_false_l];
    repeat case_match; done.
Qed.

Lemma segs_snoc s c : is_ascii c = true → segs (s +:+ String c "") = segs s ++ [(code c, String c "")].
Proof.
  intros Hc. induction s as [|s Hs IH] using rune_ind; [by rewrite sapp_nil_l, segs_ascii|].
  pose proof (decode_rune_width s Hs) as [_ Hw].
  rewrite segs_cons by (by destruct s). rewrite decode_rune_app by done.
  rewrite (segs_cons s) by done. simpl. rewrite <-IH. clear IH.
  assert (∀ n a b, (n ≤ slen a)%nat → stake n (a +:+ b) = stake n a ∧ sdrop n (a +:+ b) = sdrop n a +:+ b) as Hn.
  { clear. intros n a b. revert n. induction a as [|x a IH]; intros [|n] Hn; try done; cbn in Hn; [lia|].
    rewrite sapp_cons. cbn. destruct (IH n ltac:(lia)) as [-> ->]. done. }
  by destruct (Hn _ s (String c "") Hw) as [-> ->].
Qed.

(** A text between two ASCII bytes that are not spaces is already trimmed. *)
Lemma trim_space_id c s d :
  is_ascii c = true → is_ascii d = true →
  is_space_rune (code c) = false → is_space_rune (code d) = false →
  trim_space (String c (s +:+ String d "")) = String c (s +:+ String d "").
Proof.
  intros Hc Hd Hcs Hds. set (t := String c (s +:+ String d "")).
  assert (∃ l, segs t = (code c, String c "") :: l ++ [(code d, String d "")]) as [l Hl].
  { exists (segs s). unfold t. by rewrite segs_ascii, segs_snoc. }
  pose proof (sconcat_segs t) as Hs. unfold trim_space. rewrite Hl in Hs |- *.
  cbn [drop_while fst]. rewrite Hcs. cbn [rev]. rewrite rev_app_distr.
  cbn [rev app drop_while fst]. rewrite Hds.
  replace (rev _) with ((code c, String c "") :: l ++ [(code d, String d "")]); [done|].
  cbn [rev]. rewrite rev_app_distr, rev_involutive. done.
Qed.

Example trim_ascii : trim_space " 	a b  " = "a b".
Proof. reflexivity. Qed.
Example lower_admin : to_lower "AdMin" = "admin".
Proof. reflexivity. Qed.
