(* ===== verification/Json.v ===== *)
(** * Json: the part of [encoding/json] the daemon relies on

    Scanner and parser over bytes ([parse_value], with the nesting bound of the
    Go scanner), string unquoting and quoting, compaction of raw messages, and
    the generic struct decoder: case-insensitive field lookup, unknown-field
    rejection, errors saved while decoding goes on. *)
From S2P Require Import Prelude Utf8.
Open Scope Z_scope.

(** ** Syntax *)

(** A decoded value. An object member carries its key, the exact bytes of its
    value (what a [json.RawMessage] field receives) and the value. *)
Inductive json : Type :=
| JNull
| JBool (b : bool)
| JNum (lit : string)
| JStr (s : string)
| JArr (l : list json)
| JObj (l : list (string * (string * json))).

Definition member : Type := string * (string * json).
Definition mkey (m : member) : string := m.1.
Definition mraw (m : member) : string := m.2.1.
Definition mval (m : member) : json := m.2.2.

Lemma json_ind' (P : json → Prop) :
  P JNull → (∀ b, P (JBool b)) → (∀ l, P (JNum l)) → (∀ s, P (JStr s)) →
  (∀ l, Forall P l → P (JArr l)) →
  (∀ l, Forall (λ m, P (mval m)) l → P (JObj l)) →
  ∀ v, P v.
Proof.
  intros H1 H2 H3 H4 H5 H6. fix IH 1. intros [| b | l | s | l | l].
  - exact H1.
  - exact (H2 b).
  - exact (H3 l).
  - exact (H4 s).
  - apply H5. induction l as [|x l IHl]; constructor; [apply IH | exact IHl].
  - apply H6. induction l as [|[k [r v]] l IHl]; constructor; [apply IH | exact IHl].
Qed.

Definition is_space (c : ascii) : bool :=
  let z := code c in (z =? 32) || (z =? 9) || (z =? 13) || (z =? 10).

Fixpoint skip_ws (s : string) : string :=
  match s with
  | String c s' => if is_space c then skip_ws s' else s
  | EmptyString => EmptyString
  end.

Definition is_digit (c : ascii) : bool := in_range 48 57 (code c).
Definition is_hex (c : ascii) : bool :=
  is_digit c || in_range 97 102 (code c) || in_range 65 70 (code c).
Definition hex_val (c : ascii) : Z :=
  let z := code c in
  if in_range 48 57 z then z - 48
  else if in_range 97 102 z then z - 87 else z - 55.

(** ** Scanning strings *)

(** The characters that may follow a backslash, [u] apart. *)
Definition simple_esc (e : ascii) : bool :=
  (e =a dquote) || (e =a bslash) || (e =a "/")%char || (e =a "b")%char
  || (e =a "f")%char || (e =a "n")%char || (e =a "r")%char || (e =a "t")%char.

Definition prepend (p : string) (r : option (string * string)) : option (string * string) :=
  match r with Some (a, rest) => Some (p +:+ a, rest) | None => None end.

(** After the opening quote: the undecoded contents and what follows the
    closing quote. *)
Fixpoint scan_string (s : string) : option (string * string) :=
  match s with
  | EmptyString => None
  | String c s1 =>
      if c =a dquote then Some ("", s1)
      else if c =a bslash then
        match s1 with
        | String e s2 =>
            if simple_esc e then prepend (String c (String e "")) (scan_string s2)
            else if (e =a "u")%char then
              match s2 with
              | String h1 (String h2 (String h3 (String h4 s3))) =>
                  if is_hex h1 && is_hex h2 && is_hex h3 && is_hex h4
                  then prepend (stake 6 s) (scan_string s3)
                  else None
              | _ => None
              end
            else None
        | EmptyString => None
        end
      else if code c <? 32 then None
      else prepend (String c "") (scan_string s1)
  end.

(** ** Unquoting *)

Definition hex4 (s : string) : option Z :=
  match s with
  | String h1 (String h2 (String h3 (String h4 _))) =>
      if is_hex h1 && is_hex h2 && is_hex h3 && is_hex h4
      then Some (((hex_val h1 * 16 + hex_val h2) * 16 + hex_val h3) * 16 + hex_val h4)
      else None
  | _ => None
  end.

(** [getu4]: the value of a [\uXXXX] escape at the head. *)
Definition getu4 (s : string) : option Z :=
  match s with
  | String b (String u s') =>
      if (b =a bslash) && (u =a "u")%char then hex4 s' else None
  | _ => None
  end.

(** [utf16.DecodeRune] of a surrogate pair. *)
Definition utf16_pair (r1 r2 : Z) : option Z :=
  if in_range 55296 56319 r1 && in_range 56320 57343 r2
  then Some ((r1 - 55296) * 1024 + (r2 - 56320) + 65536) else None.

Definition unquote_u (s : string) : string * nat :=
  match getu4 s with
  | None => ("", 1%nat)
  | Some r =>
      if is_surrogate r then
        match getu4 (sdrop 6 s) ≫= utf16_pair r with
        | Some d => (encode_rune d, 12%nat)
        | None => (encode_rune rune_error, 6%nat)
        end
      else (encode_rune r, 6%nat)
  end.

Definition unescape (e : ascii) : ascii :=
  if (e =a "b")%char then chr 8 else if (e =a "f")%char then chr 12
  else if (e =a "n")%char then chr 10 else if (e =a "r")%char then chr 13
  else if (e =a "t")%char then chr 9 else e.

(** What one step of [unquote] writes, and how many bytes it reads. *)
Definition unquote_head (s : string) : string * nat :=
  match s with
  | EmptyString => ("", 0%nat)
  | String c s1 =>
      if c =a bslash then
        match s1 with
        | String e _ => if (e =a "u")%char then unquote_u s
                        else (if simple_esc e then String (unescape e) "" else "", 2%nat)
        | EmptyString => ("", 1%nat)
        end
      else let '(r, n) := decode_rune s in (encode_rune r, n)
  end.

Fixpoint unquote_from (skip : nat) (s : string) : string :=
  match s with
  | EmptyString => ""
  | String _ s' =>
      match skip with
      | S k => unquote_from k s'
      | O => let '(out, n) := unquote_head s in out +:+ unquote_from (n - 1) s'
      end
  end.
Definition unquote (s : string) : string := unquote_from 0 s.

(** ** Scanning numbers *)

Fixpoint span_digits (s : string) : string * string :=
  match s with
  | String c s' =>
      if is_digit c then let '(d, r) := span_digits s' in (String c d, r) else ("", s)
  | EmptyString => ("", "")
  end.

Definition scan_int (s : string) : option (string * string) :=
  match s with
  | String c s' =>
      if (c =a "0")%char then Some ("0", s')
      else if is_digit c then Some (span_digits s) else None
  | EmptyString => None
  end.

Definition digits1 (s : string) : option (string * string) :=
  match span_digits s with
  | ("", _) => None
  | (d, r) => Some (d, r)
  end.

Definition scan_frac (s : string) : option (string * string) :=
  match s with
  | String c s' => if (c =a ".")%char then prepend "." (digits1 s') else Some ("", s)
  | EmptyString => Some ("", "")
  end.

Definition scan_exp (s : string) : option (string * string) :=
  match s with
  | String c s' =>
      if (c =a "e")%char || (c =a "E")%char then
        match s' with
        | String g s2 =>
            if (g =a "+")%char || (g =a "-")%char
            then prepend (String c (String g "")) (digits1 s2)
            else prepend (String c "") (digits1 s')
        | EmptyString => None
        end
      else Some ("", s)
  | EmptyString => Some ("", "")
  end.

Definition scan_number (s : string) : option (string * string) :=
  let '(sign, s0) := match s with
    | String c s' => if (c =a "-")%char then ("-", s') else ("", s)
    | EmptyString => ("", s) end in
  '(i, s1) ← scan_int s0;
  '(f, s2) ← scan_frac s1;
  '(e, s3) ← scan_exp s2;
  Some (sign +:+ i +:+ f +:+ e, s3).

(** ** Range of numbers: [strconv.ParseFloat(lit, 64)] fails on overflow *)

Definition digits_value (acc : Z) (s : string) : Z :=
  foldl (λ a c, a * 10 + (code c - 48)) acc (String.list_ascii_of_string s).

(** The exponent loop of [strconv] stops accumulating at 10000. *)
Definition exp_value (s : string) : Z :=
  foldl (λ a c, if a <? 10000 then a * 10 + (code c - 48) else a) 0
    (String.list_ascii_of_string s).

Definition strip_sign (s : string) : bool * string :=
  match s with
  | String c s' => if (c =a "-")%char then (true, s')
                   else if (c =a "+")%char then (false, s') else (false, s)
  | EmptyString => (false, s)
  end.

(** Mantissa and decimal exponent of a scanned literal. *)
Definition number_parts (lit : string) : Z * Z :=
  let '(_, s0) := strip_sign lit in
  let '(i, s1) := span_digits s0 in
  let '(f, s2) := match s1 with
    | String c s' => if (c =a ".")%char then span_digits s' else ("", s1)
    | EmptyString => ("", s1) end in
  let e := match s2 with
    | String _ s' => let '(neg, ds) := strip_sign s' in
                     if neg then - exp_value ds else exp_value ds
    | EmptyString => 0 end in
  (digits_value (digits_value 0 i) f, e - Z.of_nat (slen f)).

(** The least magnitude that rounds to infinity: half way between the largest
    finite double and 2^1024. *)
Definition float64_limit : Z := 2 ^ 1024 - 2 ^ 970.

Definition number_overflows (lit : string) : bool :=
  let '(m, e) := number_parts lit in
  if m =? 0 then false
  else if 0 <=? e then (310 <=? e) || (float64_limit <=? m * 10 ^ e)
  else float64_limit * 10 ^ (- e) <=? m.

(** ** Values *)

Definition literal (lit : string) (v : json) (s : string) : option (json * string) :=
  if streq (stake (slen lit) s) lit then Some (v, sdrop (slen lit) s) else None.

(** A value that is neither an object nor an array, at its first byte. *)
Definition scan_scalar (s : string) : option (json * string) :=
  match s with
  | EmptyString => None
  | String c s1 =>
      if c =a dquote then
        '(raw, rest) ← scan_string s1; Some (JStr (unquote raw), rest)
      else if (c =a "t")%char then literal "true" (JBool true) s
      else if (c =a "f")%char then literal "false" (JBool false) s
      else if (c =a "n")%char then literal "null" JNull s
      else '(lit, rest) ← scan_number s; Some (JNum lit, rest)
  end.

Definition parser : Type := string → option (json * string).

Definition expect (d : ascii) (s : string) : option string :=
  match skip_ws s with
  | String c s1 => if c =a d then Some s1 else None
  | EmptyString => None
  end.

(** Where the next element starts: after a comma, except for the first. *)
Definition next_item (first : bool) (s : string) : option string :=
  if first then Some s else expect "," s.

Fixpoint parse_elems (pv : parser) (fuel : nat) (first : bool) (s : string)
  : option (list json * string) :=
  match fuel with
  | O => None
  | S f =>
      match expect "]" s with
      | Some rest => Some ([], rest)
      | None =>
          s1 ← next_item first s;
          '(v, s2) ← pv s1;
          '(vs, s3) ← parse_elems pv f false s2;
          Some (v :: vs, s3)
      end
  end.

(** The bytes of [s] that precede the suffix [rest]. *)
Definition consumed (s rest : string) : string := stake (slen s - slen rest) s.

Definition parse_member (pv : parser) (s : string) : option (member * string) :=
  s1 ← expect dquote s;
  '(k, s2) ← scan_string s1;
  s3 ← expect ":" s2;
  '(v, s4) ← pv s3;
  Some ((unquote k, (consumed (skip_ws s3) s4, v)), s4).

Fixpoint parse_members (pv : parser) (fuel : nat) (first : bool) (s : string)
  : option (list member * string) :=
  match fuel with
  | O => None
  | S f =>
      match expect "}" s with
      | Some rest => Some ([], rest)
      | None =>
          s1 ← next_item first s;
          '(m, s2) ← parse_member pv s1;
          '(ms, s3) ← parse_members pv f false s2;
          Some (m :: ms, s3)
      end
  end.

(** A value after optional white space, at most [depth] containers deep. *)
Fixpoint parse_value (depth : nat) (s : string) : option (json * string) :=
  match skip_ws s with
  | EmptyString => None
  | String c s1 =>
      if (c =a "{")%char then
        match depth with
        | O => None
        | S d => '(ms, rest) ← parse_members (parse_value d) (S (slen s1)) true s1;
                 Some (JObj ms, rest)
        end
      else if (c =a "[")%char then
        match depth with
        | O => None
        | S d => '(vs, rest) ← parse_elems (parse_value d) (S (slen s1)) true s1;
                 Some (JArr vs, rest)
        end
      else scan_scalar (String c s1)
  end.

(** The scanner's [maxNestingDepth]. *)
Definition max_depth : nat := Z.to_nat 10000.

Definition at_end (s : string) : bool := streq (skip_ws s) "".

(** [json.Unmarshal]'s [checkValid] followed by the parse: one value and
    nothing but white space after it. *)
Definition parse_document (s : string) : option json :=
  '(v, rest) ← parse_value max_depth s;
  if at_end rest then Some v else None.

(** ** Struct decoding *)

(** [foldName] on the keys that can match an ASCII field name: letters are
    upper-cased, U+017F folds to S and U+212A to K. *)
Definition fold_rune (r : Z) (bytes : string) : string :=
  if in_range 97 122 r then bytes1 (r - 32)
  else if r =? 383 then bytes1 83
  else if r =? 8490 then bytes1 75
  else bytes.
Definition fold_name (s : string) : string :=
  sconcat (map (λ x, fold_rune x.1 x.2) (segs s)).

(** Exact match first, then the first field equal up to folding. *)
Definition find_field (names : list string) (key : string) : option string :=
  match list_find (λ n, n = key) names with
  | Some (_, n) => Some n
  | None => match list_find (λ n, fold_name n = fold_name key) names with
            | Some (_, n) => Some n
            | None => None
            end
  end.

(** Decoding goes on after a saved error: the state and whether an error was
    saved travel together. *)
Definition decoded (St : Type) : Type := St * bool.

(** The object loop of [decodeState.object] on a struct. [set] stores one
    field and says whether the value had the field's type; a key that matches
    no field is an error only with [DisallowUnknownFields]. *)
Definition decode_fields {St} (strict : bool) (names : list string)
  (set : string → string → json → St → decoded St) (ms : list member) (st : St)
  : decoded St :=
  foldl (λ acc m,
    match find_field names (mkey m) with
    | Some f => let '(st', ok) := set f (mraw m) (mval m) acc.1 in (st', acc.2 && ok)
    | None => (acc.1, acc.2 && negb strict)
    end) (st, true) ms.

(** A JSON value into a struct: [null] leaves it alone, another type is an error. *)
Definition decode_struct {St} (strict : bool) (names : list string)
  (set : string → string → json → St → decoded St) (v : json) (st : St) : decoded St :=
  match v with
  | JObj ms => decode_fields strict names set ms st
  | JNull => (st, true)
  | _ => (st, false)
  end.

(** A JSON value into a [string] field. *)
Definition decode_string (v : json) (old : string) : decoded string :=
  match v with
  | JStr s => (s, true)
  | JNull => (old, true)
  | _ => (old, false)
  end.

(** A JSON value into a [bool] field. *)
Definition decode_bool (v : json) (old : bool) : decoded bool :=
  match v with
  | JBool b => (b, true)
  | JNull => (old, true)
  | _ => (old, false)
  end.

Definition map_decoded {A B} (f : A → B) (d : decoded A) : decoded B := (f d.1, d.2).

(** ** Marshalling *)

Definition hex_digit (z : Z) : ascii :=
  if z <? 10 then chr (48 + z) else chr (87 + z).

(** [appendString] on one ASCII byte, with HTML escaping. *)
Definition quote_byte (c : ascii) : string :=
  let z := code c in
  if (z =? 92) || (z =? 34) then String bslash (String c "")
  else if z =? 8 then "\b" else if z =? 12 then "\f" else if z =? 10 then "\n"
  else if z =? 13 then "\r" else if z =? 9 then "\t"
  else if (z <? 32) || (z =? 38) || (z =? 60) || (z =? 62)
  then "\u00" +:+ String (hex_digit (z / 16)) (String (hex_digit (z mod 16)) "")
  else String c "".

(** [appendString] on the rune at the head of a string. *)
Definition quote_seg (r : Z) (bytes : string) : string :=
  if (r =? rune_error) && (slen bytes =? 1)%nat then "\ufffd"
  else if r =? 8232 then "\u2028" else if r =? 8233 then "\u2029"
  else match bytes with
       | String c EmptyString => quote_byte c
       | _ => bytes
       end.

Definition quote_body (s : string) : string :=
  sconcat (map (λ x, quote_seg x.1 x.2) (segs s)).
Definition quote (s : string) : string :=
  String dquote (quote_body s +:+ String dquote "").

Definition print_bool (b : bool) : string := if b then "true" else "false".

(** A struct is printed field by field: [fields] are the names and the encoded
    values of the fields that are not omitted. *)
Fixpoint print_fields (fields : list (string * string)) : string :=
  match fields with
  | [] => ""
  | [(k, v)] => quote k +:+ ":" +:+ v
  | (k, v) :: fields' => quote k +:+ ":" +:+ v +:+ "," +:+ print_fields fields'
  end.
Definition print_object (fields : list (string * string)) : string :=
  "{" +:+ print_fields fields +:+ "}".

(** [appendCompact] with HTML escaping: white space outside strings is dropped;
    [<], [>], [&], U+2028 and U+2029 are escaped. *)
Inductive cmode := COut | CIn | CEsc.

Definition is_line_sep (s : string) : option Z :=
  match s with
  | String c s1 =>
      if code c =? 226 then
        match s1 with
        | String d (String e _) =>
            if (code d =? 128) && ((code e =? 168) || (code e =? 169))
            then Some (code e - 160) else None
        | _ => None
        end
      else None
  | EmptyString => None
  end.

Fixpoint compact_from (mode : cmode) (skip : nat) (s : string) : string :=
  match s with
  | EmptyString => ""
  | String c s' =>
      match skip with
      | S k => compact_from mode k s'
      | O =>
          let z := code c in
          if (z =? 60) || (z =? 62) || (z =? 38) then
            "\u00" +:+ String (hex_digit (z / 16)) (String (hex_digit (z mod 16))
              (compact_from (match mode with CEsc => CIn | m => m end) 0 s'))
          else match is_line_sep s with
          | Some h => "\u202" +:+ String (hex_digit h)
              (compact_from (match mode with CEsc => CIn | m => m end) 2 s')
          | None =>
              match mode with
              | COut => if is_space c then compact_from COut 0 s'
                        else String c (compact_from (if c =a dquote then CIn else COut) 0 s')
              | CIn => String c (compact_from (if c =a dquote then COut
                                   else if c =a bslash then CEsc else CIn) 0 s')
              | CEsc => String c (compact_from CIn 0 s')
              end
          end
      end
  end.
Definition compact (s : string) : string := compact_from COut 0 s.

(** A [json.RawMessage] field: [nil] prints as [null], anything else must be
    one JSON value and is compacted. *)
Definition marshal_raw (raw : string) : option string :=
  if streq raw "" then Some "null"
  else match parse_document raw with Some _ => Some (compact raw) | None => None end.

(** Renders a JSON text written with single quotes. *)
Definition sq (s : string) : string :=
  String.string_of_list_ascii
    (map (λ c, if (c =a "'")%char then dquote else c) (String.list_ascii_of_string s)).

Example parse_ex :
  parse_document (sq "{'a' : [1, -2.5e3, 'x\u00e9\n'], 'b':null} ") =
  Some (JObj [("a", (sq "[1, -2.5e3, 'x\u00e9\n']",
                     JArr [JNum "1"; JNum "-2.5e3"; JStr ("x" +:+ encode_rune 233 +:+ bytes1 10)]));
              ("b", ("null", JNull))]).
Proof. vm_compute. reflexivity. Qed.
Example quote_ex : quote "a<b" = sq "'a\u003cb'".
Proof. vm_compute. reflexivity. Qed.
Example overflow_ex : (number_overflows "1e308", number_overflows "1e309",
  number_overflows "1.7976931348623159e308") = (false, true, true).
Proof. vm_compute. reflexivity. Qed.

(** ** Quoting and scanning *)

Lemma prepend_app a b r : prepend a (prepend b r) = prepend (a +:+ b) r.
Proof. destruct r as [[x y]|]; simpl; [by rewrite sapp_assoc | done]. Qed.

Definition is_high (c : ascii) : bool := 128 <=? code c.

Lemma scan_string_high b t :
  sforallb is_high b = true → scan_string (b +:+ t) = prepend b (scan_string t).
Proof.
  induction b as [|c b IH].
  - intros _. rewrite sapp_nil_l. by destruct (scan_string t) as [[x y]|].
  - cbn [sforallb]. intros [Hc Hb]%andb_true_iff. rewrite sapp_cons.
    assert (∃ s, s = b +:+ t) as [s Hs] by eauto. rewrite <-Hs.
    assert (scan_string (String c s) = prepend (String c "") (scan_string s)) as ->.
    { clear -Hc. by byte_cases c. }
    subst s. rewrite IH, prepend_app by done. done.
Qed.

Lemma scan_quote_byte c t : is_ascii c = true →
  scan_string (quote_byte c +:+ t) = prepend (quote_byte c) (scan_string t).
Proof. intros Hc. by byte_cases c. Qed.

Lemma encode_valid_high r : 128 ≤ r → valid_rune r = true →
  sforallb is_high (encode_valid r) = true ∧ (2 ≤ slen (encode_valid r))%nat.
Proof.
  intros Hr Hv%valid_rune_true. unfold encode_valid, is_high, bytes1.
  pose proof (Z.mod_pos_bound r 64). pose proof (Z.mod_pos_bound (r / 64) 64).
  pose proof (Z.mod_pos_bound (r / 4096) 64).
  assert (Hh : ∀ z, 128 ≤ z < 256 → 128 <=? code (chr z) = true).
  { intros z Hz. rewrite code_chr by lia. apply Z.leb_le; lia. }
  destruct (Z.ltb_spec r 128); [lia|].
  destruct (Z.ltb_spec r 2048).
  { assert (2 ≤ r / 64 < 32) by (split; [apply Z.div_le_lower_bound | apply Z.div_lt_upper_bound]; lia).
    simpl. rewrite !Hh by lia. split; [done|lia]. }
  destruct (Z.ltb_spec r 65536).
  { assert (0 ≤ r / 4096 < 16) by (split; [apply Z.div_le_lower_bound | apply Z.div_lt_upper_bound]; lia).
    simpl. rewrite !Hh by lia. split; [done|lia]. }
  assert (0 ≤ r / 262144 < 5) by (split; [apply Z.div_le_lower_bound | apply Z.div_lt_upper_bound]; lia).
  simpl. rewrite !Hh by lia. split; [done|lia].
Qed.

(** The segments of a valid string: an ASCII byte or a longer encoding. *)
Lemma valid_segs_cons s : s ≠ "" → valid_utf8 s = true →
  ∃ r s', s = encode_valid r +:+ s' ∧ valid_rune r = true ∧ valid_utf8 s' = true
          ∧ segs s = (r, encode_valid r) :: segs s'.
Proof.
  intros Hs. unfold valid_utf8. rewrite segs_cons by done.
  destruct (decode_rune s) as [r n] eqn:Hd. cbn [fst snd forallb].
  intros [Hv Hrest]%andb_true_iff.
  destruct (decode_rune_canonical s r n Hs Hd Hv) as [Hr Hn].
  exists r, (sdrop n s). rewrite <-Hn. rewrite stake_sdrop. by rewrite Hn.
Qed.

(** Induction over a string of valid runes. *)
Lemma valid_utf8_ind (P : string → Prop) :
  P "" →
  (∀ r s, valid_rune r = true → valid_utf8 s = true → P s → P (encode_valid r +:+ s)) →
  ∀ s, valid_utf8 s = true → P s.
Proof.
  intros H0 HS s. remember (slen s) as n eqn:Hn. revert s Hn.
  induction n as [n IH] using lt_wf_ind. intros s -> Hv.
  destruct (decide (s = "")) as [->|Hne]; [done|].
  destruct (valid_segs_cons s Hne Hv) as (r & s' & -> & Hr & Hv' & _).
  apply HS; [done..|]. eapply IH; [|reflexivity|done].
  rewrite slen_app. destruct (Z.ltb_spec r 128) as [Hlt|Hge].
  - unfold encode_valid. apply Z.ltb_lt in Hlt. rewrite Hlt. simpl. lia.
  - pose proof (encode_valid_high r Hge Hr). lia.
Qed.

Lemma quote_body_encode r s : valid_rune r = true →
  quote_body (encode_valid r +:+ s) = quote_seg r (encode_valid r) +:+ quote_body s.
Proof. intros Hr. unfold quote_body. by rewrite segs_encode. Qed.

Lemma encode_valid_ascii r : 0 ≤ r < 128 → encode_valid r = String (chr r) "".
Proof. intros [_ Hr%Z.ltb_lt]. unfold encode_valid. by rewrite Hr. Qed.

Lemma quote_seg_ascii r : 0 ≤ r < 128 →
  quote_seg r (encode_valid r) = quote_byte (chr r) ∧ is_ascii (chr r) = true.
Proof.
  intros Hr. rewrite encode_valid_ascii by done. unfold quote_seg, is_ascii, rune_error.
  rewrite code_chr by lia.
  replace (r =? 65533) with false by (symmetry; apply Z.eqb_neq; lia).
  replace (r =? 8232) with false by (symmetry; apply Z.eqb_neq; lia).
  replace (r =? 8233) with false by (symmetry; apply Z.eqb_neq; lia).
  split; [done|]. apply Z.ltb_lt; lia.
Qed.

Lemma quote_seg_high r : 128 ≤ r → valid_rune r = true →
  quote_seg r (encode_valid r) =
    if r =? 8232 then "\u2028" else if r =? 8233 then "\u2029" else encode_valid r.
Proof.
  intros Hr Hv. destruct (encode_valid_high r Hr Hv) as [_ Hl]. unfold quote_seg.
  replace (slen (encode_valid r) =? 1)%nat with false by (symmetry; apply Nat.eqb_neq; lia).
  rewrite andb_false_r. repeat case_match; try done; simpl in Hl; lia.
Qed.

Lemma scan_quote_seg r t : valid_rune r = true →
  scan_string (quote_seg r (encode_valid r) +:+ t)
  = prepend (quote_seg r (encode_valid r)) (scan_string t).
Proof.
  intros Hv. pose proof Hv as [Hb _]%valid_rune_true.
  destruct (Z.ltb_spec r 128) as [Hlt|Hge].
  - destruct (quote_seg_ascii r ltac:(lia)) as [-> Hc]. by apply scan_quote_byte.
  - rewrite quote_seg_high by done. destruct (r =? 8232); [done|].
    destruct (r =? 8233); [done|]. apply scan_string_high. by apply encode_valid_high.
Qed.

Lemma scan_quote_body s rest : valid_utf8 s = true →
  scan_string (quote_body s +:+ String dquote rest) = Some (quote_body s, rest).
Proof.
  revert s. apply valid_utf8_ind; [done|]. intros r s Hr Hs IH.
  rewrite quote_body_encode by done.
  rewrite sapp_assoc, scan_quote_seg, IH by done. done.
Qed.

(** ** Unquoting inverts quoting *)

Lemma unquote_from_skip k s : unquote_from k s = unquote (sdrop k s).
Proof.
  unfold unquote. revert s; induction k as [|k IH]; intros [|c s]; simpl; auto.
Qed.

Lemma unquote_quote_byte c t : is_ascii c = true →
  unquote (quote_byte c +:+ t) = String c (unquote t).
Proof. intros Hc. by byte_cases c. Qed.

Lemma unquote_high r t : 128 ≤ r → valid_rune r = true →
  unquote (encode_valid r +:+ t) = encode_valid r +:+ unquote t.
Proof.
  intros Hr Hv. destruct (encode_valid_high r Hr Hv) as [Hh Hl].
  destruct (encode_valid r) as [|c b] eqn:He; [simpl in Hl; lia|].
  assert (Hd : decode_rune (String c b +:+ t) = (r, slen (String c b)))
    by (rewrite <-He; by apply decode_encode_valid).
  rewrite sapp_cons in *. unfold unquote at 1. cbn [unquote_from unquote_head].
  replace (c =a bslash) with false by (apply andb_true_iff in Hh as [Hc _]; clear -Hc; by byte_cases c).
  rewrite Hd. cbn [slen]. unfold encode_rune. rewrite Hv, He, unquote_from_skip.
  replace (S (slen b) - 1)%nat with (slen b) by lia. by rewrite sdrop_app.
Qed.

Lemma unquote_quote_seg r t : valid_rune r = true →
  unquote (quote_seg r (encode_valid r) +:+ t) = encode_valid r +:+ unquote t.
Proof.
  intros Hv. pose proof Hv as [Hb _]%valid_rune_true.
  destruct (Z.ltb_spec r 128) as [Hlt|Hge].
  - destruct (quote_seg_ascii r ltac:(lia)) as [-> Hc].
    rewrite unquote_quote_byte, encode_valid_ascii by (done || lia). done.
  - rewrite quote_seg_high by done.
    destruct (Z.eqb_spec r 8232) as [->|_]; [done|].
    destruct (Z.eqb_spec r 8233) as [->|_]; [done|]. by apply unquote_high.
Qed.

Lemma unquote_quote_body s : valid_utf8 s = true → unquote (quote_body s) = s.
Proof.
  revert s. apply valid_utf8_ind; [done|]. intros r s Hr Hs IH.
  by rewrite quote_body_encode, unquote_quote_seg, IH.
Qed.

(** Unquoting always gives valid UTF-8: invalid bytes become U+FFFD. *)
Lemma valid_utf8_encode r s : valid_utf8 (encode_rune r +:+ s) = valid_utf8 s.
Proof.
  assert (valid_rune (if valid_rune r then r else rune_error) = true) as Hv
    by (destruct (valid_rune r) eqn:?; done).
  unfold encode_rune, valid_utf8. rewrite segs_encode by done. cbn [forallb].
  pose proof (decode_encode_valid _ "" Hv) as Hd. revert Hv Hd.
  generalize (if valid_rune r then r else rune_error). intros q Hv Hd.
  replace (seg_valid (q, encode_valid q)) with true; [done|]. symmetry. unfold seg_valid. cbn [fst snd].
  destruct (Z.ltb_spec q 128) as [Hlt|Hge]; [replace (q =? rune_error) with false; [done|]|].
  - symmetry. apply Z.eqb_neq. unfold rune_error. lia.
  - destruct (encode_valid_high q Hge Hv) as [_ Hl].
    replace (slen (encode_valid q) =? 1)%nat with false; [by rewrite andb_false_r|].
    symmetry. apply Nat.eqb_neq. lia.
Qed.

Lemma unquote_head_valid s t :
  valid_utf8 t = true → valid_utf8 ((unquote_head s).1 +:+ t) = true.
Proof.
  intros Ht. destruct s as [|c s]; [done|]. unfold unquote_head. destruct (c =a bslash).
  - destruct s as [|e s]; [by rewrite sapp_nil_l|]. destruct (e =a "u")%char.
    + unfold unquote_u. destruct (getu4 _); [|done]. destruct (is_surrogate _).
      * destruct (getu4 _ ≫= _); cbn [fst]; by rewrite valid_utf8_encode.
      * cbn [fst]. by rewrite valid_utf8_encode.
    + cbn [fst]. destruct (simple_esc e) eqn:He; [|done]. rewrite sapp_cons, sapp_nil_l.
      assert (is_ascii (unescape e) && negb (code (unescape e) =? rune_error) = true) as H
        by (clear -He; by byte_cases e).
      split_bools.
      unfold valid_utf8. rewrite segs_ascii by done.
      cbn [forallb]. fold (valid_utf8 t). rewrite Ht, andb_true_r. unfold seg_valid. cbn [fst].
      by rewrite H0.
  - destruct (decode_rune _) as [r n]. cbn [fst]. by rewrite valid_utf8_encode.
Qed.

Lemma valid_unquote s : valid_utf8 (unquote s) = true.
Proof.
  remember (slen s) as n eqn:Hn. revert s Hn. induction n as [n IH] using lt_wf_ind. intros s ->.
  destruct s as [|c s]; [done|]. unfold unquote. cbn [unquote_from].
  pose proof (unquote_head_valid (String c s)) as Hh.
  destruct (unquote_head (String c s)) as [out k]. apply Hh. rewrite unquote_from_skip.
  eapply IH; [|reflexivity]. rewrite slen_sdrop. simpl. lia.
Qed.

(** Every string in a parsed value is valid UTF-8. *)
Fixpoint strings_ok (v : json) : bool :=
  match v with
  | JStr s => valid_utf8 s
  | JArr vs => forallb strings_ok vs
  | JObj ms => forallb (λ m, strings_ok (mval m)) ms
  | _ => true
  end.

Definition valid_parser (pv : parser) : Prop := ∀ s v r, pv s = Some (v, r) → strings_ok v = true.

Lemma parse_elems_valid pv fuel first s vs r : valid_parser pv →
  parse_elems pv fuel first s = Some (vs, r) → forallb strings_ok vs = true.
Proof.
  intros Hpv. revert first s vs r. induction fuel as [|fuel IH]; intros first s vs r; [done|].
  cbn [parse_elems]. destruct (expect "]" s); [by intros [= <- <-]|]. intros H.
  apply bind_Some in H as (s1 & _ & H). apply bind_Some in H as ([v s2] & Hv & H).
  apply bind_Some in H as ([vs' s3] & Hr & [= <- _]). cbn [forallb].
  by rewrite (Hpv _ _ _ Hv), (IH _ _ _ _ Hr).
Qed.

Lemma parse_members_valid pv fuel first s ms r : valid_parser pv →
  parse_members pv fuel first s = Some (ms, r) → forallb (λ m, strings_ok (mval m)) ms = true.
Proof.
  intros Hpv. revert first s ms r. induction fuel as [|fuel IH]; intros first s ms r; [done|].
  cbn [parse_members]. destruct (expect "}" s); [by intros [= <- <-]|]. intros H.
  apply bind_Some in H as (s1 & _ & H). apply bind_Some in H as ([m s2] & Hm & H).
  apply bind_Some in H as ([ms' s3] & Hr & [= <- _]). cbn [forallb].
  rewrite (IH _ _ _ _ Hr), andb_true_r. unfold parse_member in Hm.
  apply bind_Some in Hm as (? & _ & Hm). apply bind_Some in Hm as ([] & _ & Hm).
  apply bind_Some in Hm as (? & _ & Hm). apply bind_Some in Hm as ([v ?] & Hv & [= <- _]).
  by apply Hpv in Hv.
Qed.

Lemma scan_scalar_valid : valid_parser scan_scalar.
Proof.
  intros s v r. destruct s as [|c s1]; [done|]. cbn [scan_scalar]. unfold literal.
  destruct (c =a dquote).
  { intros ([raw r'] & _ & [= <- _])%bind_Some. apply valid_unquote. }
  repeat case_match; try (by intros [= <- _]); try done;
    intros ([lit r'] & _ & [= <- _])%bind_Some; done.
Qed.

Lemma parse_value_valid d : valid_parser (parse_value d).
Proof.
  induction d as [|d IH]; intros s v r; cbn [parse_value]; destruct (skip_ws s) as [|c s1]; try done.
  - destruct (c =a "{")%char; [done|]. destruct (c =a "[")%char; [done|]. apply scan_scalar_valid.
  - destruct (c =a "{")%char.
    { intros ([ms r'] & Hp & [= <- _])%bind_Some. by apply (parse_members_valid _ _ _ _ _ _ IH) in Hp. }
    destruct (c =a "[")%char; [|apply scan_scalar_valid].
    intros ([vs r'] & Hp & [= <- _])%bind_Some. by apply (parse_elems_valid _ _ _ _ _ _ IH) in Hp.
Qed.

Lemma parse_document_valid s v : parse_document s = Some v → strings_ok v = true.
Proof.
  unfold parse_document. generalize max_depth as d. intros d ([v' r] & Hp & H)%bind_Some.
  destruct (at_end r); [|done]. injection H as <-. exact (parse_value_valid d s v' r Hp).
Qed.

Lemma find_field_elem names key f : find_field names key = Some f → f ∈ names.
Proof.
  unfold find_field. intros H. repeat case_match; simplify_eq.
  all: by match goal with H : list_find _ _ = Some _ |- _ =>
         apply list_find_Some in H as (?%list_elem_of_lookup_2 & _) end.
Qed.

(** Decoding into a struct keeps what every field's setter keeps. *)
Lemma decode_struct_ind {St} strict names (set : string → string → json → St → decoded St) (P : St → Prop) v st :
  strings_ok v = true →
  (∀ f raw w st, f ∈ names → strings_ok w = true → P st → P (set f raw w st).1) →
  P st → P (decode_struct strict names set v st).1.
Proof.
  intros Hv Hset Hst. destruct v as [| | | | |ms]; try done. cbn [decode_struct strings_ok] in *.
  unfold decode_fields. assert (P (st, true).1) as H by done. revert H.
  generalize (st, true). induction ms as [|m ms IH]; intros acc Hacc; [done|].
  cbn [foldl forallb] in *. apply andb_true_iff in Hv as [Hm Hms]. apply IH; [done|].
  destruct (find_field names (mkey m)) as [f|] eqn:Hf; [|done].
  pose proof (Hset f (mraw m) (mval m) acc.1 (find_field_elem _ _ _ Hf) Hm Hacc) as Hp.
  by destruct (set f (mraw m) (mval m) acc.1).
Qed.

(** ** Printed values parse back *)

Definition delimited (t : string) : bool :=
  match t with
  | String c _ => (c =a ",")%char || (c =a "}")%char || (c =a "]")%char || is_space c
  | EmptyString => true
  end.

(** [prints d v j]: wherever the text [v] is followed by a delimiter, it parses
    as [j] within depth [d] and nothing else is consumed. *)
Definition prints (d : nat) (v : string) (j : json) : Prop :=
  (∀ t, skip_ws (v +:+ t) = v +:+ t) ∧
  ∀ t, delimited t = true → parse_value d (v +:+ t) = Some (j, t).

Lemma parse_value_scalar d c s :
  is_space c = false → (c =a "{")%char = false → (c =a "[")%char = false →
  parse_value d (String c s) = scan_scalar (String c s).
Proof.
  intros Hs Hb Hl. destruct d; cbn [parse_value skip_ws]; rewrite Hs, Hb, Hl; done.
Qed.

Lemma quote_app s t : quote s +:+ t = String dquote (quote_body s +:+ String dquote t).
Proof. unfold quote. by rewrite sapp_cons, sapp_assoc. Qed.

Lemma parse_quote d s t : valid_utf8 s = true → parse_value d (quote s +:+ t) = Some (JStr s, t).
Proof.
  intros Hv. rewrite quote_app, parse_value_scalar by done.
  cbn [scan_scalar]. replace (dquote =a dquote) with true by done.
  rewrite scan_quote_body by done. cbn. by rewrite unquote_quote_body.
Qed.

Lemma prints_quote d s : valid_utf8 s = true → prints d (quote s) (JStr s).
Proof. intros Hv. split; [done|]. intros t _. by apply parse_quote. Qed.

Lemma prints_bool d b : prints d (print_bool b) (JBool b).
Proof. by destruct b, d. Qed.

Lemma prints_null d : prints d "null" JNull.
Proof. by destruct d. Qed.

Lemma expect_here c s : is_space c = false → expect c (String c s) = Some s.
Proof. intros Hc. unfold expect. cbn [skip_ws]. rewrite Hc, Ascii.eqb_refl. done. Qed.

Lemma expect_other d c s : is_space c = false → (c =a d) = false → expect d (String c s) = None.
Proof. intros Hc Hd. unfold expect. cbn [skip_ws]. by rewrite Hc, Hd. Qed.

Lemma consumed_app v t : consumed (v +:+ t) t = v.
Proof.
  unfold consumed. rewrite slen_app.
  replace (slen v + slen t - slen t)%nat with (slen v) by lia. apply stake_app.
Qed.

Definition printed_members (fields : list (string * string)) (js : list json) : list member :=
  zip_with (λ f j, (f.1, (f.2, j))) fields js.

Definition prints_fields (d : nat) : list (string * string) → list json → Prop :=
  Forall2 (λ f j, valid_utf8 f.1 = true ∧ prints d f.2 j).

Lemma parse_print_member d k v j u :
  valid_utf8 k = true → prints d v j → delimited u = true →
  parse_member (parse_value d) (quote k +:+ ":" +:+ v +:+ u) = Some ((k, (v, j)), u).
Proof.
  intros Hk [Hws Hv] Hu. unfold parse_member. rewrite quote_app, expect_here by done.
  cbn. rewrite scan_quote_body by done. cbn [mbind option_bind].
  rewrite sapp_cons, sapp_nil_l, expect_here by done. cbn.
  rewrite Hv by done. cbn. rewrite Hws, consumed_app, unquote_quote_body by done. done.
Qed.

Lemma parse_print_fields d fields js first fuel t :
  prints_fields d fields js → fields ≠ [] → (length fields < fuel)%nat →
  parse_members (parse_value d) fuel first
    ((if first then "" else ",") +:+ print_fields fields +:+ String "}" t)
  = Some (printed_members fields js, t).
Proof.
  intros Hf. revert first fuel.
  induction Hf as [|[k v] j fields js [Hk Hv] Hf IH]; intros first fuel Hne Hfuel; [done|].
  destruct fuel as [|fuel]; [simpl in Hfuel; lia|]. cbn [parse_members].
  assert (Hex : expect "}" ((if first then "" else ",") +:+ print_fields ((k, v) :: fields)
                   +:+ String "}" t) = None).
  { destruct first; [rewrite sapp_nil_l | rewrite sapp_cons, expect_other by done; done].
    cbn [print_fields]. destruct fields; rewrite sapp_assoc, quote_app, expect_other by done; done. }
  rewrite Hex. clear Hex.
  assert (Hit : next_item first ((if first then "" else ",") +:+ print_fields ((k, v) :: fields)
                   +:+ String "}" t) = Some (print_fields ((k, v) :: fields) +:+ String "}" t)).
  { destruct first; [by rewrite sapp_nil_l|]. unfold next_item. by rewrite sapp_cons, expect_here. }
  rewrite Hit. clear Hit. cbn [mbind option_bind print_fields].
  destruct fields as [|[k' v'] fields].
  - inversion Hf; subst. rewrite !sapp_assoc, (parse_print_member d k v j _ Hk Hv) by done. cbn.
    destruct fuel as [|fuel]; [simpl in Hfuel; lia|]. cbn [parse_members].
    rewrite expect_here by done. done.
  - rewrite !sapp_assoc, (parse_print_member d k v j _ Hk Hv) by done. cbn [mbind option_bind].
    rewrite (IH false fuel) by (done || (simpl in *; lia)). done.
Qed.

Lemma length_print_fields fields : (length fields ≤ slen (print_fields fields))%nat.
Proof.
  assert (Hq : ∀ k, (1 ≤ slen (quote k))%nat) by (intros k; unfold quote; simpl; lia).
  induction fields as [|[k v] fields IH]; [done|]. pose proof (Hq k).
  destruct fields as [|f fields]; cbn [print_fields length] in *; rewrite !slen_app; [lia|].
  simpl in *. lia.
Qed.

(** A printed struct parses as the object of its fields. *)
Lemma prints_object d fields js :
  prints_fields d fields js → prints (S d) (print_object fields) (JObj (printed_members fields js)).
Proof.
  intros Hf. split; [done|]. intros t _. unfold print_object.
  rewrite !sapp_assoc. change ("}" +:+ t) with (String "}" t).
  rewrite sapp_cons, sapp_nil_l.
  cbn [parse_value skip_ws]. change (is_space "{") with false.
  change ("{" =a "{")%char with true. cbn match.
  destruct fields as [|f fields].
  - inversion Hf; subst. cbn [print_fields]. rewrite sapp_nil_l. cbn [parse_members].
    rewrite expect_here by done. done.
  - pose proof (parse_print_fields d (f :: fields) js true
      (S (slen (print_fields (f :: fields) +:+ String "}" t))) t Hf) as Hp.
    rewrite sapp_nil_l in Hp. rewrite Hp; [done|done|].
    rewrite slen_app. pose proof (length_print_fields (f :: fields)). simpl in *; lia.
Qed.

(** ** More depth accepts at least as much *)

Lemma parse_elems_mono (pv pw : parser) fuel first s r :
  (∀ s r, pv s = Some r → pw s = Some r) →
  parse_elems pv fuel first s = Some r → parse_elems pw fuel first s = Some r.
Proof.
  intros Hm. revert first s r. induction fuel as [|fuel IH]; intros first s r; simpl; [done|].
  destruct (expect "]" s); [done|]. destruct (next_item first s) as [s1|]; simpl; [|done].
  destruct (pv s1) as [[v s2]|] eqn:Hpv; simpl; [|done]. rewrite (Hm _ _ Hpv). simpl.
  destruct (parse_elems pv fuel false s2) as [[vs s3]|] eqn:Hr; simpl; [|done].
  by rewrite (IH _ _ _ Hr).
Qed.

Lemma parse_members_mono (pv pw : parser) fuel first s r :
  (∀ s r, pv s = Some r → pw s = Some r) →
  parse_members pv fuel first s = Some r → parse_members pw fuel first s = Some r.
Proof.
  intros Hm. revert first s r. induction fuel as [|fuel IH]; intros first s r; simpl; [done|].
  destruct (expect "}" s); [done|]. destruct (next_item first s) as [s1|]; simpl; [|done].
  unfold parse_member. destruct (expect dquote s1) as [s2|]; simpl; [|done].
  destruct (scan_string s2) as [[k s3]|]; simpl; [|done].
  destruct (expect ":" s3) as [s4|]; simpl; [|done].
  destruct (pv s4) as [[v s5]|] eqn:Hpv; simpl; [|done]. rewrite (Hm _ _ Hpv). simpl.
  destruct (parse_members pv fuel false s5) as [[vs s6]|] eqn:Hr; simpl; [|done].
  by rewrite (IH _ _ _ Hr).
Qed.

Lemma parse_value_mono d d' s r :
  (d ≤ d')%nat → parse_value d s = Some r → parse_value d' s = Some r.
Proof.
  revert d' s r. induction d as [|d IH]; intros d' s r Hd.
  - destruct d' as [|d']; [done|]. cbn [parse_value].
    destruct (skip_ws s); [done|]. by repeat case_match.
  - destruct d' as [|d']; [lia|]. cbn [parse_value].
    destruct (skip_ws s) as [|c s1]; [done|].
    assert (Hm : ∀ s r, parse_value d s = Some r → parse_value d' s = Some r)
      by (intros; apply IH; [lia|done]).
    destruct (c =a "{")%char.
    { destruct (parse_members _ _ _ _) as [[ms rest]|] eqn:Hp; cbn [mbind option_bind]; [|done].
      by rewrite (parse_members_mono _ _ _ _ _ _ Hm Hp). }
    destruct (c =a "[")%char; [|done].
    destruct (parse_elems _ _ _ _) as [[vs rest]|] eqn:Hp; cbn [mbind option_bind]; [|done].
    by rewrite (parse_elems_mono _ _ _ _ _ _ Hm Hp).
Qed.

Lemma prints_mono d d' v j : (d ≤ d')%nat → prints d v j → prints d' v j.
Proof. intros Hd [Hw Hv]. split; [done|]. intros t Ht. eapply parse_value_mono; eauto. Qed.

(** A printed value is a document of its own. *)
Lemma parse_document_prints d v j :
  (d ≤ max_depth)%nat → prints d v j → parse_document v = Some j.
Proof.
  intros Hd [_ Hv]. unfold parse_document.
  assert (Hp : parse_value d v = Some (j, "")) by (rewrite <-(sapp_nil_r v) at 1; by apply Hv).
  rewrite (parse_value_mono _ _ _ _ Hd Hp). done.
Qed.

(** ** Every scan consumes input; fuel and depth beyond the input are enough *)

Lemma prepend_Some p o a r : prepend p o = Some (a, r) → ∃ a', o = Some (a', r) ∧ a = p +:+ a'.
Proof. destruct o as [[x y]|]; simpl; [intros [= <- <-]; eauto | done]. Qed.

Lemma scan_string_eq s a r : scan_string s = Some (a, r) → s = a +:+ String dquote r.
Proof.
  remember (slen s) as n eqn:Hn. revert s a r Hn.
  induction n as [n IH] using lt_wf_ind. intros s a r ->.
  destruct s as [|c s1]; [done|]. cbn [scan_string].
  destruct (Ascii.eqb_spec c dquote) as [->|_]; [by intros [= <- <-]|].
  destruct (c =a bslash).
  - destruct s1 as [|e s2]; [done|]. destruct (simple_esc e).
    { intros (a' & Hs & ->)%prepend_Some. apply (IH (slen s2)) in Hs; [|simpl; lia|done].
      by rewrite Hs. }
    destruct (e =a "u")%char; [|done]. destruct s2 as [|h1 [|h2 [|h3 [|h4 s3]]]]; try done.
    destruct (_ && _ && _ && _); [|done].
    intros (a' & Hs & ->)%prepend_Some. apply (IH (slen s3)) in Hs; [|simpl; lia|done].
    by rewrite Hs.
  - destruct (code c <? 32); [done|].
    intros (a' & Hs & ->)%prepend_Some. apply (IH (slen s1)) in Hs; [|simpl; lia|done].
    by rewrite Hs.
Qed.

Lemma span_digits_eq s d r : span_digits s = (d, r) → s = d +:+ r.
Proof.
  revert d r. induction s as [|c s IH]; intros d r; simpl; [by intros [= <- <-]|].
  destruct (is_digit c); [|by intros [= <- <-]].
  destruct (span_digits s) as [d' r']. intros [= <- <-]. by rewrite (IH d' r').
Qed.

Lemma digits1_eq s d r : digits1 s = Some (d, r) → s = d +:+ r.
Proof.
  unfold digits1. destruct (span_digits s) as [d' r'] eqn:Hd. apply span_digits_eq in Hd.
  destruct d'; [done|]. by intros [= <- <-].
Qed.

Lemma scan_int_eq s i r : scan_int s = Some (i, r) → s = i +:+ r ∧ (1 ≤ slen i)%nat.
Proof.
  destruct s as [|c s']; [done|]. unfold scan_int.
  destruct (Ascii.eqb_spec c "0") as [->|_]; [intros [= <- <-]; split; [done|simpl; lia]|].
  destruct (is_digit c) eqn:Hd; [|done]. intros [= H]. split; [by apply span_digits_eq|].
  simpl in H. rewrite Hd in H. destruct (span_digits s'). injection H as <- _. simpl. lia.
Qed.

Lemma scan_frac_eq s i r : scan_frac s = Some (i, r) → s = i +:+ r.
Proof.
  destruct s as [|c s']; [by intros [= <- <-]|]. unfold scan_frac.
  destruct (Ascii.eqb_spec c ".") as [->|_]; [|by intros [= <- <-]].
  intros (a' & ->%digits1_eq & ->)%prepend_Some. done.
Qed.

Lemma scan_exp_eq s i r : scan_exp s = Some (i, r) → s = i +:+ r.
Proof.
  destruct s as [|c s']; [by intros [= <- <-]|]. unfold scan_exp.
  destruct (_ || _); [|by intros [= <- <-]]. destruct s' as [|g s2]; [done|].
  destruct (_ || _); by intros (a' & ->%digits1_eq & ->)%prepend_Some.
Qed.

Lemma scan_number_eq s lit r : scan_number s = Some (lit, r) → s = lit +:+ r ∧ (1 ≤ slen lit)%nat.
Proof.
  unfold scan_number.
  set (sg := match s with String c s' => if (c =a "-")%char then ("-", s') else ("", s) | EmptyString => ("", s) end).
  assert (Hsg : s = sg.1 +:+ sg.2).
  { unfold sg. destruct s as [|c s']; [done|]. destruct (Ascii.eqb_spec c "-") as [->|_]; done. }
  destruct sg as [sign s0]. simpl in Hsg. subst s.
  intros H. apply bind_Some in H as ([i s1] & [-> Hi]%scan_int_eq & H).
  apply bind_Some in H as ([f s2] & ->%scan_frac_eq & H).
  apply bind_Some in H as ([e s3] & ->%scan_exp_eq & [= <- <-]).
  split; [by rewrite !sapp_assoc|]. rewrite !slen_app. lia.
Qed.

Lemma slen_skip_ws s : (slen (skip_ws s) ≤ slen s)%nat.
Proof. induction s as [|c s IH]; simpl; [lia|]. destruct (is_space c); simpl; lia. Qed.

Lemma expect_shorter d s r : expect d s = Some r → (slen r < slen s)%nat.
Proof.
  unfold expect. pose proof (slen_skip_ws s). destruct (skip_ws s) as [|c s1]; [done|].
  destruct (c =a d); [|done]. intros [= <-]. simpl in *. lia.
Qed.

Lemma next_item_shorter first s r : next_item first s = Some r → (slen r ≤ slen s)%nat.
Proof.
  destruct first; simpl; [by intros [= <-]|]. intros ?%expect_shorter. lia.
Qed.

Lemma scan_string_shorter s a r : scan_string s = Some (a, r) → (slen r < slen s)%nat.
Proof. intros ->%scan_string_eq. rewrite slen_app. simpl. lia. Qed.

Lemma literal_shorter lit v s j r : (1 ≤ slen lit)%nat →
  literal lit v s = Some (j, r) → (slen r < slen s)%nat.
Proof.
  unfold literal. intros Hl. destruct (streq _ _) eqn:He; [|done]. intros [= <- <-].
  apply streq_true in He. pose proof (slen_stake (slen lit) s) as Hs. rewrite He in Hs.
  rewrite slen_sdrop. lia.
Qed.

Lemma scan_scalar_shorter s j r : scan_scalar s = Some (j, r) → (slen r < slen s)%nat.
Proof.
  destruct s as [|c s1]; [done|]. cbn [scan_scalar].
  destruct (c =a dquote).
  { destruct (scan_string s1) as [[raw r']|] eqn:Hs; [|done]. intros [= <- <-].
    apply scan_string_shorter in Hs. simpl. lia. }
  destruct (c =a "t")%char; [intros H; eapply literal_shorter in H; [done|simpl; lia]|].
  destruct (c =a "f")%char; [intros H; eapply literal_shorter in H; [done|simpl; lia]|].
  destruct (c =a "n")%char; [intros H; eapply literal_shorter in H; [done|simpl; lia]|].
  destruct (scan_number _) as [[lit r']|] eqn:Hn; [|done]. intros [= <- <-].
  apply scan_number_eq in Hn as [-> Hl]. rewrite slen_app. lia.
Qed.

(** [shrinks pv]: the parser consumes at least one byte. *)
Definition shrinks (pv : parser) : Prop := ∀ s v r, pv s = Some (v, r) → (slen r < slen s)%nat.

Lemma parse_member_shorter pv s m r : shrinks pv →
  parse_member pv s = Some (m, r) → (slen r < slen s)%nat.
Proof.
  intros Hpv. unfold parse_member. intros H.
  apply bind_Some in H as (s1 & ?%expect_shorter & H).
  apply bind_Some in H as ([raw s2] & ?%scan_string_shorter & H).
  apply bind_Some in H as (s3 & ?%expect_shorter & H).
  apply bind_Some in H as ([v s4] & ?%Hpv & [= _ <-]). lia.
Qed.

Lemma parse_elems_shorter pv fuel first s vs r : shrinks pv →
  parse_elems pv fuel first s = Some (vs, r) → (slen r < slen s)%nat.
Proof.
  intros Hpv. revert first s vs r. induction fuel as [|fuel IH]; intros first s vs r; [done|].
  cbn [parse_elems]. destruct (expect "]" s) as [s1|] eqn:He.
  { intros [= <- <-]. by apply expect_shorter in He. }
  intros H. apply bind_Some in H as (s1 & ?%next_item_shorter & H).
  apply bind_Some in H as ([v s2] & ?%Hpv & H).
  apply bind_Some in H as ([vs' s3] & ?%IH & [= _ <-]). lia.
Qed.

Lemma parse_members_shorter pv fuel first s ms r : shrinks pv →
  parse_members pv fuel first s = Some (ms, r) → (slen r < slen s)%nat.
Proof.
  intros Hpv. revert first s ms r. induction fuel as [|fuel IH]; intros first s ms r; [done|].
  cbn [parse_members]. destruct (expect "}" s) as [s1|] eqn:He.
  { intros [= <- <-]. by apply expect_shorter in He. }
  intros H. apply bind_Some in H as (s1 & ?%next_item_shorter & H).
  apply bind_Some in H as ([v s2] & Hm & H). apply parse_member_shorter in Hm; [|done].
  apply bind_Some in H as ([vs' s3] & ?%IH & [= _ <-]). lia.
Qed.

Lemma parse_value_shrinks n : shrinks (parse_value n).
Proof.
  induction n as [|n IH]; intros s v r; cbn [parse_value]; pose proof (slen_skip_ws s);
    destruct (skip_ws s) as [|c s1]; try done; cbn [String.length] in *.
  - destruct (c =a "{")%char; [done|]. destruct (c =a "[")%char; [done|].
    intros Hs%scan_scalar_shorter. cbn [String.length] in Hs. lia.
  - destruct (c =a "{")%char.
    { intros Hp. apply bind_Some in Hp as ([ms r'] & Hp & [= <- <-]).
      apply (parse_members_shorter _ _ _ _ _ _ IH) in Hp. lia. }
    destruct (c =a "[")%char.
    { intros Hp. apply bind_Some in Hp as ([vs r'] & Hp & [= <- <-]).
      apply (parse_elems_shorter _ _ _ _ _ _ IH) in Hp. lia. }
    intros Hs%scan_scalar_shorter. cbn [String.length] in Hs. lia.
Qed.

(** On inputs shorter than [n], two parsers agree and fuel beyond the input
    changes nothing. *)
Lemma parse_elems_enough (pv pw : parser) fuel fuel' first s vs r : shrinks pv →
  (∀ s' x, (slen s' ≤ slen s)%nat → pv s' = Some x → pw s' = Some x) → (slen s < fuel')%nat →
  parse_elems pv fuel first s = Some (vs, r) → parse_elems pw fuel' first s = Some (vs, r).
Proof.
  intros Hpv. revert fuel' first s vs r.
  induction fuel as [|fuel IH]; intros fuel' first s vs r Hpw Hf; [done|].
  destruct fuel' as [|fuel']; [lia|]. cbn [parse_elems].
  destruct (expect "]" s); [done|]. intros H.
  apply bind_Some in H as (s1 & Hs1 & H). apply bind_Some in H as ([v s2] & Hv & H).
  apply bind_Some in H as ([vs' s3] & Hr & [= <- <-]).
  pose proof (next_item_shorter _ _ _ Hs1). pose proof (Hpv _ _ _ Hv).
  rewrite Hs1. cbn [mbind option_bind]. rewrite (Hpw s1 _ ltac:(lia) Hv). cbn [mbind option_bind].
  rewrite (IH fuel' false s2 vs' s3); [done| |lia|done].
  intros s' x Hs'. apply Hpw. lia.
Qed.

Lemma parse_members_enough (pv pw : parser) fuel fuel' first s ms r : shrinks pv →
  (∀ s' x, (slen s' ≤ slen s)%nat → pv s' = Some x → pw s' = Some x) → (slen s < fuel')%nat →
  parse_members pv fuel first s = Some (ms, r) → parse_members pw fuel' first s = Some (ms, r).
Proof.
  intros Hpv. revert fuel' first s ms r.
  induction fuel as [|fuel IH]; intros fuel' first s ms r Hpw Hf; [done|].
  destruct fuel' as [|fuel']; [lia|]. cbn [parse_members].
  destruct (expect "}" s); [done|]. intros H.
  apply bind_Some in H as (s1 & Hs1 & H). apply bind_Some in H as ([m s2] & Hm & H).
  apply bind_Some in H as ([ms' s3] & Hr & [= <- <-]).
  pose proof (next_item_shorter _ _ _ Hs1). pose proof (parse_member_shorter _ _ _ _ Hpv Hm).
  rewrite Hs1. cbn [mbind option_bind].
  assert (parse_member pw s1 = Some (m, s2)) as ->.
  { unfold parse_member in *. apply bind_Some in Hm as (s4 & H4 & Hm). rewrite H4. simpl.
    apply bind_Some in Hm as ([raw s5] & H5 & Hm). rewrite H5. simpl.
    apply bind_Some in Hm as (s6 & H6 & Hm). rewrite H6. simpl.
    apply bind_Some in Hm as ([v s7] & H7 & Hm).
    apply expect_shorter in H4, H6. apply scan_string_shorter in H5.
    rewrite (Hpw s6 _ ltac:(lia) H7). done. }
  cbn [mbind option_bind]. rewrite (IH fuel' false s2 ms' s3); [done| |lia|done].
  intros s' x Hs'. apply Hpw. lia.
Qed.

(** A depth of the length of the input is always enough: what some depth
    accepts, this one accepts with the same result. *)
Lemma parse_value_enough d m s r : (slen s ≤ m)%nat →
  parse_value d s = Some r → parse_value m s = Some r.
Proof.
  revert m s r. induction d as [|d IH]; intros m s r Hm Hp.
  { by apply (parse_value_mono 0 m); [lia|]. }
  pose proof (slen_skip_ws s) as Hws. destruct (skip_ws s) as [|c s1] eqn:Hs.
  { cbn [parse_value] in Hp. by rewrite Hs in Hp. }
  destruct m as [|m]; [simpl in *; lia|]. cbn [parse_value] in *. rewrite Hs in *. simpl in Hws.
  assert (Hd : ∀ s' x, (slen s' ≤ slen s1)%nat → parse_value d s' = Some x → parse_value m s' = Some x)
    by (intros s' x Hs'; apply IH; lia).
  destruct (c =a "{")%char.
  { apply bind_Some in Hp as ([ms r'] & Hp & <-).
    rewrite (parse_members_enough _ _ _ (S (slen s1)) _ _ _ _ (parse_value_shrinks d) Hd ltac:(lia) Hp).
    done. }
  destruct (c =a "[")%char; [|done].
  apply bind_Some in Hp as ([vs r'] & Hp & <-).
  by rewrite (parse_elems_enough _ _ _ (S (slen s1)) _ _ _ _ (parse_value_shrinks d) Hd ltac:(lia) Hp).
Qed.
