(* ===== verification/Message.v ===== *)
(** * Message: envelopes, message types and protocol errors

    internal/protocol/message.go, envelope.go, errors.go. *)
From S2P Require Import Prelude Utf8 Json.
Open Scope Z_scope.

(** The sentinel errors of errors.go and the transport errors of the codec; the
    text added by [fmt.Errorf] travels along and [errors.Is] looks only at the
    constructor. *)
Inductive perror : Type :=
| ErrInvalidProtocol (detail : string)
| ErrInvalidVersion (detail : string)
| ErrInvalidMessage (detail : string)
| ErrUnknownMessage (detail : string)
| EEOF                       (* io.EOF *)
| EUnexpectedEOF             (* io.ErrUnexpectedEOF *)
| EShortWrite                (* io.ErrShortWrite *)
| EIO (detail : string)      (* an error of the underlying reader or writer *)
| EOther (detail : string).  (* an error with no sentinel *)

#[export] Instance perror_eq_dec : EqDecision perror.
Proof. solve_decision. Defined.

Definition is_ErrInvalidProtocol (e : perror) : bool :=
  match e with ErrInvalidProtocol _ => true | _ => false end.
Definition is_ErrInvalidVersion (e : perror) : bool :=
  match e with ErrInvalidVersion _ => true | _ => false end.
Definition is_ErrInvalidMessage (e : perror) : bool :=
  match e with ErrInvalidMessage _ => true | _ => false end.
Definition is_ErrUnknownMessage (e : perror) : bool :=
  match e with ErrUnknownMessage _ => true | _ => false end.

Definition ProtocolName : string := "cockpit-slurm".
Definition ProtocolVersion : string := "1.0".

(** [MessageType] is a Go string; its constants. *)
Definition MessageHello : string := "hello".
Definition MessageHelloResponse : string := "hello-response".
Definition MessageQuery : string := "query".
Definition MessageQueryResponse : string := "query-response".
Definition MessageSubscribe : string := "subscribe".
Definition MessageSubscribeResponse : string := "subscribe-response".
Definition MessageUnsubscribe : string := "unsubscribe".
Definition MessageUnsubscribeResponse : string := "unsubscribe-response".
Definition MessageCommand : string := "command".
Definition MessageCommandResponse : string := "command-response".
Definition MessageCommandStatus : string := "command-status".
Definition MessageCapabilitiesRequest : string := "capabilities-request".
Definition MessageCapabilitiesResponse : string := "capabilities-response".
Definition MessageEvent : string := "event".
Definition MessageError : string := "error".
Definition MessagePing : string := "ping".
Definition MessagePong : string := "pong".
Definition MessageClose : string := "close".

Definition known_types : list string :=
  [MessageHello; MessageHelloResponse; MessageQuery; MessageQueryResponse;
   MessageSubscribe; MessageSubscribeResponse; MessageUnsubscribe;
   MessageUnsubscribeResponse; MessageCommand; MessageCommandResponse;
   MessageCommandStatus; MessageCapabilitiesRequest; MessageCapabilitiesResponse;
   MessageEvent; MessageError; MessagePing; MessagePong; MessageClose].

Definition IsKnown (t : string) : bool := bool_decide (t ∈ known_types).

(** [Payload] holds raw JSON bytes; the empty string is the nil slice. *)
Record Envelope : Type := mkEnvelope {
  Protocol : string;
  Version : string;
  MessageID : string;
  Type_ : string;
  Timestamp : string;
  Payload : string;
}.

Definition empty_envelope : Envelope := mkEnvelope "" "" "" "" "" "".

#[export] Instance Envelope_eq_dec : EqDecision Envelope.
Proof. solve_decision. Defined.

(** ** Clock rendering: [time.Unix(t, 0).UTC().Format(time.RFC3339)] *)

(** Civil date of a day number counted from 1970-01-01. *)
Definition civil (days : Z) : Z * Z * Z :=
  let z := days + 719468 in
  let era := z / 146097 in
  let doe := z mod 146097 in
  let yoe := (doe - doe / 1460 + doe / 36524 - doe / 146096) / 365 in
  let doy := doe - (365 * yoe + yoe / 4 - yoe / 100) in
  let mp := (5 * doy + 2) / 153 in
  let d := doy - (153 * mp + 2) / 5 + 1 in
  let m := if mp <? 10 then mp + 3 else mp - 9 in
  let y := yoe + era * 400 + (if m <=? 2 then 1 else 0) in
  (y, m, d).

Definition two (z : Z) : string := fmt_0d 2 (Z.to_N z).
Definition rfc3339 (t : Z) : string :=
  let '(y, m, d) := civil (t / 86400) in
  let s := t mod 86400 in
  fmt_0d 4 (Z.to_N y) +:+ "-" +:+ two m +:+ "-" +:+ two d +:+ "T"
  +:+ two (s / 3600) +:+ ":" +:+ two (s / 60 mod 60) +:+ ":" +:+ two (s mod 60) +:+ "Z".

(** [time.RFC3339Nano]: the fraction without trailing zeros. *)
Fixpoint strip_zeros (l : list ascii) : list ascii :=
  match l with
  | c :: l' => if (c =a chr 48) then strip_zeros l' else l
  | [] => []
  end.
Definition fraction (ns : Z) : string :=
  match strip_zeros (rev (String.list_ascii_of_string (fmt_0d 9 (Z.to_N ns)))) with
  | [] => ""
  | l => "." +:+ String.string_of_list_ascii (rev l)
  end.
Definition rfc3339nano (now : Z * Z) : string :=
  let s := rfc3339 now.1 in
  stake (slen s - 1) s +:+ fraction now.2 +:+ "Z".

Example rfc3339_ex : rfc3339 1753920000 = "2025-07-31T00:00:00Z".
Proof. vm_compute. reflexivity. Qed.

(** [now] is the reading of the clock, in Unix seconds. *)
Definition NewEnvelope (now : Z) (messageID messageType payload : string) : Envelope :=
  mkEnvelope ProtocolName ProtocolVersion messageID messageType (rfc3339 now) payload.

(** [fmt]'s [%q], on the strings that need no escape. *)
Definition fmt_q (s : string) : string := String dquote (s +:+ String dquote "").

Definition ValidateEnvelope (e : Envelope) : result perror unit :=
  if streq (Protocol e) "" then Err (ErrInvalidProtocol "missing protocol")
  else if negb (streq (Protocol e) ProtocolName) then Err (ErrInvalidProtocol (fmt_q (Protocol e)))
  else if streq (Version e) "" then Err (ErrInvalidVersion "missing version")
  else if negb (streq (Version e) ProtocolVersion) then Err (ErrInvalidVersion (fmt_q (Version e)))
  else if streq (MessageID e) "" then Err (ErrInvalidMessage "missing messageId")
  else if streq (Type_ e) "" then Err (ErrInvalidMessage "missing type")
  else if negb (IsKnown (Type_ e)) then Err (ErrUnknownMessage (fmt_q (Type_ e)))
  else if streq (Payload e) "" then Err (ErrInvalidMessage "missing payload")
  else Ok tt.

(** The contract of an accepted envelope. *)
Definition well_formed (e : Envelope) : Prop :=
  Protocol e = ProtocolName ∧ Version e = ProtocolVersion ∧ MessageID e ≠ ""
  ∧ Type_ e ∈ known_types ∧ Payload e ≠ "".

Lemma known_types_nonempty t : t ∈ known_types → t ≠ "".
Proof.
  intros Ht ->. revert Ht. apply (bool_decide_eq_false_1 ("" ∈ known_types)).
  by vm_compute.
Qed.

Lemma ValidateEnvelope_Ok e : ValidateEnvelope e = Ok tt ↔ well_formed e.
Proof.
  unfold ValidateEnvelope, well_formed, IsKnown. split.
  - repeat case_match; try discriminate; intros _;
    repeat match goal with
    | H : streq _ _ = true |- _ => apply streq_true in H
    | H : streq _ _ = false |- _ => apply streq_false in H
    | H : negb _ = false |- _ => apply negb_false_iff in H
    | H : bool_decide _ = true |- _ => apply bool_decide_eq_true in H
    end; done.
  - intros (Hp & Hv & Hm & Ht & Hl). pose proof (known_types_nonempty _ Ht) as Hn.
    apply streq_false in Hm, Hl, Hn. rewrite Hp, Hv, Hm, Hn, Hl.
    rewrite bool_decide_eq_true_2 by done. by vm_compute.
Qed.
