(* ===== verification/JsonValidation.v ===== *)
(** * JsonValidation: unique object keys, checked on the token stream

    internal/protocol/json_validation.go, over a model of
    [json.Decoder.Token], [More] and the scalar part of [Decode]. The main
    theorem relates the streaming check to the parsed value. *)
From S2P Require Import Prelude Utf8 Json Message.
Open Scope Z_scope.

(** ** The token decoder *)

Inductive tstate : Type :=
| TopValue | ArrayStart | ArrayValue | ArrayComma
| ObjectStart | ObjectKey | ObjectColon | ObjectValue | ObjectComma.

(** The unread bytes, the token state and the stack of enclosing states. *)
Record decoder : Type := mkDecoder { buf : string; st : tstate; stk : list tstate }.

(** Tokens: a delimiter, a string, or another scalar. *)
Inductive token : Type := TDelim (c : ascii) | TString (s : string) | TOther (v : json).

Inductive token_error : Type := TokEOF | TokSyntax | TokRange.

Definition tokenValueAllowed (s : tstate) : bool :=
  match s with TopValue | ArrayStart | ArrayValue | ObjectValue => true | _ => false end.

Definition tokenValueEnd (s : tstate) : tstate :=
  match s with
  | ArrayStart | ArrayValue => ArrayComma
  | ObjectValue => ObjectComma
  | _ => s
  end.

(** [More]: a next byte that closes nothing. *)
Definition More (d : decoder) : bool :=
  match skip_ws (buf d) with
  | String c _ => negb (c =a "]")%char && negb (c =a "}")%char
  | EmptyString => false
  end.

Definition open_delim (c : ascii) (inner : tstate) (s1 : string) (d : decoder)
  : result token_error (token * decoder) :=
  if tokenValueAllowed (st d)
  then Ok (TDelim c, mkDecoder s1 inner (st d :: stk d))
  else Err TokSyntax.

Definition close_delim (c : ascii) (ok : bool) (s1 : string) (d : decoder)
  : result token_error (token * decoder) :=
  match ok, stk d with
  | true, p :: stk' => Ok (TDelim c, mkDecoder s1 (tokenValueEnd p) stk')
  | _, _ => Err TokSyntax
  end.

(** [Decode] into an [any], on a value that is neither object nor array: a
    number out of the range of float64 is an error. *)
Definition decode_scalar (s : string) (d : decoder) : result token_error (token * decoder) :=
  if tokenValueAllowed (st d) then
    match scan_scalar s with
    | Some (JNum lit, rest) =>
        if number_overflows lit then Err TokRange
        else Ok (TOther (JNum lit), mkDecoder rest (tokenValueEnd (st d)) (stk d))
    | Some (JStr x, rest) => Ok (TString x, mkDecoder rest (tokenValueEnd (st d)) (stk d))
    | Some (v, rest) => Ok (TOther v, mkDecoder rest (tokenValueEnd (st d)) (stk d))
    | None => Err TokSyntax
    end
  else Err TokSyntax.

(** One turn of the loop in [Token]: a separator moves the state on, anything
    else is the answer. *)
Definition token_step (d : decoder) : decoder + result token_error (token * decoder) :=
  match skip_ws (buf d) with
  | EmptyString => inr (Err TokEOF)
  | String c s1 =>
      if (c =a "[")%char then inr (open_delim c ArrayStart s1 d)
      else if (c =a "]")%char then
        inr (close_delim c (match st d with ArrayStart | ArrayComma => true | _ => false end) s1 d)
      else if (c =a "{")%char then inr (open_delim c ObjectStart s1 d)
      else if (c =a "}")%char then
        inr (close_delim c (match st d with ObjectStart | ObjectComma => true | _ => false end) s1 d)
      else if (c =a ":")%char then
        match st d with
        | ObjectColon => inl (mkDecoder s1 ObjectValue (stk d))
        | _ => inr (Err TokSyntax)
        end
      else if (c =a ",")%char then
        match st d with
        | ArrayComma => inl (mkDecoder s1 ArrayValue (stk d))
        | ObjectComma => inl (mkDecoder s1 ObjectKey (stk d))
        | _ => inr (Err TokSyntax)
        end
      else if (c =a dquote) && match st d with ObjectStart | ObjectKey => true | _ => false end
      then
        inr match scan_string s1 with
            | Some (raw, rest) => Ok (TString (unquote raw), mkDecoder rest ObjectColon (stk d))
            | None => Err TokSyntax
            end
      else inr (decode_scalar (String c s1) d)
  end.

Fixpoint token_loop (fuel : nat) (d : decoder) : result token_error (token * decoder) :=
  match fuel with
  | O => Err TokSyntax
  | S f => match token_step d with inl d' => token_loop f d' | inr r => r end
  end.
Definition Token (d : decoder) : result token_error (token * decoder) :=
  token_loop (S (slen (buf d))) d.

(** ** The validator *)

Inductive cerror : Type :=
| CToken (e : token_error)
| CKeyNotString
| CDuplicate (key : string)
| CObjectOpen
| CArrayOpen
| CUnexpected (c : ascii)
| COutOfFuel.

Definition next_token (d : decoder) : result cerror (token * decoder) :=
  match Token d with Ok r => Ok r | Err e => Err (CToken e) end.

Definition is_delim (c : ascii) (t : token) : bool :=
  match t with TDelim c' => c' =a c | _ => false end.

(** The [case '{'] loop: [keys] are the names already seen in this object. *)
Fixpoint object_loop (consume : decoder → result cerror decoder) (fuel : nat)
  (keys : gset string) (d : decoder) : result cerror decoder :=
  match fuel with
  | O => Err COutOfFuel
  | S f =>
      if More d then
        '(tok, d1) ← next_token d;
        match tok with
        | TString key =>
            if bool_decide (key ∈ keys) then Err (CDuplicate key)
            else d2 ← consume d1; object_loop consume f ({[key]} ∪ keys) d2
        | _ => Err CKeyNotString
        end
      else
        '(tok, d1) ← next_token d;
        if is_delim "}" tok then Ok d1 else Err CObjectOpen
  end.

(** The [case '['] loop. *)
Fixpoint array_loop (consume : decoder → result cerror decoder) (fuel : nat)
  (d : decoder) : result cerror decoder :=
  match fuel with
  | O => Err COutOfFuel
  | S f =>
      if More d then d1 ← consume d; array_loop consume f d1
      else
        '(tok, d1) ← next_token d;
        if is_delim "]" tok then Ok d1 else Err CArrayOpen
  end.

(** [depth] bounds the recursion: one level per enclosing container. *)
Fixpoint consumeJSONValue (depth : nat) (d : decoder) : result cerror decoder :=
  '(tok, d1) ← next_token d;
  match tok with
  | TDelim c =>
      if (c =a "{")%char then
        match depth with
        | O => Err COutOfFuel
        | S k => object_loop (consumeJSONValue k) (S (slen (buf d1))) ∅ d1
        end
      else if (c =a "[")%char then
        match depth with
        | O => Err COutOfFuel
        | S k => array_loop (consumeJSONValue k) (S (slen (buf d1))) d1
        end
      else Err (CUnexpected c)
  | _ => Ok d1
  end.

Definition validateUniqueJSONKeys (data : string) : result perror unit :=
  match consumeJSONValue (S (slen data)) (mkDecoder data TopValue []) with
  | Err _ => Err (ErrInvalidMessage "invalid JSON")
  | Ok d => match Token d with
            | Err TokEOF => Ok tt
            | _ => Err (ErrInvalidMessage "trailing JSON data")
            end
  end.

(** ** What the validator promises *)

(** No object of the value has two equal keys. *)
Fixpoint unique_keys (v : json) : bool :=
  match v with
  | JArr l => forallb unique_keys l
  | JObj ms => bool_decide (NoDup (mkey <$> ms)) && forallb (λ m, unique_keys m.2.2) ms
  | _ => true
  end.

Fixpoint numbers_in_range (v : json) : bool :=
  match v with
  | JNum lit => negb (number_overflows lit)
  | JArr l => forallb numbers_in_range l
  | JObj ms => forallb (λ m, numbers_in_range m.2.2) ms
  | _ => true
  end.

Definition good (v : json) : bool := unique_keys v && numbers_in_range v.

(** ** Tokens at the positions where the validator reads *)

Lemma bind_Ok_iff {E A B} (m : result E A) (f : A → result E B) b :
  (m ≫= f) = Ok b ↔ ∃ a, m = Ok a ∧ f a = Ok b.
Proof.
  split; [apply bind_Ok_inv|]. intros (a & -> & H). exact H.
Qed.

Lemma bind_Some_iff {A B} (m : option A) (f : A → option B) b :
  (m ≫= f) = Some b ↔ ∃ a, m = Some a ∧ f a = Some b.
Proof. apply bind_Some. Qed.

Lemma Token_done d r : token_step d = inr r → Token d = r.
Proof. intros H. unfold Token. simpl. by rewrite H. Qed.

Lemma Token_sep d d' r :
  (1 ≤ slen (buf d))%nat → token_step d = inl d' → token_step d' = inr r → Token d = r.
Proof.
  intros Hb H H'. unfold Token. destruct (slen (buf d)) as [|n]; [lia|].
  simpl. by rewrite H, H'.
Qed.

Lemma skip_ws_nonempty s c s1 : skip_ws s = String c s1 → (1 ≤ slen s)%nat.
Proof. destruct s; simpl; [done|lia]. Qed.

(** Settles the true branch of a test by computation. *)
Ltac bool_step b := destruct b; [reflexivity|].

(** In a state where a value may start, no separator is skipped. *)
Lemma token_step_value s v k :
  tokenValueAllowed v = true →
  token_step (mkDecoder s v k) =
    inr match skip_ws s with
        | EmptyString => Err TokEOF
        | String c s1 =>
            if (c =a "[")%char then Ok (TDelim c, mkDecoder s1 ArrayStart (v :: k))
            else if (c =a "]")%char then
              close_delim c (match v with ArrayStart => true | _ => false end) s1 (mkDecoder s v k)
            else if (c =a "{")%char then Ok (TDelim c, mkDecoder s1 ObjectStart (v :: k))
            else if (c =a "}")%char || (c =a ":")%char || (c =a ",")%char then Err TokSyntax
            else decode_scalar (String c s1) (mkDecoder s v k)
        end.
Proof.
  intros Hv. unfold token_step, open_delim. cbn [buf st stk]. rewrite Hv.
  destruct (skip_ws s) as [|c s1]; [done|].
  destruct v; try discriminate Hv; bool_step (c =a "[")%char; bool_step (c =a "]")%char;
    bool_step (c =a "{")%char; bool_step (c =a "}")%char; bool_step (c =a ":")%char;
    bool_step (c =a ",")%char; destruct (c =a dquote); reflexivity.
Qed.

(** A closing or separating byte starts no value. *)
Lemma parse_value_none n s c s1 :
  skip_ws s = String c s1 →
  (c =a "]")%char || (c =a "}")%char || (c =a ":")%char || (c =a ",")%char = true →
  parse_value n s = None.
Proof.
  intros Hs Hc. destruct n; cbn [parse_value]; rewrite Hs;
  repeat (apply orb_true_iff in Hc as [Hc|Hc]); apply Ascii.eqb_eq in Hc; subst c; reflexivity.
Qed.

Lemma parse_value_nil n s : skip_ws s = "" → parse_value n s = None.
Proof. intros Hs. destruct n; cbn [parse_value]; by rewrite Hs. Qed.

Lemma expect_iff d s r :
  expect d s = Some r ↔ skip_ws s = String d r.
Proof.
  unfold expect. destruct (skip_ws s) as [|c s1]; [done|].
  destruct (Ascii.eqb_spec c d) as [->|Hne]; split; congruence.
Qed.

Lemma good_scalar s v rest : scan_scalar s = Some (v, rest) →
  match v with
  | JNum lit => good v = negb (number_overflows lit)
  | JArr _ | JObj _ => False
  | _ => good v = true
  end.
Proof.
  destruct s as [|c s1]; [done|]. cbn [scan_scalar].
  destruct (c =a dquote).
  { destruct (scan_string s1) as [[raw r]|]; [|done]. by intros [= <- <-]. }
  unfold literal.
  destruct (c =a "t")%char. { case_match; [by intros [= <- <-]|done]. }
  destruct (c =a "f")%char. { case_match; [by intros [= <- <-]|done]. }
  destruct (c =a "n")%char. { case_match; [by intros [= <- <-]|done]. }
  destruct (scan_number _) as [[lit r]|]; [|done]. by intros [= <- <-].
Qed.

(** A scalar is accepted exactly when it parses to a good value. *)
Lemma decode_scalar_iff s v k d' :
  tokenValueAllowed v = true →
  (∃ t, decode_scalar s (mkDecoder s v k) = Ok (t, d') ∧ (∀ c, t ≠ TDelim c)) ↔
  ∃ j rest, scan_scalar s = Some (j, rest) ∧ good j = true
            ∧ d' = mkDecoder rest (tokenValueEnd v) k.
Proof.
  intros Hv. unfold decode_scalar. cbn [st stk]. rewrite Hv.
  destruct (scan_scalar s) as [[j rest]|] eqn:Hs; [|by split; [intros (?&?&_)|intros (?&?&?&_)]].
  pose proof (good_scalar s j rest Hs) as Hg.
  assert (Hex : ∀ x : decoder, (∃ j0 rest0, Some (j, rest) = Some (j0, rest0) ∧ good j0 = true
     ∧ d' = mkDecoder rest0 (tokenValueEnd v) k) ↔ good j = true ∧ d' = mkDecoder rest (tokenValueEnd v) k).
  { intros _. split; [by intros (? & ? & [= <- <-] & ? & ->)|]. intros [? ->]. eauto. }
  rewrite (Hex d'). clear Hex.
  destruct j; try contradiction; try (rewrite Hg; destruct (number_overflows _));
  try (split; [by intros (? & [= <- <-] & _)|]; intros [_ ->]; eexists; split; [done|]; done);
  try (split; [by intros (? & ? & _)|]; by intros [? _]).
Qed.

(** ** Separators *)

Definition consume_tok (n : nat) (r : token * decoder) : result cerror decoder :=
  match r.1 with
  | TDelim c =>
      if (c =a "{")%char then
        match n with
        | O => Err COutOfFuel
        | S k => object_loop (consumeJSONValue k) (S (slen (buf r.2))) ∅ r.2
        end
      else if (c =a "[")%char then
        match n with
        | O => Err COutOfFuel
        | S k => array_loop (consumeJSONValue k) (S (slen (buf r.2))) r.2
        end
      else Err (CUnexpected c)
  | _ => Ok r.2
  end.

Lemma consume_unfold n d : consumeJSONValue n d = next_token d ≫= consume_tok n.
Proof. destruct n; cbn [consumeJSONValue]; destruct (next_token d) as [[? ?]|]; reflexivity. Qed.

Lemma next_token_Ok d r : next_token d = Ok r ↔ Token d = Ok r.
Proof. unfold next_token. destruct (Token d); split; congruence. Qed.

Lemma consume_Ok n d d' :
  consumeJSONValue n d = Ok d' ↔ ∃ r, Token d = Ok r ∧ consume_tok n r = Ok d'.
Proof. rewrite consume_unfold, bind_Ok_iff. by setoid_rewrite next_token_Ok. Qed.

Lemma Token_value s v k : tokenValueAllowed v = true →
  token_step (mkDecoder s v k) = inr (Token (mkDecoder s v k)).
Proof.
  intros Hv. pose proof (token_step_value s v k Hv) as H. rewrite H.
  symmetry. f_equal. by apply Token_done.
Qed.

Lemma Token_colon s k r :
  Token (mkDecoder s ObjectColon k) = Ok r ↔
  ∃ s1, expect ":" s = Some s1 ∧ Token (mkDecoder s1 ObjectValue k) = Ok r.
Proof.
  setoid_rewrite expect_iff. destruct (skip_ws s) as [|c s1] eqn:Hs.
  { rewrite (Token_done _ (Err TokEOF)) by (unfold token_step; cbn [buf]; by rewrite Hs).
    split; [done|]. by intros (? & ? & _). }
  destruct (Ascii.eqb_spec c ":") as [->|Hne].
  - rewrite (Token_sep _ (mkDecoder s1 ObjectValue k) (Token (mkDecoder s1 ObjectValue k))).
    + split; [eauto|]. by intros (? & [= ->] & ?).
    + simpl. by eapply skip_ws_nonempty.
    + unfold token_step. cbn [buf]. by rewrite Hs.
    + by apply Token_value.
  - rewrite (Token_done _ (Err TokSyntax)).
    + split; [done|]. by intros (? & [= -> _] & _).
    + unfold token_step. cbn [buf]. rewrite Hs. cbn [st].
      bool_step (c =a "[")%char; bool_step (c =a "]")%char; bool_step (c =a "{")%char;
      bool_step (c =a "}")%char. destruct (Ascii.eqb_spec c ":"); [done|].
      bool_step (c =a ",")%char. by rewrite andb_false_r.
Qed.

Lemma Token_array_comma s k r :
  r.1 ≠ TDelim "]" →
  Token (mkDecoder s ArrayComma k) = Ok r ↔
  ∃ s1, expect "," s = Some s1 ∧ Token (mkDecoder s1 ArrayValue k) = Ok r.
Proof.
  intros Hr. setoid_rewrite expect_iff. destruct (skip_ws s) as [|c s1] eqn:Hs.
  { rewrite (Token_done _ (Err TokEOF)) by (unfold token_step; cbn [buf]; by rewrite Hs).
    split; [done|]. by intros (? & ? & _). }
  destruct (Ascii.eqb_spec c ",") as [->|Hne].
  - rewrite (Token_sep _ (mkDecoder s1 ArrayValue k) (Token (mkDecoder s1 ArrayValue k))).
    + split; [eauto|]. by intros (? & [= ->] & ?).
    + simpl. by eapply skip_ws_nonempty.
    + unfold token_step. cbn [buf]. by rewrite Hs.
    + by apply Token_value.
  - assert (∃ o, token_step (mkDecoder s ArrayComma k) = inr o ∧ (o = Ok r → r.1 = TDelim "]")) as (o & Ho & Hor).
    { unfold token_step. cbn [buf]. rewrite Hs. cbn [st].
      destruct (c =a "[")%char; [eexists; by split|].
      destruct (Ascii.eqb_spec c "]") as [->|_].
      { eexists; split; [done|]. unfold close_delim. cbn [stk]. destruct k; [done|]. by intros [= <-]. }
      destruct (c =a "{")%char; [eexists; by split|]. destruct (c =a "}")%char; [eexists; by split|].
      destruct (c =a ":")%char; [eexists; by split|]. destruct (Ascii.eqb_spec c ","); [done|].
      rewrite andb_false_r. eexists; by split. }
    rewrite (Token_done _ _ Ho). split; [by intros ?%Hor|]. by intros (? & [= -> _] & _).
Qed.

Lemma consume_sep n s k d' :
  (consumeJSONValue n (mkDecoder s ArrayComma k) = Ok d' ↔
   ∃ s1, expect "," s = Some s1 ∧ consumeJSONValue n (mkDecoder s1 ArrayValue k) = Ok d') ∧
  (consumeJSONValue n (mkDecoder s ObjectColon k) = Ok d' ↔
   ∃ s1, expect ":" s = Some s1 ∧ consumeJSONValue n (mkDecoder s1 ObjectValue k) = Ok d').
Proof.
  setoid_rewrite consume_Ok. split.
  - assert (Hr : ∀ r, consume_tok n r = Ok d' → r.1 ≠ TDelim "]")
      by (intros [t d1] Hc Ht; simpl in Ht; subst t; by destruct n).
    split.
    + intros (r & Ht & Hc). apply Token_array_comma in Ht as (s1 & Hs & Ht); [|by apply Hr]. eauto.
    + intros (s1 & Hs & r & Ht & Hc). exists r. split; [|done].
      apply Token_array_comma; [by apply Hr|]. eauto.
  - setoid_rewrite Token_colon. naive_solver.
Qed.

(** The key of a member: the separator, the opening quote and the string. *)
Lemma Token_key s (first : bool) k r :
  More (mkDecoder s (if first then ObjectStart else ObjectComma) k) = true →
  Token (mkDecoder s (if first then ObjectStart else ObjectComma) k) = Ok r ↔
  ∃ s1 s2 raw rest, next_item first s = Some s1 ∧ expect dquote s1 = Some s2
    ∧ scan_string s2 = Some (raw, rest)
    ∧ r = (TString (unquote raw), mkDecoder rest ObjectColon k).
Proof.
  assert (Hkey : ∀ s1 x, x = ObjectStart ∨ x = ObjectKey →
    ((match skip_ws s1 with String c _ => (c =a "}")%char = false | "" => True end) ∨ x = ObjectKey) →
    ∃ o, token_step (mkDecoder s1 x k) = inr o ∧
      (o = Ok r ↔ ∃ s2 raw rest, expect dquote s1 = Some s2 ∧ scan_string s2 = Some (raw, rest)
         ∧ r = (TString (unquote raw), mkDecoder rest ObjectColon k))).
  { intros s1 x Hx Hc. setoid_rewrite expect_iff. unfold token_step. cbn [buf].
    destruct (skip_ws s1) as [|c s2].
    { eexists; split; [done|]. split; [done|]. by intros (? & ? & ? & ? & _). }
    cbn [st]. destruct (Ascii.eqb_spec c dquote) as [->|Hne].
    { destruct Hx as [-> | ->]; cbn; eexists; (split; [reflexivity|]);
      (destruct (scan_string s2) as [[raw rest]|] eqn:Hsc; split;
       [intros [= <-]; eauto 8 | by intros (? & ? & ? & [= <-] & ? & ->); simplify_eq
       | done | by intros (? & ? & ? & [= <-] & ? & _); simplify_eq]). }
    exists (Err TokSyntax). split.
    - destruct (c =a "[")%char; [by destruct Hx as [-> | ->]|].
      destruct (c =a "]")%char; [by destruct Hx as [-> | ->]|].
      destruct (c =a "{")%char; [by destruct Hx as [-> | ->]|].
      destruct (c =a "}")%char; [by destruct Hx as [-> | ->], Hc|].
      destruct (c =a ":")%char; [by destruct Hx as [-> | ->]|].
      destruct (c =a ",")%char; [by destruct Hx as [-> | ->]|].
      simpl. by destruct Hx as [-> | ->].
    - split; [done|]. by intros (? & ? & ? & [= -> _] & _). }
  unfold More. cbn [buf]. destruct (skip_ws s) as [|c s1] eqn:Hs; [done|].
  intros [Hc1 Hc2]%andb_true_iff. apply negb_true_iff in Hc1, Hc2. destruct first.
  - destruct (Hkey s ObjectStart) as (o & Ho & Hiff); [by left|left; by rewrite Hs|].
    rewrite (Token_done _ _ Ho), Hiff. simpl. naive_solver.
  - destruct (Ascii.eqb_spec c ",") as [->|Hne].
    + destruct (Hkey s1 ObjectKey) as (o & Ho & Hiff); [by right..|].
      rewrite (Token_sep _ (mkDecoder s1 ObjectKey k) o); [| |unfold token_step; cbn [buf]; by rewrite Hs|done].
      2:{ simpl. by eapply skip_ws_nonempty. }
      rewrite Hiff. unfold next_item. rewrite (proj2 (expect_iff "," s s1) Hs). naive_solver.
    + rewrite (Token_done _ (Err TokSyntax)).
      * split; [done|]. intros (? & ? & ? & ? & Hn & _). simpl in Hn. apply expect_iff in Hn. congruence.
      * unfold token_step. cbn [buf]. rewrite Hs. cbn [st]. bool_step (c =a "[")%char.
        rewrite Hc1. bool_step (c =a "{")%char. rewrite Hc2. bool_step (c =a ":")%char.
        destruct (Ascii.eqb_spec c ","); [done|]. by rewrite andb_false_r.
Qed.

(** ** The loops and the value, against the parser *)

Definition value_spec (n : nat) : Prop := ∀ s v k d',
  tokenValueAllowed v = true →
  consumeJSONValue n (mkDecoder s v k) = Ok d' ↔
  ∃ j rest, parse_value n s = Some (j, rest) ∧ good j = true
            ∧ d' = mkDecoder rest (tokenValueEnd v) k.

(** The end of a container: the closing delimiter pops the state. *)
Lemma Token_close s (c : ascii) x p k tok d1 :
  More (mkDecoder s x (p :: k)) = false →
  (c = "]"%char ∧ (x = ArrayStart ∨ x = ArrayComma)) ∨ (c = "}"%char ∧ (x = ObjectStart ∨ x = ObjectComma)) →
  (next_token (mkDecoder s x (p :: k)) = Ok (tok, d1) ∧ is_delim c tok = true) ↔
  (tok = TDelim c ∧ ∃ rest, expect c s = Some rest ∧ d1 = mkDecoder rest (tokenValueEnd p) k).
Proof.
  intros HM Hx. rewrite next_token_Ok. setoid_rewrite expect_iff.
  unfold More in HM. cbn [buf] in HM. destruct (skip_ws s) as [|c' s1] eqn:Hs.
  { rewrite (Token_done _ (Err TokEOF)) by (unfold token_step; cbn [buf]; by rewrite Hs).
    split; [by intros [? _]|]. by intros (_ & ? & ? & _). }
  assert (c' = "]"%char ∨ c' = "}"%char) as Hc'.
  { destruct (Ascii.eqb_spec c' "]"); [by left|]. destruct (Ascii.eqb_spec c' "}"); [by right|done]. }
  assert (∃ o, token_step (mkDecoder s x (p :: k)) = inr o ∧
    ((o = Ok (tok, d1) ∧ is_delim c tok = true) ↔
     c' = c ∧ tok = TDelim c ∧ d1 = mkDecoder s1 (tokenValueEnd p) k)) as (o & Ho & Hiff).
  { unfold token_step. cbn [buf]. rewrite Hs. cbn [st].
    destruct Hx as [[-> [-> | ->]]|[-> [-> | ->]]], Hc' as [-> | ->]; cbn;
      eexists; (split; [reflexivity|]); naive_solver. }
  rewrite (Token_done _ _ Ho), Hiff. naive_solver.
Qed.

Lemma More_other s x k : More (mkDecoder s x k) = true →
  expect "]" s = None ∧ expect "}" s = None.
Proof.
  unfold More, expect. cbn [buf]. destruct (skip_ws s); [done|].
  intros [H1%negb_true_iff H2%negb_true_iff]%andb_true_iff. by rewrite H1, H2.
Qed.

(** When [More] is false, an element can only be missing. *)
Lemma no_item first n s x k : More (mkDecoder s x k) = false →
  next_item first s ≫= parse_value n = None ∧
  (∀ s1, next_item first s = Some s1 → expect dquote s1 = None).
Proof.
  unfold More, next_item. cbn [buf]. intros HM. destruct (skip_ws s) as [|c s1] eqn:Hs.
  - destruct first; cbn [mbind option_bind]; (split; [|intros s2 Hs2]).
    + by apply parse_value_nil.
    + simplify_eq. unfold expect. by rewrite Hs.
    + unfold expect. by rewrite Hs.
    + unfold expect in Hs2. by rewrite Hs in Hs2.
  - assert (Hc : c = "]"%char ∨ c = "}"%char).
    { destruct (Ascii.eqb_spec c "]"); [by left|]. destruct (Ascii.eqb_spec c "}"); [by right|done]. }
    destruct first; cbn [mbind option_bind]; (split; [|intros s2 Hs2]).
    + eapply parse_value_none; [done|]. by destruct Hc as [-> | ->].
    + simplify_eq. unfold expect. rewrite Hs. by destruct Hc as [-> | ->].
    + unfold expect. rewrite Hs. by destruct Hc as [-> | ->].
    + unfold expect in Hs2. rewrite Hs in Hs2. by destruct Hc as [-> | ->].
Qed.

(** Consuming one array element is separator plus value. *)
Lemma consume_item n (first : bool) s k d' : value_spec n →
  consumeJSONValue n (mkDecoder s (if first then ArrayStart else ArrayComma) k) = Ok d' ↔
  ∃ j rest, next_item first s ≫= parse_value n = Some (j, rest) ∧ good j = true
            ∧ d' = mkDecoder rest ArrayComma k.
Proof.
  intros IH. destruct first; cbn [next_item mbind option_bind].
  - by apply (IH s ArrayStart).
  - unfold value_spec in IH. rewrite (proj1 (consume_sep n s k d')). split.
    + intros (s1 & -> & Hc). apply IH in Hc; done.
    + intros (j & rest & Hp & Hg & ->). apply bind_Some in Hp as (s1 & Hs1 & Hp).
      exists s1. split; [done|]. apply IH; eauto.
Qed.

Lemma array_loop_iff n fuel (first : bool) s p k d' : value_spec n →
  array_loop (consumeJSONValue n) fuel (mkDecoder s (if first then ArrayStart else ArrayComma) (p :: k)) = Ok d' ↔
  ∃ vs rest, parse_elems (parse_value n) fuel first s = Some (vs, rest)
    ∧ forallb good vs = true ∧ d' = mkDecoder rest (tokenValueEnd p) k.
Proof.
  intros IHn. revert first s. induction fuel as [|fuel IH]; intros first s.
  { split; [done|]. by intros (? & ? & ? & _). }
  cbn [array_loop parse_elems]. destruct (More _) eqn:HM.
  - apply More_other in HM as [-> _]. rewrite bind_Ok_iff. split.
    + intros (d1 & Hc & Hl). apply consume_item in Hc as (j & rest & Hp & Hg & ->); [|done].
      apply bind_Some in Hp as (s1 & -> & Hp). cbn [mbind option_bind]. rewrite Hp. cbn [mbind option_bind].
      apply (IH false) in Hl as (vs & rest' & -> & Hgs & ->). simpl. eexists _, _.
      split; [done|]. simpl. by rewrite Hg, Hgs.
    + intros (vs & rest & Hp & Hg & ->). apply bind_Some in Hp as (s1 & Hs1 & Hp).
      apply bind_Some in Hp as ([v s2] & Hv & Hp). apply bind_Some in Hp as ([vs' s3] & Hr & [= <- <-]).
      simpl in Hg. apply andb_true_iff in Hg as [Hg Hgs]. eexists. split.
      * apply consume_item; [done|]. exists v, s2. rewrite Hs1. done.
      * apply (IH false). eauto.
  - destruct (no_item first n s _ _ HM) as [Hno _].
    transitivity (∃ rest, expect "]" s = Some rest ∧ d' = mkDecoder rest (tokenValueEnd p) k).
    + rewrite bind_Ok_iff. split.
      * intros ([tok d1] & Ht & Hc). destruct (is_delim "]" tok) eqn:Hd; [|done]. injection Hc as ->.
        destruct (proj1 (Token_close s "]" _ p k tok d' HM ltac:(left; destruct first; auto)) (conj Ht Hd))
          as (_ & rest & Hr & ->). eauto.
      * intros (rest & Hr & ->).
        destruct (proj2 (Token_close s "]" _ p k (TDelim "]") (mkDecoder rest (tokenValueEnd p) k) HM ltac:(left; destruct first; auto)))
          as [Ht Hd]; [eauto|]. eexists. split; [exact Ht|done].
    + destruct (expect "]" s) as [rest|].
      * split; [intros (? & [= <-] & ->); exists [], rest; done|]. intros (? & ? & [= <- <-] & _ & ->). eauto.
      * split; [by intros (? & ? & _)|]. intros (? & ? & Hp & _). exfalso.
        apply bind_Some in Hp as (s1 & Hs1 & Hp). apply bind_Some in Hp as ([v s2] & Hv & _).
        rewrite Hs1 in Hno. simpl in Hno. congruence.
Qed.

(** One member: its key is new, and colon and value follow. *)
Lemma consume_member_value n s k d' : value_spec n →
  consumeJSONValue n (mkDecoder s ObjectColon k) = Ok d' ↔
  ∃ s1 j rest, expect ":" s = Some s1 ∧ parse_value n s1 = Some (j, rest) ∧ good j = true
            ∧ d' = mkDecoder rest ObjectComma k.
Proof.
  intros IH. unfold value_spec in IH. rewrite (proj2 (consume_sep n s k d')).
  setoid_rewrite IH; [|done]. naive_solver.
Qed.

Lemma parse_member_iff (pv : parser) s m rest :
  parse_member pv s = Some (m, rest) ↔
  ∃ s1 raw s2 s3 v, expect dquote s = Some s1 ∧ scan_string s1 = Some (raw, s2)
    ∧ expect ":" s2 = Some s3 ∧ pv s3 = Some (v, rest)
    ∧ m = (unquote raw, (consumed (skip_ws s3) rest, v)).
Proof.
  unfold parse_member. split.
  - intros H. apply bind_Some in H as (s1 & H1 & H). apply bind_Some in H as ([raw s2] & H2 & H).
    apply bind_Some in H as (s3 & H3 & H). apply bind_Some in H as ([v s4] & H4 & [= <- <-]). eauto 12.
  - intros (s1 & raw & s2 & s3 & v & -> & Hs & Hc & Hv & ->). simpl. rewrite Hs. simpl.
    rewrite Hc. simpl. by rewrite Hv.
Qed.

Definition fresh_keys (keys : gset string) (ms : list member) : Prop :=
  NoDup (mkey <$> ms) ∧ ∀ x, x ∈ mkey <$> ms → x ∉ keys.

Lemma fresh_keys_cons keys m ms :
  fresh_keys keys (m :: ms) ↔ mkey m ∉ keys ∧ fresh_keys ({[mkey m]} ∪ keys) ms.
Proof.
  unfold fresh_keys. rewrite fmap_cons, NoDup_cons. set_solver.
Qed.

Lemma object_loop_iff n fuel keys (first : bool) s p k d' : value_spec n →
  object_loop (consumeJSONValue n) fuel keys
    (mkDecoder s (if first then ObjectStart else ObjectComma) (p :: k)) = Ok d' ↔
  ∃ ms rest, parse_members (parse_value n) fuel first s = Some (ms, rest)
    ∧ forallb (λ m, good (mval m)) ms = true ∧ fresh_keys keys ms
    ∧ d' = mkDecoder rest (tokenValueEnd p) k.
Proof.
  intros IHn. revert keys first s. induction fuel as [|fuel IH]; intros keys first s.
  { split; [done|]. by intros (? & ? & ? & _). }
  cbn [object_loop parse_members]. destruct (More _) eqn:HM.
  - pose proof HM as [_ ->]%More_other. rewrite bind_Ok_iff. split.
    + intros ([tok d1] & Ht & Hc). apply next_token_Ok, Token_key in Ht; [|done].
      destruct Ht as (s1 & s2 & raw & s3 & Hs1 & Hs2 & Hsc & [= -> ->]).
      case_bool_decide as Hin; [done|]. apply bind_Ok_iff in Hc as (d2 & Hv & Hl).
      apply consume_member_value in Hv as (s4 & j & s5 & Hs4 & Hv & Hg & ->); [|done].
      apply (IH _ false) in Hl as (ms & rest & Hms & Hgs & Hfr & ->).
      rewrite Hs1. cbn [mbind option_bind].
      rewrite (proj2 (parse_member_iff (parse_value n) s1 _ _)) by eauto 12.
      cbn [mbind option_bind]. rewrite Hms. eexists _, _. split; [done|].
      cbn [forallb]. rewrite Hgs. cbn. rewrite Hg. by rewrite fresh_keys_cons.
    + intros (ms & rest & Hp & Hg & Hfr & ->). apply bind_Some in Hp as (s1 & Hs1 & Hp).
      apply bind_Some in Hp as ([m s2] & Hm & Hp). apply bind_Some in Hp as ([ms' s3] & Hr & [= <- <-]).
      apply parse_member_iff in Hm as (s4 & raw & s5 & s6 & v & H4 & Hsc & H6 & Hv & ->).
      cbn [forallb mval fst snd] in Hg. apply andb_true_iff in Hg as [Hg Hgs].
      apply fresh_keys_cons in Hfr as [Hk Hfr]. cbn [mkey fst] in *.
      exists (TString (unquote raw), mkDecoder s5 ObjectColon (p :: k)). split.
      { apply next_token_Ok, Token_key; eauto 10. }
      rewrite bool_decide_eq_false_2 by done. apply bind_Ok_iff. eexists. split.
      * apply consume_member_value; eauto 10.
      * apply (IH _ false). eauto 10.
  - destruct (no_item first n s _ _ HM) as [_ Hno].
    transitivity (∃ rest, expect "}" s = Some rest ∧ d' = mkDecoder rest (tokenValueEnd p) k).
    + rewrite bind_Ok_iff. split.
      * intros ([tok d1] & Ht & Hc). destruct (is_delim "}" tok) eqn:Hd; [|done]. injection Hc as ->.
        destruct (proj1 (Token_close s "}" _ p k tok d' HM ltac:(right; destruct first; auto)) (conj Ht Hd))
          as (_ & rest & Hr & ->). eauto.
      * intros (rest & Hr & ->).
        destruct (proj2 (Token_close s "}" _ p k (TDelim "}") (mkDecoder rest (tokenValueEnd p) k) HM ltac:(right; destruct first; auto)))
          as [Ht Hd]; [eauto|]. eexists. split; [exact Ht|done].
    + destruct (expect "}" s) as [rest|].
      * split; [intros (? & [= <-] & ->); exists [], rest; repeat split; try done; [constructor|by intros x ?%elem_of_nil]|].
        intros (? & ? & [= <- <-] & _ & _ & ->). eauto.
      * split; [by intros (? & ? & _)|]. intros (? & ? & Hp & _). exfalso.
        apply bind_Some in Hp as (s1 & Hs1 & Hp). apply bind_Some in Hp as ([m s2] & Hm & _).
        apply parse_member_iff in Hm as (? & ? & ? & ? & ? & Hq & _). rewrite Hno in Hq; done.
Qed.

Lemma good_arr l : good (JArr l) = forallb good l.
Proof.
  unfold good. simpl. induction l as [|x l IH]; [done|]. simpl. rewrite <-IH.
  destruct (unique_keys x), (numbers_in_range x), (forallb unique_keys l); done.
Qed.

Lemma good_obj ms :
  good (JObj ms) = bool_decide (NoDup (mkey <$> ms)) && forallb (λ m, good (mval m)) ms.
Proof.
  unfold good. simpl. rewrite <-andb_assoc. f_equal.
  induction ms as [|m ms IH]; [done|]. simpl. rewrite <-IH. unfold mval.
  destruct (unique_keys m.2.2), (numbers_in_range m.2.2), (forallb _ ms); done.
Qed.

Lemma parse_value_unfold n s :
  parse_value n s =
    match skip_ws s with
    | EmptyString => None
    | String c s1 =>
        if (c =a "{")%char then
          match n with
          | O => None
          | S d => '(ms, rest) ← parse_members (parse_value d) (S (slen s1)) true s1;
                   Some (JObj ms, rest)
          end
        else if (c =a "[")%char then
          match n with
          | O => None
          | S d => '(vs, rest) ← parse_elems (parse_value d) (S (slen s1)) true s1;
                   Some (JArr vs, rest)
          end
        else scan_scalar (String c s1)
    end.
Proof. by destruct n. Qed.

Lemma consume_array_spec n s1 v k d' : (∀ m, m < n → value_spec m)%nat →
  consume_tok n (TDelim "[", mkDecoder s1 ArrayStart (v :: k)) = Ok d' ↔
  ∃ j rest, match n with
            | O => None
            | S d => '(vs, rest) ← parse_elems (parse_value d) (S (slen s1)) true s1;
                     Some (JArr vs, rest)
            end = Some (j, rest) ∧ good j = true ∧ d' = mkDecoder rest (tokenValueEnd v) k.
Proof.
  intros IH. destruct n as [|n]; [split; [done|by intros (? & ? & ? & _)]|].
  unfold consume_tok. cbn [fst snd buf].
  change (if ("[" =a "{")%char then _ else ?e) with e. cbn match.
  pose proof (array_loop_iff n (S (slen s1)) true s1 v k d' (IH n ltac:(lia))) as Hl.
  cbn beta iota in Hl. rewrite Hl. split.
  - intros (vs & rest & -> & Hg & ->). eexists _, _. split; [done|]. by rewrite good_arr.
  - intros (j & rest & Hp & Hg & ->). apply bind_Some in Hp as ([vs s2] & -> & [= <- <-]).
    rewrite good_arr in Hg. eauto.
Qed.

Lemma consume_object_spec n s1 v k d' : (∀ m, m < n → value_spec m)%nat →
  consume_tok n (TDelim "{", mkDecoder s1 ObjectStart (v :: k)) = Ok d' ↔
  ∃ j rest, match n with
            | O => None
            | S d => '(ms, rest) ← parse_members (parse_value d) (S (slen s1)) true s1;
                     Some (JObj ms, rest)
            end = Some (j, rest) ∧ good j = true ∧ d' = mkDecoder rest (tokenValueEnd v) k.
Proof.
  intros IH. destruct n as [|n]; [split; [done|by intros (? & ? & ? & _)]|].
  unfold consume_tok. cbn [fst snd buf].
  change (if ("{" =a "{")%char then ?e else _) with e. cbn match.
  pose proof (object_loop_iff n (S (slen s1)) ∅ true s1 v k d' (IH n ltac:(lia))) as Hl.
  cbn beta iota in Hl. rewrite Hl. split.
  - intros (ms & rest & -> & Hg & [Hnd _] & ->). eexists _, _. split; [done|].
    by rewrite good_obj, bool_decide_eq_true_2, Hg.
  - intros (j & rest & Hp & Hg & ->). apply bind_Some in Hp as ([ms s2] & -> & [= <- <-]).
    rewrite good_obj in Hg. apply andb_true_iff in Hg as [Hnd%bool_decide_eq_true Hg].
    exists ms, s2. by repeat split.
Qed.

(** The streaming check consumes exactly the good values, at every depth. *)
Lemma consume_value_spec n : value_spec n.
Proof.
  induction n as [n IH] using lt_wf_ind. intros s v k d' Hv. rewrite consume_Ok.
  rewrite (Token_done _ _ (token_step_value s v k Hv)), parse_value_unfold.
  destruct (skip_ws s) as [|c s1] eqn:Hs.
  { split; [by intros (? & ? & _)|]. by intros (? & ? & ? & _). }
  destruct (Ascii.eqb_spec c "[") as [->|Hb].
  { rewrite <-(consume_array_spec n s1 v k d') by done. naive_solver. }
  destruct (Ascii.eqb_spec c "{") as [->|Ho].
  { rewrite <-(consume_object_spec n s1 v k d') by done. simpl. naive_solver. }
  assert (Hbad : ∀ c', c = c' → (c' =a "]")%char || (c' =a "}")%char || (c' =a ":")%char || (c' =a ",")%char = true →
            scan_scalar (String c s1) = None).
  { intros c' -> Hc'. pose proof (parse_value_none n s c' s1 Hs Hc') as Hn.
    rewrite parse_value_unfold, Hs in Hn.
    destruct (Ascii.eqb_spec c' "["), (Ascii.eqb_spec c' "{"); congruence. }
  destruct (Ascii.eqb_spec c "]") as [->|Hc].
  { rewrite (Hbad "]"%char) by done. split; [|by intros (? & ? & ? & _)].
    intros ([t d1] & Ht & Hc). unfold close_delim in Ht. cbn [stk] in Ht.
    destruct v, k; try discriminate Ht; injection Ht as <- <-; by destruct n. }
  destruct ((c =a "}")%char || (c =a ":")%char || (c =a ",")%char) eqn:Hsep.
  { rewrite (Hbad c eq_refl) by (destruct (c =a "]")%char; simpl; done).
    split; [by intros (? & ? & _)|by intros (? & ? & ? & _)]. }
  assert (Hdec : ∀ t d1, decode_scalar (String c s1) (mkDecoder s v k) = Ok (t, d1) →
     ∀ x, t ≠ TDelim x).
  { unfold decode_scalar. intros t d1 Ht x ->. repeat case_match; simplify_eq. }
  assert (Hsame : decode_scalar (String c s1) (mkDecoder s v k)
                = decode_scalar (String c s1) (mkDecoder (String c s1) v k)) by done.
  rewrite <-decode_scalar_iff, <-Hsame by done. split.
  - intros ([t d1] & Ht & Hc'). pose proof (Hdec _ _ Ht) as Hnd.
    destruct t as [x| |]; [by destruct (Hnd x)|..]; injection Hc' as <-; eauto.
  - intros (t & Ht & Hnd). exists (t, d'). split; [done|]. by destruct t as [x| |]; [destruct (Hnd x)|..].
Qed.

(** ** The validator *)

Lemma Token_at_end rest : Token (mkDecoder rest TopValue []) = Err TokEOF ↔ at_end rest = true.
Proof.
  rewrite (Token_done _ _ (token_step_value rest TopValue [] eq_refl)).
  unfold at_end. destruct (skip_ws rest) as [|c s1]; [done|].
  split; [|done]. unfold decode_scalar, close_delim. repeat case_match; done.
Qed.

Lemma validateUniqueJSONKeys_iff data :
  validateUniqueJSONKeys data = Ok tt ↔
  ∃ depth v rest, parse_value depth data = Some (v, rest) ∧ at_end rest = true
    ∧ unique_keys v = true ∧ numbers_in_range v = true.
Proof.
  unfold validateUniqueJSONKeys.
  pose proof (consume_value_spec (S (slen data)) data TopValue []) as Hspec. split.
  - destruct (consumeJSONValue _ _) as [d|]; [|done].
    destruct (proj1 (Hspec d eq_refl) eq_refl) as (v & rest & Hp & Hg & ->).
    destruct (Token _) as [|[]] eqn:Ht; try done. intros _.
    apply Token_at_end in Ht. unfold good in Hg. apply andb_true_iff in Hg as [Hu Hn]. eauto 8.
  - intros (depth & v & rest & Hp & He & Hu & Hn).
    rewrite (proj2 (Hspec (mkDecoder rest TopValue []) eq_refl)).
    + cbn [tokenValueEnd]. by rewrite (proj2 (Token_at_end rest) He).
    + exists v, rest. split; [eapply parse_value_enough; [|done]; lia|].
      split; [|done]. unfold good. by rewrite Hu, Hn.
Qed.

(** C7. [validateUniqueJSONKeys] accepts exactly the texts that hold one JSON
    value, white space around it allowed, in which no object repeats a key and
    no number exceeds the range of float64; the value may be nested to any
    depth. The streaming token check is thereby equivalent to a check on the
    parsed value. *)
Theorem validateUniqueJSONKeys_spec data :
  validateUniqueJSONKeys data = Ok tt ↔
  ∃ depth v rest, parse_value depth data = Some (v, rest) ∧ at_end rest = true
    ∧ unique_keys v = true ∧ numbers_in_range v = true.
Proof. apply validateUniqueJSONKeys_iff. Qed.

Lemma validateUniqueJSONKeys_error data e :
  validateUniqueJSONKeys data = Err e → is_ErrInvalidMessage e = true.
Proof.
  unfold validateUniqueJSONKeys. destruct (consumeJSONValue _ _); [|by intros [= <-]].
  destruct (Token _) as [|[]]; try done; by intros [= <-].
Qed.

(** The recursion of [consumeJSONValue] is as deep as the text is nested and
    has no bound of its own: [n] opening brackets need [n] levels. *)
Fixpoint brackets (n : nat) : string :=
  match n with O => "" | S n => String "[" (brackets n) end.

Lemma consume_depth_unbounded n d v k :
  (d < n)%nat → tokenValueAllowed v = true →
  consumeJSONValue d (mkDecoder (brackets n) v k) = Err COutOfFuel.
Proof.
  revert n v k. induction d as [|d IH]; intros n v k Hd Hv;
    (destruct n as [|n]; [lia|]); rewrite consume_unfold; unfold next_token;
    rewrite (Token_done _ _ (token_step_value _ v k Hv)); cbn [brackets skip_ws];
    change (is_space "[") with false; [done|].
  destruct n as [|n]; [lia|]. cbn. unfold More. cbn.
  change (String "[" (brackets n)) with (brackets (S n)). rewrite IH; [done|lia|done].
Qed.
