(* ===== verification/Codec.v ===== *)
(** * Codec: length-prefixed frames

    internal/protocol/codec.go: the encoder over a writer that may accept only
    part of a write, and the decoder over a reader that delivers its bytes in
    arbitrary chunks. *)
From S2P Require Import Prelude Utf8 Json Message JsonValidation.
Open Scope Z_scope.

Definition FrameHeaderSize : nat := 4.
Definition MaxPayloadSize : Z := 4 * 1024 * 1024.

(** [binary.BigEndian.PutUint32] and [Uint32]. *)
Definition PutUint32 (n : Z) : string :=
  String (chr (n / 2 ^ 24 mod 256)) (String (chr (n / 2 ^ 16 mod 256))
    (String (chr (n / 2 ^ 8 mod 256)) (String (chr (n mod 256)) ""))).
Definition Uint32 (s : string) : Z :=
  match s with
  | String a (String b (String c (String d _))) =>
      ((code a * 256 + code b) * 256 + code c) * 256 + code d
  | _ => 0
  end.

(** ** Writing *)

(** The answer of one [Write] call: [n] bytes accepted, or an error after [n]
    bytes. Once the plan is exhausted the writer accepts everything. *)
Inductive wresult : Type := WOk (n : nat) | WErr (n : nat) (e : perror).

Record writer : Type := mkWriter { plan : list wresult; written : string }.

Fixpoint writeFull_loop (pl : list wresult) (out p : string) : option perror * writer :=
  if streq p "" then (None, mkWriter pl out)
  else match pl with
       | [] => (None, mkWriter [] (out +:+ p))
       | WErr n e :: pl => (Some e, mkWriter pl (out +:+ stake n p))
       | WOk n :: pl =>
           if (n =? 0)%nat then (Some EShortWrite, mkWriter pl out)
           else writeFull_loop pl (out +:+ stake n p) (sdrop n p)
       end.
Definition writeFull (w : writer) (p : string) : option perror * writer :=
  writeFull_loop (plan w) (written w) p.

(** [json.Marshal] of an envelope: the payload is compacted, and must be JSON. *)
Definition envelope_fields (e : Envelope) (payload : string) : list (string * string) :=
  [("protocol", quote (Protocol e)); ("version", quote (Version e));
   ("messageId", quote (MessageID e)); ("type", quote (Type_ e))]
  ++ (if streq (Timestamp e) "" then [] else [("timestamp", quote (Timestamp e))])
  ++ [("payload", payload)].
Definition marshal_envelope (e : Envelope) : option string :=
  payload ← marshal_raw (Payload e);
  Some (print_object (envelope_fields e payload)).

Definition Encode (w : writer) (message : Envelope) : option perror * writer :=
  match marshal_envelope message with
  | None => (Some (EOther "encode JSON"), w)
  | Some payload =>
      if streq payload "" then (Some (ErrInvalidMessage "empty envelope payload"), w)
      else if MaxPayloadSize <? Z.of_nat (slen payload)
      then (Some (EOther "message size exceeds maximum"), w)
      else
        let header := PutUint32 (Z.of_nat (slen payload)) in
        match writeFull w header with
        | (Some e, w1) => (Some e, w1)
        | (None, w1) => writeFull w1 payload
        end
  end.

(** ** Reading *)

(** A reader delivers its chunks in order, then fails with [fin] for ever
    ([EEOF] at the end of a connection). *)
Record reader : Type := mkReader { chunks : list string; fin : perror }.

(** [io.ReadFull]: reads go on until [need] bytes are there; an end of input
    before the first byte is [EEOF], after it [EUnexpectedEOF]. *)
Fixpoint read_full_loop (cs : list string) (fin : perror) (need : nat) (got : string)
  : result perror string * list string :=
  if (need =? 0)%nat then (Ok got, cs)
  else match cs with
       | [] => (Err (match fin with
                     | EEOF => if streq got "" then EEOF else EUnexpectedEOF
                     | e => e
                     end), [])
       | c :: cs' =>
           if (slen c <=? need)%nat
           then read_full_loop cs' fin (need - slen c) (got +:+ c)
           else (Ok (got +:+ stake need c), sdrop need c :: cs')
       end.
Definition ReadFull (r : reader) (n : nat) : result perror string * reader :=
  let '(res, cs) := read_full_loop (chunks r) (fin r) n "" in (res, mkReader cs (fin r)).

Definition envelope_names : list string :=
  ["protocol"; "version"; "messageId"; "type"; "timestamp"; "payload"].

Definition set_envelope (f raw : string) (v : json) (e : Envelope) : decoded Envelope :=
  let '(mkEnvelope p ver id ty ts pl) := e in
  if streq f "protocol" then map_decoded (λ x, mkEnvelope x ver id ty ts pl) (decode_string v p)
  else if streq f "version" then map_decoded (λ x, mkEnvelope p x id ty ts pl) (decode_string v ver)
  else if streq f "messageId" then map_decoded (λ x, mkEnvelope p ver x ty ts pl) (decode_string v id)
  else if streq f "type" then map_decoded (λ x, mkEnvelope p ver id x ts pl) (decode_string v ty)
  else if streq f "timestamp" then map_decoded (λ x, mkEnvelope p ver id ty x pl) (decode_string v ts)
  else (mkEnvelope p ver id ty ts raw, true).

(** The envelope as decoded so far is returned with every error. *)
Definition decode_payload (payload : string) : Envelope * option perror :=
  match validateUniqueJSONKeys payload with
  | Err e => (empty_envelope, Some e)
  | Ok _ =>
      match parse_value max_depth payload with
      | None => (empty_envelope, Some (EOther "decode JSON"))
      | Some (v, rest) =>
          let '(envelope, ok) := decode_struct true envelope_names set_envelope v empty_envelope in
          if negb ok then (envelope, Some (EOther "decode JSON"))
          else if negb (at_end rest) then (envelope, Some (ErrInvalidMessage "trailing data"))
          else match ValidateEnvelope envelope with
               | Err e => (envelope, Some e)
               | Ok _ => (envelope, None)
               end
      end
  end.

Definition Decode (r : reader) : (Envelope * option perror) * reader :=
  match ReadFull r FrameHeaderSize with
  | (Err e, r1) => ((empty_envelope, Some e), r1)
  | (Ok header, r1) =>
      let length := Uint32 header in
      if length =? 0 then ((empty_envelope, Some (ErrInvalidMessage "zero-length frame")), r1)
      else if MaxPayloadSize <? length
      then ((empty_envelope, Some (EOther "message length exceeds maximum")), r1)
      else match ReadFull r1 (Z.to_nat length) with
           | (Err e, r2) => ((empty_envelope, Some e), r2)
           | (Ok payload, r2) => (decode_payload payload, r2)
           end
  end.

(** ** Headers *)

Lemma Uint32_PutUint32 n s : 0 ≤ n < 2 ^ 32 → Uint32 (PutUint32 n +:+ s) = n.
Proof.
  intros Hn. unfold PutUint32. rewrite !sapp_cons. unfold Uint32.
  rewrite !code_chr by (apply Z.mod_pos_bound; lia).
  change (2 ^ 24) with (256 * (256 * 256)). change (2 ^ 16) with (256 * 256). change (2 ^ 8) with 256.
  rewrite <-!Z.div_div by lia.
  pose proof (Z.div_mod n 256 ltac:(lia)). pose proof (Z.div_mod (n / 256) 256 ltac:(lia)).
  pose proof (Z.div_mod (n / 256 / 256) 256 ltac:(lia)).
  rewrite (Z.mod_small (n / 256 / 256 / 256)); [lia|].
  rewrite !Z.div_div by lia. split; [apply Z.div_pos; lia|]. apply Z.div_lt_upper_bound; lia.
Qed.

Lemma Uint32_range s : 0 ≤ Uint32 s < 2 ^ 32.
Proof.
  unfold Uint32. destruct s as [|a [|b [|c [|d s]]]]; try lia.
  pose proof (code_range a). pose proof (code_range b).
  pose proof (code_range c). pose proof (code_range d). lia.
Qed.

(** ** Writers *)

Lemma writeFull_loop_spec pl out p :
  ∃ sent rest, p = sent +:+ rest ∧ written (writeFull_loop pl out p).2 = out +:+ sent
    ∧ ((writeFull_loop pl out p).1 = None → rest = "").
Proof.
  revert out p. induction pl as [|[n|n e] pl IH]; intros out p; cbn [writeFull_loop];
    destruct (streq p "") eqn:Hp; cbn [fst snd written];
    try (apply streq_true in Hp; subst p; exists "", ""; by rewrite ?sapp_nil_r).
  - exists p, "". by rewrite ?sapp_nil_r.
  - destruct (n =? 0)%nat; [exists "", p; by rewrite ?sapp_nil_r|].
    destruct (IH (out +:+ stake n p) (sdrop n p)) as (sent & rest & Hs & -> & Hr).
    exists (stake n p +:+ sent), rest. rewrite !sapp_assoc, <-Hs, stake_sdrop. done.
  - exists (stake n p), (sdrop n p). by rewrite stake_sdrop.
Qed.

(** ** Readers: only the bytes matter, not how they are chunked *)

Lemma sconcat_app l k : sconcat (l ++ k) = sconcat l +:+ sconcat k.
Proof.
  induction l as [|x l IH]; [done|].
  by rewrite <-app_comm_cons, !sconcat_cons, IH, sapp_assoc.
Qed.

Lemma stake_app_le n a b : (n ≤ slen a)%nat → stake n (a +:+ b) = stake n a.
Proof.
  revert a. induction n as [|n IH]; intros [|c a] Hn; simpl in *; try done; [lia|].
  rewrite ?sapp_cons. simpl. by rewrite IH by lia.
Qed.

Lemma sdrop_app_le n a b : (n ≤ slen a)%nat → sdrop n (a +:+ b) = sdrop n a +:+ b.
Proof.
  revert a. induction n as [|n IH]; intros [|c a] Hn; simpl in *; try done; [lia|].
  apply IH. lia.
Qed.

Lemma stake_app_ge n a b : (slen a ≤ n)%nat → stake n (a +:+ b) = a +:+ stake (n - slen a) b.
Proof.
  revert n. induction a as [|c a IH]; intros [|n] Hn; simpl in *; try done; [lia|].
  rewrite ?sapp_cons. simpl. by rewrite IH by lia.
Qed.

Lemma sdrop_app_ge n a b : (slen a ≤ n)%nat → sdrop n (a +:+ b) = sdrop (n - slen a) b.
Proof.
  revert n. induction a as [|c a IH]; intros [|n] Hn; simpl in *; try done; [lia|].
  apply IH. lia.
Qed.

(** Where enough bytes are there, [ReadFull] returns the first ones and leaves
    the others; where they are not, it fails by the end of input. *)
Lemma read_full_loop_enough cs fin need got :
  (need ≤ slen (sconcat cs))%nat →
  (read_full_loop cs fin need got).1 = Ok (got +:+ stake need (sconcat cs)) ∧
  sconcat (read_full_loop cs fin need got).2 = sdrop need (sconcat cs).
Proof.
  revert need got. induction cs as [|c cs IH]; intros need got Hn; cbn [read_full_loop].
  - simpl in Hn. assert (need = 0%nat) as -> by lia. simpl. by rewrite ?sapp_nil_r.
  - destruct (Nat.eqb_spec need 0) as [->|Hne]; [simpl; by rewrite ?sapp_nil_r|].
    rewrite sconcat_cons in *. rewrite slen_app in Hn.
    destruct (Nat.leb_spec (slen c) need).
    + destruct (IH (need - slen c)%nat (got +:+ c)) as [-> ->]; [lia|].
      rewrite stake_app_ge, sdrop_app_ge by lia. by rewrite sapp_assoc.
    + cbn [fst snd]. rewrite stake_app_le, sdrop_app_le by lia.
      by rewrite sconcat_cons.
Qed.

Lemma read_full_loop_short cs fin need got :
  (slen (sconcat cs) < need)%nat →
  read_full_loop cs fin need got =
    (Err (match fin with
          | EEOF => if streq (got +:+ sconcat cs) "" then EEOF else EUnexpectedEOF
          | e => e
          end), []).
Proof.
  revert need got. induction cs as [|c cs IH]; intros need got Hn; cbn [read_full_loop].
  - simpl in Hn. destruct (Nat.eqb_spec need 0); [lia|]. simpl. by rewrite ?sapp_nil_r.
  - rewrite sconcat_cons, slen_app in Hn. destruct (Nat.eqb_spec need 0); [lia|].
    destruct (Nat.leb_spec (slen c) need); [|lia].
    rewrite IH by lia. by rewrite sconcat_cons, sapp_assoc.
Qed.

(** Two readers hold the same input when their bytes and their end agree. *)
Definition same_input (r1 r2 : reader) : Prop :=
  sconcat (chunks r1) = sconcat (chunks r2) ∧ fin r1 = fin r2.

Lemma ReadFull_same r1 r2 n : same_input r1 r2 →
  (ReadFull r1 n).1 = (ReadFull r2 n).1 ∧ same_input (ReadFull r1 n).2 (ReadFull r2 n).2.
Proof.
  intros [Hc Hf]. unfold ReadFull.
  destruct (Nat.le_gt_cases n (slen (sconcat (chunks r1)))) as [Hn|Hn].
  - pose proof (read_full_loop_enough (chunks r1) (fin r1) n "" Hn) as [H1 H2].
    rewrite Hc in Hn. pose proof (read_full_loop_enough (chunks r2) (fin r2) n "" Hn) as [H3 H4].
    destruct (read_full_loop (chunks r1) _ _ _), (read_full_loop (chunks r2) _ _ _).
    simpl in *. subst. rewrite Hc. split; [done|]. split; simpl; congruence.
  - rewrite read_full_loop_short by done. rewrite Hc in Hn.
    rewrite read_full_loop_short by done. rewrite Hc, Hf. done.
Qed.

(** ** Texts that compaction leaves alone *)

Definition stable (v : string) : Prop :=
  ∀ t, compact_from COut 0 (v +:+ t) = v +:+ compact_from COut 0 t.

Lemma stable_app a b : stable a → stable b → stable (a +:+ b).
Proof. intros Ha Hb t. by rewrite !sapp_assoc, Ha, Hb. Qed.

Lemma stable_compact v : stable v → compact v = v.
Proof. intros Hv. unfold compact. rewrite <-(sapp_nil_r v) at 1. rewrite Hv. by rewrite sapp_nil_r. Qed.

Lemma compact_in_quote_byte c t : is_ascii c = true →
  compact_from CIn 0 (quote_byte c +:+ t) = quote_byte c +:+ compact_from CIn 0 t.
Proof. intros Hc. by byte_cases c. Qed.

Lemma compact_in_high c t : is_high c = true → is_line_sep (String c t) = None →
  compact_from CIn 0 (String c t) = String c (compact_from CIn 0 t).
Proof.
  intros Hc Hl. cbn [compact_from]. rewrite Hl.
  unfold is_high in Hc. apply Z.leb_le in Hc.
  replace (code c =? 60) with false by (symmetry; apply Z.eqb_neq; lia).
  replace (code c =? 62) with false by (symmetry; apply Z.eqb_neq; lia).
  replace (code c =? 38) with false by (symmetry; apply Z.eqb_neq; lia).
  cbn -[dquote bslash]. destruct (Ascii.eqb_spec c dquote) as [->|_]; [change (code dquote) with 34 in Hc; lia|].
  destruct (Ascii.eqb_spec c bslash) as [->|_]; [change (code bslash) with 92 in Hc; lia|]. done.
Qed.

Lemma is_line_sep_lead c t : code c ≠ 226 → is_line_sep (String c t) = None.
Proof.
  intros Hc. apply Z.eqb_neq in Hc. unfold is_line_sep. by rewrite Hc.
Qed.

Lemma compact_in_cont z t : 0 ≤ z < 64 →
  compact_from CIn 0 (String (chr (128 + z)) t) = String (chr (128 + z)) (compact_from CIn 0 t).
Proof.
  intros Hz. apply compact_in_high.
  - unfold is_high. rewrite code_chr by lia. apply Z.leb_le. lia.
  - apply is_line_sep_lead. rewrite code_chr by lia. lia.
Qed.

Lemma compact_in_encode r t : 128 ≤ r → valid_rune r = true → r ≠ 8232 → r ≠ 8233 →
  compact_from CIn 0 (encode_valid r +:+ t) = encode_valid r +:+ compact_from CIn 0 t.
Proof.
  intros Hr Hv%valid_rune_true H1 H2. unfold encode_valid, bytes1.
  pose proof (Z.mod_pos_bound r 64 ltac:(lia)). pose proof (Z.mod_pos_bound (r / 64) 64 ltac:(lia)).
  pose proof (Z.mod_pos_bound (r / 4096) 64 ltac:(lia)).
  assert (Hlead : ∀ z u, 128 ≤ z < 256 → is_line_sep (String (chr z) u) = None →
            compact_from CIn 0 (String (chr z) u) = String (chr z) (compact_from CIn 0 u)).
  { intros z u Hz Hu. apply compact_in_high; [|done]. unfold is_high.
    rewrite code_chr by lia. apply Z.leb_le. lia. }
  destruct (Z.ltb_spec r 128); [lia|]. destruct (Z.ltb_spec r 2048).
  { assert (2 ≤ r / 64 < 32) by (split; [apply Z.div_le_lower_bound | apply Z.div_lt_upper_bound]; lia).
    rewrite !sapp_cons, !sapp_nil_l, Hlead, compact_in_cont; [done|lia..|].
    apply is_line_sep_lead. rewrite code_chr; lia. }
  destruct (Z.ltb_spec r 65536).
  { assert (0 ≤ r / 4096 < 16) by (split; [apply Z.div_le_lower_bound | apply Z.div_lt_upper_bound]; lia).
    rewrite !sapp_cons, !sapp_nil_l, Hlead, !compact_in_cont; [done|lia..|].
    unfold is_line_sep. rewrite !code_chr by lia.
    assert (Hd : r / 4096 = r / 64 / 64) by (rewrite Z.div_div; [done | lia | lia]).
    pose proof (Z.div_mod r 64 ltac:(lia)). pose proof (Z.div_mod (r / 64) 64 ltac:(lia)).
    destruct (Z.eqb_spec (224 + r / 4096) 226); [|done].
    destruct (Z.eqb_spec (128 + r / 64 mod 64) 128); [|done].
    destruct (Z.eqb_spec (128 + r mod 64) 168); [lia|].
    destruct (Z.eqb_spec (128 + r mod 64) 169); [lia|done]. }
  assert (0 ≤ r / 262144 < 5) by (split; [apply Z.div_le_lower_bound | apply Z.div_lt_upper_bound]; lia).
  rewrite !sapp_cons, !sapp_nil_l, Hlead, !compact_in_cont; [done|lia..|].
  apply is_line_sep_lead. rewrite code_chr; lia.
Qed.

Lemma compact_in_quote_body s t : valid_utf8 s = true →
  compact_from CIn 0 (quote_body s +:+ t) = quote_body s +:+ compact_from CIn 0 t.
Proof.
  intros Hs. revert s Hs t. apply (valid_utf8_ind (λ s, ∀ t, _ = _)); [done|].
  intros r s Hr Hs IH t. rewrite quote_body_encode, !sapp_assoc by done. rewrite <-IH.
  pose proof Hr as [Hb _]%valid_rune_true. destruct (Z.ltb_spec r 128) as [Hlt|Hge].
  - destruct (quote_seg_ascii r ltac:(lia)) as [-> Hc]. by apply compact_in_quote_byte.
  - rewrite quote_seg_high by done. destruct (Z.eqb_spec r 8232) as [->|H1]; [done|].
    destruct (Z.eqb_spec r 8233) as [->|H2]; [done|]. by apply compact_in_encode.
Qed.

Lemma stable_quote s : valid_utf8 s = true → stable (quote s).
Proof.
  intros Hs t. rewrite !quote_app. unfold compact_from at 1. fold compact_from.
  change (compact_from COut 0 (String dquote (quote_body s +:+ String dquote t)))
    with (String dquote (compact_from CIn 0 (quote_body s +:+ String dquote t))).
  rewrite compact_in_quote_body by done. done.
Qed.

Lemma stable_bool b : stable (print_bool b).
Proof. by destruct b. Qed.

Lemma stable_print_object fields :
  Forall (λ f, valid_utf8 f.1 = true ∧ stable f.2) fields → stable (print_object fields).
Proof.
  intros Hf. unfold print_object. apply stable_app; [done|]. apply stable_app; [|done].
  induction Hf as [|[k v] fields [Hk Hv] Hf IH]; [done|]. cbn [print_fields].
  assert (stable ":" ∧ stable ",") as [? ?] by done.
  destruct fields; repeat apply stable_app; auto using stable_quote.
Qed.

(** ** Frames *)

(** A payload as the daemon itself marshals one: compact JSON, within the
    nesting bound, without repeated keys or out-of-range numbers. *)
Definition inner_depth : nat := Z.to_nat 9999.
Definition canonical (p : string) : Prop :=
  ∃ j, prints inner_depth p j ∧ stable p ∧ good j = true.

Lemma max_depth_S : max_depth = S inner_depth.
Proof. unfold max_depth, inner_depth. lia. Qed.

(** The frame of an envelope: header and marshalled envelope. *)
Definition frame_body (e : Envelope) : string := print_object (envelope_fields e (Payload e)).
Definition frame (e : Envelope) : string :=
  PutUint32 (Z.of_nat (slen (frame_body e))) +:+ frame_body e.

Record sendable (e : Envelope) : Prop := {
  sendable_wf : well_formed e;
  sendable_id : valid_utf8 (MessageID e) = true;
  sendable_ts : valid_utf8 (Timestamp e) = true;
  sendable_payload : canonical (Payload e);
  sendable_size : Z.of_nat (slen (frame_body e)) ≤ MaxPayloadSize;
}.

Lemma canonical_marshal p : p ≠ "" → canonical p → marshal_raw p = Some p.
Proof.
  intros Hne (j & Hp & Hs & _). unfold marshal_raw.
  rewrite (proj2 (streq_false p "") Hne).
  rewrite (parse_document_prints inner_depth p j); [by rewrite stable_compact| |done].
  rewrite max_depth_S. lia.
Qed.

Lemma Encode_frame w e : sendable e →
  ∃ sent rest, frame e = sent +:+ rest
    ∧ written (Encode w e).2 = written w +:+ sent
    ∧ ((Encode w e).1 = None → rest = "").
Proof.
  intros [(Hpr & Hve & Hid & Hty & Hpl) _ _ Hc Hsz]. unfold Encode, marshal_envelope.
  rewrite canonical_marshal by done. cbn [mbind option_bind]. fold (frame_body e).
  destruct (streq (frame_body e) "") eqn:Hnil; [by apply streq_true in Hnil|].
  destruct (Z.ltb_spec MaxPayloadSize (Z.of_nat (slen (frame_body e)))); [lia|].
  unfold frame. set (h := PutUint32 _). unfold writeFull.
  destruct (writeFull_loop_spec (plan w) (written w) h) as (s1 & r1 & Hh & Hw1 & Hn1).
  destruct (writeFull_loop (plan w) (written w) h) as [[er|] w1]; cbn [fst snd] in *.
  { exists s1, (r1 +:+ frame_body e). by rewrite Hh, sapp_assoc. }
  destruct (writeFull_loop_spec (plan w1) (written w1) (frame_body e)) as (s2 & r2 & Hb & Hw2 & Hn2).
  exists (h +:+ s2), r2. rewrite sapp_assoc, <-Hb. split; [done|].
  split; [|exact Hn2]. by rewrite Hw2, Hw1, Hh, Hn1, !sapp_assoc by done.
Qed.

(** What the decoder reads from a marshalled envelope. *)
Definition envelope_json (e : Envelope) (j : json) : list json :=
  [JStr (Protocol e); JStr (Version e); JStr (MessageID e); JStr (Type_ e)]
  ++ (if streq (Timestamp e) "" then [] else [JStr (Timestamp e)]) ++ [j].

Lemma known_types_valid t : t ∈ known_types → valid_utf8 t = true.
Proof.
  intros Ht. assert (Forall (λ x, valid_utf8 x = true) known_types) as Hall
    by (repeat constructor; by vm_compute).
  by apply (proj1 (Forall_forall _ _) Hall).
Qed.

Lemma prints_envelope e j : sendable e → prints inner_depth (Payload e) j →
  prints max_depth (frame_body e) (JObj (printed_members (envelope_fields e (Payload e)) (envelope_json e j))).
Proof.
  intros [(Hpr & Hve & _ & Hty & _) Hid Hts _ _] Hj. rewrite max_depth_S.
  apply prints_object. unfold prints_fields, envelope_fields, envelope_json.
  repeat (apply Forall2_cons; split; [split; [by vm_compute|]; apply prints_quote|]).
  - by rewrite Hpr.
  - by rewrite Hve.
  - done.
  - by apply known_types_valid.
  - destruct (streq (Timestamp e) ""); simpl.
    + apply Forall2_cons. split; [split; [by vm_compute|done]|constructor].
    + apply Forall2_cons. split; [split; [by vm_compute|by apply prints_quote]|].
      apply Forall2_cons. split; [split; [by vm_compute|done]|constructor].
Qed.

Lemma decode_frame_body e : sendable e → decode_payload (frame_body e) = (e, None).
Proof.
  intros He. pose proof He as [Hwf Hid Hts (j & Hj & _ & Hg) _].
  pose proof (prints_envelope e j He Hj) as [_ Hp].
  specialize (Hp "" eq_refl). rewrite sapp_nil_r in Hp.
  unfold decode_payload.
  rewrite (proj2 (validateUniqueJSONKeys_iff _)).
  - rewrite Hp. clear Hp. apply ValidateEnvelope_Ok in Hwf. revert Hwf.
    destruct e as [pr ve id ty ts pl]. cbn [Protocol Version MessageID Type_ Timestamp Payload envelope_fields envelope_json].
    intros Hv. change (at_end "") with true.
    replace (decode_struct _ _ _ _ _) with (mkEnvelope pr ve id ty ts pl, true).
    { cbn [negb]. by rewrite Hv. }
    unfold envelope_fields, envelope_json.
    cbn [Protocol Version MessageID Type_ Timestamp Payload].
    destruct (streq ts "") eqn:Ht; [apply streq_true in Ht; subst ts|]; reflexivity.
  - eexists max_depth, _, "". split; [done|]. split; [done|].
    assert (Hgood : good (JObj (printed_members (envelope_fields e (Payload e)) (envelope_json e j))) = true).
    { rewrite good_obj. unfold envelope_fields, envelope_json.
      destruct (streq (Timestamp e) ""); cbn -[good bool_decide]; rewrite Hg, !andb_true_r; by vm_compute. }
    unfold good in Hgood. by apply andb_true_iff in Hgood.
Qed.

(** ** What a decoded frame consumes *)

Lemma ReadFull_Ok r n x r' : ReadFull r n = (Ok x, r') →
  slen x = n ∧ sconcat (chunks r) = x +:+ sconcat (chunks r').
Proof.
  unfold ReadFull. destruct (Nat.le_gt_cases n (slen (sconcat (chunks r)))) as [Hn|Hn].
  - destruct (read_full_loop_enough (chunks r) (fin r) n "" Hn) as [H1 H2].
    destruct (read_full_loop _ _ _ _) as [res cs]. cbn [fst snd] in *. intros [= -> <-].
    rewrite sapp_nil_l in H1. injection H1 as ->. cbn [chunks]. rewrite H2, slen_stake.
    split; [lia|]. symmetry. apply stake_sdrop.
  - by rewrite read_full_loop_short.
Qed.

Lemma Decode_consumes r message r' : Decode r = ((message, None), r') →
  (5 + slen (sconcat (chunks r')) ≤ slen (sconcat (chunks r)))%nat.
Proof.
  unfold Decode. destruct (ReadFull r _) as [[header|e] r1] eqn:H1; [|done].
  apply ReadFull_Ok in H1 as [Hh ->].
  destruct (Z.eqb_spec (Uint32 header) 0); [done|]. destruct (_ <? _); [done|].
  destruct (ReadFull r1 _) as [[payload|e] r2] eqn:H2; [|done].
  apply ReadFull_Ok in H2 as [Hp ->]. intros [= _ <-].
  pose proof (Uint32_range header). rewrite !slen_app, Hh, Hp. unfold FrameHeaderSize. lia.
Qed.

(** ** The codec contract *)

Lemma ReadFull_app r a b : sconcat (chunks r) = a +:+ b →
  (ReadFull r (slen a)).1 = Ok a ∧ sconcat (chunks (ReadFull r (slen a)).2) = b.
Proof.
  intros Hr. unfold ReadFull.
  destruct (read_full_loop_enough (chunks r) (fin r) (slen a) "") as [H1 H2].
  { rewrite Hr, slen_app. lia. }
  rewrite Hr, stake_app in H1. rewrite Hr, sdrop_app in H2.
  destruct (read_full_loop _ _ _ _). simpl in *. by subst.
Qed.

Lemma Decode_frame e r rest : sendable e → sconcat (chunks r) = frame e +:+ rest →
  (Decode r).1 = (e, None) ∧ sconcat (chunks (Decode r).2) = rest.
Proof.
  intros He Hr. unfold frame in Hr. rewrite sapp_assoc in Hr.
  pose proof (sendable_size e He) as Hsz.
  set (n := Z.of_nat (slen (frame_body e))) in *.
  assert (0 < n) by (unfold n, frame_body, print_object; rewrite slen_app; simpl; lia).
  unfold Decode. change FrameHeaderSize with (slen (PutUint32 n)).
  destruct (ReadFull_app r _ _ Hr) as [H1 H2].
  destruct (ReadFull r (slen (PutUint32 n))) as [res r1]. simpl in H1, H2. subst res.
  pose proof (Uint32_PutUint32 n "") as Hu. rewrite sapp_nil_r in Hu.
  unfold MaxPayloadSize in *. rewrite Hu by lia.
  destruct (Z.eqb_spec n 0); [lia|]. destruct (Z.ltb_spec (4 * 1024 * 1024) n); [lia|].
  replace (Z.to_nat n) with (slen (frame_body e)) by lia.
  destruct (ReadFull_app r1 _ _ H2) as [H3 H4].
  destruct (ReadFull r1 _) as [res r2]. simpl in *. subst res.
  by rewrite decode_frame_body.
Qed.

(** C6. For every envelope the daemon can send: when [Encode] returns nil,
    whatever partial writes the writer answered with, it has written some bytes
    after the earlier ones, and a decoder whose input starts with those bytes
    returns the same envelope, however the transport cuts its input into chunks,
    and leaves exactly the bytes that follow. *)
Theorem Decode_Encode e w :
  sendable e → (Encode w e).1 = None →
  ∃ bytes, written (Encode w e).2 = written w +:+ bytes ∧
    ∀ r rest, sconcat (chunks r) = bytes +:+ rest →
      (Decode r).1 = (e, None) ∧ sconcat (chunks (Decode r).2) = rest.
Proof.
  intros He Hok. destruct (Encode_frame w e He) as (sent & tail & Hf & Hw & Ht).
  rewrite (Ht Hok), sapp_nil_r in Hf. subst sent.
  exists (frame e). split; [done|]. intros r rest. by apply Decode_frame.
Qed.

Definition ping_envelope : Envelope :=
  NewEnvelope 1753920000 "m-1" MessagePing "{}".

Lemma ping_sendable : sendable ping_envelope.
Proof.
  split; [|by vm_compute|by vm_compute| |].
  - apply ValidateEnvelope_Ok. by vm_compute.
  - exists (JObj []). split; [|split; [done|by vm_compute]].
    apply (prints_mono 1); [unfold inner_depth; lia|].
    apply (prints_object 0 [] []). constructor.
  - vm_compute. discriminate.
Qed.

Lemma Decode_Encode_witness :
  (Encode (mkWriter [WOk 3; WOk 1; WOk 7] "x") ping_envelope).1 = None ∧
  ∃ bytes, written (Encode (mkWriter [WOk 3; WOk 1; WOk 7] "x") ping_envelope).2 = "x" +:+ bytes ∧
    ∀ r rest, sconcat (chunks r) = bytes +:+ rest →
      (Decode r).1 = (ping_envelope, None) ∧ sconcat (chunks (Decode r).2) = rest.
Proof.
  split; [by vm_compute|].
  apply (Decode_Encode ping_envelope (mkWriter [WOk 3; WOk 1; WOk 7] "x")).
  - apply ping_sendable.
  - by vm_compute.
Defined.

(** [Decode] depends on the bytes of the connection only, not on how they
    arrive: two readers with the same bytes and the same end give the same
    envelope and error, and are again equivalent afterwards. *)
Theorem Decode_chunking r1 r2 :
  same_input r1 r2 → (Decode r1).1 = (Decode r2).1 ∧ same_input (Decode r1).2 (Decode r2).2.
Proof.
  intros Hs. unfold Decode. destruct (ReadFull_same r1 r2 FrameHeaderSize Hs) as [H1 H2].
  destruct (ReadFull r1 _) as [res1 s1], (ReadFull r2 _) as [res2 s2].
  cbn [fst snd] in *. subst res2. destruct res1 as [header|e]; [|done].
  destruct (Uint32 header =? 0); [done|]. destruct (MaxPayloadSize <? _); [done|].
  destruct (ReadFull_same s1 s2 (Z.to_nat (Uint32 header)) H2) as [H3 H4].
  destruct (ReadFull s1 _) as [res3 s3], (ReadFull s2 _) as [res4 s4].
  cbn [fst snd] in *. subst res4. by destruct res3.
Qed.

Lemma Decode_chunking_witness :
  same_input (mkReader ["ab"; ""; "c"] EEOF) (mkReader ["abc"] EEOF) ∧
  (Decode (mkReader ["ab"; ""; "c"] EEOF)).1 = (Decode (mkReader ["abc"] EEOF)).1.
Proof. split; [done|]. apply (Decode_chunking (mkReader ["ab"; ""; "c"] EEOF) (mkReader ["abc"] EEOF)). done. Defined.

Lemma Decode_well_formed r message r' : Decode r = ((message, None), r') → well_formed message.
Proof.
  unfold Decode. destruct (ReadFull r _) as [[header|e] r1]; [|done].
  destruct (_ =? 0); [done|]. destruct (_ <? _); [done|].
  destruct (ReadFull r1 _) as [[payload|e] r2]; [|done]. unfold decode_payload.
  destruct (validateUniqueJSONKeys payload); [|done].
  destruct (parse_value _ _) as [[v rest]|]; [|done].
  destruct (decode_struct _ _ _ _ _) as [env ok]. destruct ok; [|done].
  destruct (at_end rest); [|done]. cbn [negb].
  destruct (ValidateEnvelope env) as [[]|] eqn:Hv; [|done]. intros [= <- _]. by apply ValidateEnvelope_Ok.
Qed.

(** An envelope that [Decode] returns without error is well formed: the
    protocol name and version are the daemon's, the message ID and the payload
    are not empty and the type is one of the known ones; and a frame whose
    header announces zero or more than 4 MiB is refused before any payload byte
    is read. *)
Theorem Decode_sound r :
  ((Decode r).1.2 = None → well_formed (Decode r).1.1) ∧
  (∀ header r1, ReadFull r FrameHeaderSize = (Ok header, r1) →
     Uint32 header = 0 ∨ MaxPayloadSize < Uint32 header →
     (Decode r).1.2 ≠ None ∧ (Decode r).2 = r1).
Proof.
  split.
  - destruct (Decode r) as [[message err] r'] eqn:Hd. cbn [fst snd]. intros ->.
    by eapply Decode_well_formed.
  - intros header r1 Hr. unfold Decode. rewrite Hr. intros [-> | Hl]; [done|].
    destruct (Z.eqb_spec (Uint32 header) 0); [done|].
    by apply Z.ltb_lt in Hl as ->.
Qed.

Lemma Decode_sound_witness :
  (Decode (mkReader [frame ping_envelope] EEOF)).1.2 = None ∧
  well_formed (Decode (mkReader [frame ping_envelope] EEOF)).1.1 ∧
  (Decode (mkReader [PutUint32 0 +:+ "x"] EEOF)).1.2 ≠ None.
Proof.
  assert ((Decode (mkReader [frame ping_envelope] EEOF)).1.2 = None) as Hd by (by vm_compute).
  destruct (Decode_sound (mkReader [frame ping_envelope] EEOF)) as [H1 _].
  destruct (Decode_sound (mkReader [PutUint32 0 +:+ "x"] EEOF)) as [_ H2].
  split; [exact Hd|]. split; [exact (H1 Hd)|].
  eapply proj1, (H2 (PutUint32 0)); [by vm_compute|left; by vm_compute].
Defined.
