(* ===== verification/CommandPayload.v ===== *)
(** * CommandPayload: the payloads of commands, errors and capabilities

    internal/protocol/command.go and capabilities.go: strict decoding of
    payloads, validation of Node commands, and the error payload. *)
From S2P Require Import Prelude Utf8 Json Message JsonValidation Codec.
Open Scope Z_scope.

(** ** Data *)

Record NodeCommandTarget : Type := mkTarget { NodeName : string }.

Record NodeCommandParameters : Type := mkParameters {
  State : string;
  Reason : option string;
}.

Record NodeCommandRequestPayload : Type := mkRequest {
  CommandID : string;
  Resource : string;
  Command : string;
  Target : NodeCommandTarget;
  Parameters : NodeCommandParameters;
}.

(** [CommandStatus] *)
Definition CommandStatusRunning : string := "running".
Definition CommandStatusSucceeded : string := "succeeded".
Definition CommandStatusFailed : string := "failed".
Definition CommandStatusDenied : string := "denied".
Definition CommandStatusUnknown : string := "unknown".

Definition Valid (s : string) : bool :=
  bool_decide (s ∈ [CommandStatusRunning; CommandStatusSucceeded; CommandStatusFailed;
                    CommandStatusDenied; CommandStatusUnknown]).

Record NodeCommandResponsePayload : Type := mkResponse {
  r_CommandID : string;
  r_Resource : string;
  r_Command : string;
  r_Target : option NodeCommandTarget;
  r_Parameters : option NodeCommandParameters;
  r_Status : string;
}.

Record CommandStatusPayload : Type := mkStatus { s_CommandID : string; s_Status : string }.

(** [ErrorCategory] and [ErrorCode] *)
Definition ErrorCategoryAuthentication : string := "authentication-error".
Definition ErrorCategoryAuthorization : string := "authorization-error".
Definition ErrorCategoryValidation : string := "validation-error".
Definition ErrorCategoryNotFound : string := "not-found".
Definition ErrorCategoryConflict : string := "conflict".
Definition ErrorCategorySlurm : string := "slurm-error".
Definition ErrorCategoryTimeout : string := "timeout".
Definition ErrorCategoryInternal : string := "internal-error".
Definition ErrorCategoryProtocol : string := "protocol-error".

Definition ErrorCodeInvalidCommand : string := "invalid-command".
Definition ErrorCodeInvalidPayload : string := "invalid-payload".
Definition ErrorCodeIdentityUnavailable : string := "identity-unavailable".
Definition ErrorCodeUserLookupFailed : string := "user-lookup-failed".
Definition ErrorCodeAuthorizationDenied : string := "authorization-denied".
Definition ErrorCodeCapabilityUnavailable : string := "capability-unavailable".
Definition ErrorCodeLedgerPersistenceFailed : string := "ledger-persistence-failed".
Definition ErrorCodeAuthorizationOutcomeUnknown : string := "authorization-outcome-unknown".
Definition ErrorCodeCommandIDConflict : string := "command-id-conflict".
Definition ErrorCodeMessageIDConflict : string := "message-id-conflict".
Definition ErrorCodeCommandOutcomeUnknown : string := "command-outcome-unknown".
Definition ErrorCodeCommandTimeout : string := "command-timeout".
Definition ErrorCodeSlurmCommandFailed : string := "slurm-command-failed".
Definition ErrorCodeUnsupportedMessageType : string := "unsupported-message-type".
Definition ErrorCodeInternal : string := "internal-error".

Record ErrorPayload : Type := mkErrorPayload {
  e_Code : string;
  e_Category : string;
  e_Message : string;
  e_Retryable : bool;
  e_CommandID : string;
  e_Resource : string;
  e_Target : option NodeCommandTarget;
}.

Record NodeCapabilities : Type := mkCapabilities { NodesDrain : bool; NodesResume : bool }.

#[export] Instance NodeCommandTarget_eq_dec : EqDecision NodeCommandTarget.
Proof. solve_decision. Defined.
#[export] Instance NodeCommandParameters_eq_dec : EqDecision NodeCommandParameters.
Proof. solve_decision. Defined.
#[export] Instance NodeCommandRequestPayload_eq_dec : EqDecision NodeCommandRequestPayload.
Proof. solve_decision. Defined.
#[export] Instance ErrorPayload_eq_dec : EqDecision ErrorPayload.
Proof. solve_decision. Defined.

(** ** Strict decoding *)

Definition starts_object (s : string) : bool :=
  match s with String c _ => (c =a "{")%char | EmptyString => false end.

(** [decodeStrictPayload]: an object, no repeated key, no unknown field, no
    value of the wrong type, nothing after it. *)
Definition decodeStrictPayload {St} (names : list string)
  (set : string → string → json → St → decoded St) (init : St) (payload : string)
  : result perror St :=
  let trimmed := trim_space payload in
  guard_err (starts_object trimmed) (ErrInvalidMessage "payload must be an object");;
  validateUniqueJSONKeys trimmed;;
  match parse_value max_depth trimmed with
  | None => Err (ErrInvalidMessage "invalid payload")
  | Some (v, rest) =>
      let '(st, ok) := decode_struct true names set v init in
      guard_err ok (ErrInvalidMessage "invalid payload");;
      guard_err (at_end rest) (ErrInvalidMessage "trailing payload data");;
      Ok st
  end.

(** ** The Node command request *)

Record wire_request : Type := mkWire {
  w_CommandID : string; w_Resource : string; w_Command : string;
  w_Target : NodeCommandTarget; w_State : string; w_Reason : string;
}.
Definition empty_wire : wire_request := mkWire "" "" "" (mkTarget "") "" "".

Definition set_target (_ _ : string) (v : json) (t : NodeCommandTarget) : decoded NodeCommandTarget :=
  map_decoded mkTarget (decode_string v (NodeName t)).

(** The wire parameters: the state and the raw bytes of the reason. *)
Definition set_wire_parameters (f raw : string) (v : json) (p : string * string)
  : decoded (string * string) :=
  if streq f "state" then map_decoded (λ x, (x, p.2)) (decode_string v p.1)
  else ((p.1, raw), true).

Definition request_names : list string := ["commandId"; "resource"; "command"; "target"; "parameters"].

Definition set_wire (f raw : string) (v : json) (w : wire_request) : decoded wire_request :=
  let '(mkWire id res cmd tgt state reason) := w in
  if streq f "commandId" then map_decoded (λ x, mkWire x res cmd tgt state reason) (decode_string v id)
  else if streq f "resource" then map_decoded (λ x, mkWire id x cmd tgt state reason) (decode_string v res)
  else if streq f "command" then map_decoded (λ x, mkWire id res x tgt state reason) (decode_string v cmd)
  else if streq f "target" then
    map_decoded (λ x, mkWire id res cmd x state reason)
      (decode_struct true ["nodeName"] set_target v tgt)
  else
    map_decoded (λ x, mkWire id res cmd tgt x.1 x.2)
      (decode_struct true ["state"; "reason"] set_wire_parameters v (state, reason)).

Definition id_rune (r : Z) : bool :=
  in_range 97 122 r || in_range 65 90 r || in_range 48 57 r
  || (r =? 45) || (r =? 95) || (r =? 46).

Definition validCommandID (commandID : string) : bool :=
  negb (streq commandID "") && (Z.of_nat (slen commandID) <=? 128)
  && forallb id_rune (runes commandID).

(** [json.Unmarshal(raw, &reason)] into a string. *)
Definition unmarshal_string (raw : string) : option string :=
  v ← parse_document raw;
  let '(s, ok) := decode_string v "" in if ok : bool then Some s else None.

(** The three tests the reason of a drain must pass. *)
Definition reason_ok (reason : string) : bool :=
  negb (streq (trim_space reason) "") && (Z.of_nat (slen reason) <=? 256)
  && negb (existsb is_control (runes reason)).

Definition DecodeNodeCommandRequestPayload (payload : string)
  : result perror NodeCommandRequestPayload :=
  wire ← decodeStrictPayload request_names set_wire empty_wire payload;
  let request reason := mkRequest (w_CommandID wire) (w_Resource wire) (w_Command wire)
                          (w_Target wire) (mkParameters (w_State wire) reason) in
  guard_err (validCommandID (w_CommandID wire) && streq (w_Resource wire) "node"
             && streq (w_Command wire) "update") (ErrInvalidMessage "unsupported Node command");;
  guard_err (negb (streq (NodeName (w_Target wire)) "")
             && (Z.of_nat (slen (NodeName (w_Target wire))) <=? 255))
            (ErrInvalidMessage "invalid Node target");;
  if streq (w_State wire) "DRAIN" then
    guard_err (negb (streq (w_Reason wire) "" || streq (trim_space (w_Reason wire)) "null"))
              (ErrInvalidMessage "invalid drain reason");;
    match unmarshal_string (w_Reason wire) with
    | None => Err (ErrInvalidMessage "invalid drain reason")
    | Some reason =>
        guard_err (reason_ok reason) (ErrInvalidMessage "invalid drain reason");;
        Ok (request (Some reason))
    end
  else if streq (w_State wire) "RESUME" then
    guard_err (streq (w_Reason wire) "") (ErrInvalidMessage "resume does not accept a reason");;
    Ok (request None)
  else Err (ErrInvalidMessage "unsupported Node state").

(** ** Responses and status *)

(** A JSON value into a pointer field: [null] clears it, another value is
    stored in a fresh or the existing target. *)
Definition decode_pointer {A} (dec : json → A → decoded A) (zero : A) (v : json) (old : option A)
  : decoded (option A) :=
  match v with
  | JNull => (None, true)
  | _ => map_decoded Some (dec v (default zero old))
  end.

Definition set_parameters (f _ : string) (v : json) (p : NodeCommandParameters)
  : decoded NodeCommandParameters :=
  if streq f "state" then map_decoded (λ x, mkParameters x (Reason p)) (decode_string v (State p))
  else map_decoded (mkParameters (State p)) (decode_pointer decode_string "" v (Reason p)).

Definition response_names : list string :=
  ["commandId"; "resource"; "command"; "target"; "parameters"; "status"].

Definition set_response (f _ : string) (v : json) (r : NodeCommandResponsePayload)
  : decoded NodeCommandResponsePayload :=
  let '(mkResponse id res cmd tgt par st) := r in
  if streq f "commandId" then map_decoded (λ x, mkResponse x res cmd tgt par st) (decode_string v id)
  else if streq f "resource" then map_decoded (λ x, mkResponse id x cmd tgt par st) (decode_string v res)
  else if streq f "command" then map_decoded (λ x, mkResponse id res x tgt par st) (decode_string v cmd)
  else if streq f "target" then
    map_decoded (λ x, mkResponse id res cmd x par st)
      (decode_pointer (decode_struct true ["nodeName"] set_target) (mkTarget "") v tgt)
  else if streq f "parameters" then
    map_decoded (λ x, mkResponse id res cmd tgt x st)
      (decode_pointer (decode_struct true ["state"; "reason"] set_parameters) (mkParameters "" None) v par)
  else map_decoded (mkResponse id res cmd tgt par) (decode_string v st).

Definition DecodeNodeCommandResponsePayload (payload : string)
  : result perror NodeCommandResponsePayload :=
  response ← decodeStrictPayload response_names set_response (mkResponse "" "" "" None None "") payload;
  guard_err (negb (streq (r_CommandID response) "") && streq (r_Resource response) "node"
             && streq (r_Command response) "update" && Valid (r_Status response))
            (ErrInvalidMessage "invalid command response");;
  Ok response.

Definition set_status (f _ : string) (v : json) (s : CommandStatusPayload) : decoded CommandStatusPayload :=
  if streq f "commandId" then map_decoded (λ x, mkStatus x (s_Status s)) (decode_string v (s_CommandID s))
  else map_decoded (mkStatus (s_CommandID s)) (decode_string v (s_Status s)).

Definition DecodeCommandStatusPayload (payload : string) : result perror CommandStatusPayload :=
  status ← decodeStrictPayload ["commandId"; "status"] set_status (mkStatus "" "") payload;
  guard_err (negb (streq (s_CommandID status) "") && Valid (s_Status status))
            (ErrInvalidMessage "invalid command status");;
  Ok status.

(** ** Capabilities *)

Definition DecodeCapabilitiesRequestPayload (payload : string) : result perror unit :=
  decodeStrictPayload [] (λ _ _ _ st, (st, true)) tt payload.

Definition set_wire_capabilities (f _ : string) (v : json) (c : option bool * option bool)
  : decoded (option bool * option bool) :=
  if streq f "nodes.drain" then map_decoded (λ x, (x, c.2)) (decode_pointer decode_bool false v c.1)
  else map_decoded (λ x, (c.1, x)) (decode_pointer decode_bool false v c.2).

Definition set_capabilities_response (_ _ : string) (v : json) (w : option (option bool * option bool))
  : decoded (option (option bool * option bool)) :=
  decode_pointer (decode_struct true ["nodes.drain"; "nodes.resume"] set_wire_capabilities) (None, None) v w.

Definition DecodeCapabilitiesResponsePayload (payload : string) : result perror NodeCapabilities :=
  wire ← decodeStrictPayload ["capabilities"] set_capabilities_response None payload;
  match wire with
  | Some (Some drain, Some resume) => Ok (mkCapabilities drain resume)
  | _ => Err (ErrInvalidMessage "capabilities must contain nodes.drain and nodes.resume")
  end.

(** ** Marshalling *)

Definition omit_empty (k v : string) : list (string * string) :=
  if streq v "" then [] else [(k, quote v)].

Definition marshal_target (t : NodeCommandTarget) : string :=
  print_object [("nodeName", quote (NodeName t))].
Definition marshal_parameters (p : NodeCommandParameters) : string :=
  print_object (("state", quote (State p)) ::
    match Reason p with Some r => [("reason", quote r)] | None => [] end).

Definition marshal_request (r : NodeCommandRequestPayload) : string :=
  print_object
    [("commandId", quote (CommandID r)); ("resource", quote (Resource r));
     ("command", quote (Command r)); ("target", marshal_target (Target r));
     ("parameters", marshal_parameters (Parameters r))].

Definition marshal_response (r : NodeCommandResponsePayload) : string :=
  print_object
    ([("commandId", quote (r_CommandID r)); ("resource", quote (r_Resource r));
      ("command", quote (r_Command r))]
     ++ match r_Target r with Some t => [("target", marshal_target t)] | None => [] end
     ++ match r_Parameters r with Some p => [("parameters", marshal_parameters p)] | None => [] end
     ++ [("status", quote (r_Status r))]).

Definition error_fields (p : ErrorPayload) : list (string * string) :=
  [("code", quote (e_Code p)); ("category", quote (e_Category p));
   ("message", quote (e_Message p)); ("retryable", print_bool (e_Retryable p))]
  ++ omit_empty "commandId" (e_CommandID p) ++ omit_empty "resource" (e_Resource p)
  ++ match e_Target p with Some t => [("target", marshal_target t)] | None => [] end.
Definition marshal_error (p : ErrorPayload) : string := print_object (error_fields p).

Definition marshal_capabilities (c : NodeCapabilities) : string :=
  print_object [("capabilities",
    print_object [("nodes.drain", print_bool (NodesDrain c)); ("nodes.resume", print_bool (NodesResume c))])].

(** Marshalling an [ErrorPayload] cannot fail: its fields are strings and
    booleans, so the fallback text of [NewErrorEnvelope] is never used. *)
Definition NewErrorEnvelope (now : Z) (messageID : string) (payload : ErrorPayload) : Envelope :=
  NewEnvelope now messageID MessageError (marshal_error payload).

(** [json.Unmarshal] of a stored error payload: unknown fields are ignored. *)
Definition error_names : list string :=
  ["code"; "category"; "message"; "retryable"; "commandId"; "resource"; "target"].
Definition set_error (f _ : string) (v : json) (p : ErrorPayload) : decoded ErrorPayload :=
  let '(mkErrorPayload c cat m r id res t) := p in
  if streq f "code" then map_decoded (λ x, mkErrorPayload x cat m r id res t) (decode_string v c)
  else if streq f "category" then map_decoded (λ x, mkErrorPayload c x m r id res t) (decode_string v cat)
  else if streq f "message" then map_decoded (λ x, mkErrorPayload c cat x r id res t) (decode_string v m)
  else if streq f "retryable" then map_decoded (λ x, mkErrorPayload c cat m x id res t) (decode_bool v r)
  else if streq f "commandId" then map_decoded (λ x, mkErrorPayload c cat m r x res t) (decode_string v id)
  else if streq f "resource" then map_decoded (λ x, mkErrorPayload c cat m r id x t) (decode_string v res)
  else map_decoded (mkErrorPayload c cat m r id res)
         (decode_pointer (decode_struct false ["nodeName"] set_target) (mkTarget "") v t).

Definition empty_error : ErrorPayload := mkErrorPayload "" "" "" false "" "" None.
Definition unmarshal_error (raw : string) : option ErrorPayload :=
  v ← parse_document raw;
  let '(p, ok) := decode_struct false error_names set_error v empty_error in
  if ok : bool then Some p else None.

(** ** What a decoded request satisfies *)

Record valid_request (r : NodeCommandRequestPayload) : Prop := {
  vr_id : validCommandID (CommandID r) = true;
  vr_resource : Resource r = "node";
  vr_command : Command r = "update";
  vr_node : NodeName (Target r) ≠ "" ∧ (slen (NodeName (Target r)) ≤ 255)%nat;
  vr_parameters :
    (State (Parameters r) = "DRAIN"
       ∧ ∃ reason, Reason (Parameters r) = Some reason ∧ reason_ok reason = true)
    ∨ Parameters r = mkParameters "RESUME" None;
}.

(** The texts of a request that come from JSON strings are valid UTF-8. *)
Definition utf8_request (r : NodeCommandRequestPayload) : Prop :=
  valid_utf8 (NodeName (Target r)) = true
  ∧ ∀ reason, Reason (Parameters r) = Some reason → valid_utf8 reason = true.

Lemma decode_string_valid v old :
  strings_ok v = true → valid_utf8 old = true → valid_utf8 (decode_string v old).1 = true.
Proof. by destruct v. Qed.

Lemma decode_target_valid v t :
  strings_ok v = true → valid_utf8 (NodeName t) = true →
  valid_utf8 (NodeName (decode_struct true ["nodeName"] set_target v t).1) = true.
Proof.
  intros Hv Ht. apply (decode_struct_ind _ _ _ (λ t, valid_utf8 (NodeName t) = true)); [done| |done].
  intros f raw w t' _ Hw Ht'. by apply decode_string_valid.
Qed.

Lemma set_wire_valid f raw v w :
  strings_ok v = true → valid_utf8 (NodeName (w_Target w)) = true →
  valid_utf8 (NodeName (w_Target (set_wire f raw v w).1)) = true.
Proof.
  intros Hv Hw. destruct w as [id res cmd tgt state reason]. unfold set_wire. cbn [w_Target] in *.
  repeat case_match; try done. by apply decode_target_valid.
Qed.

Lemma decodeStrictPayload_inv {St} names set (init : St) payload st :
  decodeStrictPayload names set init payload = Ok st →
  ∃ v, strings_ok v = true ∧ decode_struct true names set v init = (st, true).
Proof.
  unfold decodeStrictPayload. generalize max_depth as d. intros d H. inv_ok.
  destruct (parse_value d _) as [[v rest]|] eqn:Hp; [|done].
  exists v. split; [by apply parse_value_valid in Hp|].
  destruct (decode_struct true names set v init) as [st' ok]. inv_ok. by subst.
Qed.

Lemma unmarshal_string_valid raw s : unmarshal_string raw = Some s → valid_utf8 s = true.
Proof.
  unfold unmarshal_string. intros (v & Hv%parse_document_valid & H)%bind_Some.
  pose proof (decode_string_valid v "" Hv eq_refl) as Hs.
  destruct (decode_string v "") as [x []]; [|done]. by injection H as <-.
Qed.

Lemma decode_request_sound payload r :
  DecodeNodeCommandRequestPayload payload = Ok r → valid_request r ∧ utf8_request r.
Proof.
  unfold DecodeNodeCommandRequestPayload. intros H. inv_ok.
  apply decodeStrictPayload_inv in Hx as (v & Hv & Hd).
  assert (Hn : valid_utf8 (NodeName (w_Target x)) = true).
  { pose proof (decode_struct_ind true request_names set_wire
      (λ w, valid_utf8 (NodeName (w_Target w)) = true) v empty_wire Hv) as Hi.
    rewrite Hd in Hi. apply Hi; [|done]. intros f raw w st _. apply set_wire_valid. }
  split_bools.
  repeat match goal with H : streq _ _ = true |- _ => apply streq_true in H end.
  assert (NodeName (w_Target x) ≠ "" ∧ (slen (NodeName (w_Target x)) ≤ 255)%nat) as Hnode.
  { split; [by apply streq_false|]. apply Z.leb_le in H1. lia. }
  destruct (streq (w_State x) "DRAIN") eqn:Hs.
  - apply streq_true in Hs. inv_ok.
    destruct (unmarshal_string (w_Reason x)) as [reason|] eqn:Hr; [|done]. inv_ok. subst r.
    apply unmarshal_string_valid in Hr. split.
    + split; cbn; [done..|]. left. eauto.
    + split; cbn; [done|]. by intros ? [= <-].
  - destruct (streq (w_State x) "RESUME") eqn:Hs2; [|done]. apply streq_true in Hs2.
    inv_ok. subst r. split; [split; cbn; [done..|] | split; cbn; [done|discriminate]].
    right. by rewrite Hs2.
Qed.

(** ** Marshalled payloads decode to themselves *)

Lemma trim_space_print_object fields : trim_space (print_object fields) = print_object fields.
Proof. unfold print_object. by apply (trim_space_id "{" (print_fields fields) "}"). Qed.

Lemma trim_space_quote s : trim_space (quote s) = quote s.
Proof. unfold quote. by apply (trim_space_id dquote (quote_body s) dquote). Qed.

(** The decoder on a printed object: what is left is to run the setters. *)
Lemma decodeStrictPayload_print {St} names set (init : St) fields js st :
  prints_fields inner_depth fields js →
  good (JObj (printed_members fields js)) = true →
  decode_struct true names set (JObj (printed_members fields js)) init = (st, true) →
  decodeStrictPayload names set init (print_object fields) = Ok st.
Proof.
  intros Hp Hg Hd. apply prints_object in Hp. rewrite <-max_depth_S in Hp.
  pose proof (proj2 Hp "" eq_refl) as Hv. rewrite sapp_nil_r in Hv.
  unfold decodeStrictPayload. rewrite trim_space_print_object.
  rewrite (proj2 (validateUniqueJSONKeys_iff _)).
  - rewrite Hv, Hd. done.
  - unfold good in Hg. apply andb_true_iff in Hg as [??]. by eexists max_depth, _, "".
Qed.

Lemma prints_object_lt d d' fields js :
  (d < d')%nat → prints_fields d fields js → prints d' (print_object fields) (JObj (printed_members fields js)).
Proof. intros Hd Hp. eapply prints_mono; [exact Hd|]. by apply prints_object. Qed.

Lemma validCommandID_valid id : validCommandID id = true → valid_utf8 id = true.
Proof.
  unfold validCommandID. intros H. split_bools. unfold runes in H0. unfold valid_utf8.
  induction (segs id) as [|[r b] l IH]; [done|]. cbn [fmap list_fmap fst forallb] in *.
  apply andb_true_iff in H0 as [Hr Hl]. rewrite IH by done. rewrite andb_true_r.
  unfold seg_valid. cbn [fst]. destruct (Z.eqb_spec r rune_error) as [->|]; done.
Qed.

Definition target_json (t : NodeCommandTarget) : json :=
  JObj (printed_members [("nodeName", quote (NodeName t))] [JStr (NodeName t)]).
Definition parameters_json (p : NodeCommandParameters) : json :=
  JObj match Reason p with
       | Some r => printed_members [("state", quote (State p)); ("reason", quote r)] [JStr (State p); JStr r]
       | None => printed_members [("state", quote (State p))] [JStr (State p)]
       end.

Lemma prints_target d t : (0 < d)%nat → valid_utf8 (NodeName t) = true →
  prints d (marshal_target t) (target_json t).
Proof.
  intros Hd Ht. apply (prints_object_lt 0); [done|].
  constructor; [|constructor]. split; [done|]. by apply prints_quote.
Qed.

Lemma prints_parameters d p : (0 < d)%nat → valid_utf8 (State p) = true →
  (∀ r, Reason p = Some r → valid_utf8 r = true) → prints d (marshal_parameters p) (parameters_json p).
Proof.
  intros Hd Hs Hr. unfold marshal_parameters, parameters_json.
  destruct (Reason p) as [r|]; apply (prints_object_lt 0); try done;
    repeat (apply Forall2_cons; split; [split; [by vm_compute|apply prints_quote; eauto]|]); constructor.
Qed.

Definition request_json (r : NodeCommandRequestPayload) : list json :=
  [JStr (CommandID r); JStr (Resource r); JStr (Command r);
   target_json (Target r); parameters_json (Parameters r)].

Lemma decode_marshal_request r :
  valid_request r → utf8_request r →
  DecodeNodeCommandRequestPayload (marshal_request r) = Ok r.
Proof.
  intros [Hid Hres Hcmd [Hne Hlen] Hpar] [Hn Hr].
  assert (Hfields : prints_fields inner_depth
    [("commandId", quote (CommandID r)); ("resource", quote (Resource r));
     ("command", quote (Command r)); ("target", marshal_target (Target r));
     ("parameters", marshal_parameters (Parameters r))] (request_json r)).
  { unfold request_json. rewrite Hres, Hcmd.
    repeat (apply Forall2_cons; split; [split; [by vm_compute|]|]); [..|constructor];
      try (apply prints_quote; by try apply validCommandID_valid).
    - apply prints_target; [|done]. unfold inner_depth. lia.
    - apply prints_parameters; [unfold inner_depth; lia| |done].
      by destruct Hpar as [[-> _] | ->]. }
  unfold DecodeNodeCommandRequestPayload, marshal_request.
  destruct r as [id res cmd [node] [state reason]].
  cbn [CommandID Resource Command Target Parameters State Reason NodeName] in *. subst res cmd.
  rewrite (decodeStrictPayload_print _ _ _ _ _
    (mkWire id "node" "update" (mkTarget node) state
       match reason with Some x => quote x | None => "" end) Hfields).
  - cbn [mbind result_bind w_CommandID w_Resource w_Command w_Target w_State w_Reason NodeName].
    rewrite Hid. cbn [streq andb].
    apply streq_false in Hne. rewrite Hne.
    replace (Z.of_nat (slen node) <=? 255) with true by (symmetry; apply Z.leb_le; lia).
    destruct Hpar as [[-> (x & -> & Hx)] | [= -> ->]]; [|done].
    cbn [streq negb andb guard_err mbind result_bind].
    rewrite trim_space_quote.
    replace (unmarshal_string (quote x)) with (Some x).
    + by rewrite Hx.
    + symmetry. unfold unmarshal_string.
      rewrite (parse_document_prints 0 _ (JStr x)); [done|lia|].
      apply prints_quote. by apply Hr.
  - unfold request_json, marshal_target, marshal_parameters, target_json, parameters_json.
    cbn [CommandID Resource Command Target Parameters State Reason NodeName].
    destruct reason; cbn -[good bool_decide quote print_object]; by vm_compute.
  - unfold request_json, target_json, parameters_json.
    cbn [CommandID Resource Command Target Parameters State Reason NodeName].
    by destruct reason.
Qed.

(** C34. The request decoder accepts exactly the valid Node commands: a request
    is the result of decoding some payload iff its command ID is 1 to 128
    allowed characters, the resource and command are node/update, the node
    name is 1 to 255 bytes and the parameters are a drain with a printable
    reason of at most 256 bytes or a resume without a reason; and it is then
    also the result of decoding its own marshalled form. *)
Theorem DecodeNodeCommandRequestPayload_spec r :
  ((∃ payload, DecodeNodeCommandRequestPayload payload = Ok r) ↔ valid_request r ∧ utf8_request r)
  ∧ ((∃ payload, DecodeNodeCommandRequestPayload payload = Ok r) ↔
     DecodeNodeCommandRequestPayload (marshal_request r) = Ok r).
Proof.
  assert (Hs : (∃ p, DecodeNodeCommandRequestPayload p = Ok r) → valid_request r ∧ utf8_request r)
    by (intros [p Hp]; by eapply decode_request_sound).
  assert (Hd : valid_request r ∧ utf8_request r → DecodeNodeCommandRequestPayload (marshal_request r) = Ok r)
    by (intros [? ?]; by apply decode_marshal_request).
  split; split; eauto.
Qed.

(** ** Error payloads *)

Definition utf8_error (p : ErrorPayload) : Prop :=
  Forall (λ s, valid_utf8 s = true)
    [e_Code p; e_Category p; e_Message p; e_CommandID p; e_Resource p]
  ∧ ∀ t, e_Target p = Some t → valid_utf8 (NodeName t) = true.

Definition omit_json (v : string) : list json := if streq v "" then [] else [JStr v].
Definition error_json (p : ErrorPayload) : list json :=
  [JStr (e_Code p); JStr (e_Category p); JStr (e_Message p); JBool (e_Retryable p)]
  ++ omit_json (e_CommandID p) ++ omit_json (e_Resource p)
  ++ match e_Target p with Some t => [target_json t] | None => [] end.

Lemma prints_error d p : (1 < d)%nat → utf8_error p →
  prints d (marshal_error p) (JObj (printed_members (error_fields p) (error_json p))).
Proof.
  intros Hd [Hs Ht]. apply (prints_object_lt 1); [done|].
  rewrite !Forall_cons in Hs. destruct Hs as (Hc & Hcat & Hm & Hid & Hr & _).
  unfold error_fields, error_json, prints_fields.
  apply Forall2_app; [|apply Forall2_app; [|apply Forall2_app]].
  - repeat (apply Forall2_cons; split; [split; [by vm_compute|]|]); [..|constructor];
      cbn [snd]; first [by apply prints_quote | by apply prints_bool].
  - unfold omit_empty, omit_json. destruct (streq _ _); constructor; [|constructor].
    split; [by vm_compute|by apply prints_quote].
  - unfold omit_empty, omit_json. destruct (streq _ _); constructor; [|constructor].
    split; [by vm_compute|by apply prints_quote].
  - destruct (e_Target p); constructor; [|constructor].
    split; [by vm_compute|]. apply prints_target; [lia|by apply Ht].
Qed.

Lemma decode_error_json p :
  decode_struct false error_names set_error
    (JObj (printed_members (error_fields p) (error_json p))) empty_error = (p, true).
Proof.
  destruct p as [c cat m r id res t]. unfold error_fields, error_json, omit_empty, omit_json.
  cbn [e_Code e_Category e_Message e_Retryable e_CommandID e_Resource e_Target].
  destruct (streq id "") eqn:Hid; [apply streq_true in Hid; subst id|];
    (destruct (streq res "") eqn:Hres; [apply streq_true in Hres; subst res|]);
    destruct t as [[node]|]; reflexivity.
Qed.

Lemma unmarshal_error_marshal p : utf8_error p → unmarshal_error (marshal_error p) = Some p.
Proof.
  intros Hp. unfold unmarshal_error. rewrite (parse_document_prints 2 _ _ ltac:(unfold max_depth; lia)
    (prints_error 2 p ltac:(lia) Hp)). cbn [mbind option_bind]. by rewrite decode_error_json.
Qed.

(** What the daemon stores of a failed command it reads back unchanged:
    an error payload marshalled into the ledger is unmarshalled to the same
    payload when the command is replayed. *)
Theorem unmarshal_marshal_error p : utf8_error p → unmarshal_error (marshal_error p) = Some p.
Proof. apply unmarshal_error_marshal. Qed.

Lemma unmarshal_marshal_error_witness :
  let p := mkErrorPayload ErrorCodeCommandTimeout ErrorCategoryTimeout "Slurm command timed out" true
             "c-1" "node" (Some (mkTarget "n1")) in
  utf8_error p ∧ unmarshal_error (marshal_error p) = Some p.
Proof.
  assert (utf8_error (mkErrorPayload ErrorCodeCommandTimeout ErrorCategoryTimeout
    "Slurm command timed out" true "c-1" "node" (Some (mkTarget "n1")))) as H.
  { split; [repeat constructor|]. by intros t [= <-]. }
  split; [exact H|]. apply (unmarshal_marshal_error _ H).
Defined.

(** A response or a status update the daemon accepts names a command and
    carries one of the five command statuses; capabilities are accepted only
    when both of them are stated, and read back as the daemon prints them. *)
Theorem response_payloads_sound :
  (∀ p r, DecodeNodeCommandResponsePayload p = Ok r →
     r_CommandID r ≠ "" ∧ r_Resource r = "node" ∧ r_Command r = "update" ∧ Valid (r_Status r) = true) ∧
  (∀ p s, DecodeCommandStatusPayload p = Ok s → s_CommandID s ≠ "" ∧ Valid (s_Status s) = true) ∧
  (∀ c, DecodeCapabilitiesResponsePayload (marshal_capabilities c) = Ok c).
Proof.
  split; [|split].
  - intros p r H. unfold DecodeNodeCommandResponsePayload in H. inv_ok. subst. split_bools.
    split; [by apply streq_false|]. repeat split; first [done | by apply streq_true].
  - intros p s H. unfold DecodeCommandStatusPayload in H. inv_ok. subst. split_bools.
    split; [by apply streq_false|done].
  - intros [[] []]; by vm_compute.
Qed.

Lemma response_payloads_sound_witness :
  ∃ r, DecodeNodeCommandResponsePayload
    (marshal_response (mkResponse "c-1" "node" "update" None None CommandStatusRunning)) = Ok r ∧
    r_Resource r = "node" ∧ Valid (r_Status r) = true.
Proof.
  destruct (DecodeNodeCommandResponsePayload
    (marshal_response (mkResponse "c-1" "node" "update" None None CommandStatusRunning))) as [r|e] eqn:Hr;
    [|by vm_compute in Hr].
  exists r. split; [done|]. destruct response_payloads_sound as (H & _). destruct (H _ r Hr) as (_ & ? & _ & ?). by split.
Defined.

(** A request whose command ID is given twice, under keys of different case. *)
Definition folded_keys_payload : string := sq
  "{'commandId':'a','COMMANDID':'b','resource':'node','command':'update','target':{'nodeName':'n1'},'parameters':{'state':'RESUME'}}".

(** Keys that differ in case only are different keys for the duplicate
    check and the same field for the struct decoder: the request is accepted and
    the later one wins. *)
Theorem folded_duplicate_key_accepted :
  DecodeNodeCommandRequestPayload folded_keys_payload
  = Ok (mkRequest "b" "node" "update" (mkTarget "n1") (mkParameters "RESUME" None)).
Proof. by vm_compute. Qed.
