(* ===== verification/Ledger.v ===== *)
(** * Ledger: the durable record of Node commands

    internal/ledger/ledger.go. The SQLite database is an explicit state: the
    stored content, the content of the open transaction if there is one, and
    the answers the database still has to give. Every call to the database
    takes the next answer: it may succeed, fail without effect, or fail after
    its effect reached the disk. *)
From S2P Require Import Prelude.
Open Scope Z_scope.

(** ** Data *)

Definition DefaultPath : string := "/var/lib/cockpit-slurm/commands.db".
Definition SchemaVersion : Z := 3.
(** In seconds: rows carry Unix times. *)
Definition Retention : Z := 30 * 24 * 3600.

Inductive Status : Type :=
| StatusAuthorizationPending | StatusAuthorizationUncertain | StatusAuthorizationFailed
| StatusAccepted | StatusRunning | StatusSucceeded | StatusFailed | StatusDenied | StatusUnknown.
#[export] Instance Status_eq_dec : EqDecision Status.
Proof. solve_decision. Defined.

Definition eq_status (a b : Status) : bool := bool_decide (a = b).

(** The errors of the package, and what it passes through: [ErrContext] wraps a
    cancelled or expired context, [ErrOperation] any other failure. *)
Inductive dberr : Type := DbCanceled | DbDeadlineExceeded | DbOther (detail : string).

Inductive lerror : Type :=
| ErrUnsupportedSchema (version : Z)
| ErrIntegrityCheck (detail : string)
| ErrPersistenceFailed (operation : string)
| ErrAdmissionBlocked
| ErrCommandIDConflict
| ErrInvalidTransition (detail : string)
| ErrCommandNotFound
| ErrContext (operation : string) (cause : dberr)
| ErrOperation (operation : string).

(** [Claim]; byte slices are strings. *)
Record Claim : Type := mkClaim {
  c_CallerUID : Z;
  c_CommandID : string;
  c_RequestFingerprint : string;
  c_RequestPayload : string;
  c_RequestingUsername : string;
  c_RequestingGID : Z;
  c_RequestMessageID : string;
  c_ServiceUID : Z;
  c_ServiceUsername : string;
  c_Resource : string;
  c_Command : string;
  c_OperationID : string;
  c_RequiredCapability : string;
  c_TargetNode : string;
}.

(** A row of the table [commands]: the columns written by the claim, and the
    others; a column that may be NULL is an [option]. *)
Record Row : Type := mkRow {
  claimed : Claim;
  status : Status;
  admin_level : option string;
  authorization_metadata : option string;
  execution_uid : option Z;
  execution_username : option string;
  execution_boundary : option string;
  result_payload : option string;
  error_payload : option string;
  created_at : Z;
  updated_at : Z;
  expires_at : Z;
}.

(** [Record], the Go view of a row; a nil slice or pointer is [None]. *)
Record LedgerRecord : Type := mkRecord {
  l_Claim : Claim;
  l_Status : Status;
  l_AdminLevel : string;
  l_AuthorizationMetadata : option string;
  l_ExecutionUID : option Z;
  l_ExecutionUsername : string;
  l_ExecutionBoundary : string;
  l_ResultPayload : option string;
  l_ErrorPayload : option string;
  l_CreatedAt : Z;
  l_UpdatedAt : Z;
  l_ExpiresAt : Z;
}.

Record TransitionData : Type := mkData {
  t_AdminLevel : string;
  t_AuthorizationMetadata : option string;
  t_ExecutionUID : option Z;
  t_ExecutionUsername : string;
  t_ExecutionBoundary : string;
  t_ResultPayload : option string;
  t_ErrorPayload : option string;
}.
Definition no_data : TransitionData := mkData "" None None "" "" None None.

(** ** The database *)

Notation key := (Z * string)%type.

Record store : Type := mkStore {
  user_version : Z;
  columns : option (list string);   (** [None]: the table does not exist *)
  rows : gmap key Row;
}.

(** What the database answers to one call. *)
Inductive answer : Type :=
| Fine
| Fails (e : dberr)          (** no effect *)
| FailsApplied (e : dberr)   (** the effect is durable, the caller sees an error *)
| Busy (frames : Z)          (** a WAL checkpoint that could not finish *)
| Lines (l : list string).   (** the rows a PRAGMA returns *)

Record database : Type := mkDatabase {
  stored : store;
  tx : option store;         (** the open transaction's view *)
  answers : list answer;
}.

Definition db (A : Type) : Type := database → result dberr A * database.

#[export] Instance db_ret : MRet db := λ A a d, (Ok a, d).
#[export] Instance db_bind : MBind db :=
  λ A B f m d, match m d with (Ok a, d') => f a d' | (Err e, d') => (Err e, d') end.

Definition set_tx (t : option store) (d : database) : database := mkDatabase (stored d) t (answers d).
Definition set_stored (s : store) (d : database) : database := mkDatabase s (tx d) (answers d).

(** The next answer; a database that is not told otherwise works. *)
Definition ask (d : database) : answer * database :=
  match answers d with
  | [] => (Fine, d)
  | a :: l => (a, mkDatabase (stored d) (tx d) l)
  end.

(** The pool has one connection: a call outside the open transaction would wait
    for ever. *)
Definition connection_busy : dberr := DbOther "connection busy".

Definition begin_tx : db unit := λ d,
  let '(a, d) := ask d in
  match a with
  | Fails e | FailsApplied e => (Err e, d)
  | _ => match tx d with
         | Some _ => (Err connection_busy, d)
         | None => (Ok tt, set_tx (Some (stored d)) d)
         end
  end.

(** A statement in the transaction. [None] is a constraint violation. *)
Definition tx_exec {A} (f : store → option (store * A)) : db A := λ d,
  let '(a, d) := ask d in
  match a with
  | Fails e | FailsApplied e => (Err e, d)
  | _ => match tx d with
         | None => (Err (DbOther "transaction is done"), d)
         | Some s => match f s with
                     | None => (Err (DbOther "constraint failed"), d)
                     | Some (s', x) => (Ok x, set_tx (Some s') d)
                     end
         end
  end.

Definition rollback : db unit := λ d, (Ok tt, set_tx None d).

(** [tx.Commit]: the transaction ends whatever the outcome. *)
Definition commit : db unit := λ d,
  let '(a, d) := ask d in
  match tx d with
  | None => (Err (DbOther "transaction is done"), d)
  | Some s => match a with
              | Fails e => (Err e, set_tx None d)
              | FailsApplied e => (Err e, set_tx None (set_stored s d))
              | _ => (Ok tt, set_tx None (set_stored s d))
              end
  end.

(** A statement outside any transaction commits by itself. *)
Definition auto_exec (f : store → option store) : db unit := λ d,
  let '(a, d) := ask d in
  match a, tx d with
  | Fails e, _ => (Err e, d)
  | _, Some _ => (Err connection_busy, d)
  | _, None => match f (stored d) with
               | None => (Err (DbOther "constraint failed"), d)
               | Some s => (match a with FailsApplied e => Err e | _ => Ok tt end, set_stored s d)
               end
  end.

(** A query outside any transaction; the answer itself may carry the rows. *)
Definition query {A} (f : store → answer → option A) : db A := λ d,
  let '(a, d) := ask d in
  match a, tx d with
  | (Fails e | FailsApplied e), _ => (Err e, d)
  | _, Some _ => (Err connection_busy, d)
  | _, None => match f (stored d) a with
               | None => (Err (DbOther "no such column"), d)
               | Some x => (Ok x, d)
               end
  end.

(** A call that has no effect on the content. *)
Definition touch : db unit := λ d,
  let '(a, d) := ask d in
  match a with Fails e | FailsApplied e => (Err e, d) | _ => (Ok tt, d) end.

(** ** The SQL statements *)

(** [recordColumns] *)
Definition recordColumns : list string :=
  ["caller_uid"; "command_id"; "request_fingerprint"; "request_payload";
   "requesting_username"; "requesting_gid"; "request_message_id"; "service_uid"; "service_username";
   "resource"; "command"; "operation_id"; "required_capability";
   "target_node"; "status"; "admin_level"; "authorization_metadata"; "execution_uid";
   "execution_username"; "execution_boundary"; "result_payload"; "error_payload";
   "created_at"; "updated_at"; "expires_at"].

Definition has_columns (names : list string) (s : store) : bool :=
  match columns s with
  | None => false
  | Some cs => forallb (λ c, bool_decide (c ∈ cs)) names
  end.
Definition has_schema (s : store) : bool := has_columns recordColumns s.

(** A statement fails when the table or a column it names is missing. *)
Definition with_columns {A} (names : list string) (s : store) (x : A) : option A :=
  if has_columns names s then Some x else None.

Definition set_rows (s : store) (r : gmap key Row) : store := mkStore (user_version s) (columns s) r.

(** [SELECT recordColumns FROM commands WHERE caller_uid = ? AND command_id = ?] *)
Definition select_row (k : key) (s : store) : option Row := rows s !! k.

(** [DELETE FROM commands WHERE expires_at <= ?] *)
Definition purge_rows (now : Z) (r : gmap key Row) : gmap key Row :=
  filter (λ p, now < expires_at p.2) r.
Definition delete_expired (now : Z) (s : store) : option store :=
  with_columns ["expires_at"] s (set_rows s (purge_rows now (rows s))).

(** SQLite's [length] of a text counts the characters before the first NUL. *)
Definition text_nonempty (s : string) : bool :=
  match s with String c _ => negb (c =a chr 0) | EmptyString => false end.

(** The CHECK constraints on the columns of a claim. *)
Definition check_row (c : Claim) : bool :=
  (0 <=? c_CallerUID c) && text_nonempty (c_CommandID c) && text_nonempty (c_RequestingUsername c)
  && streq (c_Resource c) "node" && streq (c_Command c) "update"
  && bool_decide (c_OperationID c ∈ ["node.drain"; "node.resume"])
  && bool_decide (c_RequiredCapability c ∈ ["nodes.drain"; "nodes.resume"])
  && text_nonempty (c_TargetNode c) && (0 <=? c_RequestingGID c) && (0 <=? c_ServiceUID c).

Definition claim_key (c : Claim) : key := (c_CallerUID c, c_CommandID c).

Definition new_row (now : Z) (c : Claim) : Row :=
  mkRow c StatusAuthorizationPending None None None None None None None now now (now + Retention).

(** [INSERT ... ON CONFLICT (caller_uid, command_id) DO NOTHING] and the rows
    it affected. *)
Definition insert_claim (now : Z) (c : Claim) (s : store) : option (store * Z) :=
  if check_row c && has_schema s then
    match rows s !! claim_key c with
    | Some _ => Some (s, 0)
    | None => Some (set_rows s (<[claim_key c := new_row now c]> (rows s)), 1)
    end
  else None.

Definition nullif (s : string) : option string := if streq s "" then None else Some s.
Definition coalesce {A} (x y : option A) : option A := match x with Some _ => x | None => y end.

(** [nullableBytes], [nullableUID]: a nil slice or pointer is NULL. *)
Definition nullableBytes (value : option string) : option string := value.
Definition nullableUID (value : option Z) : option Z := value.

Definition update_row (now : Z) (next : Status) (data : TransitionData) (r : Row) : Row :=
  mkRow (claimed r) next
    (coalesce (nullif (t_AdminLevel data)) (admin_level r))
    (coalesce (nullableBytes (t_AuthorizationMetadata data)) (authorization_metadata r))
    (coalesce (nullableUID (t_ExecutionUID data)) (execution_uid r))
    (coalesce (nullif (t_ExecutionUsername data)) (execution_username r))
    (coalesce (nullif (t_ExecutionBoundary data)) (execution_boundary r))
    (coalesce (nullableBytes (t_ResultPayload data)) (result_payload r))
    (coalesce (nullableBytes (t_ErrorPayload data)) (error_payload r))
    (created_at r) now (expires_at r).

(** [UPDATE commands SET ... WHERE caller_uid = ? AND command_id = ? AND status = ?] *)
Definition update_columns : list string :=
  ["status"; "updated_at"; "admin_level"; "authorization_metadata"; "execution_uid";
   "execution_username"; "execution_boundary"; "result_payload"; "error_payload";
   "caller_uid"; "command_id"].

Definition update_transition (now : Z) (k : key) (expected next : Status) (data : TransitionData)
  (s : store) : option (store * Z) :=
  if has_columns update_columns s then
    match rows s !! k with
    | Some r => if eq_status (status r) expected
                then Some (set_rows s (<[k := update_row now next data r]> (rows s)), 1)
                else Some (s, 0)
    | None => Some (s, 0)
    end
  else None.

(** The CASE of [recoverInterrupted]. *)
Definition recovered (s : Status) : Status :=
  match s with
  | StatusAuthorizationPending | StatusAccepted => StatusAuthorizationUncertain
  | StatusRunning => StatusUnknown
  | _ => s
  end.
Definition interrupted (s : Status) : bool :=
  match s with
  | StatusAuthorizationPending | StatusAccepted | StatusRunning => true
  | _ => false
  end.

Definition with_status (now : Z) (s : Status) (r : Row) : Row :=
  mkRow (claimed r) s (admin_level r) (authorization_metadata r) (execution_uid r)
    (execution_username r) (execution_boundary r) (result_payload r) (error_payload r)
    (created_at r) now (expires_at r).
Definition recover_row (now : Z) (r : Row) : Row :=
  if interrupted (status r) then with_status now (recovered (status r)) r else r.
Definition update_interrupted (now : Z) (s : store) : option store :=
  with_columns ["status"; "updated_at"] s (set_rows s (recover_row now <$> rows s)).

(** [SELECT COUNT( * ) FROM commands WHERE status IN (?, ?, ?)] *)
Definition count_unresolved (s : store) : nat :=
  size (filter (λ p, interrupted (status p.2) = true) (rows s)).

(** [scanRecord] *)
Definition scanRecord (r : Row) : LedgerRecord :=
  mkRecord (claimed r) (status r) (default "" (admin_level r)) (authorization_metadata r)
    ((λ uid, uid mod 2 ^ 32) <$> execution_uid r)
    (default "" (execution_username r)) (default "" (execution_boundary r))
    (result_payload r) (error_payload r) (created_at r) (updated_at r) (expires_at r).

(** ** Guards *)

Definition validateClaim (claim : Claim) : result lerror unit :=
  guard_err (negb (streq (c_CommandID claim) "" || streq (c_RequestingUsername claim) ""
                   || streq (c_RequestMessageID claim) "" || streq (c_ServiceUsername claim) ""
                   || (slen (c_RequestFingerprint claim) =? 0)%nat
                   || (slen (c_RequestPayload claim) =? 0)%nat || streq (c_TargetNode claim) ""))
            (ErrInvalidTransition "incomplete authorization claim");;
  guard_err (negb (negb (streq (c_Resource claim) "node") || negb (streq (c_Command claim) "update")))
            (ErrInvalidTransition "unsupported resource/command");;
  guard_err (negb ((negb (streq (c_OperationID claim) "node.drain")
                    || negb (streq (c_RequiredCapability claim) "nodes.drain"))
                   && (negb (streq (c_OperationID claim) "node.resume")
                       || negb (streq (c_RequiredCapability claim) "nodes.resume"))))
            (ErrInvalidTransition "operation/capability mismatch").

Definition allowedTransition (from to : Status) : bool :=
  match from with
  | StatusAuthorizationPending =>
      eq_status to StatusAccepted || eq_status to StatusDenied
      || eq_status to StatusAuthorizationFailed || eq_status to StatusAuthorizationUncertain
  | StatusAccepted => eq_status to StatusRunning || eq_status to StatusAuthorizationUncertain
  | StatusRunning => eq_status to StatusSucceeded || eq_status to StatusFailed || eq_status to StatusUnknown
  | _ => false
  end.

(** [len] of a byte slice; a nil slice has length 0. *)
Definition blen (b : option string) : nat := match b with Some s => slen s | None => 0 end.

Definition transition_guards (expected next : Status) (data : TransitionData) : result lerror unit :=
  guard_err (allowedTransition expected next) (ErrInvalidTransition "not allowed");;
  guard_err (negb (eq_status next StatusAccepted
                   && (negb (streq (t_AdminLevel data) "admin")
                       || (blen (t_AuthorizationMetadata data) =? 0)%nat)))
    (ErrInvalidTransition "accepted status requires current admin authorization metadata");;
  guard_err (negb (eq_status next StatusRunning
                   && (bool_decide (t_ExecutionUID data = None) || streq (t_ExecutionUsername data) ""
                       || streq (t_ExecutionBoundary data) "")))
    (ErrInvalidTransition "running status requires execution identity and boundary");;
  guard_err (negb ((eq_status next StatusDenied || eq_status next StatusAuthorizationFailed)
                   && (blen (t_ErrorPayload data) =? 0)%nat))
    (ErrInvalidTransition "terminal authorization status requires an error payload").

(** ** The ledger and its operations *)

Record Ledger : Type := mkLedger { dbs : database; path : string; blocked : bool }.

Definition led (A : Type) : Type := Ledger → result lerror A * Ledger.
#[export] Instance led_ret : MRet led := λ A a l, (Ok a, l).
#[export] Instance led_bind : MBind led :=
  λ A B f m l, match m l with (Ok a, l') => f a l' | (Err e, l') => (Err e, l') end.

Definition fail {A} (e : lerror) : led A := λ l, (Err e, l).
Definition lift {A} (r : result lerror A) : led A := λ l, (r, l).
Definition set_blocked (b : bool) (l : Ledger) : Ledger := mkLedger (dbs l) (path l) b.
Definition set_db (d : database) (l : Ledger) : Ledger := mkLedger d (path l) (blocked l).

Definition AdmissionBlocked (l : Ledger) : bool := blocked l.
Definition isBlocked (l : Ledger) : bool := blocked l.

(** [blockPersistence]: closes the admission gate. *)
Definition blockPersistence {A} (operation : string) : led A := λ l,
  (Err (ErrPersistenceFailed operation), set_blocked true l).

(** [if isBlocked() { return ErrAdmissionBlocked }] *)
Definition refuse_blocked : led unit := λ l,
  if isBlocked l then (Err ErrAdmissionBlocked, l) else (Ok tt, l).

(** A database call whose error blocks the ledger; [in_tx] also rolls back. *)
Definition blocking {A} (operation : string) (m : db A) : led A := λ l,
  match m (dbs l) with
  | (Ok a, d) => (Ok a, set_db d l)
  | (Err _, d) => blockPersistence operation (set_db d l)
  end.
Definition run_rollback : led unit := λ l, (Ok tt, set_db (rollback (dbs l)).2 l).
Definition in_tx {A} (operation : string) (m : db A) : led A := λ l,
  match m (dbs l) with
  | (Ok a, d) => (Ok a, set_db d l)
  | (Err _, d) => blockPersistence operation (set_db (rollback d).2 l)
  end.
(** A database call whose error is passed on. *)
Definition plain {A} (operation : string) (m : db A) : led A := λ l,
  match m (dbs l) with
  | (Ok a, d) => (Ok a, set_db d l)
  | (Err _, d) => (Err (ErrOperation operation), set_db d l)
  end.

(** Statements without a result, and the read of one row in the transaction. *)
Definition stmt (f : store → option store) : store → option (store * unit) :=
  λ s, (λ s', (s', tt)) <$> f s.
Definition selectRecord (k : key) (s : store) : option (store * LedgerRecord) :=
  if has_schema s then (λ r, (s, scanRecord r)) <$> select_row k s else None.

(** [ReserveAuthorization]; [now] is the clock inside the transaction. *)
Definition ReserveAuthorization (now : Z) (claim : Claim) : led (LedgerRecord * bool) :=
  lift (validateClaim claim);;
  refuse_blocked;;
  blocking "begin authorization claim" begin_tx;;
  in_tx "expire command records" (tx_exec (stmt (delete_expired now)));;
  affected ← in_tx "write authorization claim" (tx_exec (insert_claim now claim));
  in_tx "inspect authorization claim" touch;;
  record ← in_tx "read authorization claim" (tx_exec (selectRecord (claim_key claim)));
  if negb (streq (c_RequestFingerprint (l_Claim record)) (c_RequestFingerprint claim))
  then run_rollback;; fail ErrCommandIDConflict
  else
    in_tx "commit authorization claim" commit;;
    mret (record, affected =? 1).

(** [Lookup]: the unexpired row; [None] when there is none. *)
Definition Lookup (now : Z) (callerUID : Z) (commandID : string) : led (option LedgerRecord) := λ l,
  let select s (_ : answer) :=
    with_columns recordColumns s
      (r ← select_row (callerUID, commandID) s; if now <? expires_at r then Some r else None) in
  match query select (dbs l) with
  | (Ok r, d) => (Ok (scanRecord <$> r), set_db d l)
  | (Err (DbCanceled as e), d) | (Err (DbDeadlineExceeded as e), d) =>
      (Err (ErrContext "read command ledger record" e), set_db d l)
  | (Err _, d) => blockPersistence "read command ledger record" (set_db d l)
  end.

Definition purgeExpired (now : Z) : led unit :=
  plain "purge expired command ledger records" (auto_exec (delete_expired now)).

Definition transitionConflict {A} (now : Z) (callerUID : Z) (commandID : string) : led A := λ l,
  match Lookup now callerUID commandID l with
  | (Err _, l) => blockPersistence "reconcile command transition" l
  | (Ok None, l) => (Err ErrCommandNotFound, l)
  | (Ok (Some _), l) => (Err (ErrInvalidTransition ""), l)
  end.

Definition Transition (now : Z) (callerUID : Z) (commandID : string) (expected next : Status)
  (data : TransitionData) : led unit :=
  lift (transition_guards expected next data);;
  refuse_blocked;;
  blocking "begin command transition" begin_tx;;
  affected ← in_tx "write command transition"
    (tx_exec (update_transition now (callerUID, commandID) expected next data));
  in_tx "inspect command transition" touch;;
  if negb (affected =? 1) then
    run_rollback;; transitionConflict now callerUID commandID
  else in_tx "commit command transition" commit.

(** ** Integrity, schema and recovery *)

(** The rows of a PRAGMA: [default] unless the answer brings its own. *)
Definition pragma (dflt : list string) : db (list string) :=
  query (λ _ a, Some match a with Lines l => l | _ => dflt end).

(** The loop over the rows of [PRAGMA integrity_check]; each [Scan] may fail. *)
Fixpoint integrity_rows (checks : nat) (l : list string) : led nat :=
  match l with
  | [] => mret checks
  | r :: l' =>
      plain "read command ledger integrity result" touch;;
      if negb (streq r "ok") then fail (ErrIntegrityCheck r) else integrity_rows (S checks) l'
  end.

Definition integrityCheck : led unit :=
  lines ← plain "run command ledger integrity check" (pragma ["ok"]);
  checks ← integrity_rows 0 lines;
  plain "read command ledger integrity results" touch;;
  if (checks =? 0)%nat then fail (ErrIntegrityCheck "no result returned") else mret tt.

Definition recoverInterrupted (now : Z) : led unit :=
  plain "recover interrupted command ledger records" (auto_exec (update_interrupted now)).

(** [m], and on an error [blockPersistence]. *)
Definition or_block {A} (operation : string) (m : led A) : led A := λ l,
  match m l with
  | (Ok a, l) => (Ok a, l)
  | (Err _, l) => blockPersistence operation l
  end.

Definition open_gate : led unit := λ l, (Ok tt, set_blocked false l).

(** The work of [Reconcile] behind a shut gate. *)
Definition reconcile_blocked (now : Z) : led unit :=
  or_block "reconcile command ledger integrity" integrityCheck;;
  or_block "reconcile interrupted commands" (recoverInterrupted now);;
  busy ← blocking "checkpoint command ledger WAL"
           (query (λ _ a, Some match a with Busy frames => Some frames | _ => None end));
  (match busy with
   | Some _ => blockPersistence "checkpoint command ledger WAL"
   | None => mret tt
   end);;
  unresolved ← blocking "verify command ledger reconciliation" (query (λ s _, with_columns ["status"] s (count_unresolved s)));
  if negb (unresolved =? 0)%nat then blockPersistence "verify command ledger reconciliation"
  else open_gate.

Definition Reconcile (now : Z) : led unit := λ l,
  if negb (isBlocked l) then (Ok tt, l) else reconcile_blocked now l.

Definition configure : led unit :=
  plain "configure command ledger busy timeout" touch;;
  mode ← plain "configure command ledger WAL mode" (pragma ["wal"]);
  (if bool_decide (mode = ["wal"]) then mret tt else fail (ErrOperation "configure command ledger WAL mode"));;
  plain "configure command ledger synchronous mode" touch;;
  plain "configure command ledger foreign keys" touch;;
  plain "configure command ledger temporary storage" touch.

(** *** Migrations *)

Definition v1_columns : list string :=
  ["caller_uid"; "command_id"; "request_fingerprint"; "request_payload"; "requesting_username";
   "resource"; "command"; "operation_id"; "required_capability"; "target_node"; "status";
   "admin_level"; "authorization_metadata"; "execution_uid"; "execution_username";
   "execution_boundary"; "result_payload"; "error_payload"; "created_at"; "updated_at"; "expires_at"].

Definition set_columns (s : store) (cs : list string) : store := mkStore (user_version s) (Some cs) (rows s).

Definition create_table (s : store) : option store :=
  match columns s with Some _ => None | None => Some (set_columns s v1_columns) end.

(** [ALTER TABLE commands ADD COLUMN]: an error when the column exists. *)
Definition add_column (column : string) (s : store) : option store :=
  match columns s with
  | None => None
  | Some cs => if bool_decide (column ∈ cs) then None else Some (set_columns s (cs ++ [column]))
  end.

Definition set_version (v : Z) (s : store) : option store := Some (mkStore v (columns s) (rows s)).

(** The loop over [PRAGMA table_info]: whether some row names the column. *)
Fixpoint scan_columns (column : string) (found : bool) (cs : list string) : db bool :=
  match cs with
  | [] => mret found
  | c :: cs' => touch;; scan_columns column (found || streq c column) cs'
  end.

Definition table_info (s : store) : option (store * list string) := Some (s, default [] (columns s)).

Definition ensureColumn (column : string) : db unit :=
  cs ← tx_exec table_info;
  found ← scan_columns column false cs;
  touch;; (* rows.Err *)
  touch;; (* rows.Close *)
  if (found : bool) then mret tt else tx_exec (stmt (add_column column)).

Definition applyMigration (version : Z) : db unit :=
  if version =? 1 then tx_exec (stmt create_table)
  else if version =? 2 then
    tx_exec (stmt (λ s, s1 ← add_column "requesting_gid" s; s2 ← add_column "request_message_id" s1;
                        s3 ← add_column "service_uid" s2; add_column "service_username" s3))
  else if version =? 3 then ensureColumn "service_uid";; ensureColumn "service_username"
  else λ d, (Err (DbOther "no migration registered"), d).

(** [err != nil] with the rollback and the error of [migrate]. *)
Definition in_migration (operation : string) (m : db unit) : led unit := λ l,
  match m (dbs l) with
  | (Ok _, d) => (Ok tt, set_db d l)
  | (Err _, d) => (Err (ErrOperation operation), set_db (rollback d).2 l)
  end.

(** The loop of [migrate]; [steps] bounds the versions that are left. *)
Fixpoint migrate_loop (steps : nat) (version : Z) : led unit :=
  match steps with
  | O => mret tt
  | S steps' =>
      if version <? SchemaVersion then
        let nextVersion := version + 1 in
        plain "begin command ledger migration" begin_tx;;
        in_migration "apply command ledger migration" (applyMigration nextVersion);;
        in_migration "set command ledger schema version" (tx_exec (stmt (set_version nextVersion)));;
        plain "commit command ledger migration" commit;;
        migrate_loop steps' nextVersion
      else mret tt
  end.

Definition migrate : led unit :=
  version ← plain "read command ledger schema version" (query (λ s _, Some (user_version s)));
  if SchemaVersion <? version then fail (ErrUnsupportedSchema version)
  else migrate_loop (Z.to_nat (SchemaVersion - version)) version.

(** *** Open *)

(** The steps on the file system before the database is opened: a list of
    outcomes, [true] for success, one for each of resolving the path, creating
    the directory and the file, closing it, setting its mode and [sql.Open]. *)
Definition open_steps : list string :=
  ["resolve command ledger path"; "create command ledger directory";
   "create command ledger database"; "close command ledger database file";
   "restrict command ledger database permissions"; "open command ledger database"].

Definition prepare_file (outcomes : list bool) : result lerror unit :=
  match list_find (λ p, p.2 = false) (zip open_steps outcomes) with
  | Some (_, (step, _)) => Err (ErrOperation step)
  | None => Ok tt
  end.

(** [filepath.Abs], up to the lexical cleaning of the result. *)
Definition absolute (cwd path : string) : string :=
  match path with
  | String c _ => if (c =a "/")%char then path else cwd +:+ "/" +:+ path
  | EmptyString => cwd
  end.

(** What [Open] does with the open database. *)
Definition open_database (now : Z) : led unit :=
  configure;; migrate;; integrityCheck;; recoverInterrupted now;; purgeExpired now.

(** [Open] on the content a database file holds. An error closes the database;
    what remains is its stored content. *)
Definition Open (outcomes : list bool) (cwd path : string) (now : Z) (s : store) (ans : list answer)
  : result lerror Ledger * store :=
  let absolutePath := absolute cwd (if streq path "" then DefaultPath else path) in
  match prepare_file outcomes with
  | Err e => (Err e, s)
  | Ok _ =>
      let l := mkLedger (mkDatabase s None ans) absolutePath false in
      match open_database now l with
      | (Ok _, l') => (Ok l', stored (dbs l'))
      | (Err e, l') => (Err e, stored (dbs l'))
      end
  end.

(** [Path] and [Close]; a closed or crashed daemon leaves its stored content. *)
Definition Path (l : Ledger) : string := path l.
Definition Close (l : Ledger) : store := stored (dbs l).
