(* ===== verification/LedgerLogic.v ===== *)
(** * LedgerLogic: reasoning about the ledger's database calls

    A predicate-transformer view of the [led] monad of Ledger.v: [wp m Q l]
    says that [m], run in [l], ends in a result and a state that satisfy [Q].
    Each kind of database call has one rule that covers all the answers the
    database may give. *)
From S2P Require Import Prelude Ledger.
Open Scope Z_scope.

Definition wp {A} (m : led A) (Q : result lerror A → Ledger → Prop) (l : Ledger) : Prop :=
  Q (m l).1 (m l).2.

(** The observable parts of a ledger, whatever answers are left. *)
Record at_ (l : Ledger) (s : store) (t : option store) (b : bool) (p : string) : Prop := {
  at_stored : stored (dbs l) = s;
  at_tx : tx (dbs l) = t;
  at_blocked : blocked l = b;
  at_path : path l = p;
}.

Section rules.
Context {A B : Type}.
Implicit Types (l : Ledger) (s : store) (b : bool) (p op : string).

Lemma wp_mono (m : led A) (P Q : result lerror A → Ledger → Prop) l :
  wp m P l → (∀ r l', P r l' → Q r l') → wp m Q l.
Proof. unfold wp. eauto. Qed.

Lemma wp_ret (a : A) (Q : result lerror A → Ledger → Prop) l : Q (Ok a) l → wp (mret a) Q l.
Proof. done. Qed.

Lemma wp_fail e (Q : result lerror A → Ledger → Prop) l : Q (Err e) l → wp (fail e) Q l.
Proof. done. Qed.

Lemma wp_bind (m : led A) (f : A → led B) (Q : result lerror B → Ledger → Prop) l :
  wp m (λ r l', match r with Ok a => wp (f a) Q l' | Err e => Q (Err e) l' end) l →
  wp (m ≫= f) Q l.
Proof. unfold wp, mbind, led_bind. by destruct (m l) as [[a|e] l']. Qed.

Lemma wp_lift (r : result lerror A) (Q : result lerror A → Ledger → Prop) l : Q r l → wp (lift r) Q l.
Proof. done. Qed.

Lemma wp_refuse (Q : result lerror unit → Ledger → Prop) l :
  (blocked l = true → Q (Err ErrAdmissionBlocked) l) → (blocked l = false → Q (Ok tt) l) →
  wp refuse_blocked Q l.
Proof. unfold wp, refuse_blocked, isBlocked. destruct (blocked l); auto. Qed.

Lemma wp_block op (Q : result lerror A → Ledger → Prop) l s t b p :
  at_ l s t b p → (∀ l', at_ l' s t true p → Q (Err (ErrPersistenceFailed op)) l') →
  wp (blockPersistence op) Q l.
Proof. intros [] HQ. by apply HQ. Qed.

Lemma wp_open_gate (Q : result lerror unit → Ledger → Prop) l s t b p :
  at_ l s t b p → (∀ l', at_ l' s t false p → Q (Ok tt) l') → wp open_gate Q l.
Proof. intros [] HQ. by apply HQ. Qed.

Lemma wp_rollback (Q : result lerror unit → Ledger → Prop) l s t b p :
  at_ l s t b p → (∀ l', at_ l' s None b p → Q (Ok tt) l') → wp run_rollback Q l.
Proof. intros [] HQ. by apply HQ. Qed.

(** Opens a database call: one case per answer. *)
Ltac db_call :=
  match goal with
  | H : at_ ?l _ _ _ _ |- _ =>
      destruct l as [[stored0 tx0 ans] path0 blocked0]; destruct H as [? ? ? ?]; simpl in *; subst;
      unfold wp, blocking, in_tx, plain, begin_tx, tx_exec, commit, touch, query, auto_exec, ask,
        blockPersistence, rollback, set_db, set_tx, set_stored, set_blocked in *; simpl
  end.
Lemma wp_begin op (Q : result lerror unit → Ledger → Prop) l s b p :
  at_ l s None b p →
  (∀ l', at_ l' s None true p → Q (Err (ErrPersistenceFailed op)) l') →
  (∀ l', at_ l' s (Some s) b p → Q (Ok tt) l') →
  wp (blocking op begin_tx) Q l.
Proof. intros Hl HE HO. db_call. destruct ans as [|[]]; simpl; first [by apply HE | by apply HO]. Qed.

Lemma wp_tx_exec op (f : store → option (store * A)) (Q : result lerror A → Ledger → Prop) l s t b p :
  at_ l s (Some t) b p →
  (∀ l', at_ l' s None true p → Q (Err (ErrPersistenceFailed op)) l') →
  (∀ l' t' x, f t = Some (t', x) → at_ l' s (Some t') b p → Q (Ok x) l') →
  wp (in_tx op (tx_exec f)) Q l.
Proof.
  intros Hl HE HO. db_call.
  destruct ans as [|[]]; simpl; try (by apply HE);
    (destruct (f t) as [[t' x]|] eqn:Hf; simpl; [by eapply HO | by apply HE]).
Qed.

Lemma wp_touch op (Q : result lerror unit → Ledger → Prop) l s t b p :
  at_ l s t b p →
  (∀ l', at_ l' s None true p → Q (Err (ErrPersistenceFailed op)) l') →
  (∀ l', at_ l' s t b p → Q (Ok tt) l') →
  wp (in_tx op touch) Q l.
Proof. intros Hl HE HO. db_call. destruct ans as [|[]]; simpl; first [by apply HE | by apply HO]. Qed.

Lemma wp_commit op (Q : result lerror unit → Ledger → Prop) l s t b p :
  at_ l s (Some t) b p →
  (∀ l' s', s' = s ∨ s' = t → at_ l' s' None true p → Q (Err (ErrPersistenceFailed op)) l') →
  (∀ l', at_ l' t None b p → Q (Ok tt) l') →
  wp (in_tx op commit) Q l.
Proof.
  intros Hl HE HO. db_call.
  destruct ans as [|[]]; simpl; try (by apply HO).
  - apply (HE _ s); auto; done.
  - apply (HE _ t); auto; done.
Qed.

(** Calls outside a transaction whose error is passed on. *)
Lemma wp_plain_touch op (Q : result lerror unit → Ledger → Prop) l s t b p :
  at_ l s t b p →
  (∀ l', at_ l' s t b p → Q (Err (ErrOperation op)) l') →
  (∀ l', at_ l' s t b p → Q (Ok tt) l') →
  wp (plain op touch) Q l.
Proof. intros Hl HE HO. db_call. destruct ans as [|[]]; simpl; first [by apply HE | by apply HO]. Qed.

Lemma wp_plain_begin op (Q : result lerror unit → Ledger → Prop) l s b p :
  at_ l s None b p →
  (∀ l', at_ l' s None b p → Q (Err (ErrOperation op)) l') →
  (∀ l', at_ l' s (Some s) b p → Q (Ok tt) l') →
  wp (plain op begin_tx) Q l.
Proof. intros Hl HE HO. db_call. destruct ans as [|[]]; simpl; first [by apply HE | by apply HO]. Qed.

Lemma wp_plain_commit op (Q : result lerror unit → Ledger → Prop) l s t b p :
  at_ l s (Some t) b p →
  (∀ l' s', s' = s ∨ s' = t → at_ l' s' None b p → Q (Err (ErrOperation op)) l') →
  (∀ l', at_ l' t None b p → Q (Ok tt) l') →
  wp (plain op commit) Q l.
Proof.
  intros Hl HE HO. db_call.
  destruct ans as [|[]]; simpl; try (by apply HO).
  - apply (HE _ s); auto; done.
  - apply (HE _ t); auto; done.
Qed.

Lemma wp_plain_query op (f : store → answer → option A) (Q : result lerror A → Ledger → Prop) l s b p :
  at_ l s None b p →
  (∀ l', at_ l' s None b p → Q (Err (ErrOperation op)) l') →
  (∀ l' a x, f s a = Some x → at_ l' s None b p → Q (Ok x) l') →
  wp (plain op (query f)) Q l.
Proof.
  intros Hl HE HO. db_call.
  destruct ans as [|a ans]; [|destruct a; try (by apply HE)]; simpl;
    (destruct (f s _) as [x|] eqn:Hf; simpl; [by eapply HO | by apply HE]).
Qed.

Lemma wp_block_query op (f : store → answer → option A) (Q : result lerror A → Ledger → Prop) l s b p :
  at_ l s None b p →
  (∀ l', at_ l' s None true p → Q (Err (ErrPersistenceFailed op)) l') →
  (∀ l' a x, f s a = Some x → at_ l' s None b p → Q (Ok x) l') →
  wp (blocking op (query f)) Q l.
Proof.
  intros Hl HE HO. db_call.
  destruct ans as [|a ans]; [|destruct a; try (by apply HE)]; simpl;
    (destruct (f s _) as [x|] eqn:Hf; simpl; [by eapply HO | by apply HE]).
Qed.

Lemma wp_auto_exec op (f : store → option store) (Q : result lerror unit → Ledger → Prop) l s b p :
  at_ l s None b p →
  (∀ l' s', s' = s ∨ f s = Some s' → at_ l' s' None b p → Q (Err (ErrOperation op)) l') →
  (∀ l' s', f s = Some s' → at_ l' s' None b p → Q (Ok tt) l') →
  wp (plain op (auto_exec f)) Q l.
Proof.
  intros Hl HE HO. db_call.
  destruct ans as [|[]]; simpl; try (by eapply (HE _ s); [left|]);
    (destruct (f s) as [s'|] eqn:Hf; simpl; [|by eapply (HE _ s); [left|]]);
    first [by eapply HO | by eapply (HE _ s'); [right|]].
Qed.

Lemma wp_or_block op (m : led A) (Q : result lerror A → Ledger → Prop) l :
  wp m (λ r l', match r with
                | Ok a => Q (Ok a) l'
                | Err _ => ∀ l'', at_ l'' (stored (dbs l')) (tx (dbs l')) true (path l') →
                             Q (Err (ErrPersistenceFailed op)) l''
                end) l →
  wp (or_block op m) Q l.
Proof. unfold wp, or_block. destruct (m l) as [[a|e] l']; simpl; [done|]. intros HQ. by apply HQ. Qed.

End rules.
