(* ===== verification/LedgerFacts.v ===== *)
(** * LedgerFacts: what the ledger promises

    The contract of every operation of Ledger.v on every answer the database
    may give, the well-formedness invariant of the table, and the guarantees
    that follow for sequences of operations, crashes and restarts. *)
From S2P Require Import Prelude Ledger LedgerLogic.
Open Scope Z_scope.

(** ** The abstract table

    One pure function per operation that changes the table. *)

Definition reserve_rows (now : Z) (c : Claim) (m : gmap key Row) : gmap key Row :=
  let m' := purge_rows now m in
  match m' !! claim_key c with
  | Some _ => m'
  | None => <[claim_key c := new_row now c]> m'
  end.

Definition transition_rows (now : Z) (k : key) (expected next : Status) (data : TransitionData)
  (m : gmap key Row) : gmap key Row :=
  match m !! k with
  | Some r => if eq_status (status r) expected then <[k := update_row now next data r]> m else m
  | None => m
  end.

Definition recover_rows (now : Z) (m : gmap key Row) : gmap key Row := recover_row now <$> m.

(** ** Contracts *)

(** [ReserveAuthorization]: on success the expired rows are gone, the row of the
    claim is there with the fingerprint asked for, and it is new exactly when
    no unexpired row had the key. *)
Definition reserve_post (now : Z) (claim : Claim) (s : store) (b : bool)
  (r : result lerror (LedgerRecord * bool)) (s' : store) (b' : bool) : Prop :=
  match r with
  | Ok (record, created) =>
      b = false ∧ b' = false ∧ validateClaim claim = Ok tt
      ∧ s' = set_rows s (reserve_rows now claim (rows s))
      ∧ ∃ row, rows s' !! claim_key claim = Some row ∧ record = scanRecord row
               ∧ c_RequestFingerprint (claimed row) = c_RequestFingerprint claim
               ∧ match purge_rows now (rows s) !! claim_key claim with
                 | Some old => created = false ∧ row = old
                 | None => created = true ∧ row = new_row now claim
                 end
  | Err ErrCommandIDConflict =>
      b = false ∧ b' = false ∧ s' = s
      ∧ ∃ row, rows s !! claim_key claim = Some row ∧ now < expires_at row
               ∧ c_RequestFingerprint (claimed row) ≠ c_RequestFingerprint claim
  | Err (ErrPersistenceFailed _) =>
      b = false ∧ b' = true ∧ validateClaim claim = Ok tt
      ∧ (s' = s ∨ s' = set_rows s (reserve_rows now claim (rows s)))
  | Err ErrAdmissionBlocked => b = true ∧ b' = true ∧ s' = s
  | Err (ErrInvalidTransition _) => b' = b ∧ s' = s ∧ validateClaim claim ≠ Ok tt
  | Err _ => False
  end.

Lemma with_columns_Some {A} names s (x y : A) :
  with_columns names s x = Some y → has_columns names s = true ∧ y = x.
Proof. unfold with_columns. destruct (has_columns names s); [|done]. by intros [= <-]. Qed.

Lemma stmt_Some f s s' u : stmt f s = Some (s', u) → f s = Some s'.
Proof. unfold stmt. destruct (f s); simpl; [by intros [= <- _]|done]. Qed.

Lemma selectRecord_Some k s s' x :
  selectRecord k s = Some (s', x) → s' = s ∧ ∃ r, rows s !! k = Some r ∧ x = scanRecord r.
Proof.
  unfold selectRecord, select_row. destruct (has_schema s); [|done]. destruct (rows s !! k); simpl; [|done]. intros [= <- <-]. eauto.
Qed.

Lemma set_rows_id s : set_rows s (rows s) = s.
Proof. by destruct s. Qed.

Lemma purge_lookup now m k r : purge_rows now m !! k = Some r ↔ m !! k = Some r ∧ now < expires_at r.
Proof. unfold purge_rows. by rewrite map_lookup_filter_Some. Qed.

(** The guards fail with [ErrInvalidTransition] only. *)
Lemma validateClaim_Err c e : validateClaim c = Err e → ∃ d, e = ErrInvalidTransition d.
Proof.
  unfold validateClaim. intros [->|H]%guard_bind_Err; [eauto|].
  apply guard_bind_Err in H as [->|H]; [eauto|]. unfold guard_err in H.
  destruct (negb _); [done|]. injection H as <-. eauto.
Qed.

Lemma transition_guards_Err expected next data e :
  transition_guards expected next data = Err e → ∃ d, e = ErrInvalidTransition d.
Proof.
  unfold transition_guards. intros [->|H]%guard_bind_Err; [eauto|].
  apply guard_bind_Err in H as [->|H]; [eauto|]. apply guard_bind_Err in H as [->|H]; [eauto|].
  unfold guard_err in H. destruct (negb _); [done|]. injection H as <-. eauto.
Qed.

(** The four statements of the reservation, composed. *)
Lemma insert_claim_reserve now claim s s' n :
  insert_claim now claim (set_rows s (purge_rows now (rows s))) = Some (s', n) →
  s' = set_rows s (reserve_rows now claim (rows s))
  ∧ (n =? 1) = bool_decide (purge_rows now (rows s) !! claim_key claim = None).
Proof.
  unfold insert_claim, reserve_rows. destruct (_ && _); [|done]. cbn [rows set_rows].
  destruct (purge_rows now (rows s) !! claim_key claim); intros [= <- <-]; done.
Qed.

Lemma ReserveAuthorization_wp now claim l s b p :
  at_ l s None b p →
  wp (ReserveAuthorization now claim)
    (λ r l', ∃ s' b', at_ l' s' None b' p ∧ reserve_post now claim s b r s' b') l.
Proof.
  intros Hl. unfold ReserveAuthorization. apply wp_bind, wp_lift.
  destruct (validateClaim claim) as [[]|e] eqn:Hv; [|].
  2:{ exists s, b. split; [done|]. destruct (validateClaim_Err _ _ Hv) as [d ->]. simpl. by rewrite Hv. }
  apply wp_bind, wp_refuse; [intros Hb|intros Hb].
  { exists s, b. rewrite (at_blocked _ _ _ _ _ Hl) in Hb. by subst. }
  rewrite (at_blocked _ _ _ _ _ Hl) in Hb. subst b.
  assert (HE : ∀ op l', at_ l' s None true p → ∃ s' b', at_ l' s' None b' p ∧
    reserve_post now claim s false (Err (ErrPersistenceFailed op)) s' b').
  { intros op l' H. exists s, true. split; [done|]. simpl. auto. }
  apply wp_bind. eapply wp_begin; [done|apply HE|]. clear l Hl. intros l Hl.
  apply wp_bind. eapply wp_tx_exec; [done|apply HE|]. clear l Hl.
  intros l t [] [Hsc ->]%stmt_Some%with_columns_Some Hl.
  apply wp_bind. eapply wp_tx_exec; [done|apply HE|]. clear l Hl.
  intros l t n [-> Hn]%insert_claim_reserve Hl.
  apply wp_bind. eapply wp_touch; [done|apply HE|]. clear l Hl. intros l Hl.
  apply wp_bind. eapply wp_tx_exec; [done|apply HE|]. clear l Hl.
  intros l t record [-> (row & Hrow & ->)]%selectRecord_Some Hl. cbn [rows set_rows] in Hrow.
  cbn [l_Claim scanRecord]. destruct (streq (c_RequestFingerprint (claimed row)) _) eqn:Hfp; cbn [negb].
  - apply streq_true in Hfp. apply wp_bind. eapply wp_commit; [done| |].
    { clear l Hl. intros l s' Hs' Hl. exists s', true. split; [done|]. simpl. auto. }
    clear l Hl. intros l Hl. apply wp_ret. eexists _, _. split; [done|].
    repeat (split; [done|]). exists row. repeat (split; [done|]). revert Hrow.
    unfold reserve_rows. rewrite Hn.
    destruct (purge_rows now (rows s) !! claim_key claim) as [old|] eqn:Hold.
    + rewrite Hold. intros [= ->]. by rewrite bool_decide_eq_false_2.
    + rewrite lookup_insert_eq. intros [= <-]. by rewrite bool_decide_eq_true_2.
  - apply streq_false in Hfp. apply wp_bind. eapply wp_rollback; [done|]. clear l Hl. intros l Hl.
    apply wp_fail. exists s, false. split; [done|]. repeat (split; [done|]). exists row.
    revert Hrow. unfold reserve_rows.
    destruct (purge_rows now (rows s) !! claim_key claim) as [old|] eqn:Hold.
    + rewrite Hold. intros [= ->]. apply purge_lookup in Hold as [??]. done.
    + rewrite lookup_insert_eq. intros [= <-]. done.
Qed.

(** [Lookup] never changes the table: it reads the unexpired row, and blocks the
    ledger on any failure but an ended context. *)
Definition lookup_post (now : Z) (k : key) (s : store) (b : bool)
  (r : result lerror (option LedgerRecord)) (b' : bool) : Prop :=
  match r with
  | Ok (Some record) => b' = b ∧ ∃ row, rows s !! k = Some row ∧ now < expires_at row ∧ record = scanRecord row
  | Ok None => b' = b ∧ ∀ row, rows s !! k = Some row → expires_at row ≤ now
  | Err (ErrContext _ e) => b' = b ∧ (e = DbCanceled ∨ e = DbDeadlineExceeded)
  | Err (ErrPersistenceFailed _) => b' = true
  | Err _ => False
  end.

Lemma Lookup_wp now uid id l s b p :
  at_ l s None b p →
  wp (Lookup now uid id) (λ r l', ∃ b', at_ l' s None b' p ∧ lookup_post now (uid, id) s b r b') l.
Proof.
  intros [Hs Ht Hb Hp]. destruct l as [[st t ans] pa bl]. simpl in *. subst.
  assert (HO : ∀ ans', ∃ b', at_ (mkLedger (mkDatabase s None ans') p b) s None b' p ∧
    lookup_post now (uid, id) s b
      (Ok (scanRecord <$> (r ← select_row (uid, id) s; if now <? expires_at r then Some r else None))) b').
  { intros ans'. exists b. split; [by split|]. unfold select_row.
    generalize (uid, id) as k. intros k. cbn [lookup_post].
    destruct (rows s !! k) as [row|] eqn:Hr; simpl.
    - destruct (Z.ltb_spec now (expires_at row)); simpl; [eauto|].
      split; [done|]. intros ? [= <-]. lia.
    - split; [done|]. intros ? [=]. }
  unfold wp, Lookup, query, ask, set_db, blockPersistence, set_blocked, with_columns.
  destruct ans as [|[| e | e | |] ans]; simpl;
    try (destruct (has_columns recordColumns s); simpl; [by auto|eexists; split; [done|]; done]);
    destruct e; simpl; eexists; (split; [done|]); simpl; auto.
Qed.

(** [Transition]: on success exactly the row asked for, which was in the expected
    status, has moved. On any other outcome the table is as it was, except that
    a commit reported as failed may have happened, and then the gate is shut. *)
Definition transition_post (now : Z) (k : key) (expected next : Status) (data : TransitionData)
  (s : store) (b : bool) (r : result lerror unit) (s' : store) (b' : bool) : Prop :=
  let moved := ∃ row, rows s !! k = Some row ∧ status row = expected
    ∧ s' = set_rows s (<[k := update_row now next data row]> (rows s)) in
  match r with
  | Ok _ => b = false ∧ b' = false ∧ transition_guards expected next data = Ok tt ∧ moved
  | Err (ErrPersistenceFailed _) =>
      b = false ∧ b' = true ∧ (s' = s ∨ transition_guards expected next data = Ok tt ∧ moved)
  | Err ErrAdmissionBlocked => b = true ∧ b' = true ∧ s' = s
  | Err (ErrInvalidTransition _) => b' = b ∧ s' = s
  | Err ErrCommandNotFound =>
      b = false ∧ b' = false ∧ s' = s ∧ ∀ row, rows s !! k = Some row → expires_at row ≤ now
  | Err _ => False
  end.

Lemma transitionConflict_wp {A} now uid id l s p (Q : result lerror A → Ledger → Prop) :
  at_ l s None false p →
  (∀ l' op, at_ l' s None true p → Q (Err (ErrPersistenceFailed op)) l') →
  (∀ l', at_ l' s None false p → (∀ row, rows s !! (uid, id) = Some row → expires_at row ≤ now) →
         Q (Err ErrCommandNotFound) l') →
  (∀ l', at_ l' s None false p → Q (Err (ErrInvalidTransition "")) l') →
  wp (transitionConflict now uid id) Q l.
Proof.
  intros Hl HE HN HC. pose proof (Lookup_wp now uid id l s false p Hl) as HL.
  unfold wp, transitionConflict in *. destruct (Lookup now uid id l) as [r l'].
  destruct HL as (b' & [] & HL). cbn [fst snd] in *.
  destruct r as [[record|]|e]; cbn [lookup_post] in HL.
  - destruct HL as [-> _]. by apply HC.
  - destruct HL as [-> HL]. by apply HN.
  - by apply HE.
Qed.

Lemma update_transition_Some now k expected next data s s' n :
  update_transition now k expected next data s = Some (s', n) →
  (n = 1 ∧ ∃ row, rows s !! k = Some row ∧ status row = expected
      ∧ s' = set_rows s (<[k := update_row now next data row]> (rows s)))
  ∨ (n = 0 ∧ s' = s).
Proof.
  unfold update_transition. destruct (has_columns _ s); [|done].
  destruct (rows s !! k) as [row|]; [|intros [= <- <-]; by right].
  unfold eq_status. destruct (bool_decide _) eqn:Hd; intros [= <- <-]; [left|by right].
  apply bool_decide_eq_true in Hd. eauto.
Qed.

Lemma Transition_wp now uid id expected next data l s b p :
  at_ l s None b p →
  wp (Transition now uid id expected next data)
    (λ r l', ∃ s' b', at_ l' s' None b' p
       ∧ transition_post now (uid, id) expected next data s b r s' b') l.
Proof.
  intros Hl. unfold Transition. apply wp_bind, wp_lift.
  destruct (transition_guards expected next data) as [[]|e] eqn:Hg.
  2:{ exists s, b. split; [done|]. destruct (transition_guards_Err _ _ _ _ Hg) as [d ->]. done. }
  apply wp_bind, wp_refuse; intros Hb; rewrite (at_blocked _ _ _ _ _ Hl) in Hb; subst b.
  { exists s, true. done. }
  assert (HE : ∀ op l', at_ l' s None true p → ∃ s' b', at_ l' s' None b' p ∧
    transition_post now (uid, id) expected next data s false (Err (ErrPersistenceFailed op)) s' b').
  { intros op l' H. exists s, true. split; [done|]. simpl. auto. }
  apply wp_bind. eapply wp_begin; [done|apply HE|]. clear l Hl. intros l Hl.
  apply wp_bind. eapply wp_tx_exec; [done|apply HE|]. clear l Hl.
  intros l t n Hn%update_transition_Some Hl.
  apply wp_bind. eapply wp_touch; [done|apply HE|]. clear l Hl. intros l Hl.
  destruct Hn as [[-> Hm] | [-> ->]]; cbn [Z.eqb negb].
  - eapply wp_commit; [done| |].
    + clear l Hl. intros l s' Hs' Hl. exists s', true. split; [done|]. simpl.
      destruct Hs' as [->| ->]; auto.
    + clear l Hl. intros l Hl. exists t, false. split; [done|]. simpl. auto.
  - apply wp_bind. eapply wp_rollback; [done|]. clear l Hl. intros l Hl.
    eapply transitionConflict_wp; [done|..].
    + intros l' op Hl'. by apply HE.
    + intros l' Hl' Hx. exists s, false. split; [done|]. by simpl.
    + intros l' Hl'. exists s, false. by split.
Qed.

(** The integrity check and the recovery, and [Reconcile]. *)
Lemma integrity_rows_wp lines checks l s b p (Q : result lerror nat → Ledger → Prop) :
  at_ l s None b p →
  (∀ r l', at_ l' s None b p →
     match r with Ok n => (n = checks + length lines)%nat ∧ Forall (.= "ok") lines | Err _ => True end → Q r l') →
  wp (integrity_rows checks lines) Q l.
Proof.
  revert checks l. induction lines as [|r lines IH]; intros checks l Hl HQ; cbn [integrity_rows].
  { apply wp_ret, HQ; [done|]. simpl. split; [lia|constructor]. }
  apply wp_bind. eapply wp_plain_touch; [done|auto|]. clear l Hl. intros l Hl.
  destruct (streq r "ok") eqn:Hr; cbn [negb].
  - apply streq_true in Hr. apply IH; [done|]. intros [n|e] l' Hl' Hn; apply HQ; auto.
    destruct Hn as [-> Hn]. simpl. split; [lia|by constructor].
  - apply wp_fail, HQ; done.
Qed.

Lemma integrityCheck_wp l s b p (Q : result lerror unit → Ledger → Prop) :
  at_ l s None b p → (∀ r l', at_ l' s None b p → Q r l') → wp integrityCheck Q l.
Proof.
  intros Hl HQ. unfold integrityCheck.
  apply wp_bind. eapply wp_plain_query; [done|auto|]. clear l Hl. intros l a lines _ Hl.
  apply wp_bind. eapply integrity_rows_wp; [done|]. clear l Hl. intros [n|e] l Hl Hn; [|auto].
  apply wp_bind. eapply wp_plain_touch; [done|auto|]. clear l Hl. intros l Hl.
  destruct (n =? 0)%nat; [apply wp_fail|apply wp_ret]; auto.
Qed.

Lemma update_interrupted_Some now s s' :
  update_interrupted now s = Some s' → s' = set_rows s (recover_rows now (rows s)).
Proof. by intros [_ ->]%with_columns_Some. Qed.

Lemma count_unresolved_zero s :
  count_unresolved s = 0%nat → ∀ k r, rows s !! k = Some r → interrupted (status r) = false.
Proof.
  unfold count_unresolved. intros H%map_size_empty_inv k r Hk.
  destruct (interrupted (status r)) eqn:Hi; [|done]. exfalso.
  assert (filter (λ p, interrupted (status p.2) = true) (rows s) !! k = Some r) as Hf
    by (by apply map_lookup_filter_Some).
  by rewrite H in Hf.
Qed.

(** [Reconcile]: nothing happens at an open gate. At a shut gate the table is as
    it was or recovered; success opens the gate and leaves no command in
    flight, and failure keeps it shut. *)
Definition reconcile_post (now : Z) (s : store) (b : bool) (r : result lerror unit) (s' : store) (b' : bool) : Prop :=
  match r with
  | Ok _ => b' = false ∧
      if b then s' = set_rows s (recover_rows now (rows s)) ∧
                ∀ k row, rows s' !! k = Some row → interrupted (status row) = false
      else s' = s
  | Err (ErrPersistenceFailed _) =>
      b = true ∧ b' = true ∧ (s' = s ∨ s' = set_rows s (recover_rows now (rows s)))
  | Err _ => False
  end.

Lemma reconcile_blocked_wp now l s p :
  at_ l s None true p →
  wp (reconcile_blocked now)
    (λ r l', ∃ s' b', at_ l' s' None b' p ∧ reconcile_post now s true r s' b') l.
Proof.
  intros Hl. unfold reconcile_blocked.
  assert (HE : ∀ op l' s', s' = s ∨ s' = set_rows s (recover_rows now (rows s)) → at_ l' s' None true p →
    ∃ s'' b', at_ l' s'' None b' p ∧ reconcile_post now s true (Err (ErrPersistenceFailed op)) s'' b').
  { intros op l' s' Hs' H. exists s', true. done. }
  apply wp_bind, wp_or_block. eapply integrityCheck_wp; [done|]. clear l Hl.
  intros [[]|e] l Hl; [|destruct Hl as [-> -> _ ->]; intros; eapply HE; [by left|done]].
  apply wp_bind, wp_or_block. eapply wp_auto_exec; [done| |]; clear l Hl.
  { intros l s' Hs' [-> -> _ ->] l'' Hl. eapply HE; [|done].
    destruct Hs' as [->|Hs']; [by left|]. right. by apply update_interrupted_Some. }
  intros l s' ->%update_interrupted_Some Hl.
  apply wp_bind. eapply wp_block_query; [done|intros; eapply HE; [by right|done]|]. clear l Hl. intros l a busy _ Hl.
  apply wp_bind. destruct busy.
  { eapply wp_block; [done|]. intros; eapply HE; [by right|done]. }
  apply wp_ret. apply wp_bind. eapply wp_block_query; [done|intros; eapply HE; [by right|done]|].
  clear l Hl. intros l _ n [_ ->]%with_columns_Some Hl. destruct (_ =? 0)%nat eqn:Hn; cbn [negb].
  - eapply wp_open_gate; [done|]. clear l Hl. intros l Hl. eexists _, false. split; [done|].
    repeat (split; [done|]). apply Nat.eqb_eq in Hn. by apply count_unresolved_zero.
  - eapply wp_block; [done|]. intros; eapply HE; [by right|done].
Qed.

Lemma Reconcile_wp now l s b p :
  at_ l s None b p →
  wp (Reconcile now) (λ r l', ∃ s' b', at_ l' s' None b' p ∧ reconcile_post now s b r s' b') l.
Proof.
  intros Hl. destruct b.
  - pose proof (reconcile_blocked_wp now l s p Hl) as H. unfold wp, Reconcile, isBlocked in *.
    by rewrite (at_blocked _ _ _ _ _ Hl).
  - unfold wp, Reconcile, isBlocked. rewrite (at_blocked _ _ _ _ _ Hl). by exists s, false.
Qed.

(** ** Opening a database *)

(** The columns a database of version [v] has; the one of version 2 may come
    from a build without the service columns. *)
Definition required (v : Z) : list string :=
  if v <=? 0 then []
  else if v =? 1 then v1_columns
  else if v =? 2 then v1_columns ++ ["requesting_gid"; "request_message_id"]
  else recordColumns.
Definition schema_ok (s : store) : Prop :=
  0 < user_version s → has_columns (required (user_version s)) s = true.

Lemma has_columns_iff names s :
  has_columns names s = true ↔ ∃ cs, columns s = Some cs ∧ ∀ c, c ∈ names → c ∈ cs.
Proof.
  unfold has_columns. destruct (columns s) as [cs|]; [|split; [done|by intros (? & [=] & _)]].
  rewrite forallb_forall. split.
  - intros H. exists cs. split; [done|]. intros c Hc%list_elem_of_In.
    by apply H, bool_decide_eq_true in Hc.
  - intros (? & [= <-] & H) c Hc%list_elem_of_In. apply bool_decide_eq_true. auto.
Qed.

(** [wpd]: the same view of the calls inside a transaction. *)
Definition wpd {A} (m : db A) (Q : result dberr A → database → Prop) (d : database) : Prop :=
  Q (m d).1 (m d).2.

Lemma wpd_bind {A B} (m : db A) (f : A → db B) Q d :
  wpd m (λ r d', match r with Ok a => wpd (f a) Q d' | Err e => Q (Err e) d' end) d → wpd (m ≫= f) Q d.
Proof. unfold wpd, mbind, db_bind. by destruct (m d) as [[a|e] d']. Qed.

Lemma wpd_mono {A} (m : db A) (P Q : result dberr A → database → Prop) d :
  wpd m P d → (∀ r d', P r d' → Q r d') → wpd m Q d.
Proof. unfold wpd. eauto. Qed.

Lemma wpd_tx_exec {A} (f : store → option (store * A)) (Q : result dberr A → database → Prop) d s t :
  stored d = s → tx d = Some t →
  (∀ e d', stored d' = s → tx d' = Some t → Q (Err e) d') →
  (∀ d' t' x, f t = Some (t', x) → stored d' = s → tx d' = Some t' → Q (Ok x) d') →
  wpd (tx_exec f) Q d.
Proof.
  intros Hs Ht HE HO. destruct d as [st tx0 ans]; simpl in *; subst. unfold wpd, tx_exec, ask.
  destruct ans as [|[]]; simpl; try (by apply HE);
    (destruct (f t) as [[t' x]|] eqn:Hf; simpl; [by eapply HO | by apply HE]).
Qed.

Lemma wpd_touch (Q : result dberr unit → database → Prop) d s t :
  stored d = s → tx d = Some t →
  (∀ r d', stored d' = s → tx d' = Some t → Q r d') → wpd touch Q d.
Proof.
  intros Hs Ht HQ. destruct d as [st tx0 ans]; simpl in *; subst. unfold wpd, touch, ask.
  destruct ans as [|[]]; simpl; by apply HQ.
Qed.

(** A step of a migration: rows and version stay, columns are only added, and
    a success adds [names]. *)
Definition adds (names : list string) (t : store) (s : store) (r : result dberr unit) (d' : database) : Prop :=
  stored d' = s ∧ ∃ t', tx d' = Some t' ∧ rows t' = rows t ∧ user_version t' = user_version t
    ∧ (∀ cs, columns t = Some cs → ∃ cs', columns t' = Some cs' ∧ (∀ c, c ∈ cs → c ∈ cs'))
    ∧ (r = Ok tt → has_columns names t' = true).

Lemma adds_refl names t s e d' : stored d' = s → tx d' = Some t → adds names t s (Err e) d'.
Proof. intros Hs Ht. split; [done|]. exists t. repeat (split; [done|]). split; [eauto|done]. Qed.

Lemma add_column_Some column s s' :
  add_column column s = Some s' →
  ∃ cs, columns s = Some cs ∧ s' = set_columns s (cs ++ [column]).
Proof.
  unfold add_column. destruct (columns s) as [cs|]; [|done]. destruct (bool_decide _); [done|].
  intros [= <-]. eauto.
Qed.

Lemma scan_columns_wpd column found cs (Q : result dberr bool → database → Prop) d s t :
  stored d = s → tx d = Some t →
  (∀ e d', stored d' = s → tx d' = Some t → Q (Err e) d') →
  (∀ d', stored d' = s → tx d' = Some t → Q (Ok (found || bool_decide (column ∈ cs))) d') →
  wpd (scan_columns column found cs) Q d.
Proof.
  revert found d. induction cs as [|c cs IH]; intros found d Hs Ht HE HO; cbn [scan_columns].
  { specialize (HO d Hs Ht). rewrite bool_decide_eq_false_2, orb_false_r in HO; [done|].
    apply not_elem_of_nil. }
  apply wpd_bind. eapply wpd_touch; [done..|]. intros [[]|e] d' Hs' Ht'; [|auto].
  apply IH; [done..|]. intros d'' Hs'' Ht''. specialize (HO d'' Hs'' Ht'').
  rewrite <-orb_assoc. replace (streq c column || bool_decide (column ∈ cs))%bool
    with (bool_decide (column ∈ c :: cs)); [done|].
  rewrite (bool_decide_ext _ (column = c ∨ column ∈ cs)) by apply elem_of_cons.
  rewrite bool_decide_or. f_equal. destruct (streq c column) eqn:He.
  - apply streq_true in He as ->. by rewrite bool_decide_eq_true_2.
  - apply streq_false in He. by rewrite bool_decide_eq_false_2.
Qed.

Lemma ensureColumn_wpd column d s t :
  stored d = s → tx d = Some t → wpd (ensureColumn column) (adds [column] t s) d.
Proof.
  intros Hs Ht. unfold ensureColumn.
  apply wpd_bind. eapply wpd_tx_exec; [done..|intros; by apply adds_refl|].
  unfold table_info. intros d1 ? cs [= <- <-] Hs1 Ht1.
  apply wpd_bind. eapply scan_columns_wpd; [done..|intros; by apply adds_refl|]. intros d2 Hs2 Ht2.
  apply wpd_bind. eapply wpd_touch; [done..|]. intros [[]|e] d3 Hs3 Ht3; [|by apply adds_refl].
  apply wpd_bind. eapply wpd_touch; [done..|]. intros [[]|e] d4 Hs4 Ht4; [|by apply adds_refl].
  cbn [orb]. case_bool_decide as Hc.
  - split; [done|]. exists t. repeat (split; [done|]). split; [eauto|]. intros _.
    apply has_columns_iff. destruct (columns t) as [cs|]; [|by apply not_elem_of_nil in Hc].
    exists cs. split; [done|]. by intros c ->%list_elem_of_singleton.
  - eapply wpd_tx_exec; [done..|intros; by apply adds_refl|].
    intros d5 t' [] (cs & Hcs & ->)%stmt_Some%add_column_Some Hs5 Ht5. split; [done|].
    eexists. split; [done|]. repeat (split; [done|]). cbn [columns set_columns].
    split; [rewrite Hcs; intros ? [= <-]; eexists; split; [done|]; set_solver|]. intros _.
    apply has_columns_iff. eexists. split; [done|]. set_solver.
Qed.

Lemma applyMigration_wpd v d s t :
  stored d = s → tx d = Some t →
  wpd (applyMigration v)
    (adds (if v =? 1 then v1_columns
           else if v =? 2 then ["requesting_gid"; "request_message_id"; "service_uid"; "service_username"]
           else ["service_uid"; "service_username"]) t s) d.
Proof.
  intros Hs Ht. unfold applyMigration. destruct (v =? 1).
  { eapply wpd_tx_exec; [done..|intros; by apply adds_refl|].
    intros d1 t1 [] H%stmt_Some Hs1 Ht1. unfold create_table in H.
    destruct (columns t) eqn:Hc; [done|]. injection H as <-.
    split; [done|]. eexists. split; [done|]. repeat (split; [done|]). split; [by rewrite Hc|].
    intros _. apply has_columns_iff. eauto. }
  destruct (v =? 2).
  { eapply wpd_tx_exec; [done..|intros; by apply adds_refl|].
    intros d1 t1 [] H%stmt_Some Hs1 Ht1.
    apply bind_Some in H as (s1 & (c1 & Hc1 & ->)%add_column_Some & H).
    apply bind_Some in H as (s2 & (c2 & [= <-] & ->)%add_column_Some & H).
    apply bind_Some in H as (s3 & (c3 & [= <-] & ->)%add_column_Some & H).
    apply add_column_Some in H as (c4 & [= <-] & ->).
    split; [done|]. eexists. split; [done|]. repeat (split; [done|]). cbn [columns set_columns].
    split; [rewrite Hc1; intros ? [= <-]; eexists; split; [done|]; set_solver|].
    intros _. apply has_columns_iff. eexists. split; [done|]. set_solver. }
  destruct (v =? 3); [|by apply adds_refl].
  apply wpd_bind. eapply wpd_mono; [by apply ensureColumn_wpd|].
  intros [[]|e] d1 (Hs1 & t1 & Ht1 & Hr1 & Hv1 & Hc1 & Hn1); [|].
  2:{ split; [done|]. exists t1. by repeat (split; [done|]). }
  eapply wpd_mono; [by apply ensureColumn_wpd|].
  intros r d2 (Hs2 & t2 & Ht2 & Hr2 & Hv2 & Hc2 & Hn2).
  split; [done|]. exists t2. split; [done|]. split; [by rewrite Hr2|]. split; [by rewrite Hv2|].
  split; [intros cs (cs1 & ? & ?)%Hc1; destruct (Hc2 cs1) as (cs2 & ? & ?); [done|]; eauto 10|].
  intros Hr. apply has_columns_iff in Hn1 as (c1 & Hc & H1); [|done].
  destruct (Hc2 c1 Hc) as (c2 & Hc' & H2). specialize (Hn2 Hr).
  apply has_columns_iff in Hn2 as (c3 & Hc3 & H3).
  assert (c3 = c2) as -> by congruence.
  apply has_columns_iff. exists c2. split; [done|]. set_solver.
Qed.

(** The loop of [migrate]: the rows never change, a database at or below the
    supported version ends at it with every column, and errors leave a version
    between the two. *)
Lemma wp_in_migration op (m : db unit) (Q : result lerror unit → Ledger → Prop) l s b p names t :
  at_ l s (Some t) b p →
  (∀ d, stored d = s → tx d = Some t → wpd m (adds names t s) d) →
  (∀ l', at_ l' s None b p → Q (Err (ErrOperation op)) l') →
  (∀ l' t', at_ l' s (Some t') b p → rows t' = rows t → user_version t' = user_version t →
     (∀ cs, columns t = Some cs → ∃ cs', columns t' = Some cs' ∧ (∀ c, c ∈ cs → c ∈ cs')) →
     has_columns names t' = true → Q (Ok tt) l') →
  wp (in_migration op m) Q l.
Proof.
  intros [Hs Ht Hb Hp] Hm HE HO. specialize (Hm (dbs l) Hs Ht). unfold wp, in_migration.
  unfold wpd in Hm. destruct (m (dbs l)) as [[[]|e] d]; cbn [fst snd] in *;
    destruct Hm as (Hs' & t' & Ht' & Hr & Hv & Hc & Hn).
  - eapply HO; [by split|done..|]. by apply Hn.
  - by apply HE.
Qed.

Lemma wp_set_version op v (Q : result lerror unit → Ledger → Prop) l s t b p :
  at_ l s (Some t) b p →
  (∀ l', at_ l' s None b p → Q (Err (ErrOperation op)) l') →
  (∀ l', at_ l' s (Some (mkStore v (columns t) (rows t))) b p → Q (Ok tt) l') →
  wp (in_migration op (tx_exec (stmt (set_version v)))) Q l.
Proof.
  intros [Hs Ht Hb Hp] HE HO. destruct l as [[st tx0 ans] pa bl]; simpl in *; subst.
  unfold wp, in_migration, tx_exec, ask. destruct ans as [|[]]; simpl; first [by apply HE | by apply HO].
Qed.

Lemma required_step v t t' :
  0 ≤ v < 3 → schema_ok t → user_version t = v →
  (∀ cs, columns t = Some cs → ∃ cs', columns t' = Some cs' ∧ (∀ c, c ∈ cs → c ∈ cs')) →
  has_columns (if v + 1 =? 1 then v1_columns
               else if v + 1 =? 2 then ["requesting_gid"; "request_message_id"; "service_uid"; "service_username"]
               else ["service_uid"; "service_username"]) t' = true →
  has_columns (required (v + 1)) t' = true.
Proof.
  intros Hv Hok Hvt Hc Hn. unfold schema_ok in Hok. rewrite Hvt in Hok.
  assert (v = 0 ∨ v = 1 ∨ v = 2) as [-> | [-> | ->]] by lia; [done|..];
    specialize (Hok ltac:(lia)); apply has_columns_iff in Hok as (cs & Hcs & H1);
    apply has_columns_iff in Hn as (cs' & Hcs' & H2); destruct (Hc cs Hcs) as (cs2 & Hcs2 & H3);
    assert (cs2 = cs') as -> by congruence; apply has_columns_iff; exists cs'; (split; [done|]).
  - change (required (1 + 1)) with (v1_columns ++ ["requesting_gid"; "request_message_id"]).
    change (required 1) with v1_columns in H1. intros c [Hin|Hin]%elem_of_app; [auto|].
    apply H2. change (1 + 1 =? 1) with false. change (1 + 1 =? 2) with true. cbn match.
    apply elem_of_cons in Hin as [-> | ->%list_elem_of_singleton]; [left|right; left].
  - change (required 2) with (v1_columns ++ ["requesting_gid"; "request_message_id"]) in H1.
    change (required (2 + 1)) with recordColumns. intros c Hin.
    assert (c ∈ (v1_columns ++ ["requesting_gid"; "request_message_id"]) ++ ["service_uid"; "service_username"]) as Hx.
    { revert c Hin. apply Forall_forall, (bool_decide_unpack (Forall _ _)). by vm_compute. }
    apply elem_of_app in Hx as [Hx|Hx]; auto.
Qed.

Definition migrated (s : store) (r : result lerror unit) (s' : store) : Prop :=
  rows s' = rows s ∧ user_version s ≤ user_version s' ∧ (user_version s' ≤ 3 ∨ s' = s)
  ∧ schema_ok s' ∧ (r = Ok tt → user_version s' = 3).

Lemma migrate_loop_wp n l s b p :
  at_ l s None b p → n = Z.to_nat (3 - user_version s) → user_version s ≤ 3 → schema_ok s →
  wp (migrate_loop n (user_version s)) (λ r l', ∃ s', at_ l' s' None b p ∧ migrated s r s') l.
Proof.
  revert l s. induction n as [|n IH]; intros l s Hl Hn Hle Hok; cbn [migrate_loop].
  { apply wp_ret. exists s. split; [done|]. unfold migrated. repeat split; auto; intros; first [lia | done]. }
  destruct (Z.ltb_spec (user_version s) SchemaVersion) as [Hlt|Hge]; [|unfold SchemaVersion in *; lia].
  unfold SchemaVersion in Hlt. set (v := user_version s) in *.
  assert (HE : ∀ op l', at_ l' s None b p → ∃ s', at_ l' s' None b p ∧ migrated s (Err (ErrOperation op)) s').
  { intros op l' H. exists s. split; [done|]. unfold migrated. repeat split; auto; intros; first [lia | done]. }
  apply wp_bind. eapply wp_plain_begin; [done|apply HE|]. clear l Hl. intros l Hl.
  destruct (Z.lt_ge_cases v 0) as [Hneg|Hpos].
  { apply wp_bind. unfold applyMigration.
    destruct (Z.eqb_spec (v + 1) 1); [lia|]. destruct (Z.eqb_spec (v + 1) 2); [lia|].
    destruct (Z.eqb_spec (v + 1) 3); [lia|]. apply HE. by destruct Hl. }
  apply wp_bind. eapply wp_in_migration; [done|intros; by apply applyMigration_wpd|apply HE|].
  clear l Hl. intros l t Hl Hr Hv Hc Hnames.
  apply wp_bind. eapply wp_set_version; [done|apply HE|]. clear l Hl. intros l Hl.
  set (t' := mkStore (v + 1) (columns t) (rows t)) in *.
  assert (Hok' : schema_ok t')
    by (intros _; exact (required_step v s t ltac:(lia) Hok eq_refl Hc Hnames)).
  assert (Hmig : ∀ r s', migrated t' r s' → migrated s r s').
  { unfold migrated. cbn [rows user_version t']. intros r s' (H1 & H2 & H3 & H4 & H5).
    repeat split; auto; [by rewrite H1|lia|]. left. destruct H3 as [H3 | ->]; [done|]. cbn. lia. }
  apply wp_bind. eapply wp_plain_commit; [done| |]; clear l Hl.
  { intros l s' [-> | ->] Hl; [by apply HE|].
    exists t'. split; [done|]. apply Hmig. unfold migrated. repeat split; auto; [cbn; lia|]. discriminate. }
  intros l Hl. eapply wp_mono; [apply (IH l t'); [done|cbn; lia|cbn; lia|done]|].
  intros r l' (s' & Hl' & Hs'). eauto.
Qed.

Lemma migrate_wp l s b p :
  at_ l s None b p → schema_ok s →
  wp migrate (λ r l', ∃ s', at_ l' s' None b p ∧ migrated s r s'
                      ∧ (3 < user_version s → r ≠ Ok tt ∧ s' = s)) l.
Proof.
  intros Hl Hok. unfold migrate. apply wp_bind. eapply wp_plain_query; [done| |]; clear l Hl.
  { intros l Hl. exists s. split; [done|]. split; [|done]. unfold migrated. repeat split; auto; intros; first [lia | done]. }
  intros l _ v [= <-] Hl. destruct (Z.ltb_spec SchemaVersion (user_version s)) as [Hlt|Hge].
  - apply wp_fail. exists s. split; [done|]. split; [|done]. unfold migrated. repeat split; auto; intros; first [lia | done].
  - unfold SchemaVersion in *. eapply wp_mono; [by apply migrate_loop_wp|].
    intros r l' (s' & Hl' & Hs'). exists s'. split; [done|]. split; [done|]. lia.
Qed.

Lemma configure_wp l s b p (Q : result lerror unit → Ledger → Prop) :
  at_ l s None b p → (∀ r l', at_ l' s None b p → Q r l') → wp configure Q l.
Proof.
  intros Hl HQ. unfold configure.
  apply wp_bind. eapply wp_plain_touch; [done|auto|]. clear l Hl. intros l Hl.
  apply wp_bind. eapply wp_plain_query; [done|auto|]. clear l Hl. intros l _ mode _ Hl.
  apply wp_bind. destruct (bool_decide _); [apply wp_ret|apply wp_fail; auto].
  apply wp_bind. eapply wp_plain_touch; [done|auto|]. clear l Hl. intros l Hl.
  apply wp_bind. eapply wp_plain_touch; [done|auto|]. clear l Hl. intros l Hl.
  eapply wp_plain_touch; [done|auto|auto].
Qed.

(** [Open]: the rows are as they were, or recovered, or recovered and purged;
    success means the last, at the supported version with every column, with
    the gate open, no command in flight and no expired row. A database of a
    later version is refused and left alone. *)
Definition open_post (now : Z) (s : store) (r : result lerror Ledger) (s' : store) : Prop :=
  match r with
  | Ok l =>
      at_ l s' None false (path l) ∧ user_version s' = 3 ∧ has_schema s' = true
      ∧ rows s' = purge_rows now (recover_rows now (rows s))
  | Err _ =>
      rows s' = rows s ∨ rows s' = recover_rows now (rows s)
      ∨ rows s' = purge_rows now (recover_rows now (rows s))
  end ∧ schema_ok s' ∧ (3 < user_version s → is_Ok r = false ∧ s' = s).

Lemma Open_spec outcomes cwd path now s ans :
  schema_ok s → open_post now s (Open outcomes cwd path now s ans).1 (Open outcomes cwd path now s ans).2.
Proof.
  intros Hok. unfold Open. destruct (prepare_file outcomes); [|by split; [left|]].
  set (p := absolute _ _).
  assert (Hl : at_ (mkLedger (mkDatabase s None ans) p false) s None false p) by done.
  assert (wp (open_database now)
    (λ r l', open_post now s (match r with Ok _ => Ok l' | Err e => Err e end) (stored (dbs l')))
    (mkLedger (mkDatabase s None ans) p false)) as H.
  2:{ unfold wp in H. by destruct (open_database now _) as [[]]. }
  revert Hl. generalize (mkLedger (mkDatabase s None ans) p false). intros l Hl.
  assert (HE : ∀ e l' s', at_ l' s' None false p → schema_ok s' → (3 < user_version s → s' = s) →
    rows s' = rows s ∨ rows s' = recover_rows now (rows s)
    ∨ rows s' = purge_rows now (recover_rows now (rows s)) → open_post now s (Err e) (stored (dbs l'))).
  { intros e l' s' [-> _ _ _] Hs' Hv Hr. split; [done|]. split; [done|]. auto. }
  unfold open_database. apply wp_bind. eapply configure_wp; [done|]. clear l Hl. intros [[]|e] l Hl; [|by eapply HE; eauto].
  apply wp_bind. eapply wp_mono; [by apply migrate_wp|]. cbn beta. clear l Hl.
  intros [[]|e] l (s1 & Hl & (Hr & _ & _ & Hok1 & Hv) & H3); [|eapply HE; [done..| |by left]; intros; by apply H3].
  specialize (Hv eq_refl).
  assert (¬ 3 < user_version s) as Hns by (intros Hlt; by destruct (H3 Hlt)). clear H3.
  apply wp_bind. eapply integrityCheck_wp; [done|]. clear l Hl.
  intros [[]|e] l Hl; [|by eapply HE; eauto].
  assert (Hok2 : ∀ m, schema_ok (set_rows s1 m)) by done.
  apply wp_bind. eapply wp_auto_exec; [done| |]; clear l Hl.
  { intros l s' Hs' Hl. destruct Hs' as [-> | [_ ->]%with_columns_Some];
      (eapply HE; [done|auto|intros; lia|]); [by left|]. right; left. cbn. by rewrite Hr. }
  intros l s' [_ ->]%with_columns_Some Hl. eapply wp_auto_exec; [done| |]; clear l Hl.
  { intros l s' Hs' Hl. destruct Hs' as [-> | [_ ->]%with_columns_Some];
      (eapply HE; [done|auto|intros; lia|]); right.
    - left. cbn. by rewrite Hr.
    - right. cbn. by rewrite Hr. }
  intros l s' [_ ->]%with_columns_Some Hl. pose proof Hl as [Hst Htx Hb Hp]. split; [|split].
  - rewrite Hst. split; [by rewrite Hp|]. split; [done|]. cbn. rewrite Hr. split; [|done].
    specialize (Hok1 ltac:(lia)). by rewrite Hv in Hok1.
  - by rewrite Hst.
  - done.
Qed.
