(* ===== verification/LedgerHistory.v ===== *)
(** * LedgerHistory: the ledger over time

    Sequences of ledger operations, daemon crashes and restarts, as an
    executable step function; the refinement of every step to an operation on
    the abstract table; the invariant of the table and the guarantees that
    hold until a row expires. *)
From S2P Require Import Prelude Ledger LedgerLogic LedgerFacts.
Open Scope Z_scope.

(** ** The system: a running ledger, or the file of a stopped daemon *)

Inductive system : Type := Up (l : Ledger) | Down (s : store).

Definition content (y : system) : store :=
  match y with Up l => stored (dbs l) | Down s => s end.

Inductive operation : Type :=
| OReserve (now : Z) (claim : Claim)
| OLookup (now uid : Z) (id : string)
| OTransition (now uid : Z) (id : string) (expected next : Status) (data : TransitionData)
| OReconcile (now : Z)
| OCrash
| OOpen (outcomes : list bool) (cwd path : string) (now : Z) (ans : list answer).

Definition run_op (o : operation) (y : system) : system :=
  match o, y with
  | OReserve now claim, Up l => Up (ReserveAuthorization now claim l).2
  | OLookup now uid id, Up l => Up (Lookup now uid id l).2
  | OTransition now uid id expected next data, Up l => Up (Transition now uid id expected next data l).2
  | OReconcile now, Up l => Up (Reconcile now l).2
  | OCrash, Up l => Down (Close l)
  | OOpen outcomes cwd path now ans, Down s =>
      match Open outcomes cwd path now s ans with (Ok l, _) => Up l | (Err _, s') => Down s' end
  | _, _ => y
  end.
Definition run_ops (ops : list operation) (y : system) : system := foldl (λ y o, run_op o y) y ops.

Definition empty_store : store := mkStore 0 None ∅.

(** The clock an operation reads; a crash reads none. *)
Definition op_time (o : operation) : option Z :=
  match o with
  | OReserve now _ | OLookup now _ _ | OTransition now _ _ _ _ _ | OReconcile now
  | OOpen _ _ _ now _ => Some now
  | OCrash => None
  end.

(** ** Refinement to the abstract table *)

(** What one operation may do to the table. *)
Definition table_step (o : operation) (m m' : gmap key Row) : Prop :=
  m' = m ∨
  match o with
  | OReserve now claim => validateClaim claim = Ok tt ∧ m' = reserve_rows now claim m
  | OTransition now uid id expected next data =>
      transition_guards expected next data = Ok tt ∧
      ∃ r, m !! (uid, id) = Some r ∧ status r = expected ∧ m' = <[(uid, id) := update_row now next data r]> m
  | OReconcile now => m' = recover_rows now m
  | OOpen _ _ _ now _ => m' = recover_rows now m ∨ m' = purge_rows now (recover_rows now m)
  | _ => False
  end.

(** A system at rest: no transaction is open, and the columns fit the version. *)
Definition at_rest (y : system) : Prop :=
  schema_ok (content y) ∧ match y with Up l => tx (dbs l) = None | Down _ => True end.

Lemma at_rest_at l : at_rest (Up l) → at_ l (stored (dbs l)) None (blocked l) (path l).
Proof. intros [_ Ht]. by split. Qed.

Lemma run_op_refines o y :
  at_rest y → at_rest (run_op o y) ∧ table_step o (rows (content y)) (rows (content (run_op o y))).
Proof.
  intros Hy. destruct o as [now claim|now uid id|now uid id expected next data|now| |outcomes cwd path now ans],
    y as [l|s]; try (split; [done|by left]).
  - pose proof (ReserveAuthorization_wp now claim l _ _ _ (at_rest_at l Hy)) as (s' & b' & [<- Ht _ _] & Hp).
    destruct Hy as [Hok _]. cbn [run_op content]. unfold at_rest. cbn [content].
    destruct (ReserveAuthorization now claim l) as [r l']; cbn [fst snd] in *.
    destruct r as [[record created]|[]]; cbn in Hp; try done.
    + destruct Hp as (_ & _ & Hv & -> & _). split; [done|]. by right.
    + destruct Hp as (_ & _ & Hv & [-> | ->]); (split; [done|]); [by left|by right].
    + destruct Hp as (_ & _ & ->). split; [done|]. by left.
    + destruct Hp as (_ & _ & -> & _). split; [done|]. by left.
    + destruct Hp as (_ & -> & _). split; [done|]. by left.
  - pose proof (Lookup_wp now uid id l _ _ _ (at_rest_at l Hy)) as (b' & [Hs Ht _ _] & _).
    destruct Hy as [Hok _]. unfold at_rest. cbn [run_op content].
    destruct (Lookup now uid id l) as [r l']; cbn [fst snd] in *. rewrite Hs. split; [done|]. by left.
  - pose proof (Transition_wp now uid id expected next data l _ _ _ (at_rest_at l Hy))
      as (s' & b' & [<- Ht _ _] & Hp).
    destruct Hy as [Hok _]. unfold at_rest. cbn [run_op content].
    destruct (Transition now uid id expected next data l) as [r l']; cbn [fst snd] in *.
    destruct r as [[]|[]]; cbn in Hp; try done.
    + destruct Hp as (_ & _ & Hg & row & Hr & Hst & ->). split; [done|]. right. eauto.
    + destruct Hp as (_ & _ & [-> | (Hg & row & Hr & Hst & ->)]); (split; [done|]); [by left|right; eauto].
    + destruct Hp as (_ & _ & ->). split; [done|]. by left.
    + destruct Hp as (_ & ->). split; [done|]. by left.
    + destruct Hp as (_ & _ & -> & _). split; [done|]. by left.
  - pose proof (Reconcile_wp now l _ _ _ (at_rest_at l Hy)) as (s' & b' & [<- Ht _ _] & Hp).
    destruct Hy as [Hok _]. unfold at_rest. cbn [run_op content].
    destruct (Reconcile now l) as [r l']; cbn [fst snd] in *.
    destruct r as [[]|[]]; cbn in Hp; try done.
    + destruct Hp as (_ & Hp). destruct (blocked l); [destruct Hp as [-> _]|rewrite Hp];
        (split; [done|]); [by right|by left].
    + destruct Hp as (_ & _ & [-> | ->]); (split; [done|]); [by left|by right].
  - destruct Hy as [Hok _]. split; [done|by left].
  - destruct Hy as [Hok _]. cbn [content] in Hok.
    pose proof (Open_spec outcomes cwd path now s ans Hok) as (Hp & Hok' & _).
    unfold at_rest. cbn [run_op content].
    destruct (Open outcomes cwd path now s ans) as [[l|e] s']; cbn [fst snd content] in *.
    + destruct Hp as ([-> Ht _ _] & _ & _ & Hr). split; [done|]. rewrite Hr. right. by right.
    + split; [done|]. destruct Hp as [Hp|[Hp|Hp]]; [by left|right; by left|right; by right].
Qed.

(** ** The invariant of the table *)

Definition authorized (s : Status) : bool :=
  match s with
  | StatusAccepted | StatusRunning | StatusSucceeded | StatusFailed | StatusUnknown => true
  | _ => false
  end.
Definition executing (s : Status) : bool :=
  match s with StatusRunning | StatusSucceeded | StatusFailed | StatusUnknown => true | _ => false end.
Definition refused (s : Status) : bool :=
  match s with StatusDenied | StatusAuthorizationFailed => true | _ => false end.

Definition nonempty (x : option string) : Prop := ∃ s, x = Some s ∧ s ≠ "".

(** A row of the table: its claim is complete and has the row's key; it expires
    30 days after its creation; an accepted row has the administrator's
    authorization; a row at or beyond acceptance has authorization data, one at or
    beyond execution has the execution identity, a refused one its error. *)
Record row_ok (k : key) (r : Row) : Prop := {
  ok_key : claim_key (claimed r) = k;
  ok_claim : validateClaim (claimed r) = Ok tt;
  ok_expiry : expires_at r = created_at r + Retention;
  ok_accepted : status r = StatusAccepted →
    admin_level r = Some "admin" ∧ nonempty (authorization_metadata r);
  ok_authorized : authorized (status r) = true →
    nonempty (admin_level r) ∧ authorization_metadata r ≠ None;
  ok_executing : executing (status r) = true →
    execution_uid r ≠ None ∧ nonempty (execution_username r) ∧ nonempty (execution_boundary r);
  ok_refused : refused (status r) = true → nonempty (error_payload r);
}.
Definition table_ok (m : gmap key Row) : Prop := map_Forall row_ok m.

Lemma new_row_ok now c : validateClaim c = Ok tt → row_ok (claim_key c) (new_row now c).
Proof. by split. Qed.

Lemma purge_rows_ok now m : table_ok m → table_ok (purge_rows now m).
Proof. intros Hm k r [Hr _]%purge_lookup. by apply Hm. Qed.

Lemma reserve_rows_ok now c m : validateClaim c = Ok tt → table_ok m → table_ok (reserve_rows now c m).
Proof.
  intros Hc Hm%(purge_rows_ok now). unfold reserve_rows.
  destruct (purge_rows now m !! claim_key c); [done|]. apply map_Forall_insert_2; [|done].
  by apply new_row_ok.
Qed.

Lemma recover_rows_ok now m : table_ok m → table_ok (recover_rows now m).
Proof.
  intros Hm k r. unfold recover_rows. rewrite lookup_fmap, fmap_Some. intros (r0 & Hr & ->).
  destruct (Hm k r0 Hr) as [Hk Hc He Ha Hau Hex Hre]. unfold recover_row.
  destruct (status r0) eqn:Hs; simpl; split; cbn; rewrite ?Hs in *; auto; discriminate.
Qed.

Lemma coalesce_nonempty s x : s ≠ "" → nonempty (coalesce (nullif s) x).
Proof. intros Hs. unfold nullif. apply streq_false in Hs as Hs'. rewrite Hs'. by exists s. Qed.

Lemma coalesce_nullif_keeps s x : nonempty x → nonempty (coalesce (nullif s) x).
Proof.
  intros Hx. unfold nullif. destruct (streq s "") eqn:Hs; [done|]. exists s. split; [done|].
  by apply streq_false.
Qed.

Lemma coalesce_keeps {A} (x y : option A) : y ≠ None → coalesce x y ≠ None.
Proof. by destruct x. Qed.

Lemma blen_nonempty x : (blen x =? 0)%nat = false → nonempty x.
Proof. destruct x as [[|c s]|]; [done| |done]. eexists. by split. Qed.

(** The guards of [Transition], as what they give. *)
Lemma transition_guards_Ok expected next data :
  transition_guards expected next data = Ok tt →
  allowedTransition expected next = true
  ∧ (next = StatusAccepted → t_AdminLevel data = "admin" ∧ nonempty (t_AuthorizationMetadata data))
  ∧ (next = StatusRunning → t_ExecutionUID data ≠ None ∧ t_ExecutionUsername data ≠ ""
                            ∧ t_ExecutionBoundary data ≠ "")
  ∧ (refused next = true → nonempty (t_ErrorPayload data)).
Proof.
  unfold transition_guards. intros H. inv_ok. unfold guard_err in H.
  destruct (negb _) eqn:Hr in H; [clear H|done].
  repeat match goal with H : negb _ = true |- _ => apply negb_true_iff in H end.
  split; [done|]. split; [|split].
  - intros ->. apply andb_false_iff in Hx0 as [Hf|Hf]; [done|].
    apply orb_false_iff in Hf as [Ha Hm]. apply negb_false_iff, streq_true in Ha.
    split; [done|]. by apply blen_nonempty.
  - intros ->. apply andb_false_iff in Hx1 as [Hf|Hf]; [done|]. split_bools.
    repeat match goal with H : streq _ _ = false |- _ => apply streq_false in H end. done.
  - intros Hn. apply andb_false_iff in Hr as [Hf|Hf]; [by destruct next|]. by apply blen_nonempty.
Qed.

Lemma update_row_ok now k next data r :
  transition_guards (status r) next data = Ok tt → row_ok k r → row_ok k (update_row now next data r).
Proof.
  intros (Hal & Hacc & Hrun & Href)%transition_guards_Ok [Hk Hc He Ha Hau Hex Hre].
  split; cbn; [done..| | | |].
  - intros ->. destruct Hacc as [-> (m & -> & Hm)]; [done|]. split; [done|]. cbn. by exists m.
  - intros Hn. destruct (decide (next = StatusAccepted)) as [->|Hne].
    { destruct Hacc as [-> (m & -> & Hm)]; [done|]. split; [by eexists|done]. }
    destruct Hau as [Hal' Hme]; [by destruct (status r), next|].
    split; [by apply coalesce_nullif_keeps|by apply coalesce_keeps].
  - intros Hn. destruct (decide (next = StatusRunning)) as [->|Hne].
    { destruct Hrun as (Hu & Hn1 & Hn2); [done|].
      split; [unfold nullableUID; by destruct (t_ExecutionUID data)|]. auto using coalesce_nonempty. }
    destruct Hex as (Hu & Hn1 & Hn2); [by destruct (status r), next|].
    split; [by apply coalesce_keeps|]. auto using coalesce_nullif_keeps.
  - intros Hn. destruct (Href Hn) as (e & -> & He'). by exists e.
Qed.

Lemma table_step_ok o m m' : table_step o m m' → table_ok m → table_ok m'.
Proof.
  intros [->|Hs] Hm; [done|]. destruct o; cbn in Hs; try done.
  - destruct Hs as [Hc ->]. by apply reserve_rows_ok.
  - destruct Hs as (Hg & r & Hr & <- & ->). apply map_Forall_insert_2; [|done].
    apply update_row_ok; [done|]. by apply Hm.
  - subst. by apply recover_rows_ok.
  - destruct Hs as [-> | ->]; [|apply purge_rows_ok]; by apply recover_rows_ok.
Qed.

Lemma run_ops_invariant ops y :
  at_rest y → table_ok (rows (content y)) →
  at_rest (run_ops ops y) ∧ table_ok (rows (content (run_ops ops y))).
Proof.
  unfold run_ops. revert y. induction ops as [|o ops IH]; intros y Hy Hm; [done|]. cbn [foldl].
  destruct (run_op_refines o y Hy) as [Hy' Hs]. apply IH; [done|]. by eapply table_step_ok.
Qed.

(** ** What holds until a row expires *)

(** One move of a status: a transition, or the recovery of an interrupted command. *)
Definition status_edge (s s' : Status) : Prop := allowedTransition s s' = true ∨ s' = recovered s.
Definition terminal (s : Status) : bool := negb (interrupted s).

(** The same claim later: its identity and its times are fixed, its status has
    moved along edges, and a finished row has not changed at all. *)
Record later (r r' : Row) : Prop := {
  later_claim : claimed r' = claimed r;
  later_created : created_at r' = created_at r;
  later_expires : expires_at r' = expires_at r;
  later_status : rtc status_edge (status r) (status r');
  later_terminal : terminal (status r) = true → r' = r;
}.

Lemma terminal_no_transition s s' : terminal s = true → allowedTransition s s' = false.
Proof. by destruct s, s'. Qed.

Lemma later_refl r : later r r.
Proof. split; by try constructor. Qed.

Lemma later_trans r1 r2 r3 : later r1 r2 → later r2 r3 → later r1 r3.
Proof.
  intros [H1 H2 H3 H4 H5] [G1 G2 G3 G4 G5]. split; try congruence.
  - by etrans.
  - intros Ht. specialize (H5 Ht). subst. auto.
Qed.

Lemma later_recover now r : later r (recover_row now r).
Proof.
  unfold recover_row. destruct (interrupted (status r)) eqn:Hi; [|apply later_refl].
  split; cbn; [done..| |].
  - apply rtc_once. by right.
  - unfold terminal. by rewrite Hi.
Qed.

Lemma later_update now next data r :
  allowedTransition (status r) next = true → later r (update_row now next data r).
Proof.
  intros Ha. split; cbn; [done..| |].
  - apply rtc_once. by left.
  - intros Ht. by rewrite terminal_no_transition in Ha.
Qed.

Lemma table_step_later o m m' k r :
  table_step o m m' → m !! k = Some r →
  (∀ now, op_time o = Some now → now < expires_at r) →
  ∃ r', m' !! k = Some r' ∧ later r r'.
Proof.
  intros [->|Hs] Hk Ht; [eauto using later_refl|].
  destruct o as [now claim| |now uid id expected next data|now| |outcomes cwd path now ans]; cbn in Hs, Ht; try done.
  - destruct Hs as [_ ->]. specialize (Ht now eq_refl).
    assert (Hp : purge_rows now m !! k = Some r) by (by apply purge_lookup).
    exists r. split; [|apply later_refl]. unfold reserve_rows.
    destruct (purge_rows now m !! claim_key claim) eqn:Hc; [done|].
    rewrite lookup_insert_ne; [done|]. intros Heq. rewrite Heq in Hc. congruence.
  - destruct Hs as ((Ha & _)%transition_guards_Ok & r0 & Hr0 & <- & ->).
    destruct (decide ((uid, id) = k)) as [<-|Hne].
    + assert (r0 = r) as -> by congruence. rewrite lookup_insert_eq. eauto using later_update.
    + rewrite lookup_insert_ne by done. eauto using later_refl.
  - subst. exists (recover_row now r). split; [|apply later_recover].
    unfold recover_rows. by rewrite lookup_fmap, Hk.
  - specialize (Ht now eq_refl).
    assert (Hrec : recover_rows now m !! k = Some (recover_row now r))
      by (unfold recover_rows; by rewrite lookup_fmap, Hk).
    exists (recover_row now r). split; [|apply later_recover].
    destruct Hs as [-> | ->]; [done|]. apply purge_lookup. split; [done|].
    by rewrite (later_expires _ _ (later_recover now r)).
Qed.

Definition before (t : Z) (o : operation) : Prop := ∀ now, op_time o = Some now → now < t.

Lemma run_ops_later ops y k r :
  at_rest y → rows (content y) !! k = Some r → Forall (before (expires_at r)) ops →
  ∃ r', rows (content (run_ops ops y)) !! k = Some r' ∧ later r r'.
Proof.
  unfold run_ops. revert y r. induction ops as [|o ops IH]; intros y r Hy Hk Hops; [eauto using later_refl|].
  cbn [foldl]. apply Forall_cons in Hops as [Ho Hops].
  destruct (run_op_refines o y Hy) as [Hy' Hs].
  destruct (table_step_later _ _ _ _ _ Hs Hk Ho) as (r1 & Hk1 & H1).
  destruct (IH _ r1 Hy' Hk1) as (r2 & Hk2 & H2).
  - by rewrite (later_expires _ _ H1).
  - exists r2. split; [done|]. by eapply later_trans.
Qed.

(** ** The guarantees *)

Lemma ledger_ok ops :
  at_rest (run_ops ops (Down empty_store)) ∧ table_ok (rows (content (run_ops ops (Down empty_store)))).
Proof. apply run_ops_invariant; [done|]. apply map_Forall_empty. Qed.

(** C5. Whatever the database answers, whatever operations, crashes and restarts
    happen, in whatever order: between operations no transaction is left open
    (the single connection is free), and every row of the table is well formed:
    complete claim under its own key, 30 days of retention, authorization data
    on every row accepted or beyond, an execution identity on every row running
    or beyond, an error on every refused one. *)
Theorem ledger_invariant ops :
  at_rest (run_ops ops (Down empty_store)) ∧ table_ok (rows (content (run_ops ops (Down empty_store)))).
Proof. apply ledger_ok. Qed.

(** C4. Until it expires a row is never lost, never changes its claim or its
    times, and moves only along the allowed transitions and the recovery of
    interrupted commands; once its status is final (succeeded, failed, denied,
    unknown, authorization failed or uncertain) it never changes at all: its
    result is the result every later caller reads. *)
Theorem row_history ops y k r :
  at_rest y → rows (content y) !! k = Some r → Forall (before (expires_at r)) ops →
  ∃ r', rows (content (run_ops ops y)) !! k = Some r' ∧ later r r'.
Proof. apply run_ops_later. Qed.

(** *** A life of the ledger, for the witnesses *)

Definition example_claim : Claim :=
  mkClaim 1000 "c-1" "fp" "{}" "alice" 1000 "m-1" 0 "root" "node" "update" "node.drain" "nodes.drain" "n1".
Definition accept_data : TransitionData := mkData "admin" (Some "{}") None "" "" None None.
Definition run_data : TransitionData := mkData "" None (Some 0) "root" "helper" None None.
Definition accepted_system : system :=
  run_ops [OOpen [] "/" "" 100 []; OReserve 200 example_claim;
           OTransition 201 1000 "c-1" StatusAuthorizationPending StatusAccepted accept_data]
    (Down empty_store).

Lemma accepted_at_rest : at_rest accepted_system.
Proof. apply run_ops_invariant; [done|]. apply map_Forall_empty. Qed.

Definition system_status (y : system) (k : key) : option Status := status <$> rows (content y) !! k.

Lemma row_history_witness :
  let r := mkRow example_claim StatusAccepted (Some "admin") (Some "{}") None None None None None
             200 201 (200 + Retention) in
  let ops := [OTransition 202 1000 "c-1" StatusAccepted StatusRunning run_data; OCrash; OOpen [] "/" "" 300 []] in
  rows (content accepted_system) !! (1000, "c-1") = Some r ∧
  system_status (run_ops ops accepted_system) (1000, "c-1") = Some StatusUnknown ∧
  ∃ r', rows (content (run_ops ops accepted_system)) !! (1000, "c-1") = Some r' ∧ later r r'.
Proof.
  assert (rows (content accepted_system) !! (1000, "c-1") = Some
    (mkRow example_claim StatusAccepted (Some "admin") (Some "{}") None None None None None
       200 201 (200 + Retention))) as Hr by (by vm_compute).
  split; [exact Hr|]. split; [by vm_compute|].
  apply row_history; [apply accepted_at_rest | exact Hr |].
  repeat constructor; by intros ? [= <-].
Defined.

(** The statuses a command can still reach. *)
Lemma edge_closed s s' :
  rtc status_edge s s' → (s = StatusAuthorizationUncertain → s' = StatusAuthorizationUncertain)
  ∧ (executing s = true → executing s' = true) ∧ (authorized s = true → authorized s' = true ∨ s' = StatusAuthorizationUncertain).
Proof.
  induction 1 as [s|s1 s2 s3 [He | ->] _ (IH1 & IH2 & IH3)]; [auto|..].
  - repeat split; intros H; destruct s1, s2; try discriminate; auto.
  - repeat split; intros H; destruct s1; try discriminate; cbn in *; auto.
Qed.

(** How an operation leaves the gate: shut after a persistence failure, and after
    any other outcome as it was. *)
Definition gate_kept {A} (before : bool) (r : result lerror A) (after : bool) : Prop :=
  after = match r with Err (ErrPersistenceFailed _) => true | _ => before end.

Lemma reserve_gate now claim l s b p : at_ l s None b p →
  gate_kept b (ReserveAuthorization now claim l).1 (blocked (ReserveAuthorization now claim l).2).
Proof.
  intros Hl. destruct (ReserveAuthorization_wp now claim l s b p Hl) as (s' & b' & [_ _ <- _] & Hp).
  destruct (ReserveAuthorization now claim l) as [[[record created]|e] l']; cbn [fst snd] in *; unfold gate_kept.
  - destruct Hp as (-> & -> & _). done.
  - destruct e; cbn [reserve_post] in Hp; intuition congruence.
Qed.
Lemma transition_gate now uid id e n data l s b p : at_ l s None b p →
  gate_kept b (Transition now uid id e n data l).1 (blocked (Transition now uid id e n data l).2).
Proof.
  intros Hl. destruct (Transition_wp now uid id e n data l s b p Hl) as (s' & b' & [_ _ <- _] & Hp).
  destruct (Transition now uid id e n data l) as [[[]|err] l']; cbn [fst snd] in *; unfold gate_kept.
  - destruct Hp as (-> & -> & _). done.
  - destruct err; cbn [transition_post] in Hp; intuition congruence.
Qed.
Lemma lookup_gate now uid id l s b p : at_ l s None b p →
  gate_kept b (Lookup now uid id l).1 (blocked (Lookup now uid id l).2) ∧
  ∀ e, (Lookup now uid id l).1 = Err e →
    (∃ op, e = ErrPersistenceFailed op) ∨ ∃ op c, e = ErrContext op c ∧ (c = DbCanceled ∨ c = DbDeadlineExceeded).
Proof.
  intros Hl. destruct (Lookup_wp now uid id l s b p Hl) as (b' & [_ _ <- _] & Hp).
  destruct (Lookup now uid id l) as [[[record|]|err] l']; cbn [fst snd lookup_post] in *; unfold gate_kept.
  - by destruct Hp as [-> _].
  - by destruct Hp as [-> _].
  - split; [destruct err; intuition congruence|]. intros e [= <-]. destruct err; try done; eauto.
    right. destruct Hp as [_ Hp]. eauto.
Qed.

(** C32. The gate. A ledger that is blocked refuses reservations and transitions
    without touching the database. A persistence failure of any operation, a
    reservation, a transition, a lookup or a [Reconcile], leaves it blocked; every
    failure of a lookup is one, but for a context that has ended; any other
    outcome of a reservation, a transition or a lookup leaves the gate as it was,
    so that only a [Reconcile] that succeeded, after which no command is pending,
    accepted or running, unblocks it. *)
Theorem gate_contract l s b p :
  at_ l s None b p →
  (blocked l = true → ∀ now claim, validateClaim claim = Ok tt →
     ReserveAuthorization now claim l = (Err ErrAdmissionBlocked, l)) ∧
  (blocked l = true → ∀ now uid id e n data, transition_guards e n data = Ok tt →
     Transition now uid id e n data l = (Err ErrAdmissionBlocked, l)) ∧
  (∀ now claim, let '(r, l') := ReserveAuthorization now claim l in
     blocked l' = match r with Err (ErrPersistenceFailed _) => true | _ => blocked l end) ∧
  (∀ now uid id e n data, let '(r, l') := Transition now uid id e n data l in
     blocked l' = match r with Err (ErrPersistenceFailed _) => true | _ => blocked l end) ∧
  (∀ now uid id, let '(r, l') := Lookup now uid id l in
     blocked l' = match r with Err (ErrPersistenceFailed _) => true | _ => blocked l end ∧
     ∀ e, r = Err e → (∃ op, e = ErrPersistenceFailed op) ∨
       ∃ op c, e = ErrContext op c ∧ (c = DbCanceled ∨ c = DbDeadlineExceeded)) ∧
  (∀ now, blocked (Reconcile now l).2 = negb (is_Ok (Reconcile now l).1)) ∧
  (∀ now k row, blocked l = true → is_Ok (Reconcile now l).1 = true →
     rows (stored (dbs (Reconcile now l).2)) !! k = Some row → interrupted (status row) = false).
Proof.
  intros Hl. pose proof (at_blocked _ _ _ _ _ Hl) as Hbl. split; [|split; [|split; [|split; [|split; [|split]]]]].
  - intros Hb now claim Hv. unfold ReserveAuthorization, mbind, led_bind, lift, refuse_blocked, isBlocked.
    by rewrite Hv, Hb.
  - intros Hb now uid id e n data Hg. unfold Transition, mbind, led_bind, lift, refuse_blocked, isBlocked.
    by rewrite Hg, Hb.
  - intros now claim. pose proof (reserve_gate now claim l s b p Hl) as H. rewrite Hbl.
    by destruct (ReserveAuthorization now claim l).
  - intros now uid id e n data. pose proof (transition_gate now uid id e n data l s b p Hl) as H. rewrite Hbl.
    by destruct (Transition now uid id e n data l).
  - intros now uid id. pose proof (lookup_gate now uid id l s b p Hl) as H. rewrite Hbl.
    by destruct (Lookup now uid id l).
  - intros now. destruct (Reconcile_wp now l s b p Hl) as (s' & b' & [_ _ <- _] & Hp).
    destruct (Reconcile now l) as [[[]|[]] l']; cbn in *; try done; by destruct Hp as (?&?&?) || destruct Hp.
  - intros now k row Hb Ho Hk. destruct (Reconcile_wp now l s b p Hl) as (s' & b' & [Hs _ _ _] & Hp).
    rewrite Hbl in Hb. clear Hbl. subst b.
    destruct (Reconcile now l) as [[[]|e] l']; cbn in *; [|done]. subst s'. destruct Hp as (_ & _ & Hp). eauto.
Qed.

Definition opened (ans : list answer) : Ledger :=
  match Open [] "/" "" 100 empty_store ans with
  | (Ok l, _) => l
  | (Err _, s) => mkLedger (mkDatabase s None []) "" true
  end.

(** The database answers the lookup with an error: the gate shuts; then nothing
    is reserved, until a [Reconcile]. *)
Lemma gate_contract_witness :
  let l := opened [] in
  let failing := mkLedger (mkDatabase (stored (dbs l)) None [Fails (DbOther "disk")]) DefaultPath false in
  (Lookup 200 1000 "c-1" failing).1 = Err (ErrPersistenceFailed "read command ledger record") ∧
  blocked (Lookup 200 1000 "c-1" failing).2 = true ∧
  (∀ now, blocked (Reconcile now l).2 = negb (is_Ok (Reconcile now l).1)).
Proof.
  assert (at_ (opened []) (stored (dbs (opened []))) None false DefaultPath) as H by (split; by vm_compute).
  assert (at_ (mkLedger (mkDatabase (stored (dbs (opened []))) None [Fails (DbOther "disk")]) DefaultPath false)
    (stored (dbs (opened []))) None false DefaultPath) as Hf by (split; by vm_compute).
  assert ((Lookup 200 1000 "c-1" (mkLedger (mkDatabase (stored (dbs (opened []))) None [Fails (DbOther "disk")]) DefaultPath false)).1
    = Err (ErrPersistenceFailed "read command ledger record")) as Hr by (by vm_compute).
  split; [exact Hr|].
  pose proof (proj1 (proj2 (proj2 (proj2 (proj2 (gate_contract _ _ _ _ Hf))))) 200 1000 "c-1") as Hlook.
  destruct (Lookup _ _ _ _) as [r l']. cbn [fst snd] in *. split; [rewrite (proj1 Hlook), Hr; reflexivity|].
  exact (proj1 (proj2 (proj2 (proj2 (proj2 (proj2 (gate_contract _ _ _ _ H))))))).
Defined.

(** C31. First writer wins. A reservation that succeeds returns the row stored
    under the caller's key, with the fingerprint asked for, new exactly when no
    unexpired row had that key, and an earlier row is returned untouched; a
    row with another fingerprint is a conflict and changes nothing; any other
    failure blocks the ledger or changes nothing. *)
Theorem reserve_contract now claim l s b p :
  at_ l s None b p →
  ∃ s' b', at_ (ReserveAuthorization now claim l).2 s' None b' p
    ∧ reserve_post now claim s b (ReserveAuthorization now claim l).1 s' b'.
Proof. apply ReserveAuthorization_wp. Qed.

(** After the first reservation the same key with another fingerprint is
    refused: both branches of the contract are reached. *)
Definition other_claim : Claim :=
  mkClaim 1000 "c-1" "other" "{}" "alice" 1000 "m-2" 0 "root" "node" "update" "node.resume" "nodes.resume" "n1".

Lemma reserve_contract_witness :
  let l := (ReserveAuthorization 200 example_claim (opened [])).2 in
  (ReserveAuthorization 300 other_claim l).1 = Err ErrCommandIDConflict ∧
  ∃ s' b', at_ (ReserveAuthorization 300 other_claim l).2 s' None b' DefaultPath
    ∧ reserve_post 300 other_claim (stored (dbs l)) false (ReserveAuthorization 300 other_claim l).1 s' b'.
Proof.
  assert (at_ (ReserveAuthorization 200 example_claim (opened [])).2
    (stored (dbs (ReserveAuthorization 200 example_claim (opened [])).2)) None false DefaultPath) as H
    by (split; by vm_compute).
  split; [by vm_compute|].
  exact (reserve_contract 300 other_claim (ReserveAuthorization 200 example_claim (opened [])).2 _ _ _ H).
Defined.

(** A transition that succeeds has moved exactly the row of the caller's
    command, from exactly the expected status, after its guards held; on a
    conflict or a missing row nothing has changed; when a commit reported as
    failed did reach the disk the gate is shut. *)
Theorem transition_contract now uid id expected next data l s b p :
  at_ l s None b p →
  ∃ s' b', at_ (Transition now uid id expected next data l).2 s' None b' p
    ∧ transition_post now (uid, id) expected next data s b (Transition now uid id expected next data l).1 s' b'.
Proof. apply Transition_wp. Qed.

Lemma transition_contract_witness :
  let l := (ReserveAuthorization 200 example_claim (opened [])).2 in
  (Transition 201 1000 "c-1" StatusAuthorizationPending StatusAccepted accept_data l).1 = Ok tt ∧
  ∃ s' b', at_ (Transition 201 1000 "c-1" StatusAuthorizationPending StatusAccepted accept_data l).2 s' None b' DefaultPath
    ∧ transition_post 201 (1000, "c-1") StatusAuthorizationPending StatusAccepted accept_data
        (stored (dbs l)) false
        (Transition 201 1000 "c-1" StatusAuthorizationPending StatusAccepted accept_data l).1 s' b'.
Proof.
  assert (at_ (ReserveAuthorization 200 example_claim (opened [])).2
    (stored (dbs (ReserveAuthorization 200 example_claim (opened [])).2)) None false DefaultPath) as H
    by (split; by vm_compute).
  split; [by vm_compute|].
  exact (transition_contract 201 1000 "c-1" StatusAuthorizationPending StatusAccepted accept_data
    (ReserveAuthorization 200 example_claim (opened [])).2 _ _ _ H).
Defined.

(** Opening a database whose columns fit its version: success leaves it at
    version 3 with every column, the gate open, the interrupted commands
    recovered and the expired ones purged; failure leaves the rows as they
    were, or recovered, or recovered and purged; a later version is refused and
    left alone. *)
Theorem open_contract outcomes cwd path now s ans :
  schema_ok s → open_post now s (Open outcomes cwd path now s ans).1 (Open outcomes cwd path now s ans).2.
Proof. apply Open_spec. Qed.

Lemma open_contract_witness :
  let s := mkStore 2 (Some (v1_columns ++ ["requesting_gid"; "request_message_id"])) ∅ in
  is_Ok (Open [] "/" "" 100 s []).1 = true ∧
  open_post 100 s (Open [] "/" "" 100 s []).1 (Open [] "/" "" 100 s []).2.
Proof.
  split; [by vm_compute|]. apply open_contract. intros _. by vm_compute.
Defined.

(** ** Liveness: a database that works *)

Lemma recover_rows_none now m k r : recover_rows now m !! k = Some r → interrupted (status r) = false.
Proof.
  unfold recover_rows. rewrite lookup_fmap, fmap_Some. intros (r0 & _ & ->). unfold recover_row.
  destruct (interrupted (status r0)) eqn:Hi; [|done]. by destruct (status r0).
Qed.

Lemma count_unresolved_none s :
  (∀ k r, rows s !! k = Some r → interrupted (status r) = false) → count_unresolved s = 0%nat.
Proof.
  intros H. unfold count_unresolved. apply map_size_empty_iff, map_empty. intros k. apply map_lookup_filter_None_2. right.
  intros r Hr. cbn. by rewrite (H k r Hr).
Qed.

Lemma has_columns_incl names names' s :
  has_columns names s = true → (∀ c, c ∈ names' → c ∈ names) → has_columns names' s = true.
Proof. rewrite !has_columns_iff. intros (cs & Hc & H) Hi. eauto. Qed.

(** A ledger whose database has no trouble ahead. *)
Definition healthy (s : store) (p : string) (b : bool) : Ledger := mkLedger (mkDatabase s None []) p b.

Lemma healthy_auto_exec op f s s' p b :
  f s = Some s' → plain op (auto_exec f) (healthy s p b) = (Ok tt, healthy s' p b).
Proof. intros Hf. unfold plain, auto_exec, ask, healthy. cbn. by rewrite Hf. Qed.

Lemma healthy_query {A} op (f : store → answer → option A) s x p b :
  f s Fine = Some x → blocking op (query f) (healthy s p b) = (Ok x, healthy s p b).
Proof. intros Hf. unfold blocking, query, ask, healthy. cbn. by rewrite Hf. Qed.

Lemma healthy_integrity s p b : integrityCheck (healthy s p b) = (Ok tt, healthy s p b).
Proof. done. Qed.

(** Reconciliation over a database without trouble ahead. *)
Lemma reconcile_healthy now s p :
  has_schema s = true →
  Reconcile now (healthy s p true) = (Ok tt, healthy (set_rows s (recover_rows now (rows s))) p false).
Proof.
  intros Hs. set (s' := set_rows s (recover_rows now (rows s))).
  assert (H2 : update_interrupted now s = Some s').
  { unfold update_interrupted, with_columns. rewrite (has_columns_incl recordColumns); [done|done|].
    apply Forall_forall, (bool_decide_unpack (Forall _ _)). by vm_compute. }
  assert (H1 : with_columns ["status"] s' (count_unresolved s') = Some 0%nat).
  { unfold with_columns. rewrite (has_columns_incl recordColumns); [|done|].
    - f_equal. apply count_unresolved_none. intros k r. apply recover_rows_none.
    - apply Forall_forall, (bool_decide_unpack (Forall _ _)). by vm_compute. }
  unfold Reconcile, reconcile_blocked, mbind, led_bind, or_block. cbn [isBlocked blocked healthy negb].
  fold (healthy s p true). rewrite healthy_integrity. unfold recoverInterrupted.
  rewrite (healthy_auto_exec _ _ _ _ _ _ H2), (healthy_query _ _ _ None); [|done].
  cbn [mret led_ret]. by rewrite (healthy_query _ _ _ _ _ _ H1).
Qed.

(** A blocked ledger comes back: once the database answers again, [Reconcile]
    succeeds, unblocks it, and the table is the one it had with the
    interrupted commands recovered. *)
Theorem reconcile_reopens now s p :
  has_schema s = true →
  Reconcile now (healthy s p true) = (Ok tt, healthy (set_rows s (recover_rows now (rows s))) p false).
Proof. apply reconcile_healthy. Qed.

Lemma reconcile_reopens_witness :
  let s := content accepted_system in
  has_schema s = true ∧
  Reconcile 900 (healthy s DefaultPath true)
  = (Ok tt, healthy (set_rows s (recover_rows 900 (rows s))) DefaultPath false).
Proof.
  assert (has_schema (content accepted_system) = true) as H by (by vm_compute).
  split; [exact H|]. exact (reconcile_reopens 900 _ DefaultPath H).
Defined.

(** A transaction that cannot begin because the client has gone shuts the gate for
    everybody, and the reconciliation that opens it again takes every other
    command at work for interrupted. *)
Theorem cancelled_begin_disturbs_others now now' uid id expected next data s p k r :
  transition_guards expected next data = Ok tt → has_schema s = true →
  rows s !! k = Some r → status r = StatusRunning →
  let l := mkLedger (mkDatabase s None [Fails DbCanceled]) p false in
  let l1 := (Transition now uid id expected next data l).2 in
  (Transition now uid id expected next data l).1 = Err (ErrPersistenceFailed "begin command transition") ∧
  isBlocked l1 = true ∧
  (Reconcile now' l1).1 = Ok tt ∧
  ∃ r', rows (stored (dbs (Reconcile now' l1).2)) !! k = Some r' ∧ status r' = StatusUnknown.
Proof.
  intros Hg Hs Hk Hr. cbn zeta.
  assert (Transition now uid id expected next data (mkLedger (mkDatabase s None [Fails DbCanceled]) p false) =
    (Err (ErrPersistenceFailed "begin command transition"), healthy s p true)) as ->.
  { unfold Transition, mbind, led_bind, lift. by rewrite Hg. }
  cbn [fst snd]. rewrite (reconcile_healthy now' s p Hs). split; [done|]. split; [done|]. split; [done|].
  cbn [fst snd healthy dbs stored rows set_rows]. unfold recover_rows. rewrite lookup_fmap, Hk. cbn.
  eexists. split; [reflexivity|]. unfold recover_row. by rewrite Hr.
Qed.
