(* ===== verification/Connection.v ===== *)
(** * Connection: accepted connections, their identity and their manager

    internal/connection/connection.go. Connections are shared by pointer, so
    they live in a heap; the manager maps connection IDs to addresses. *)
From S2P Require Import Prelude.
Open Scope Z_scope.

(** ** Data *)

Inductive ConnState : Type := StateNew | StateActive | StateClosing | StateClosed.
#[export] Instance ConnState_eq_dec : EqDecision ConnState.
Proof. solve_decision. Defined.

Inductive cnerror : Type :=
| ErrPeerIdentityUnavailable
| ErrConnectionNil
| ErrDuplicateConnection (id : string)
| ErrRandom.

Record PeerIdentity : Type := mkPeer { p_UID : Z; p_GID : Z; p_Username : string }.

(** [UserContext]; a nil map has no capability. *)
Record UserContext : Type := mkUser {
  UID : Z;
  GID : Z;
  Username : string;
  AdminLevel : string;
  Accounts : list string;
  CoordinatorAccounts : list string;
  Capabilities : gmap string bool;
}.

(** [current.Capabilities[c]]: a missing key reads as false. *)
Definition capability (u : UserContext) (c : string) : bool := default false (Capabilities u !! c).

Record Session : Type := mkSession { sess_ID : string; sess_ConnectionID : string; sess_User : UserContext }.

(** A connection: [cancelled] and [sock_closed] are the effects of [Cancel] and of
    closing the socket. *)
Record Connection : Type := mkConnection {
  cn_ID : string;
  cn_Session : Session;
  cn_User : UserContext;
  cn_State : ConnState;
  cancelled : bool;
  sock_closed : bool;
}.

(** ** Identity of the peer *)

(** What the kernel reports for the socket: [SO_PEERCRED], or a failure of one of
    the calls that ask for it. *)
Record Ucred : Type := mkUcred { uc_Uid : Z; uc_Gid : Z }.

Section identity.
(** [user.LookupId]: the account database of the host. *)
Context (lookup : string → option string).

Definition peerIdentityForCredentials (uid gid : Z) : result cnerror PeerIdentity :=
  match lookup (fmt_d (Z.to_N uid)) with
  | None => Err ErrPeerIdentityUnavailable
  | Some name =>
      if streq name "" then Err ErrPeerIdentityUnavailable else Ok (mkPeer uid gid name)
  end.

(** [peerIdentity]: [None] covers a connection that is not a Unix socket and
    every failing system call. *)
Definition peerIdentity (cred : option Ucred) : result cnerror PeerIdentity :=
  match cred with
  | None => Err ErrPeerIdentityUnavailable
  | Some c => peerIdentityForCredentials (uc_Uid c) (uc_Gid c)
  end.

(** [hex.EncodeToString] *)
Definition hex_char (n : Z) : ascii := chr (if n <? 10 then 48 + n else 87 + n).
Fixpoint hex_encode (s : string) : string :=
  match s with
  | EmptyString => EmptyString
  | String c s' => String (hex_char (code c / 16)) (String (hex_char (code c mod 16)) (hex_encode s'))
  end.

(** [newID]: sixteen random bytes, or the failure of the random source. *)
Definition newID (prefix : string) (random : option string) : result cnerror string :=
  match random with
  | None => Err ErrRandom
  | Some bytes => Ok (prefix +:+ "-" +:+ hex_encode bytes)
  end.

(** [NewConnection]; the outer [None] is the panic of [mustNewID]. *)
Definition NewConnection (random1 random2 : option string) (cred : option Ucred)
  : option (result cnerror Connection) :=
  match newID "conn" random1 with
  | Err e => Some (Err e)
  | Ok id =>
      match peerIdentity cred with
      | Err e => Some (Err e)
      | Ok peer =>
          let user := mkUser (p_UID peer) (p_GID peer) (p_Username peer) "" [] [] ∅ in
          if (UID user =? 0) && (GID user =? 0) && streq (Username user) ""
          then Some (Err ErrPeerIdentityUnavailable)
          else match newID "sess" random2 with
               | Err _ => None
               | Ok sid =>
                   Some (Ok (mkConnection id (mkSession sid id user) user StateActive false false))
               end
      end
  end.

(** The identity of a connection is the kernel's: nothing the client sends can
    change it, and there is always a user name. *)
Lemma NewConnection_identity r1 r2 cred c :
  NewConnection r1 r2 cred = Some (Ok c) →
  ∃ u, cred = Some u ∧ UID (cn_User c) = uc_Uid u ∧ GID (cn_User c) = uc_Gid u
       ∧ lookup (fmt_d (Z.to_N (uc_Uid u))) = Some (Username (cn_User c)) ∧ Username (cn_User c) ≠ ""
       ∧ sess_User (cn_Session c) = cn_User c ∧ Capabilities (cn_User c) = ∅
       ∧ cn_State c = StateActive.
Proof.
  unfold NewConnection. destruct (newID "conn" r1); [|done].
  unfold peerIdentity, peerIdentityForCredentials. destruct cred as [[uid gid]|]; [|done]. cbn -[streq].
  destruct (lookup (fmt_d (Z.to_N uid))) as [name|] eqn:Hl; [|done].
  destruct (streq name "") eqn:Hn; [done|]. cbn -[streq]. rewrite Hn, andb_false_r.
  destruct (newID "sess" r2); [|done]. intros [= <-]. exists (mkUcred uid gid). cbn -[streq].
  apply streq_false in Hn. repeat (split; [done|]). done.
Qed.

End identity.

(** ** Closing *)

(** [Connection.Close] holds the connection's mutex twice; between the two it
    closes the socket. *)
Definition close_begin (c : Connection) : Connection * bool :=
  if bool_decide (cn_State c = StateClosed) then (c, false)
  else (mkConnection (cn_ID c) (cn_Session c) (cn_User c) StateClosing true (sock_closed c), true).
Definition close_socket (c : Connection) : Connection :=
  mkConnection (cn_ID c) (cn_Session c) (cn_User c) (cn_State c) (cancelled c) true.
Definition close_end (c : Connection) : Connection :=
  mkConnection (cn_ID c) (cn_Session c) (cn_User c) StateClosed (cancelled c) (sock_closed c).

Definition ConnectionClose (c : Connection) : Connection :=
  let '(c1, go) := close_begin c in if go then close_end (close_socket c1) else c1.

(** Several goroutines may close the same connection: each is at one of four
    points, and an event moves one of them. *)
Inductive closer : Type := AtBegin | AtSocket | AtEnd | Finished.
#[export] Instance closer_eq_dec : EqDecision closer.
Proof. solve_decision. Defined.

Definition close_event (st : Connection * list closer) (i : nat) : Connection * list closer :=
  let '(c, ts) := st in
  match ts !! i with
  | Some AtBegin => let '(c', go) := close_begin c in (c', <[i := if go then AtSocket else Finished]> ts)
  | Some AtSocket => (close_socket c, <[i := AtEnd]> ts)
  | Some AtEnd => (close_end c, <[i := Finished]> ts)
  | _ => (c, ts)
  end.
Definition close_events (st : Connection * list closer) (evs : list nat) : Connection * list closer :=
  foldl close_event st evs.

Definition state_rank (s : ConnState) : Z :=
  match s with StateNew => 0 | StateActive => 1 | StateClosing => 2 | StateClosed => 3 end.

(** What every interleaving keeps, from a connection [c0] that is open. *)
Record close_inv (c0 : Connection) (st : Connection * list closer) : Prop := {
  ci_same : cn_ID st.1 = cn_ID c0 ∧ cn_Session st.1 = cn_Session c0 ∧ cn_User st.1 = cn_User c0;
  ci_started : ∀ t, t ∈ st.2 → t ≠ AtBegin → cancelled st.1 = true ∧ 2 ≤ state_rank (cn_State st.1);
  ci_closed : (AtEnd ∈ st.2 ∨ cn_State st.1 = StateClosed) → sock_closed st.1 = true;
  ci_done : Finished ∈ st.2 → cn_State st.1 = StateClosed;
  ci_cancel : cn_State st.1 = StateClosed → cancelled st.1 = true;
}.

Lemma elem_of_insert_cases {A} (l : list A) i x y : y ∈ <[i := x]> l → y = x ∨ y ∈ l.
Proof.
  revert i. induction l as [|z l IH]; intros [|i]; simpl; [auto..| |].
  - rewrite !elem_of_cons. tauto.
  - rewrite !elem_of_cons. intros [->|H]; [tauto|]. apply IH in H. tauto.
Qed.

Lemma close_event_inv c0 st i : close_inv c0 st → close_inv c0 (close_event st i).
Proof.
  destruct st as [c ts]. intros [Hs Hst Hcl Hd Hca]. cbn [fst snd] in *. unfold close_event.
  destruct (ts !! i) as [t|] eqn:Hi; [|by split].
  pose proof (list_elem_of_lookup_2 _ _ _ Hi) as Hin.
  destruct t; [| | |by split].
  - unfold close_begin. case_bool_decide as Hc; split; cbn [fst snd]; try done.
    + intros t _ _. rewrite Hc. split; [auto|simpl; lia].
    + intros _. auto.
    + intros [?%elem_of_insert_cases|Hx]; [|done]. destruct H as [[=]|H]. auto.
    + intros [[=]|H]%elem_of_insert_cases. by apply Hd in H.
  - destruct (Hst AtSocket Hin ltac:(done)) as [Hc Hr].
    split; cbn [fst snd close_socket cancelled cn_State sock_closed]; try done.
    intros [[=]|H]%elem_of_insert_cases. auto.
  - destruct (Hst AtEnd Hin ltac:(done)) as [Hc Hr].
    split; cbn [fst snd close_end cancelled cn_State sock_closed]; try done.
    intros _. auto.
Qed.

Definition open_connection (c : Connection) : Prop := cn_State c ≠ StateClosed.

(** However closers interleave, the state of the connection never goes back, its
    identity never changes, and once one of them has returned the connection is
    closed, its context cancelled and its socket closed. *)
Lemma close_events_inv c0 n evs :
  open_connection c0 → close_inv c0 (close_events (c0, replicate n AtBegin) evs).
Proof.
  intros Ho. unfold close_events.
  assert (close_inv c0 (c0, replicate n AtBegin)) as H.
  { split; cbn [fst snd]; try done.
    - intros t [-> _]%elem_of_replicate. done.
    - intros [[[=] _]%elem_of_replicate|H]; done.
    - by intros [[=] _]%elem_of_replicate. }
  revert H. generalize (c0, replicate n AtBegin). induction evs as [|i evs IH]; intros st H; [done|].
  cbn [foldl]. by apply IH, close_event_inv.
Qed.

Lemma close_event_rank st i :
  state_rank (cn_State st.1) ≤ state_rank (cn_State (close_event st i).1).
Proof.
  destruct st as [c ts]. unfold close_event. destruct (ts !! i) as [[]|]; cbn; try lia.
  - unfold close_begin. case_bool_decide as Hc; cbn; [lia|]. by destruct (cn_State c).
  - by destruct (cn_State c).
Qed.

(** ** The manager *)

Record manager : Type := mkManager { connections : gmap string nat; heap : gmap nat Connection }.
Definition NewConnectionManager : manager := mkManager ∅ ∅.

(** [Register] of a connection already in the heap; [None] is a nil pointer. *)
Definition Register (m : manager) (conn : option nat) : result cnerror unit * manager :=
  match conn ≫= λ a, (λ c, (a, c)) <$> heap m !! a with
  | None => (Err ErrConnectionNil, m)
  | Some (a, c) =>
      match connections m !! cn_ID c with
      | Some _ => (Err (ErrDuplicateConnection (cn_ID c)), m)
      | None => (Ok tt, mkManager (<[cn_ID c := a]> (connections m)) (heap m))
      end
  end.
Definition Unregister (m : manager) (id : string) : manager :=
  mkManager (delete id (connections m)) (heap m).
Definition Get (m : manager) (id : string) : option nat := connections m !! id.
Definition close_at (a : nat) (h : gmap nat Connection) : gmap nat Connection := alter ConnectionClose a h.
Definition Close (m : manager) (id : string) : manager :=
  match connections m !! id with
  | None => m
  | Some a => mkManager (delete id (connections m)) (close_at a (heap m))
  end.
(** [CloseAll]: the map is emptied under the mutex, then every connection that
    was in it is closed. *)
Definition CloseAll (m : manager) : manager :=
  mkManager ∅ (map_fold (λ _ a h, close_at a h) (heap m) (connections m)).
Definition Count (m : manager) : nat := size (connections m).

(** The manager's table is consistent: every entry is a connection under its ID. *)
Definition manager_ok (m : manager) : Prop :=
  ∀ id a, connections m !! id = Some a → ∃ c, heap m !! a = Some c ∧ cn_ID c = id.

Lemma ConnectionClose_ID c : cn_ID (ConnectionClose c) = cn_ID c.
Proof. unfold ConnectionClose, close_begin. by case_bool_decide. Qed.
Lemma ConnectionClose_closed c : cn_State (ConnectionClose c) = StateClosed.
Proof. unfold ConnectionClose, close_begin. by case_bool_decide. Qed.
Lemma ConnectionClose_idempotent c : ConnectionClose (ConnectionClose c) = ConnectionClose c.
Proof.
  pose proof (ConnectionClose_closed c) as H. unfold ConnectionClose at 1, close_begin.
  by rewrite bool_decide_eq_true_2.
Qed.

Lemma manager_ok_close_at conns h a :
  manager_ok (mkManager conns h) → manager_ok (mkManager conns (close_at a h)).
Proof.
  intros Hm id b Hid. destruct (Hm id b Hid) as (c & Hc & Hi). unfold close_at. cbn [heap].
  destruct (decide (a = b)) as [->|Hne].
  - rewrite lookup_alter_eq. cbn [heap] in Hc. rewrite Hc. exists (ConnectionClose c).
    by rewrite ConnectionClose_ID.
  - rewrite lookup_alter_ne by done. eauto.
Qed.

Lemma Register_ok m conn : manager_ok m → manager_ok (Register m conn).2.
Proof.
  intros Hm. unfold Register. destruct conn as [a|]; cbn; [|done].
  destruct (heap m !! a) as [c|] eqn:Ha; cbn; [|done].
  destruct (connections m !! cn_ID c) eqn:Hd; [done|]. intros id b. cbn.
  destruct (decide (cn_ID c = id)) as [<-|Hne].
  - rewrite lookup_insert_eq. intros [= <-]. eauto.
  - rewrite lookup_insert_ne by done. apply Hm.
Qed.

(** Closing a set of connections: exactly the addressed ones change. *)
Lemma close_all_heap (conns : gmap string nat) h a :
  map_fold (λ _ b h, close_at b h) h conns !! a =
  (if bool_decide (map_Exists (λ _ b, b = a) conns) then ConnectionClose else id) <$> h !! a.
Proof.
  revert h. induction conns as [|k b conns Hk Hfst IH] using map_first_key_ind; intros h.
  { rewrite map_fold_empty, bool_decide_eq_false_2; [by rewrite option_fmap_id|].
    by intros ?%map_Exists_empty. }
  rewrite map_fold_insert_first_key by done. unfold close_at at 1.
  destruct (decide (b = a)) as [->|Hne].
  - rewrite lookup_alter_eq, IH.
    rewrite (bool_decide_eq_true_2 (map_Exists _ (<[k:=a]> conns))) by (by apply map_Exists_insert_2_1).
    case_bool_decide; destruct (h !! a); cbn; [|done..]. by rewrite ConnectionClose_idempotent.
  - rewrite lookup_alter_ne, IH by done. f_equal.
    assert (map_Exists (λ _ b0, b0 = a) (<[k:=b]> conns) ↔ map_Exists (λ _ b0, b0 = a) conns) as Hx.
    { rewrite map_Exists_insert by done. naive_solver. }
    by rewrite (bool_decide_ext _ _ Hx).
Qed.

(** C39. Whoever closes a connection, and however several closers interleave, the
    identity the kernel gave it never changes, its state only moves forward,
    and once any of them has returned it is closed, its context is cancelled
    and its socket is closed. *)
Theorem connection_close_interleaved c0 n evs st :
  open_connection c0 → st = close_events (c0, replicate n AtBegin) evs →
  cn_User st.1 = cn_User c0 ∧ state_rank (cn_State c0) ≤ state_rank (cn_State st.1) ∧
  (Finished ∈ st.2 → cn_State st.1 = StateClosed ∧ cancelled st.1 = true ∧ sock_closed st.1 = true).
Proof.
  intros Ho ->. destruct (close_events_inv c0 n evs Ho) as [(_ & _ & Hu) _ Hc Hd Hca].
  split; [done|]. split; [|intros Hf; specialize (Hd Hf); auto].
  unfold close_events. assert (∀ st, state_rank (cn_State st.1) ≤ state_rank (cn_State (foldl close_event st evs).1)) as H.
  { clear. induction evs as [|i evs IH]; intros st; [cbn; lia|]. cbn [foldl].
    pose proof (close_event_rank st i). specialize (IH (close_event st i)). lia. }
  apply (H (c0, replicate n AtBegin)).
Qed.

Definition example_connection : Connection :=
  mkConnection "conn-1" (mkSession "sess-1" "conn-1" (mkUser 1000 1000 "alice" "" [] [] ∅))
    (mkUser 1000 1000 "alice" "" [] [] ∅) StateActive false false.

Lemma connection_close_interleaved_witness :
  open_connection example_connection ∧
  let st := close_events (example_connection, replicate 2 AtBegin) [0; 1; 1; 1]%nat in
  cn_User st.1 = cn_User example_connection ∧
  state_rank (cn_State example_connection) ≤ state_rank (cn_State st.1) ∧
  (Finished ∈ st.2 → cn_State st.1 = StateClosed ∧ cancelled st.1 = true ∧ sock_closed st.1 = true).
Proof.
  split; [done|]. by apply (connection_close_interleaved example_connection 2 [0; 1; 1; 1]%nat).
Defined.

(** The manager never holds two connections under one ID and only
    connections that exist, under their own IDs; [CloseAll] leaves it empty with
    every connection it held closed and no other one touched. *)
Theorem manager_contract m :
  manager_ok m →
  (∀ conn, manager_ok (Register m conn).2) ∧ (∀ id, manager_ok (Unregister m id)) ∧
  (∀ id, manager_ok (Close m id) ∧ Get (Close m id) id = None) ∧
  (manager_ok (CloseAll m) ∧ Count (CloseAll m) = 0%nat ∧
   ∀ a c, heap (CloseAll m) !! a = Some c →
     if bool_decide (map_Exists (λ _ b, b = a) (connections m)) then cn_State c = StateClosed
     else heap m !! a = Some c).
Proof.
  intros Hm. split; [by intros; apply Register_ok|].
  assert (Hd : ∀ id, manager_ok (mkManager (delete id (connections m)) (heap m))).
  { intros id i b. cbn. intros [_ Hi]%lookup_delete_Some. by apply Hm. }
  split; [done|]. split; [|split; [|split]].
  - intros id. unfold Close, Get. destruct (connections m !! id) as [a|] eqn:Ha; [|by rewrite Ha].
    split; [by apply manager_ok_close_at|]. cbn. by rewrite lookup_delete_eq.
  - intros id a [=].
  - apply map_size_empty.
  - intros a c. unfold CloseAll. cbn [heap]. rewrite close_all_heap. case_bool_decide.
    + rewrite fmap_Some. intros (c0 & _ & ->). apply ConnectionClose_closed.
    + by rewrite option_fmap_id.
Qed.

Lemma manager_contract_witness :
  let m := mkManager {["conn-1" := 7%nat]} {[7%nat := example_connection]} in
  manager_ok m ∧ (manager_ok (CloseAll m) ∧ Count (CloseAll m) = 0%nat).
Proof.
  assert (manager_ok (mkManager {["conn-1" := 7%nat]} {[7%nat := example_connection]})) as H.
  { intros id a. cbn. intros [<- <-]%lookup_singleton_Some. exists example_connection. by rewrite lookup_singleton_eq. }
  split; [exact H|]. pose proof (proj2 (proj2 (proj2 (manager_contract _ H)))) as (H1 & H2 & _).
  by split.
Defined.
