(* ===== verification/NodeHelper.v ===== *)
(** * NodeHelper: the restricted helper that runs scontrol, and its client

    internal/nodehelper/helper.go (the D-Bus service that runs as SlurmUser) and
    internal/command/dbus_executor.go (the daemon's side of the call). *)
From S2P Require Import Prelude Utf8.
Open Scope Z_scope.

Definition BusName : string := "org.cockpit_project.CockpitSlurm.NodeMutation".
Definition Interface : string := "org.cockpit_project.CockpitSlurm.NodeMutation".
Definition ServiceAccount : string := "cockpit-slurm".
Definition SlurmAccount : string := "slurm".
Definition ScontrolPath : string := "/usr/bin/scontrol".
Definition OperationNodeDrain : string := "node.drain".
Definition OperationNodeResume : string := "node.resume".

Inductive herror : Type := ErrInvalidOperation | ErrInvalidTarget | ErrInvalidReason.

(** ** Validation *)

Definition alnum (r : Z) : bool := in_range 97 122 r || in_range 65 90 r || in_range 48 57 r.
(** The characters of ["_.-"]. *)
Definition name_mark (r : Z) : bool := (r =? 95) || (r =? 46) || (r =? 45).

(** [strings.EqualFold(s, "ALL")]: no rune but the ASCII letters folds to A or L. *)
Definition upper_ascii (r : Z) : Z := if in_range 97 122 r then r - 32 else r.
Definition equal_fold_ALL (s : string) : bool :=
  bool_decide (map upper_ascii (runes s) = [65; 76; 76]).

(** The [range] loop: the first rune, and every rune. *)
Fixpoint name_loop (index : nat) (rs : list Z) : bool :=
  match rs with
  | [] => true
  | r :: rs' =>
      if (index =? 0)%nat && negb (alnum r) then false
      else if negb (alnum r || name_mark r) then false
      else name_loop (S index) rs'
  end.

Definition validNodeName (nodeName : string) : bool :=
  if streq nodeName "" || (255 <? Z.of_nat (slen nodeName)) || equal_fold_ALL nodeName then false
  else name_loop 0 (runes nodeName).

Definition validateDrainReason (reason : string) : result herror unit :=
  guard_err (negb (streq (trim_space reason) "" || (256 <? Z.of_nat (slen reason)))) ErrInvalidReason;;
  guard_err (negb (existsb is_control (runes reason))) ErrInvalidReason.

Definition BuildScontrolArgs (operationID nodeName reason : string) : result herror (list string) :=
  guard_err (validNodeName nodeName) ErrInvalidTarget;;
  if streq operationID OperationNodeDrain then
    validateDrainReason reason;;
    Ok ["update"; "NodeName=" +:+ nodeName; "State=DRAIN"; "Reason=" +:+ reason]
  else if streq operationID OperationNodeResume then
    guard_err (streq reason "") ErrInvalidReason;;
    Ok ["update"; "NodeName=" +:+ nodeName; "State=RESUME"]
  else Err ErrInvalidOperation.

(** ** The D-Bus method *)

(** A header value, and the only property of it the method looks at. *)
Inductive variant : Type := VString (s : string) | VOther.

Definition dbusError (kind : string) : string := Interface +:+ ".Error." +:+ kind.

(** How a run of a command ends: [Run] of [exec.Cmd] returns no error only when the
    command exits with status zero; [helperTimeout] kills one that takes longer. *)
Inductive run_outcome : Type := NotStarted | Exited (status : Z) | KilledByTimeout | Signalled.
Definition run_failed (o : run_outcome) : bool :=
  match o with Exited status => negb (status =? 0) | _ => true end.
Definition helperTimeout : Z := 30.

(** The peers: the bus daemon's answer for a sender, [None] when it is an error.
    The runner gets the time limit of its context, in seconds, and a command line. *)
Record DBusService : Type := mkDBusService {
  serviceUID : Z;
  peers : option (string → option Z);
  runner : option (Z → list string → run_outcome);
}.
Definition NewDBusService (execCommandRunner : Z → list string → run_outcome) (serviceUID : Z)
  (peers : option (string → option Z)) (runner : option (Z → list string → run_outcome)) : DBusService :=
  mkDBusService serviceUID peers (Some (default execCommandRunner runner)).

(** [SetNodeState]: the reply, or the name of the D-Bus error, and the command
    lines it has handed to the runner. *)
Definition SetNodeState (s : option DBusService) (sender : option variant) (operationID nodeName reason : string)
  : result string string * list (list string) :=
  match s with
  | Some (mkDBusService serviceUID (Some peer_uid) (Some run)) =>
      match sender with
      | None | Some VOther => (Err (dbusError "AccessDenied"), [])
      | Some (VString sender) =>
          if streq sender "" then (Err (dbusError "AccessDenied"), [])
          else if negb (bool_decide (peer_uid sender = Some serviceUID)) then (Err (dbusError "AccessDenied"), [])
          else match BuildScontrolArgs operationID nodeName reason with
               | Err _ => (Err (dbusError "InvalidArguments"), [])
               | Ok args =>
                   (if run_failed (run helperTimeout (ScontrolPath :: args)) then Err (dbusError "ExecutionFailed") else Ok "succeeded",
                    [ScontrolPath :: args])
               end
      end
  | _ => (Err (dbusError "InternalError"), [])
  end.

(** ** The client *)

(** The errors [Execute] sees. [errors.As] with a [*dbus.Error] target matches a
    pointer and not a [dbus.Error] value. *)
Inductive cerror : Type :=
| ErrExecutionOutcomeUnknown
| DBusErrorPointer (name : string)
| DBusErrorValue (name : string)
| ErrCanceled
| ErrDeadlineExceeded
| ErrHelper (e : herror)
| ErrOther (detail : string).

(** [dbusNodeMutationCaller.SetNodeState]; [object] says that there is a bus object,
    and [reply] is what the method call brings back: an error of the transport or
    of the helper, or the reply. *)
Definition caller_SetNodeState (object : bool) (reply : result cerror string) : result cerror unit :=
  guard_err object (ErrOther "Node helper D-Bus object is unavailable");;
  match reply with
  | Err e => Err e
  | Ok r => guard_err (streq r "succeeded") (ErrOther "restricted Node mutation helper returned an invalid result")
  end.

Definition definite_error_names : list string :=
  [dbusError "InvalidArguments"; dbusError "AccessDenied"; dbusError "ExecutionFailed"].

(** [DBusExecutor.Execute]: [client] is the caller of the executor, [None] when the
    executor or its caller is nil, and says whether the caller has its bus object;
    [call] is the method call over the bus. *)
Definition Execute (client : option bool) (call : string → string → string → result cerror string)
  (operation nodeName reason : string) : result cerror unit :=
  match client with
  | None => Err (ErrOther "Node helper D-Bus client is unavailable")
  | Some object =>
      if negb (streq operation OperationNodeDrain) && negb (streq operation OperationNodeResume)
      then Err (ErrHelper ErrInvalidOperation)
      else match caller_SetNodeState object (call operation nodeName reason) with
           | Ok _ => Ok tt
           | Err ErrExecutionOutcomeUnknown => Err ErrExecutionOutcomeUnknown
           | Err (DBusErrorPointer name) =>
               if bool_decide (name ∈ definite_error_names) then Err (DBusErrorPointer name)
               else Err ErrExecutionOutcomeUnknown
           | Err _ => Err ErrExecutionOutcomeUnknown
           end
  end.

(** ** Identities and start-up *)

Record ExecutionIdentity : Type := mkIdentity { ex_UID : Z; ex_Username : string; Boundary : string }.
Definition no_identity : ExecutionIdentity := mkIdentity 0 "" "".

(** [strconv.ParseUint(s, 10, 32)] *)
Definition is_digit_char (c : ascii) : bool := in_range 48 57 (code c).
Definition digits_to_Z (s : string) : Z :=
  foldl (λ acc c, acc * 10 + (code c - 48)) 0 (String.list_ascii_of_string s).
Definition ParseUint32 (s : string) : option Z :=
  if negb (streq s "") && sforallb is_digit_char s && (digits_to_Z s <? 2 ^ 32)
  then Some (digits_to_Z s) else None.

(** An account of the host: its name and the text of its UID. *)
Definition NewDBusExecutor (lookup : string → option (string * string)) (bus : bool)
  : option ExecutionIdentity :=
  '(username, uid_text) ← lookup SlurmAccount;
  uid ← ParseUint32 uid_text;
  if bus then Some (mkIdentity uid username ("dbus:" +:+ BusName)) else None.

Definition Identity (e : option ExecutionIdentity) : ExecutionIdentity := default no_identity e.

(** [Run]: the helper serves only as SlurmUser and as the sole owner of its bus
    name; the result is the UID whose calls it accepts. *)
Definition Run (lookup : string → option (string * string)) (euid : Z)
  (bus export : bool) (primary_owner : option bool) : result string Z :=
  match lookup ServiceAccount ≫= ParseUint32 ∘ snd with
  | None => Err "resolve requesting service account"
  | Some serviceUID =>
      match lookup SlurmAccount ≫= ParseUint32 ∘ snd with
      | None => Err "resolve Slurm execution account"
      | Some slurmUID =>
          guard_err (euid =? slurmUID) "Node mutation helper must run as SlurmUser";;
          guard_err bus "connect to system D-Bus";;
          guard_err export "export Node mutation helper";;
          match primary_owner with
          | None => Err "acquire D-Bus service name"
          | Some false => Err "Node mutation D-Bus service name is already owned"
          | Some true => Ok serviceUID
          end
      end
  end.

(** ** What a command line can be *)

(** One argument is one word of the command line: no rune of it splits it, and
    the node name is a single name, not a list or the word ALL. *)
Definition plain_name (s : string) : Prop :=
  s ≠ "" ∧ (slen s ≤ 255)%nat ∧ Forall (λ r, alnum r || name_mark r = true) (runes s)
  ∧ (∀ r rs, runes s = r :: rs → alnum r = true) ∧ map upper_ascii (runes s) ≠ [65; 76; 76].

Lemma name_loop_S n rs :
  name_loop (S n) rs = forallb (λ r, alnum r || name_mark r) rs.
Proof.
  revert n. induction rs as [|r rs IH]; intros n; [done|]. cbn [name_loop forallb]. cbn.
  destruct (alnum r || name_mark r); cbn; [by rewrite IH|done].
Qed.

Lemma name_loop_0 rs :
  name_loop 0 rs = true ↔
  Forall (λ r, alnum r || name_mark r = true) rs ∧ (∀ r rs', rs = r :: rs' → alnum r = true).
Proof.
  destruct rs as [|r rs]; [split; [split; [constructor|done]|done]|].
  cbn [name_loop]. rewrite name_loop_S, Forall_cons. cbn.
  destruct (alnum r) eqn:Ha; cbn.
  - split.
    + intros H. split; [split; [done|]|by intros ? ? [= <- _]].
      apply Forall_forall. intros x Hx. apply forallb_forall with (x := x) in H; [done|].
      by apply list_elem_of_In.
    + intros [[_ H] _]. apply forallb_forall. intros x Hx%list_elem_of_In.
      by eapply Forall_forall in H.
  - split; [done|]. intros [_ H]. specialize (H r rs eq_refl). congruence.
Qed.

Lemma validNodeName_spec s : validNodeName s = true ↔ plain_name s.
Proof.
  unfold validNodeName, plain_name, equal_fold_ALL.
  destruct (streq s "") eqn:He; cbn -[streq].
  { apply streq_true in He. subst. split; [done|by intros [? _]]. }
  apply streq_false in He. destruct (Z.ltb_spec 255 (Z.of_nat (slen s))); cbn.
  { split; [done|]. intros (_ & ? & _). lia. }
  case_bool_decide as Hall.
  { split; [done|]. by intros (_ & _ & _ & _ & ?). }
  rewrite name_loop_0. split.
  - intros [? ?]. repeat split; auto. lia.
  - intros (_ & _ & ? & ? & _). auto.
Qed.

Definition plain_reason (s : string) : Prop :=
  trim_space s ≠ "" ∧ (slen s ≤ 256)%nat ∧ Forall (λ r, is_control r = false) (runes s).

Lemma validateDrainReason_spec s : validateDrainReason s = Ok tt ↔ plain_reason s.
Proof.
  unfold validateDrainReason, plain_reason. rewrite <-streq_false.
  destruct (streq (trim_space s) ""); cbn; [split; [done|by intros [? _]]|].
  destruct (Z.ltb_spec 256 (Z.of_nat (slen s))); cbn; [split; [done|intros (_ & ? & _); lia]|].
  destruct (existsb is_control (runes s)) eqn:Hc; cbn.
  - split; [done|]. intros (_ & _ & Hno). apply existsb_exists in Hc as (r & Hr%list_elem_of_In & Hc).
    eapply Forall_forall in Hno; [|done]. congruence.
  - split; [|done]. intros _. split; [done|]. split; [lia|]. apply Forall_forall. intros r Hr.
    destruct (is_control r) eqn:Hx; [|done].
    rewrite <-Hc. symmetry. apply existsb_exists. exists r. split; [by apply list_elem_of_In|done].
Qed.

Lemma BuildScontrolArgs_iff op node reason args :
  BuildScontrolArgs op node reason = Ok args ↔
  plain_name node ∧
  ((op = OperationNodeDrain ∧ plain_reason reason ∧
    args = ["update"; "NodeName=" +:+ node; "State=DRAIN"; "Reason=" +:+ reason]) ∨
   (op = OperationNodeResume ∧ reason = "" ∧
    args = ["update"; "NodeName=" +:+ node; "State=RESUME"])).
Proof.
  unfold BuildScontrolArgs. rewrite <-validNodeName_spec, <-validateDrainReason_spec, <-streq_true.
  rewrite <-(streq_true op OperationNodeResume), <-(streq_true reason "").
  destruct (validNodeName node); cbn -[streq validateDrainReason]; [|naive_solver].
  destruct (streq op OperationNodeDrain) eqn:Hd.
  { apply streq_true in Hd. subst. destruct (validateDrainReason reason) as [[]|]; cbn -[streq]; naive_solver. }
  destruct (streq op OperationNodeResume); [|naive_solver].
  destruct (streq reason ""); cbn; naive_solver.
Qed.

(** The privileged command line. Every scontrol invocation of the helper is
    [update] on exactly one plainly named node, with state DRAIN and a
    printable, non-blank reason of at most 256 bytes, or with state RESUME and
    nothing else; and these are exactly the invocations it can make. *)
Theorem BuildScontrolArgs_spec op node reason args :
  BuildScontrolArgs op node reason = Ok args ↔
  plain_name node ∧
  ((op = OperationNodeDrain ∧ plain_reason reason ∧
    args = ["update"; "NodeName=" +:+ node; "State=DRAIN"; "Reason=" +:+ reason]) ∨
   (op = OperationNodeResume ∧ reason = "" ∧
    args = ["update"; "NodeName=" +:+ node; "State=RESUME"])).
Proof. apply BuildScontrolArgs_iff. Qed.

(** The cases of a call of the helper. *)
Definition runs_nothing (reply : result string string) : Prop :=
  reply = Err (dbusError "InternalError") ∨ reply = Err (dbusError "AccessDenied") ∨ reply = Err (dbusError "InvalidArguments").
Definition runs_line (s : option DBusService) (sender : option variant) (op node reason : string)
  (reply : result string string) (line : list string) : Prop :=
  ∃ svc peer_uid run args name, s = Some svc ∧ peers svc = Some peer_uid ∧ runner svc = Some run ∧
    line = ScontrolPath :: args ∧ BuildScontrolArgs op node reason = Ok args ∧
    sender = Some (VString name) ∧ name ≠ "" ∧ peer_uid name = Some (serviceUID svc) ∧
    reply = (if run_failed (run helperTimeout line) then Err (dbusError "ExecutionFailed") else Ok "succeeded").
Lemma SetNodeState_cases s sender op node reason :
  let r := SetNodeState s sender op node reason in
  (r.2 = [] ∧ runs_nothing r.1 ∨ ∃ line, r.2 = [line] ∧ runs_line s sender op node reason r.1 line).
Proof.
  unfold SetNodeState, runs_nothing. destruct s as [[uid [peer_uid|] [run|]]|]; cbn; auto.
  destruct sender as [[name|]|]; cbn; auto.
  destruct (streq name "") eqn:Hn; cbn; auto. case_bool_decide as Hu; cbn; auto.
  destruct (BuildScontrolArgs op node reason) as [args|e] eqn:Hb; cbn; [|auto].
  right. eexists. split; [done|]. apply streq_false in Hn. by exists (mkDBusService uid (Some peer_uid) (Some run)), peer_uid, run, args, name.
Qed.

(** The privileged boundary. The helper runs a command only for the UID of
    the daemon's service account as the bus reports it, at most one per call,
    and only a command line of [BuildScontrolArgs]; it answers "succeeded"
    exactly when it ran the command and the command exited with zero; a call it
    cannot serve, denies or finds invalid runs nothing. *)
Theorem SetNodeState_spec s sender op node reason :
  let r := SetNodeState s sender op node reason in
  (r.2 = [] ∧ runs_nothing r.1 ∨ ∃ line, r.2 = [line] ∧ runs_line s sender op node reason r.1 line).
Proof. apply SetNodeState_cases. Qed.

(** Classification of outcomes. The client reports success exactly when the
    helper replied "succeeded"; it reports a definite failure only for an
    operation it did not send, for lack of a client, or for one of the helper's
    three named errors; every other failure of the call, a lost connection, a
    time-out or a reply it does not know, is reported as an unknown outcome. *)
Theorem Execute_spec client call op node reason :
  match Execute client call op node reason with
  | Ok _ => (op = OperationNodeDrain ∨ op = OperationNodeResume) ∧ client = Some true ∧ call op node reason = Ok "succeeded"
  | Err (ErrHelper e) => e = ErrInvalidOperation ∧ op ≠ OperationNodeDrain ∧ op ≠ OperationNodeResume
  | Err (DBusErrorPointer name) =>
      client = Some true ∧ call op node reason = Err (DBusErrorPointer name) ∧ name ∈ definite_error_names
  | Err ErrExecutionOutcomeUnknown =>
      client = Some false ∨ call op node reason ≠ Ok "succeeded" ∧
      ∀ name, call op node reason = Err (DBusErrorPointer name) → name ∉ definite_error_names
  | Err (ErrOther _) => client = None
  | Err _ => False
  end.
Proof.
  unfold Execute, caller_SetNodeState. destruct client as [object|]; [|done].
  destruct (decide (op = OperationNodeDrain ∨ op = OperationNodeResume)) as [Hop|Hop].
  - replace (negb _ && negb _) with false by (by destruct Hop as [-> | ->]).
    destruct object; cbn; [|by left].
    destruct (call op node reason) as [r|[]] eqn:Hc; try done; try (right; done).
    + destruct (streq r "succeeded") eqn:Hs; cbn.
      * apply streq_true in Hs. by subst.
      * apply streq_false in Hs. right. split; [congruence|done].
    + case_bool_decide; [done|]. right. split; [done|]. by intros ? [= <-].
  - assert (op ≠ OperationNodeDrain ∧ op ≠ OperationNodeResume) as [H1 H2] by tauto.
    rewrite <-streq_false in H1, H2. rewrite H1, H2. cbn [negb andb].
    by rewrite streq_false in H1, H2.
Qed.

(** The bus between the two: the helper's error name arrives as an error, by
    pointer in this model. *)
Definition over_bus (r : result string string) : result cerror string :=
  match r with Ok s => Ok s | Err name => Err (DBusErrorPointer name) end.

(** A command that was started and then killed by the helper's own 30 s limit is
    reported by [ExecutionFailed], and so as a definite failure, although it may
    have reached Slurm. *)
Theorem helper_timeout_is_definite uid peer_uid run sender op node reason args :
  peer_uid sender = Some uid → sender ≠ "" → BuildScontrolArgs op node reason = Ok args →
  run helperTimeout (ScontrolPath :: args) = KilledByTimeout →
  let helper := SetNodeState (Some (mkDBusService uid (Some peer_uid) (Some run))) (Some (VString sender)) in
  (helper op node reason).2 = [ScontrolPath :: args] ∧
  Execute (Some true) (λ o n r, over_bus (helper o n r).1) op node reason
  = Err (DBusErrorPointer (dbusError "ExecutionFailed")).
Proof.
  intros Hp Hs%streq_false Hb Hr. cbn zeta.
  assert (SetNodeState (Some (mkDBusService uid (Some peer_uid) (Some run))) (Some (VString sender)) op node reason
    = (Err (dbusError "ExecutionFailed"), [ScontrolPath :: args])) as Hset.
  { unfold SetNodeState. by rewrite Hs, bool_decide_eq_true_2, Hb, Hr. }
  rewrite Hset. split; [done|].
  assert (op = OperationNodeDrain ∨ op = OperationNodeResume) as Hop
    by (apply BuildScontrolArgs_iff in Hb as (_ & [(-> & _) | (-> & _)]); auto).
  unfold Execute, caller_SetNodeState. rewrite Hset.
  by destruct Hop as [-> | ->].
Qed.

Lemma helper_timeout_is_definite_witness :
  let helper := SetNodeState (Some (mkDBusService 990 (Some (λ _, Some 990)) (Some (λ _ _, KilledByTimeout)))) (Some (VString ":1.7")) in
  (helper "node.resume" "n1" "").2 = [ScontrolPath :: ["update"; "NodeName=n1"; "State=RESUME"]] ∧
  Execute (Some true) (λ o n r, over_bus (helper o n r).1) "node.resume" "n1" ""
  = Err (DBusErrorPointer (dbusError "ExecutionFailed")).
Proof. by apply (helper_timeout_is_definite 990 (λ _, Some 990) (λ _ _, KilledByTimeout) ":1.7" "node.resume" "n1" ""). Defined.

(** The helper starts only as SlurmUser. *)
Lemma Run_as_slurm lookup euid bus export owner uid :
  Run lookup euid bus export owner = Ok uid →
  owner = Some true ∧ (∃ name text, lookup SlurmAccount = Some (name, text) ∧ ParseUint32 text = Some euid)
  ∧ (∃ name text, lookup ServiceAccount = Some (name, text) ∧ ParseUint32 text = Some uid).
Proof.
  unfold Run. destruct (lookup ServiceAccount) as [[n t]|]; cbn -[ParseUint32]; [|done].
  destruct (ParseUint32 t) eqn:Ht; [|done].
  destruct (lookup SlurmAccount) as [[n' t']|]; cbn -[ParseUint32]; [|done].
  destruct (ParseUint32 t') eqn:Ht'; [|done].
  destruct (Z.eqb_spec euid z0); cbn; [|done]. subst. destruct bus, export; cbn; try done.
  destruct owner as [[]|]; [|done..]. intros [= <-]. eauto 10.
Qed.
