(* ===== verification/Authorization.v ===== *)
(** * Authorization: capabilities, the operation registry and the authorizer

    internal/identity/capabilities.go (the capabilities of a Slurm user),
    internal/authorization/registry.go and authorizer.go. *)
From S2P Require Import Prelude Utf8 Connection.
Open Scope Z_scope.

(** ** Capabilities of a Slurm user (identity) *)

Definition CapabilityNodeDrain : string := "nodes.drain".
Definition CapabilityNodeResume : string := "nodes.resume".

Inductive ierror : Type :=
| ErrIdentityUnavailable
| ErrSlurmUserNotFound
| ErrSlurmUserLookup
| ErrUnknownAdminLevel (level : string).

Record SlurmUser : Type := mkSlurmUser {
  su_Username : string;
  su_AdminLevel : string;
  su_Accounts : list string;
  su_CoordinatorAccounts : list string;
}.

(** [SlurmUserLookup]: an error, or the user if there is one. *)
Definition SlurmUserLookup : Type := string → result ierror (option SlurmUser).

Definition normalizeAdminLevel (adminLevel : string) : result ierror string :=
  let l := to_lower (trim_space adminLevel) in
  if streq l "none" then Ok "none"
  else if streq l "operator" then Ok "operator"
  else if streq l "admin" || streq l "administrator" then Ok "admin"
  else Err (ErrUnknownAdminLevel adminLevel).

(** [CapabilityResolver.Resolve]; [None] is a resolver without a lookup. *)
Definition Resolve (users : option SlurmUserLookup) (requester : UserContext) : result ierror UserContext :=
  guard_err (negb (streq (Username requester) "")) ErrIdentityUnavailable;;
  match users with
  | None => Err ErrSlurmUserLookup
  | Some lookup =>
      match lookup (Username requester) with
      | Err _ => Err ErrSlurmUserLookup
      | Ok None => Err ErrSlurmUserNotFound
      | Ok (Some user) =>
          guard_err (negb (streq (su_Username user) "" || negb (streq (su_Username user) (Username requester))))
                    ErrIdentityUnavailable;;
          adminLevel ← normalizeAdminLevel (su_AdminLevel user);
          let allowed := streq adminLevel "admin" in
          Ok (mkUser (UID requester) (GID requester) (Username requester) adminLevel
                (su_Accounts user) (su_CoordinatorAccounts user)
                (<[CapabilityNodeDrain := allowed]> {[CapabilityNodeResume := allowed]}))
      end
  end.

(** ** The registry *)

Definition OperationNodeDrain : string := "node.drain".
Definition OperationNodeResume : string := "node.resume".
Definition NodeStateHandlerID : string := "node.set_state".
Definition NodeTargetValidatorID : string := "node.target".

Definition ParameterString : string := "string".
Definition ParameterEnum : string := "enum".
Definition ParameterInteger : string := "integer".
Definition ParameterBoolean : string := "boolean".

Record ParameterSpec : Type := mkSpec {
  ps_Type : string;
  Required : bool;
  MinLength : Z;
  MaxLength : Z;
  AllowedValues : list string;
}.

Notation schema := (gmap string ParameterSpec).

Record RegistryEntry : Type := mkEntry {
  re_OperationID : string;
  re_Resource : string;
  re_Command : string;
  RequiredCapability : string;
  TargetSchema : schema;
  ParameterSchema : schema;
  HandlerID : string;
  ValidatorID : string;
}.

Notation registry := (gmap string RegistryEntry).

(** Every failure of the constructor wraps [ErrInvalidRegistry]. *)
Inductive rerror : Type := ErrInvalidRegistry.

(** One field of a schema; the [for range] over the map stops at some invalid
    field if there is one. *)
Definition spec_ok (name : string) (spec : ParameterSpec) : bool :=
  negb (streq name "")
  && bool_decide (ps_Type spec ∈ [ParameterString; ParameterEnum; ParameterInteger; ParameterBoolean])
  && negb ((MinLength spec <? 0) || (MaxLength spec <? 0)
           || ((0 <? MaxLength spec) && (MaxLength spec <? MinLength spec)))
  && negb (streq (ps_Type spec) ParameterEnum && (length (AllowedValues spec) =? 0)%nat)
  && negb (negb (streq (ps_Type spec) ParameterEnum) && negb (length (AllowedValues spec) =? 0)%nat).
Definition validateSchema (s : schema) : result rerror unit :=
  guard_err (forallb (λ p, spec_ok p.1 p.2) (map_to_list s)) ErrInvalidRegistry.

Definition validateEntry (key : string) (entry : RegistryEntry) (handlerIDs validatorIDs : gset string)
  : result rerror unit :=
  guard_err (negb (negb (streq key OperationNodeDrain) && negb (streq key OperationNodeResume))) ErrInvalidRegistry;;
  guard_err (negb (negb (streq (re_Resource entry) "node") || negb (streq (re_Command entry) "update")))
            ErrInvalidRegistry;;
  guard_err (negb (streq (RequiredCapability entry) "")) ErrInvalidRegistry;;
  guard_err (negb (streq (HandlerID entry) "")) ErrInvalidRegistry;;
  guard_err (bool_decide (HandlerID entry ∈ handlerIDs)) ErrInvalidRegistry;;
  guard_err (streq (ValidatorID entry) "" || bool_decide (ValidatorID entry ∈ validatorIDs)) ErrInvalidRegistry;;
  validateSchema (TargetSchema entry);;
  validateSchema (ParameterSchema entry).

(** The copies share nothing with the original: as values they are equal to it. *)
Definition cloneSchema (s : schema) : schema :=
  (λ spec, mkSpec (ps_Type spec) (Required spec) (MinLength spec) (MaxLength spec) (AllowedValues spec)) <$> s.
Definition cloneEntry (e : RegistryEntry) : RegistryEntry :=
  mkEntry (re_OperationID e) (re_Resource e) (re_Command e) (RequiredCapability e)
    (cloneSchema (TargetSchema e)) (cloneSchema (ParameterSchema e)) (HandlerID e) (ValidatorID e).

Definition entry_valid (handlerIDs validatorIDs : gset string) (p : string * RegistryEntry) : bool :=
  streq p.1 (re_OperationID p.2) && is_Ok (validateEntry p.1 p.2 handlerIDs validatorIDs).

Definition requires (r : registry) (op capability : string) : bool :=
  match r !! op with Some e => streq (RequiredCapability e) capability | None => false end.

Definition NewGlobalRegistry (entries : registry) (handlerIDs validatorIDs : gset string)
  : result rerror registry :=
  guard_err (size entries =? 2)%nat ErrInvalidRegistry;;
  guard_err (forallb (entry_valid handlerIDs validatorIDs) (map_to_list entries)) ErrInvalidRegistry;;
  let r := cloneEntry <$> entries in
  guard_err (requires r OperationNodeDrain CapabilityNodeDrain) ErrInvalidRegistry;;
  guard_err (requires r OperationNodeResume CapabilityNodeResume) ErrInvalidRegistry;;
  Ok r.

Definition nodeTargetSchema : schema := {["nodeName" := mkSpec ParameterString true 1 255 []]}.

Definition node_entry (op capability : string) (parameters : schema) : RegistryEntry :=
  mkEntry op "node" "update" capability nodeTargetSchema parameters NodeStateHandlerID NodeTargetValidatorID.

Definition drain_entry : RegistryEntry :=
  node_entry OperationNodeDrain CapabilityNodeDrain
    (<["state" := mkSpec ParameterEnum true 0 0 ["DRAIN"]]>
      {["reason" := mkSpec ParameterString true 1 256 []]}).
Definition resume_entry : RegistryEntry :=
  node_entry OperationNodeResume CapabilityNodeResume
    {["state" := mkSpec ParameterEnum true 0 0 ["RESUME"]]}.

Definition NewNodeRegistry : result rerror registry :=
  NewGlobalRegistry (<[OperationNodeDrain := drain_entry]> {[OperationNodeResume := resume_entry]})
    {[NodeStateHandlerID]} {[NodeTargetValidatorID]}.

(** [GlobalRegistry.Lookup]; [None] is the nil registry. *)
Definition registry_Lookup (r : option registry) (op : string) : option RegistryEntry :=
  r ≫= λ entries, cloneEntry <$> entries !! op.

(** ** The authorizer *)

Inductive aerror : Type :=
| ErrUnknownOperation (op : string)
| ErrResolverUnavailable
| ErrIdentity (e : ierror).

Record Decision : Type := mkDecision {
  Allowed : bool;
  d_RequiredCapability : string;
  d_UserContext : UserContext;
}.

(** [Authorizer.Authorize]: a nil registry or resolver is [None]. *)
Definition Authorize (r : option registry) (resolver : option (UserContext → result ierror UserContext))
  (requester : UserContext) (operationID : string) : result aerror Decision :=
  match r with
  | None => Err ErrResolverUnavailable
  | Some _ =>
      match registry_Lookup r operationID with
      | None => Err (ErrUnknownOperation operationID)
      | Some entry =>
          match resolver with
          | None => Err ErrResolverUnavailable
          | Some resolve =>
              match resolve requester with
              | Err e => Err (ErrIdentity e)
              | Ok current =>
                  guard_err (negb (streq (Username requester) ""
                                   || negb (streq (Username current) (Username requester))
                                   || negb (UID current =? UID requester)
                                   || negb (GID current =? GID requester)))
                            (ErrIdentity ErrIdentityUnavailable);;
                  Ok (mkDecision (capability current (RequiredCapability entry))
                        (RequiredCapability entry) current)
              end
          end
      end
  end.

(** ** Facts *)

Lemma cloneSchema_id s : cloneSchema s = s.
Proof. unfold cloneSchema. rewrite <-(map_fmap_id s) at 2. apply map_fmap_ext. by intros ? []. Qed.
Lemma cloneEntry_id e : cloneEntry e = e.
Proof. destruct e. unfold cloneEntry. cbn. by rewrite !cloneSchema_id. Qed.

Lemma registry_Lookup_some r op : registry_Lookup (Some r) op = r !! op.
Proof. unfold registry_Lookup. cbn. destruct (r !! op); cbn; [by rewrite cloneEntry_id|done]. Qed.

Lemma NewNodeRegistry_Ok :
  NewNodeRegistry = Ok (<[OperationNodeDrain := drain_entry]> {[OperationNodeResume := resume_entry]}).
Proof. by vm_compute. Qed.

Lemma normalizeAdminLevel_admin l :
  normalizeAdminLevel l = Ok "admin" ↔ to_lower (trim_space l) ∈ ["admin"; "administrator"].
Proof.
  unfold normalizeAdminLevel. generalize (to_lower (trim_space l)) as x. intros x.
  rewrite list_elem_of_In. cbn [In].
  destruct (streq x "none") eqn:H1; [apply streq_true in H1; subst; naive_solver|].
  destruct (streq x "operator") eqn:H2; [apply streq_true in H2; subst; naive_solver|].
  destruct (streq x "admin") eqn:H3; [apply streq_true in H3; subst; naive_solver|].
  destruct (streq x "administrator") eqn:H4; [apply streq_true in H4; subst; naive_solver|].
  apply streq_false in H3, H4. cbn. naive_solver.
Qed.

Lemma Resolve_Ok users requester u :
  Resolve users requester = Ok u →
  Username requester ≠ "" ∧ UID u = UID requester ∧ GID u = GID requester ∧ Username u = Username requester
  ∧ (∃ lookup su, users = Some lookup ∧ lookup (Username requester) = Ok (Some su)
       ∧ su_Username su = Username requester ∧ normalizeAdminLevel (su_AdminLevel su) = Ok (AdminLevel u))
  ∧ (∀ c, capability u c = true ↔ c ∈ [CapabilityNodeDrain; CapabilityNodeResume] ∧ AdminLevel u = "admin").
Proof.
  unfold Resolve. intros H. inv_ok. split_bools. apply streq_false in Hx.
  destruct users as [lookup|]; [|done]. destruct (lookup (Username requester)) as [[su|]|] eqn:Hl; [|done..].
  inv_ok. split_bools. apply streq_true in H1. subst u. cbn [UID GID Username AdminLevel].
  do 4 (split; [done|]). split; [by exists lookup, su|].
  intros c. unfold capability. cbn [Capabilities]. rewrite list_elem_of_In. cbn [In].
  destruct (decide (c = CapabilityNodeDrain)) as [->|Hc1];
    [rewrite lookup_insert_eq; simpl; rewrite streq_true; tauto|rewrite lookup_insert_ne by done].
  destruct (decide (c = CapabilityNodeResume)) as [->|Hc2];
    [rewrite lookup_singleton_eq; simpl; rewrite streq_true; tauto|rewrite lookup_singleton_ne by done].
  cbn. split; [done|]. intros [[?|[?|[]]] _]; congruence.
Qed.

(** C19. Only Slurm administrators are allowed. Over the daemon's resolver, a
    decision of the authorizer is about the requester's own UID, GID and name;
    it allows the operation exactly when the entry asks for one of the two Node
    capabilities and Slurm's user record of that very name has an administrator
    level; everything else is an error or a refusal. *)
Theorem Authorize_admin_only r users requester op d :
  Authorize r (Some (Resolve users)) requester op = Ok d →
  UID (d_UserContext d) = UID requester ∧ GID (d_UserContext d) = GID requester
  ∧ Username (d_UserContext d) = Username requester ∧ Username requester ≠ ""
  ∧ (∃ entry, registry_Lookup r op = Some entry ∧ d_RequiredCapability d = RequiredCapability entry)
  ∧ (Allowed d = true ↔
       d_RequiredCapability d ∈ [CapabilityNodeDrain; CapabilityNodeResume] ∧
       ∃ lookup su, users = Some lookup ∧ lookup (Username requester) = Ok (Some su)
         ∧ su_Username su = Username requester
         ∧ to_lower (trim_space (su_AdminLevel su)) ∈ ["admin"; "administrator"])
  ∧ (Allowed d = true → AdminLevel (d_UserContext d) = "admin").
Proof.
  unfold Authorize. destruct r as [r|]; [|done].
  destruct (registry_Lookup (Some r) op) as [entry|] eqn:He; [|done].
  destruct (Resolve users requester) as [u|] eqn:Hr; [|done]. intros H. inv_ok. subst d.
  apply Resolve_Ok in Hr as (Hne & Hu & Hg & Hn & (lookup & su & -> & Hl & Hs & Ha) & Hc).
  cbn [d_UserContext d_RequiredCapability Allowed]. do 4 (split; [done|]). split; [by exists entry|].
  split; [|by intros [_ ?]%Hc]. rewrite Hc. split; intros [Hin H]; (split; [done|]).
  - rewrite H in Ha. apply normalizeAdminLevel_admin in Ha. by exists lookup, su.
  - destruct H as (lookup' & su' & [= <-] & Hl' & _ & Ha'%normalizeAdminLevel_admin). congruence.
Qed.

Definition example_lookup : SlurmUserLookup := λ name,
  if streq name "alice" then Ok (Some (mkSlurmUser "alice" " Administrator" [] []))
  else Ok None.
Definition alice : UserContext := mkUser 1000 1000 "alice" "" [] [] ∅.
Definition node_registry : option registry :=
  match NewNodeRegistry with Ok r => Some r | Err _ => None end.

Lemma Authorize_admin_only_witness :
  ∃ d, Authorize node_registry (Some (Resolve (Some example_lookup))) alice OperationNodeDrain = Ok d ∧
  Allowed d = true ∧ (Allowed d = true → AdminLevel (d_UserContext d) = "admin").
Proof.
  destruct (Authorize node_registry (Some (Resolve (Some example_lookup))) alice OperationNodeDrain)
    as [d|e] eqn:H; [|vm_compute in H; discriminate H].
  exists d. split; [done|]. split; [vm_compute in H; by injection H as <-|].
  apply (Authorize_admin_only _ _ _ _ _ H).
Defined.

(** The registry. A registry the constructor accepts has exactly the two
    Node operations, each of resource node and command update, and they
    require the capabilities nodes.drain and nodes.resume; the daemon's own
    registry is accepted, and looking an operation up gives its entry. *)
Theorem registry_contract :
  (∀ entries handlers validators r, NewGlobalRegistry entries handlers validators = Ok r →
     dom r = ({[OperationNodeDrain; OperationNodeResume]} : gset string) ∧
     ∀ op e, registry_Lookup (Some r) op = Some e →
       re_OperationID e = op ∧ re_Resource e = "node" ∧ re_Command e = "update" ∧
       RequiredCapability e = (if streq op OperationNodeDrain then CapabilityNodeDrain else CapabilityNodeResume)) ∧
  (∃ r, NewNodeRegistry = Ok r ∧ registry_Lookup (Some r) OperationNodeDrain = Some drain_entry ∧
     registry_Lookup (Some r) OperationNodeResume = Some resume_entry).
Proof.
  split.
  - intros entries handlers validators r H. unfold NewGlobalRegistry in H. inv_ok.
    assert (Hr : r = entries).
    { subst r. rewrite <-(map_fmap_id entries) at 2. apply map_fmap_ext. intros. apply cloneEntry_id. }
    assert (Hd0 : cloneEntry <$> entries = r) by done. rewrite Hd0 in *. clear Hd0 H. subst r.
    assert (Hv : ∀ op e, entries !! op = Some e → entry_valid handlers validators (op, e) = true).
    { intros op e He. rewrite forallb_forall in Hx0. apply Hx0, list_elem_of_In.
      by apply elem_of_map_to_list. }
    assert (Hop : ∀ op e, entries !! op = Some e →
      (op = OperationNodeDrain ∨ op = OperationNodeResume) ∧ re_OperationID e = op
      ∧ re_Resource e = "node" ∧ re_Command e = "update").
    { intros op e He. specialize (Hv op e He). unfold entry_valid in Hv.
      apply andb_true_iff in Hv as [Hk%streq_true Hval]. cbn [fst snd] in *.
      destruct (validateEntry op e handlers validators) as [u|] eqn:Hve; [|done].
      unfold validateEntry in Hve. inv_ok.
      repeat match goal with H : negb _ = true |- _ => apply negb_true_iff in H end.
      apply andb_false_iff in Hx3. apply orb_false_iff in Hx4 as [Hr Hc].
      apply negb_false_iff, streq_true in Hr, Hc.
      split; [|done]. destruct Hx3 as [Hd|Hd]; apply negb_false_iff, streq_true in Hd; auto. }
    unfold requires in Hx1, Hx2.
    destruct (entries !! OperationNodeDrain) as [d|] eqn:Hd; [|done].
    destruct (entries !! OperationNodeResume) as [s|] eqn:Hs; [|done].
    apply streq_true in Hx1, Hx2. split.
    + apply set_eq. intros op. rewrite elem_of_union, !elem_of_singleton, elem_of_dom. split.
      * intros [e He]. by apply Hop in He as [? _].
      * intros [-> | ->]; eauto.
    + intros op e He. rewrite registry_Lookup_some in He.
      destruct (Hop op e He) as ([-> | ->] & ? & ? & ?); repeat (split; [done|]); cbn; congruence.
  - rewrite NewNodeRegistry_Ok. eexists. split; [done|]. rewrite !registry_Lookup_some. by split.
Qed.

Lemma registry_contract_witness :
  ∃ r, NewNodeRegistry = Ok r ∧ dom r = ({[OperationNodeDrain; OperationNodeResume]} : gset string).
Proof.
  destruct registry_contract as [H (r & Hr & _)]. exists r. split; [exact Hr|]. by eapply H.
Defined.
