(* ===== verification/Sha256.v ===== *)
(** * Sha256: the fingerprint of a request

    The function [crypto/sha256.Sum256] of the Go library (FIPS 180-4), which the
    command service and the IPC server apply to canonical requests. Words are
    32-bit integers in Z. *)
From S2P Require Import Prelude.
Open Scope Z_scope.

Definition w32 (z : Z) : Z := Z.land z (2 ^ 32 - 1).
Definition rotr (n : Z) (x : Z) : Z := Z.lor (Z.shiftr x n) (w32 (Z.shiftl x (32 - n))).
Definition Ch (x y z : Z) : Z := Z.lxor (Z.land x y) (Z.land (Z.lxor x (2 ^ 32 - 1)) z).
Definition Maj (x y z : Z) : Z := Z.lxor (Z.lxor (Z.land x y) (Z.land x z)) (Z.land y z).
Definition Sigma0 (x : Z) : Z := Z.lxor (Z.lxor (rotr 2 x) (rotr 13 x)) (rotr 22 x).
Definition Sigma1 (x : Z) : Z := Z.lxor (Z.lxor (rotr 6 x) (rotr 11 x)) (rotr 25 x).
Definition sigma0 (x : Z) : Z := Z.lxor (Z.lxor (rotr 7 x) (rotr 18 x)) (Z.shiftr x 3).
Definition sigma1 (x : Z) : Z := Z.lxor (Z.lxor (rotr 17 x) (rotr 19 x)) (Z.shiftr x 10).

Definition K256 : list Z :=
  [1116352408; 1899447441; 3049323471; 3921009573; 961987163; 1508970993; 2453635748; 2870763221;
   3624381080; 310598401; 607225278; 1426881987; 1925078388; 2162078206; 2614888103; 3248222580;
   3835390401; 4022224774; 264347078; 604807628; 770255983; 1249150122; 1555081692; 1996064986;
   2554220882; 2821834349; 2952996808; 3210313671; 3336571891; 3584528711; 113926993; 338241895;
   666307205; 773529912; 1294757372; 1396182291; 1695183700; 1986661051; 2177026350; 2456956037;
   2730485921; 2820302411; 3259730800; 3345764771; 3516065817; 3600352804; 4094571909; 275423344;
   430227734; 506948616; 659060556; 883997877; 958139571; 1322822218; 1537002063; 1747873779;
   1955562222; 2024104815; 2227730452; 2361852424; 2428436474; 2756734187; 3204031479; 3329325298].

Definition H0 : list Z :=
  [1779033703; 3144134277; 1013904242; 2773480762; 1359893119; 2600822924; 528734635; 1541459225].

(** Message padding: one bit, zeros, and the length in bits as 64 bits. *)
Definition be_bytes (n : nat) (z : Z) : list Z :=
  map (λ i, Z.land (Z.shiftr z (8 * Z.of_nat i)) 255) (rev (seq 0 n)).
Definition pad (bytes : list Z) : list Z :=
  let len := Z.of_nat (length bytes) in
  let zeros := Z.to_nat ((55 - len) mod 64) in
  bytes ++ [128] ++ replicate zeros 0 ++ be_bytes 8 (8 * len).

Fixpoint words (bytes : list Z) : list Z :=
  match bytes with
  | a :: b :: c :: d :: rest => (((a * 256 + b) * 256 + c) * 256 + d) :: words rest
  | _ => []
  end.

(** The message schedule, newest word first. *)
Definition next_word (w : list Z) : Z :=
  w32 (sigma1 (nth 1 w 0) + nth 6 w 0 + sigma0 (nth 14 w 0) + nth 15 w 0).
Definition schedule (block : list Z) : list Z :=
  rev (Nat.iter 48 (λ w, next_word w :: w) (rev block)).

Definition round (st : list Z) (kw : Z * Z) : list Z :=
  match st with
  | [a; b; c; d; e; f; g; h] =>
      let t1 := h + Sigma1 e + Ch e f g + kw.1 + kw.2 in
      let t2 := Sigma0 a + Maj a b c in
      [w32 (t1 + t2); a; b; c; w32 (d + t1); e; f; g]
  | _ => st
  end.

Definition compress (st block : list Z) : list Z :=
  zip_with (λ x y, w32 (x + y)) st (foldl round st (zip K256 (schedule block))).

Fixpoint blocks (fuel : nat) (ws : list Z) (st : list Z) : list Z :=
  match fuel with
  | O => st
  | S f => match ws with
           | [] => st
           | _ => blocks f (drop 16 ws) (compress st (take 16 ws))
           end
  end.

Definition string_bytes (s : string) : list Z := map code (String.list_ascii_of_string s).
Definition bytes_string (l : list Z) : string := String.string_of_list_ascii (map chr l).

(** The digest: 32 bytes. *)
Definition Sum256 (s : string) : string :=
  let ws := words (pad (string_bytes s)) in
  bytes_string (concat (map (be_bytes 4) (blocks (length ws) ws H0))).

(** A fingerprint always has 32 bytes, so it is never the empty slice. *)
Lemma length_round st kw : length (round st kw) = length st.
Proof. by destruct st as [|a [|b [|c [|d [|e [|f [|g [|h [|i st]]]]]]]]]. Qed.

Lemma length_compress st block : length st = 8%nat → length (compress st block) = 8%nat.
Proof.
  intros Hs. unfold compress. rewrite length_zip_with.
  assert (∀ l st, length (foldl round st l) = length st) as ->.
  { intros l. induction l as [|x l IH]; intros st'; [done|]. cbn [foldl]. by rewrite IH, length_round. }
  rewrite Hs. done.
Qed.

Lemma length_blocks fuel ws st : length st = 8%nat → length (blocks fuel ws st) = 8%nat.
Proof.
  revert ws st. induction fuel as [|f IH]; intros ws st Hs; [done|]. cbn [blocks].
  destruct ws; [done|]. by apply IH, length_compress.
Qed.

Lemma slen_bytes_string l : slen (bytes_string l) = length l.
Proof. induction l as [|x l IH]; [done|]. unfold bytes_string in *. simpl. by rewrite IH. Qed.

Lemma slen_Sum256 s : slen (Sum256 s) = 32%nat.
Proof.
  unfold Sum256. rewrite slen_bytes_string.
  pose proof (length_blocks (length (words (pad (string_bytes s)))) (words (pad (string_bytes s))) H0 eq_refl) as H.
  revert H. generalize (blocks (length (words (pad (string_bytes s)))) (words (pad (string_bytes s))) H0).
  intros l H. by destruct l as [|a [|b [|c [|d [|e [|f [|g [|h [|i st]]]]]]]]].
Qed.

Example sha256_abc :
  string_bytes (Sum256 "abc") =
  [186; 120; 22; 191; 143; 1; 207; 234; 65; 65; 64; 222; 93; 174; 34; 35;
   176; 3; 97; 163; 150; 23; 122; 156; 180; 16; 255; 97; 242; 0; 21; 173].
Proof. by vm_compute. Qed.
