(* ===== verification/Service.v ===== *)
(** * Service: handling a Node command

    internal/command/service.go. A handler is a program over the effects the
    service has: the ledger, the authorizer, the executor, the node cache, the
    per-command lock, the clock. Programs are data, so that the same handler can
    be run against the ledger, interleaved with others, and reasoned about by
    its traces. *)
From S2P Require Import Prelude Utf8 Json Message CommandPayload Connection Authorization Ledger.
From S2P Require NodeHelper.
From S2P Require Import Sha256.
Open Scope Z_scope.

(** ** Effects and programs *)

(** One constructor per call the handler makes to a collaborator. *)
Inductive op : Type → Type :=
| EAdmissionBlocked : op bool
| EReconcile : op (result lerror unit)
| ELookup (uid : Z) (id : string) : op (result lerror (option LedgerRecord))
| EReserve (claim : Claim) : op (result lerror (LedgerRecord * bool))
| ETransition (uid : Z) (id : string) (expected next : Status) (data : TransitionData) : op (result lerror unit)
| EAuthorize (requester : UserContext) (operationID : string) : op (result aerror Decision)
| EIdentity : op NodeHelper.ExecutionIdentity
| EExecute (operationID nodeName reason : string) : op (result NodeHelper.cerror unit)
| ENodeGet (name : string) : op bool
| ECtxErr : op bool
| ERefresh : op unit
| ELock (key : string) : op unit
| EUnlock (key : string) : op unit
| ENow : op (Z * Z).     (** seconds and nanoseconds *)

Inductive prog (A : Type) : Type :=
| Ret (a : A)
| Vis {X : Type} (o : op X) (k : X → prog A).
Arguments Ret {A} a.
Arguments Vis {A X} o k.

Fixpoint prog_bind {A B} (f : A → prog B) (p : prog A) : prog B :=
  match p with
  | Ret a => f a
  | Vis o k => Vis o (λ x, prog_bind f (k x))
  end.
#[export] Instance prog_mret : MRet prog := λ A a, Ret a.
#[export] Instance prog_mbind : MBind prog := λ A B f p, prog_bind f p.

Definition call {X} (o : op X) : prog X := Vis o Ret.

(** ** Configuration *)

(** What [NewService] stores: the registry, the identity of the daemon, and
    whether a refresh function is set. *)
Record Service : Type := mkService {
  s_registry : option registry;
  s_serviceUID : Z;
  s_serviceUser : string;
  s_refresh : bool;
}.

Definition SetNodeRefresh (refresh : bool) (s : Service) : Service :=
  mkService (s_registry s) (s_serviceUID s) (s_serviceUser s) refresh.

(** [NewService]: all dependencies are there and the daemon's UID has a name. *)
Definition NewService (dependencies : bool) (r : registry) (euid : Z) (lookup : string → option string)
  : result string Service :=
  guard_err dependencies "command service dependencies are required";;
  match lookup (fmt_d (Z.to_N euid)) with
  | None => Err "daemon service identity is unavailable"
  | Some name =>
      guard_err (negb (streq name "")) "daemon service identity is unavailable";;
      Ok (mkService (Some r) euid name false)
  end.

(** ** Helpers *)

Definition errorPayload (code category detail : string) (retryable : bool) (commandID : string) : ErrorPayload :=
  mkErrorPayload code category detail retryable commandID "" None.

Definition reply_error (message : Envelope) (p : ErrorPayload) : prog Envelope :=
  now ← call ENow; mret (NewErrorEnvelope now.1 (MessageID message) p).
Definition reply (message : Envelope) (type payload : string) : prog Envelope :=
  now ← call ENow; mret (NewEnvelope now.1 (MessageID message) type payload).

Definition errorEnvelope (message : Envelope) (code category detail : string) (retryable : bool)
  (commandID : string) : prog Envelope :=
  reply_error message (errorPayload code category detail retryable commandID).

(** [persistenceError]: a blocked ledger is reconciled before the answer. *)
Definition persistenceError (message : Envelope) (commandID : string) : prog Envelope :=
  is_blocked ← call EAdmissionBlocked;
  (if (is_blocked : bool) then call EReconcile;; mret tt else mret tt);;
  errorEnvelope message ErrorCodeLedgerPersistenceFailed ErrorCategoryInternal
    "Command storage is unavailable; do not retry automatically" false commandID.

Definition equalFingerprint (left right : string) : bool := streq left right.

Definition operationFor (state : string) : option string :=
  if streq state "DRAIN" then Some OperationNodeDrain
  else if streq state "RESUME" then Some OperationNodeResume
  else None.

Definition validateAgainstRegistry (entry : RegistryEntry) (request : NodeCommandRequestPayload) : bool :=
  negb (streq (re_OperationID entry) OperationNodeDrain && bool_decide (Reason (Parameters request) = None))
  && negb (streq (re_OperationID entry) OperationNodeResume && negb (bool_decide (Reason (Parameters request) = None))).

Definition marshal_metadata (capability : string) (now : Z * Z) : string :=
  print_object [("requiredCapability", quote capability); ("authorizedAt", quote (rfc3339nano now))].

Definition error_data (p : ErrorPayload) : TransitionData :=
  mkData "" None None "" "" None (Some (marshal_error p)).

Definition requestNodeRefresh (s : Service) : prog unit :=
  if s_refresh s then call ERefresh else mret tt.

(** [recordResponse] *)
Definition unavailable (message : Envelope) (record : LedgerRecord) : prog Envelope :=
  errorEnvelope message ErrorCodeInternal ErrorCategoryInternal "Command result is unavailable" true
    (c_CommandID (l_Claim record)).

Definition stored_error (message : Envelope) (record : LedgerRecord) : prog Envelope :=
  match unmarshal_error (default "" (l_ErrorPayload record)) with
  | Some payload => reply_error message payload
  | None => unavailable message record
  end.

Definition recordResponse (message : Envelope) (record : LedgerRecord) : prog Envelope :=
  let claim := l_Claim record in
  match l_Status record with
  | StatusSucceeded => reply message MessageCommandResponse (default "" (l_ResultPayload record))
  | StatusDenied | StatusAuthorizationFailed => stored_error message record
  | StatusRunning =>
      reply message MessageCommandResponse
        (marshal_response (mkResponse (c_CommandID claim) (c_Resource claim) (c_Command claim) None None
                             CommandStatusRunning))
  | StatusFailed | StatusUnknown => stored_error message record
  | StatusAuthorizationUncertain =>
      errorEnvelope message ErrorCodeAuthorizationOutcomeUnknown ErrorCategoryInternal
        "Authorization outcome is unknown; use a new command ID after recovery" false (c_CommandID claim)
  | StatusAuthorizationPending | StatusAccepted =>
      errorEnvelope message ErrorCodeInternal ErrorCategoryInternal "Command is being processed" true
        (c_CommandID claim)
  end.

(** [awaitRecord]: one look every 10 ms while the command is being authorized;
    [ticks] is how many times the timer wins before the context ends. *)
Fixpoint awaitRecord (ticks : nat) (message : Envelope) (record : LedgerRecord) (fingerprint : string)
  : prog Envelope :=
  let id := c_CommandID (l_Claim record) in
  match l_Status record with
  | StatusAuthorizationPending | StatusAccepted =>
      is_blocked ← call EAdmissionBlocked;
      if (is_blocked : bool) then persistenceError message id else
      match ticks with
      | O => errorEnvelope message ErrorCodeInternal ErrorCategoryInternal
               "Command is still being processed" true id
      | S ticks' =>
          updated ← call (ELookup (c_CallerUID (l_Claim record)) id);
          match updated with
          | Err _ => persistenceError message id
          | Ok None => persistenceError message id
          | Ok (Some updated) =>
              if negb (equalFingerprint (c_RequestFingerprint (l_Claim updated)) fingerprint)
              then errorEnvelope message ErrorCodeCommandIDConflict ErrorCategoryConflict
                     "Command ID was already used for a different request" false id
              else awaitRecord ticks' message updated fingerprint
          end
      end
  | _ => recordResponse message record
  end.

(** [authorizationFailure] *)
Definition authorizationFailure (message : Envelope) (uid : Z) (commandID : string) : prog Envelope :=
  let failure := errorPayload ErrorCodeInternal ErrorCategoryInternal
                   "Authorization information is unavailable" true commandID in
  r ← call (ETransition uid commandID StatusAuthorizationPending StatusAuthorizationFailed (error_data failure));
  match r with
  | Err _ => persistenceError message commandID
  | Ok _ => reply_error message failure
  end.

(** ** The handler *)

(** What a request needs once it is known to be new. *)
Record context : Type := mkContext {
  x_message : Envelope;
  x_requester : UserContext;
  x_request : NodeCommandRequestPayload;
  x_fingerprint : string;
  x_operation : string;
  x_entry : RegistryEntry;
  x_reason : string;
  x_identity : NodeHelper.ExecutionIdentity;
}.
Definition x_id (x : context) : string := CommandID (x_request x).
Definition x_uid (x : context) : Z := UID (x_requester x).

(** The outcome of an execution that failed: status and error. *)
Definition outcome_unknown (e : NodeHelper.cerror) : bool :=
  match e with
  | NodeHelper.ErrExecutionOutcomeUnknown | NodeHelper.ErrDeadlineExceeded | NodeHelper.ErrCanceled => true
  | _ => false
  end.

Definition execution_failure (unknown : bool) (commandID : string) : Status * ErrorPayload :=
  if unknown then
    (StatusUnknown, errorPayload ErrorCodeCommandOutcomeUnknown ErrorCategoryTimeout
       "The Node operation outcome is unknown; do not retry automatically" false commandID)
  else
    (StatusFailed, errorPayload ErrorCodeSlurmCommandFailed ErrorCategorySlurm
       "Slurm rejected the Node operation" false commandID).

Definition success_payload (request : NodeCommandRequestPayload) : string :=
  marshal_response (mkResponse (CommandID request) (Resource request) (Command request)
    (Some (Target request)) (Some (mkParameters (State (Parameters request)) None)) CommandStatusSucceeded).

(** Lines 230-237: a failed execution is recorded, then reported. *)
Definition report_failure (s : Service) (x : context) (unknown : bool) : prog Envelope :=
  let '(status, failure) := execution_failure unknown (x_id x) in
  r ← call (ETransition (x_uid x) (x_id x) StatusRunning status (error_data failure));
  match r with
  | Err _ => persistenceError (x_message x) (x_id x)
  | Ok _ =>
      (if eq_status status StatusUnknown then requestNodeRefresh s else mret tt);;
      reply_error (x_message x) failure
  end.

(** Lines 223-253: the command runs, and its outcome is recorded before it is
    reported. *)
Definition execute (s : Service) (x : context) : prog Envelope :=
  let request := x_request x in
  result ← call (EExecute (x_operation x) (NodeName (Target request)) (x_reason x));
  match result with
  | Err e =>
      unknown ← (if outcome_unknown e then mret true else call ECtxErr);
      report_failure s x unknown
  | Ok _ =>
      let result := success_payload request in
      r ← call (ETransition (x_uid x) (x_id x) StatusRunning StatusSucceeded
                  (mkData "" None None "" "" (Some result) None));
      match r with
      | Err _ => persistenceError (x_message x) (x_id x)
      | Ok _ => requestNodeRefresh s;; reply (x_message x) MessageCommandResponse result
      end
  end.

(** Lines 204-221: acceptance and start, each durable before the next. *)
Definition accept_and_run (s : Service) (x : context) (adminLevel : string) : prog Envelope :=
  now ← call ENow;
  r ← call (ETransition (x_uid x) (x_id x) StatusAuthorizationPending StatusAccepted
              (mkData adminLevel (Some (marshal_metadata (RequiredCapability (x_entry x)) now))
                 None "" "" None None));
  match r with
  | Err _ => persistenceError (x_message x) (x_id x)
  | Ok _ =>
      r ← call (ETransition (x_uid x) (x_id x) StatusAccepted StatusRunning
                  (mkData "" None (Some (NodeHelper.ex_UID (x_identity x)))
                     (NodeHelper.ex_Username (x_identity x)) (NodeHelper.Boundary (x_identity x)) None None));
      match r with
      | Err _ => persistenceError (x_message x) (x_id x)
      | Ok _ => execute s x
      end
  end.

Definition same_identity (decision : Decision) (x : context) : bool :=
  streq (d_RequiredCapability decision) (RequiredCapability (x_entry x))
  && (UID (d_UserContext decision) =? UID (x_requester x))
  && (GID (d_UserContext decision) =? GID (x_requester x))
  && streq (Username (d_UserContext decision)) (Username (x_requester x)).

(** Lines 180-202: the authorization of a command this request has reserved. *)
Definition authorize (s : Service) (x : context) : prog Envelope :=
  decision ← call (EAuthorize (x_requester x) (x_operation x));
  match decision with
  | Err _ =>
      let failure := errorPayload ErrorCodeUserLookupFailed ErrorCategoryInternal
                       "Slurm user information is temporarily unavailable" true (x_id x) in
      r ← call (ETransition (x_uid x) (x_id x) StatusAuthorizationPending StatusAuthorizationFailed
                  (error_data failure));
      match r with
      | Err _ => persistenceError (x_message x) (x_id x)
      | Ok _ => reply_error (x_message x) failure
      end
  | Ok decision =>
      if negb (same_identity decision x) then authorizationFailure (x_message x) (x_uid x) (x_id x)
      else if negb (Allowed decision) then
        let denied := errorPayload ErrorCodeAuthorizationDenied ErrorCategoryAuthorization
                        "Not authorized to perform this Node operation" false (x_id x) in
        r ← call (ETransition (x_uid x) (x_id x) StatusAuthorizationPending StatusDenied (error_data denied));
        match r with
        | Err _ => persistenceError (x_message x) (x_id x)
        | Ok _ => reply_error (x_message x) denied
        end
      else if negb (streq (AdminLevel (d_UserContext decision)) "admin")
      then authorizationFailure (x_message x) (x_uid x) (x_id x)
      else accept_and_run s x (AdminLevel (d_UserContext decision))
  end.

Definition claim_of (s : Service) (x : context) : Claim :=
  mkClaim (x_uid x) (x_id x) (x_fingerprint x) (marshal_request (x_request x))
    (Username (x_requester x)) (GID (x_requester x)) (MessageID (x_message x))
    (s_serviceUID s) (s_serviceUser s) (Resource (x_request x)) (Command (x_request x))
    (x_operation x) (RequiredCapability (x_entry x)) (NodeName (Target (x_request x))).

(** Lines 153-178: the reservation. *)
Definition reserve (s : Service) (ticks : nat) (x : context) : prog Envelope :=
  r ← call (EReserve (claim_of s x));
  match r with
  | Err ErrCommandIDConflict =>
      errorEnvelope (x_message x) ErrorCodeCommandIDConflict ErrorCategoryConflict
        "Command ID was already used for a different request" false (x_id x)
  | Err _ => persistenceError (x_message x) (x_id x)
  | Ok (record, created) =>
      if negb created then awaitRecord ticks (x_message x) record (x_fingerprint x)
      else authorize s x
  end.

(** Lines 127-151: the checks of a request that is not in the ledger. *)
Definition handle_new (s : Service) (ticks : nat) (requester : UserContext) (message : Envelope)
  (request : NodeCommandRequestPayload) (fingerprint : string) : prog Envelope :=
  let id := CommandID request in
  let unsupported := errorEnvelope message ErrorCodeInvalidCommand ErrorCategoryValidation
                       "Unsupported Node operation" false id in
  let invalid detail := errorEnvelope message ErrorCodeInvalidPayload ErrorCategoryValidation detail false id in
  match operationFor (State (Parameters request)) with
  | None => unsupported
  | Some operationID =>
      match registry_Lookup (s_registry s) operationID with
      | None => unsupported
      | Some entry =>
          if negb (streq (re_Resource entry) (Resource request)) || negb (streq (re_Command entry) (Command request))
          then unsupported
          else if negb (validateAgainstRegistry entry request) then invalid "Invalid Node command payload"
          else
            let reason := default "" (Reason (Parameters request)) in
            match NodeHelper.BuildScontrolArgs operationID (NodeName (Target request)) reason with
            | Err _ => invalid "Invalid Node command payload"
            | Ok _ =>
                known ← call (ENodeGet (NodeName (Target request)));
                if negb known then invalid "Node target is unavailable" else
                identity ← call EIdentity;
                if streq (NodeHelper.ex_Username identity) "" || streq (NodeHelper.Boundary identity) ""
                then errorEnvelope message ErrorCodeInternal ErrorCategoryInternal
                       "Command execution boundary is unavailable" true id
                else reserve s ticks
                       (mkContext message requester request fingerprint operationID entry reason identity)
            end
      end
  end.

Definition lock_key (uid : Z) (commandID : string) : string := fmt_d (Z.to_N uid) +:+ ":" +:+ commandID.

(** Lines 113-125 and on, under the lock of the command. *)
Definition handle_locked (s : Service) (ticks : nat) (requester : UserContext) (message : Envelope)
  (request : NodeCommandRequestPayload) (fingerprint : string) : prog Envelope :=
  found ← call (ELookup (UID requester) (CommandID request));
  match found with
  | Err _ => persistenceError message (CommandID request)
  | Ok (Some record) =>
      if negb (equalFingerprint (c_RequestFingerprint (l_Claim record)) fingerprint)
      then errorEnvelope message ErrorCodeCommandIDConflict ErrorCategoryConflict
             "Command ID was already used for a different request" false (CommandID request)
      else awaitRecord ticks message record fingerprint
  | Ok None => handle_new s ticks requester message request fingerprint
  end.

(** [Handle]. Marshalling a decoded request cannot fail: it holds strings only. *)
Definition Handle (s : Service) (ticks : nat) (requester : UserContext) (message : Envelope) : prog Envelope :=
  match DecodeNodeCommandRequestPayload (Payload message) with
  | Err _ => errorEnvelope message ErrorCodeInvalidPayload ErrorCategoryValidation
               "Invalid Node command payload" false ""
  | Ok request =>
      if streq (Username requester) "" then
        errorEnvelope message ErrorCodeIdentityUnavailable ErrorCategoryAuthentication
          "Unable to determine the authenticated user" false (CommandID request)
      else
        is_blocked ← call EAdmissionBlocked;
        if (is_blocked : bool) then persistenceError message (CommandID request) else
        let fingerprint := Sum256 (marshal_request request) in
        let key := lock_key (UID requester) (CommandID request) in
        call (ELock key);;
        response ← handle_locked s ticks requester message request fingerprint;
        call (EUnlock key);;
        mret response
  end.

Definition HandleAuthenticated : Service → nat → UserContext → Envelope → prog Envelope := Handle.
