(* ===== verification/ServiceTraces.v ===== *)
(** * ServiceTraces: what a handler may do, and in which order

    The traces of the programs of Service.v, and the protocol every handler
    follows: a command is executed only after it was reserved by this very
    request, authorized for the requester by an administrator's decision, and
    durably accepted and started. *)
From S2P Require Import Prelude Utf8 Json Message CommandPayload Connection Authorization Ledger Service.
From S2P Require NodeHelper.
From S2P Require Import Sha256.
Open Scope Z_scope.

(** ** Traces *)

(** A call and its answer. *)
Inductive event : Type :=
| Ev {X : Type} (o : op X) (x : X).

(** [runs p tr p']: answered as in [tr], [p] has got to [p']. *)
Inductive runs {A} : prog A → list event → prog A → Prop :=
| runs_nil p : runs p [] p
| runs_step {X} (o : op X) k x tr p' : runs (k x) tr p' → runs (Vis o k) (Ev o x :: tr) p'.

(** ** The protocol of one command *)

Section protocol.
(** The requester and the decoded command. *)
Context (requester : UserContext) (request : NodeCommandRequestPayload).

Definition decision_ok (d : Decision) : Prop :=
  Allowed d = true ∧ AdminLevel (d_UserContext d) = "admin" ∧ UID (d_UserContext d) = UID requester
  ∧ GID (d_UserContext d) = GID requester ∧ Username (d_UserContext d) = Username requester.

Definition claim_ok (claim : Claim) : Prop :=
  claim_key claim = (UID requester, CommandID request)
  ∧ c_RequestFingerprint claim = Sum256 (marshal_request request)
  ∧ c_RequestPayload claim = marshal_request request
  ∧ c_RequestingUsername claim = Username requester
  ∧ c_TargetNode claim = NodeName (Target request).

Definition is_execute (e : event) : Prop := match e with Ev (EExecute _ _ _) _ => True | _ => False end.

(** This request reserved the command and an administrator's decision allowed it. *)
Definition authorized_by (tr : list event) (operation : string) : Prop :=
  ∃ claim record d,
    [Ev (EReserve claim) (Ok (record, true)); Ev (EAuthorize requester operation) (Ok d)] `sublist_of` tr
    ∧ claim_ok claim ∧ c_OperationID claim = operation ∧ decision_ok d
    ∧ d_RequiredCapability d = c_RequiredCapability claim.

(** And the ledger has recorded the acceptance and the start. *)
Definition started_by (tr : list event) (operation : string) : Prop :=
  ∃ claim record d accept_data run_data,
    [Ev (EReserve claim) (Ok (record, true)); Ev (EAuthorize requester operation) (Ok d);
     Ev (ETransition (UID requester) (CommandID request) StatusAuthorizationPending StatusAccepted accept_data) (Ok tt);
     Ev (ETransition (UID requester) (CommandID request) StatusAccepted StatusRunning run_data) (Ok tt)]
      `sublist_of` tr
    ∧ claim_ok claim ∧ c_OperationID claim = operation ∧ decision_ok d
    ∧ d_RequiredCapability d = c_RequiredCapability claim.

(** What the past of a handler permits it to call. *)
Definition permitted (tr : list event) {X} (o : op X) : Prop :=
  match o with
  | EReserve claim => claim_ok claim ∧ Forall (λ e, ¬ is_execute e) tr
  | EAuthorize u operation =>
      u = requester ∧ ∃ claim record, Ev (EReserve claim) (Ok (record, true)) ∈ tr ∧ c_OperationID claim = operation
  | ETransition uid id expected next data =>
      (uid, id) = (UID requester, CommandID request)
      ∧ (next = StatusAccepted → ∃ operation, authorized_by tr operation)
  | EExecute operation nodeName reason =>
      started_by tr operation ∧ Forall (λ e, ¬ is_execute e) tr
      ∧ nodeName = NodeName (Target request) ∧ reason = default "" (Reason (Parameters request))
      ∧ is_Ok (NodeHelper.BuildScontrolArgs operation nodeName reason) = true
  | _ => True
  end.

(** [gd tr p Q]: after the past [tr], everything [p] does is permitted, and its
    result satisfies [Q]. *)
Fixpoint gd {A} (tr : list event) (p : prog A) (Q : list event → A → Prop) : Prop :=
  match p with
  | Ret a => Q tr a
  | Vis o k => permitted tr o ∧ ∀ x, gd (tr ++ [Ev o x]) (k x) Q
  end.
Definition anything {A} (_ : list event) (_ : A) : Prop := True.

Lemma gd_bind {A B} tr (p : prog A) (f : A → prog B) Q :
  gd tr p (λ tr' a, gd tr' (f a) Q) → gd tr (p ≫= f) Q.
Proof.
  revert tr. induction p as [a|X o k IH]; intros tr; cbn; [done|].
  intros [Ho Hk]. split; [done|]. intros x. apply IH, Hk.
Qed.

Lemma gd_mono {A} tr (p : prog A) (P Q : list event → A → Prop) :
  gd tr p P → (∀ tr' a, P tr' a → Q tr' a) → gd tr p Q.
Proof.
  intros Hp HPQ. revert tr Hp. induction p as [a|X o k IH]; intros tr; cbn; [apply HPQ|].
  intros [Ho Hk]. split; [done|]. intros x. by apply IH.
Qed.

Lemma gd_runs {A} (p p' : prog A) tr0 tr Q :
  gd tr0 p Q → runs p tr p' → gd (tr0 ++ tr) p' Q.
Proof.
  intros Hg Hr. revert tr0 Hg. induction Hr as [p|X o k x tr p' Hr IH]; intros tr0 Hg.
  - by rewrite app_nil_r.
  - destruct Hg as [_ Hg]. specialize (IH _ (Hg x)). by rewrite <-app_assoc in IH.
Qed.

(** Every call of a run was permitted by its past. *)
Lemma gd_permitted {A} (p p' : prog A) tr0 tr1 X (o : op X) x tr2 Q :
  gd tr0 p Q → runs p (tr1 ++ Ev o x :: tr2) p' → permitted (tr0 ++ tr1) o.
Proof.
  revert tr0 p. induction tr1 as [|e tr1 IH]; intros tr0 p Hg Hr.
  - remember ([] ++ Ev o x :: tr2) as tr eqn:Htr. destruct Hr as [|Y o' k y tr p' Hr]; [done|].
    apply (f_equal head) in Htr. apply (inj Some) in Htr as He. rewrite app_nil_r. destruct Hg as [Ho _].
    assert (∀ e e', e = e' → match e with Ev o _ => permitted tr0 o end → match e' with Ev o _ => permitted tr0 o end)
      as Hcast by (by intros ? ? ->).
    exact (Hcast _ _ He Ho).
  - remember ((e :: tr1) ++ Ev o x :: tr2) as tr eqn:Htr. destruct Hr as [|Y o' k y tr p' Hr]; [done|].
    pose proof (f_equal head Htr) as He. apply (inj Some) in He. apply (f_equal tail) in Htr as Htl.
    cbn in Htl. subst tr. destruct Hg as [_ Hg].
    specialize (IH _ _ (Hg y) Hr). rewrite <-app_assoc, He in IH. exact IH.
Qed.

(** *** Harmless programs *)

(** Calls that are permitted after any past. *)
Definition harmless {X} (o : op X) : Prop :=
  match o with
  | EReserve _ | EAuthorize _ _ | ETransition _ _ _ _ _ | EExecute _ _ _ => False
  | _ => True
  end.
Fixpoint inert {A} (p : prog A) : Prop :=
  match p with Ret _ => True | Vis o k => harmless o ∧ ∀ x, inert (k x) end.

Lemma harmless_permitted {X} tr (o : op X) : harmless o → permitted tr o.
Proof. by destruct o. Qed.

Lemma inert_gd {A} (p : prog A) tr : inert p → gd tr p anything.
Proof.
  revert tr. induction p as [a|X o k IH]; intros tr; cbn; [done|].
  intros [Ho Hk]. split; [by apply harmless_permitted|]. intros x. by apply IH.
Qed.

Lemma inert_bind {A B} (p : prog A) (f : A → prog B) : inert p → (∀ a, inert (f a)) → inert (p ≫= f).
Proof.
  intros Hp Hf. induction p as [a|X o k IH]; cbn; [apply Hf|].
  destruct Hp as [Ho Hk]. split; [done|]. intros x. by apply IH.
Qed.

Lemma inert_reply_error m p : inert (reply_error m p).
Proof. by repeat split. Qed.
Lemma inert_reply m t p : inert (reply m t p).
Proof. by repeat split. Qed.
Lemma inert_errorEnvelope m a b c d e : inert (errorEnvelope m a b c d e).
Proof. apply inert_reply_error. Qed.
Lemma inert_persistenceError m id : inert (persistenceError m id).
Proof.
  split; [done|]. intros b. change (inert ((if b then call EReconcile;; mret tt else mret tt);;
    errorEnvelope m ErrorCodeLedgerPersistenceFailed ErrorCategoryInternal
      "Command storage is unavailable; do not retry automatically" false id)). destruct b.
  - apply inert_bind; [by repeat split|]. intros _. apply inert_errorEnvelope.
  - apply inert_errorEnvelope.
Qed.
Lemma inert_stored_error m r : inert (stored_error m r).
Proof.
  unfold stored_error. destruct (unmarshal_error _); [apply inert_reply_error|apply inert_errorEnvelope].
Qed.
Lemma inert_recordResponse m r : inert (recordResponse m r).
Proof.
  unfold recordResponse. destruct (l_Status r);
    auto using inert_reply, inert_stored_error, inert_errorEnvelope.
Qed.
Lemma inert_refresh s : inert (requestNodeRefresh s).
Proof. unfold requestNodeRefresh. by destruct (s_refresh s); repeat split. Qed.

Lemma inert_awaitRecord ticks m r fp : inert (awaitRecord ticks m r fp).
Proof.
  revert r. induction ticks as [|ticks IH]; intros r; cbn [awaitRecord];
    destruct (l_Status r); try apply inert_recordResponse;
    (split; [done|]; intros b; cbn; destruct b; [apply inert_persistenceError|]);
    try apply inert_errorEnvelope;
    (split; [done|]; intros [[u|]|e]; cbn; try apply inert_persistenceError;
     destruct (negb _); [apply inert_errorEnvelope|apply IH]).
Qed.

Lemma sublist_end {A} (l k : list A) x : l `sublist_of` k → l ++ [x] `sublist_of` k ++ [x].
Proof. intros. by apply sublist_app. Qed.

End protocol.

#[export] Hint Resolve inert_reply_error inert_reply inert_errorEnvelope inert_persistenceError
  inert_recordResponse inert_refresh inert_awaitRecord inert_gd : slurm.

(** ** The handler follows the protocol *)

Section handler.
Context (s : Service) (x : context).
Notation gd' := (gd (x_requester x) (x_request x)).
Notation key_of := (UID (x_requester x), CommandID (x_request x)).

(** What [handle_new] has checked before it reserves. *)
Record context_ok : Prop := {
  ck_fingerprint : x_fingerprint x = Sum256 (marshal_request (x_request x));
  ck_args : is_Ok (NodeHelper.BuildScontrolArgs (x_operation x) (NodeName (Target (x_request x))) (x_reason x)) = true;
  ck_reason : x_reason x = default "" (Reason (Parameters (x_request x)));
}.

Ltac step := cbn [gd mbind prog_mbind prog_bind call mret prog_mret]; split; [try done|].

Lemma gd_report_failure tr unknown : gd' tr (report_failure s x unknown) anything.
Proof.
  unfold report_failure. destruct unknown; cbn [execution_failure]; step;
    (intros [[]|e']; [|auto with slurm]); apply inert_gd.
  - apply inert_bind; [apply inert_refresh|]. intros _. apply inert_reply_error.
  - apply inert_bind; [done|]. intros _. apply inert_reply_error.
Qed.

Lemma gd_execute tr :
  context_ok → started_by (x_requester x) (x_request x) tr (x_operation x) →
  Forall (λ e, ¬ is_execute e) tr → gd' tr (execute s x) anything.
Proof.
  intros [_ Hargs Hreason] Hst Hno. unfold execute. step.
  intros [u|e]; cbn [gd mbind prog_mbind prog_bind call mret prog_mret].
  - step. intros [[]|e]; [|auto with slurm].
    apply inert_gd, inert_bind; [apply inert_refresh|]. intros _. apply inert_reply.
  - destruct (outcome_unknown e); [apply gd_report_failure|]. step. intros b. apply gd_report_failure.
Qed.

Lemma gd_accept tr d :
  context_ok → authorized_by (x_requester x) (x_request x) tr (x_operation x) →
  Forall (λ e, ¬ is_execute e) tr → gd' tr (accept_and_run s x (AdminLevel (d_UserContext d))) anything.
Proof.
  intros Hx Ha Hno. unfold accept_and_run. step. intros now.
  pose proof Ha as (claim & record & d' & Hsub & Hc & Hop & Hd & Hcap).
  cbn [gd mbind prog_mbind prog_bind call mret prog_mret]. split.
  { split; [done|]. intros _. exists (x_operation x), claim, record, d'. split; [|done].
    by apply sublist_inserts_r. }
  intros [[]|e]; [|auto with slurm].
  cbn [gd mbind prog_mbind prog_bind call mret prog_mret]. split; [by split|].
  intros [[]|e]; [|auto with slurm]. apply gd_execute; [done| |].
  - eexists claim, record, d', _, _. split; [|done].
    apply (sublist_end [_; _; _]), (sublist_end [_; _]). by apply sublist_inserts_r.
  - rewrite !Forall_app. repeat split; try done; by repeat constructor; intros [].
Qed.

Lemma same_identity_true d :
  same_identity d x = true →
  d_RequiredCapability d = RequiredCapability (x_entry x) ∧ UID (d_UserContext d) = UID (x_requester x)
  ∧ GID (d_UserContext d) = GID (x_requester x) ∧ Username (d_UserContext d) = Username (x_requester x).
Proof.
  unfold same_identity. intros H. split_bools.
  repeat match goal with
  | H : streq _ _ = true |- _ => apply streq_true in H
  | H : (_ =? _) = true |- _ => apply Z.eqb_eq in H
  end. done.
Qed.

(** A transition to a refusal, and the answer that follows it. *)
Lemma gd_refuse tr next data (p : prog Envelope) :
  next ≠ StatusAccepted → inert p →
  gd' tr (r ← call (ETransition (x_uid x) (x_id x) StatusAuthorizationPending next data);
          match r with Err _ => persistenceError (x_message x) (x_id x) | Ok _ => p end) anything.
Proof.
  intros Hn Hp. step. intros [[]|e]; [by apply inert_gd|auto with slurm].
Qed.

Lemma claim_of_ok : context_ok → claim_ok (x_requester x) (x_request x) (claim_of s x).
Proof. intros [Hf _ _]. by repeat split. Qed.

Lemma gd_authorize tr record :
  context_ok → Ev (EReserve (claim_of s x)) (Ok (record, true)) ∈ tr →
  Forall (λ e, ¬ is_execute e) tr → gd' tr (authorize s x) anything.
Proof.
  intros Hx Hin Hno. unfold authorize. step.
  { split; [done|]. exists (claim_of s x), record. by split. }
  intros [d|e]; cbn [gd mbind prog_mbind prog_bind call mret prog_mret];
    [|apply gd_refuse; auto with slurm].
  destruct (same_identity d x) eqn:Hid; cbn [negb]; [|apply gd_refuse; auto with slurm].
  apply same_identity_true in Hid as (Hcap & Hu & Hg & Hn).
  destruct (Allowed d) eqn:Hal; cbn [negb]; [|apply gd_refuse; auto with slurm].
  destruct (streq (AdminLevel (d_UserContext d)) "admin") eqn:Had; cbn [negb];
    [|apply gd_refuse; auto with slurm].
  apply streq_true in Had. apply gd_accept; [done| |].
  - exists (claim_of s x), record, d. split.
    { apply (sublist_app [_] _ [_] [_]); [|done]. apply singleton_sublist_l. done. }
    by split; [apply claim_of_ok|].
  - apply Forall_app. split; [done|]. by repeat constructor; intros [].
Qed.

Lemma gd_reserve ticks tr :
  context_ok → Forall (λ e, ¬ is_execute e) tr → gd' tr (reserve s ticks x) anything.
Proof.
  intros Hx Hno. unfold reserve. step.
  { split; [by apply claim_of_ok|done]. }
  intros [[record created]|[]]; cbn [gd mbind prog_mbind prog_bind call mret prog_mret]; auto with slurm.
  destruct created; cbn [negb]; [|auto with slurm].
  eapply gd_authorize; [done|apply elem_of_app; right; by left|].
  apply Forall_app. split; [done|]. by repeat constructor; intros [].
Qed.
End handler.

Section handle.
Context (s : Service) (ticks : nat) (requester : UserContext) (message : Envelope).
Context (request : NodeCommandRequestPayload).
Hypothesis decoded : DecodeNodeCommandRequestPayload (Payload message) = Ok request.

Lemma gd_handle_new tr :
  Forall (λ e, ¬ is_execute e) tr →
  gd requester request tr
    (handle_new s ticks requester message request (Sum256 (marshal_request request))) anything.
Proof.
  intros Hno. unfold handle_new.
  destruct (operationFor _) as [operation|]; [|auto with slurm].
  destruct (registry_Lookup _ _) as [entry|]; [|auto with slurm].
  destruct (_ || _); [auto with slurm|]. destruct (validateAgainstRegistry _ _); cbn [negb]; [|auto with slurm].
  destruct (NodeHelper.BuildScontrolArgs _ _ _) as [args|e] eqn:Hb; [|auto with slurm].
  cbn [gd mbind prog_mbind prog_bind call mret prog_mret]. split; [done|]. intros known.
  destruct known; cbn [negb]; [|auto with slurm].
  cbn [gd mbind prog_mbind prog_bind call mret prog_mret]. split; [done|]. intros identity.
  destruct (_ || _); [auto with slurm|].
  apply (gd_reserve s (mkContext message requester request (Sum256 (marshal_request request))
    operation entry (default "" (Reason (Parameters request))) identity)).
  - split; cbn; [done| |done]. by rewrite Hb.
  - rewrite !Forall_app. repeat split; try done; by repeat constructor; intros [].
Qed.

Lemma gd_Handle : gd requester request [] (Handle s ticks requester message) anything.
Proof.
  unfold Handle. rewrite decoded. destruct (streq (Username requester) ""); [auto with slurm|].
  cbn [gd mbind prog_mbind prog_bind call mret prog_mret]. split; [done|]. intros b.
  destruct b; [auto with slurm|].
  cbn [gd mbind prog_mbind prog_bind call mret prog_mret]. split; [done|]. intros u.
  apply gd_bind. eapply gd_mono with (P := anything).
  - unfold handle_locked. cbn [gd mbind prog_mbind prog_bind call mret prog_mret]. split; [done|].
    intros [[record|]|e]; [|..|auto with slurm].
    + destruct (negb _); auto with slurm.
    + apply gd_handle_new. by repeat constructor; intros [].
  - intros tr' response _. cbn. by split.
Qed.

End handle.

(** A message that does not decode only gets an error. *)
Lemma gd_Handle_invalid s ticks requester message request e :
  DecodeNodeCommandRequestPayload (Payload message) = Err e →
  gd requester request [] (Handle s ticks requester message) anything.
Proof. intros He. unfold Handle. rewrite He. auto with slurm. Qed.

(** ** The guarantees *)

(** C3. No execution without authorization and a durable record. Whatever its
    collaborators answer, whenever a handler calls the executor it has, in
    this order: reserved the command itself under the requester's UID with the
    fingerprint of the decoded request, obtained from the authorizer a decision
    for the requester's own identity that allows the operation as an administrator
    with the capability of the claim, and seen the ledger commit the acceptance
    and the start; it calls it for the decoded node with the decoded reason, which
    make a valid command line, and it never calls it twice. *)
Theorem execute_only_authorized s ticks requester message request tr1 operation node reason r tr2 p :
  DecodeNodeCommandRequestPayload (Payload message) = Ok request →
  runs (Handle s ticks requester message) (tr1 ++ Ev (EExecute operation node reason) r :: tr2) p →
  started_by requester request tr1 operation ∧ node = NodeName (Target request)
  ∧ reason = default "" (Reason (Parameters request))
  ∧ is_Ok (NodeHelper.BuildScontrolArgs operation node reason) = true
  ∧ Forall (λ e, ¬ is_execute e) tr1 ∧ Forall (λ e, ¬ is_execute e) tr2.
Proof.
  intros Hdec Hr. pose proof (gd_Handle s ticks requester message request Hdec) as Hg.
  pose proof (gd_permitted requester request _ _ _ _ _ _ _ _ _ Hg Hr) as (Hst & Hno & Hn & Hre & Hb).
  repeat (split; [done|]). apply Forall_forall. intros e He Hex.
  apply list_elem_of_split in He as (l1 & l2 & ->). destruct e as [X o x].
  destruct o; try done.
  change (tr1 ++ Ev (EExecute operation node reason) r :: l1 ++ Ev (EExecute operationID nodeName reason0) x :: l2)
    with (tr1 ++ (Ev (EExecute operation node reason) r :: l1) ++ Ev (EExecute operationID nodeName reason0) x :: l2) in Hr.
  rewrite app_assoc in Hr.
  pose proof (gd_permitted requester request _ _ _ _ _ _ _ _ _ Hg Hr) as (_ & Hno' & _).
  rewrite Forall_forall in Hno'. apply (Hno' (Ev (EExecute operation node reason) r)); [set_solver|done].
Qed.

(** ** Complete runs, by an oracle *)

(** An oracle answers every call, knowing the past. *)
Definition oracle : Type := ∀ X, list event → op X → X.

Fixpoint simulate {A} (ans : oracle) (tr : list event) (p : prog A) : list event * A :=
  match p with
  | Ret a => (tr, a)
  | Vis o k => let x := ans _ tr o in simulate ans (tr ++ [Ev o x]) (k x)
  end.

Lemma simulate_runs {A} ans tr (p : prog A) :
  ∃ tr', (simulate ans tr p).1 = tr ++ tr' ∧ runs p tr' (Ret (simulate ans tr p).2).
Proof.
  revert tr. induction p as [a|X o k IH]; intros tr; cbn.
  - exists []. rewrite app_nil_r. split; [done|constructor].
  - destruct (IH (ans X tr o) (tr ++ [Ev o (ans X tr o)])) as (tr' & -> & Hr).
    exists (Ev o (ans X tr o) :: tr'). rewrite <-app_assoc. split; [done|by constructor].
Qed.

Lemma simulate_bind {A B} ans tr (p : prog A) (f : A → prog B) :
  simulate ans tr (p ≫= f) = let '(tr', a) := simulate ans tr p in simulate ans tr' (f a).
Proof.
  revert tr. induction p as [a|X o k IH]; intros tr; [done|]. cbn. apply IH.
Qed.

(** A friendly world: the ledger takes everything, alice is an administrator. *)
Definition example_identity : NodeHelper.ExecutionIdentity :=
  NodeHelper.mkIdentity 64030 "slurm" "dbus:helper".
Definition friendly : oracle := λ X _ o,
  match o in op X return X with
  | EAdmissionBlocked => false
  | EReconcile => Ok tt
  | ELookup _ _ => Ok None
  | EReserve claim => Ok (scanRecord (new_row 1000 claim), true)
  | ETransition _ _ _ _ _ => Ok tt
  | EAuthorize u operation => Authorize node_registry (Some (Resolve (Some example_lookup))) u operation
  | EIdentity => example_identity
  | EExecute _ _ _ => Ok tt
  | ENodeGet _ => true
  | ECtxErr => false
  | ERefresh => tt
  | ELock _ => tt
  | EUnlock _ => tt
  | ENow => (1753920000, 0)
  end.

Definition drain_request : NodeCommandRequestPayload :=
  mkRequest "c-1" "node" "update" (mkTarget "n1") (mkParameters "DRAIN" (Some "disk")).
Definition drain_message : Envelope :=
  NewEnvelope 1753920000 "m-1" MessageCommand (marshal_request drain_request).
Definition example_service : Service := mkService node_registry 990 "cockpit-slurm" true.

Definition example_run : list event * Envelope := simulate friendly [] (Handle example_service 5 alice drain_message).

(** The calls of the friendly run, in order. *)
Definition op_name (e : event) : string :=
  match e with
  | Ev o _ => match o with
              | EAdmissionBlocked => "blocked" | EReconcile => "reconcile" | ELookup _ _ => "lookup"
              | EReserve _ => "reserve" | ETransition _ _ _ _ _ => "transition" | EAuthorize _ _ => "authorize"
              | EIdentity => "identity" | EExecute _ _ _ => "execute" | ENodeGet _ => "node" | ECtxErr => "ctx"
              | ERefresh => "refresh" | ELock _ => "lock" | EUnlock _ => "unlock" | ENow => "now"
              end
  end.

Example example_run_calls :
  map op_name example_run.1 =
  ["blocked"; "lock"; "lookup"; "node"; "identity"; "reserve"; "authorize"; "now"; "transition";
   "transition"; "execute"; "transition"; "refresh"; "now"; "unlock"].
Proof. by vm_compute. Qed.

Lemma drain_decodes : DecodeNodeCommandRequestPayload (Payload drain_message) = Ok drain_request.
Proof. by vm_compute. Qed.

Lemma execute_only_authorized_witness :
  ∃ tr1 r tr2, runs (Handle example_service 5 alice drain_message)
      (tr1 ++ Ev (EExecute "node.drain" "n1" "disk") r :: tr2) (Ret example_run.2)
    ∧ started_by alice drain_request tr1 "node.drain".
Proof.
  destruct (simulate_runs friendly [] (Handle example_service 5 alice drain_message)) as (tr & Htr & Hr).
  change (simulate friendly [] (Handle example_service 5 alice drain_message)) with example_run in *.
  cbn [app] in Htr. subst tr.
  exists (take 10 example_run.1), (Ok tt), (drop 11 example_run.1).
  assert (example_run.1 = take 10 example_run.1 ++ Ev (EExecute "node.drain" "n1" "disk") (Ok tt) :: drop 11 example_run.1)
    as Heq by (by vm_compute).
  rewrite Heq in Hr. split; [exact Hr|].
  exact (proj1 (execute_only_authorized _ _ _ _ _ _ _ _ _ _ _ _ drain_decodes Hr)).
Defined.
