(* ===== verification/Replay.v ===== *)
(** * Replay: repeated and conflicting requests

    What a handler answers when the ledger already has a record of the command. *)
From S2P Require Import Prelude Utf8 Json Message CommandPayload Connection Authorization Ledger LedgerHistory Service ServiceTraces.
From S2P Require NodeHelper.
From S2P Require Import Sha256.
Open Scope Z_scope.

(** Calls that change the ledger or reach Slurm. *)
Definition effectful (e : event) : bool :=
  match e with
  | Ev o _ => match o with
              | EReserve _ | EAuthorize _ _ | ETransition _ _ _ _ _ | EExecute _ _ _ => true
              | _ => false
              end
  end.

Lemma inert_simulate {A} ans tr (p : prog A) :
  inert p → forallb (λ e, negb (effectful e)) tr = true →
  forallb (λ e, negb (effectful e)) (simulate ans tr p).1 = true.
Proof.
  revert tr. induction p as [a|X o k IH]; intros tr; cbn; [done|]. intros [Ho Hk] Htr.
  apply IH; [done|]. rewrite forallb_app, Htr. cbn. by destruct o.
Qed.

Section replay.
Context (s : Service) (ticks : nat) (requester : UserContext) (message : Envelope).
Context (request : NodeCommandRequestPayload) (record : LedgerRecord) (ans : oracle).
Hypothesis decoded : DecodeNodeCommandRequestPayload (Payload message) = Ok request.
Hypothesis named : Username requester ≠ "".
Hypothesis unblocked : ∀ tr, ans _ tr EAdmissionBlocked = false.
Hypothesis recorded : ∀ tr, ans _ tr (ELookup (UID requester) (CommandID request)) = Ok (Some record).

Definition answer : list event * Envelope := simulate ans [] (Handle s ticks requester message).

(** The handler has found the record: the rest is [p]. *)
Lemma answer_found :
  ∃ tr0, forallb (λ e, negb (effectful e)) tr0 = true ∧
  answer = let '(tr, r) := simulate ans tr0
             (if negb (equalFingerprint (c_RequestFingerprint (l_Claim record)) (Sum256 (marshal_request request)))
              then errorEnvelope message ErrorCodeCommandIDConflict ErrorCategoryConflict
                     "Command ID was already used for a different request" false (CommandID request)
              else awaitRecord ticks message record (Sum256 (marshal_request request))) in
           (tr ++ [Ev (EUnlock (lock_key (UID requester) (CommandID request)))
                     (ans _ tr (EUnlock (lock_key (UID requester) (CommandID request))))], r).
Proof.
  unfold answer, Handle. rewrite decoded. apply streq_false in named as Hn. rewrite Hn.
  cbn [call mbind prog_mbind prog_bind simulate]. rewrite unblocked.
  cbn [call mbind prog_mbind prog_bind simulate app].
  eexists. split; [|rewrite simulate_bind; unfold handle_locked;
    cbn [call mbind prog_mbind prog_bind simulate]; rewrite recorded; reflexivity].
  done.
Qed.

Lemma answer_harmless : forallb (λ e, negb (effectful e)) answer.1 = true.
Proof.
  destruct answer_found as (tr0 & Htr & ->).
  set (p := if negb _ then _ else _).
  assert (inert p) as Hp by (unfold p; destruct (negb _); auto with slurm).
  pose proof (inert_simulate ans tr0 p Hp Htr) as H. destruct (simulate ans tr0 p) as [tr r].
  cbn [fst] in *. by rewrite forallb_app, H.
Qed.

(** What a finished record answers: a failure is answered by the error the record
    stores; a record that stores none that can be read, like every command that
    recovery has made unknown, by a retryable internal error. *)
Definition result_unavailable : ErrorPayload :=
  errorPayload ErrorCodeInternal ErrorCategoryInternal "Command result is unavailable" true (c_CommandID (l_Claim record)).
Definition error_answer (r : Envelope) : Prop :=
  Type_ r = MessageError ∧
  Payload r = marshal_error (default result_unavailable (l_ErrorPayload record ≫= unmarshal_error)) ∧
  (∀ p, l_ErrorPayload record = Some (marshal_error p) → utf8_error p → Payload r = marshal_error p) ∧
  (l_ErrorPayload record = None → Payload r = marshal_error result_unavailable).
Definition recorded_answer (r : Envelope) : Prop :=
  match l_Status record with
  | StatusSucceeded => Type_ r = MessageCommandResponse ∧ Payload r = default "" (l_ResultPayload record)
  | StatusAuthorizationUncertain =>
      Type_ r = MessageError ∧
      Payload r = marshal_error (errorPayload ErrorCodeAuthorizationOutcomeUnknown ErrorCategoryInternal
        "Authorization outcome is unknown; use a new command ID after recovery" false (c_CommandID (l_Claim record)))
  | _ => error_answer r
  end.

Lemma unmarshal_no_error : unmarshal_error "" = None.
Proof. by vm_compute. Qed.

Lemma stored_error_answer tr0 :
  let r := (simulate ans tr0 (stored_error message record)).2 in MessageID r = MessageID message ∧ error_answer r.
Proof.
  assert ((simulate ans tr0 (stored_error message record)).2 = NewErrorEnvelope (ans _ tr0 ENow).1 (MessageID message)
    (default result_unavailable (l_ErrorPayload record ≫= unmarshal_error))) as ->.
  { unfold stored_error. destruct (l_ErrorPayload record) as [e|]; cbn [default from_option mbind option_bind id];
      [by destruct (unmarshal_error e)|by rewrite unmarshal_no_error]. }
  split; [done|]. split; [done|]. split; [done|]. split; [|by intros ->].
  intros p -> Hu. cbn [mbind option_bind]. by rewrite unmarshal_error_marshal.
Qed.

Lemma answer_terminal :
  c_RequestFingerprint (l_Claim record) = Sum256 (marshal_request request) →
  terminal (l_Status record) = true → MessageID answer.2 = MessageID message ∧ recorded_answer answer.2.
Proof.
  intros Hfp Ht. destruct answer_found as (tr0 & _ & ->). unfold equalFingerprint.
  rewrite Hfp, streq_refl. cbn [negb].
  assert (awaitRecord ticks message record (Sum256 (marshal_request request)) = recordResponse message record)
    as -> by (destruct ticks; cbn; by destruct (l_Status record)).
  unfold recorded_answer, recordResponse. pose proof (stored_error_answer tr0) as He. cbn zeta in He.
  destruct (l_Status record) eqn:Hs; try done; destruct (simulate ans tr0 (stored_error message record)); exact He.
Qed.

End replay.


(** Conflict. When the command ID was used for a request with another
    fingerprint, whatever the state of that command, nothing is reserved,
    authorized, changed or executed and the answer is the conflict error. *)
Theorem conflict_answer s ticks requester message request record (ans : oracle) :
  DecodeNodeCommandRequestPayload (Payload message) = Ok request → Username requester ≠ "" →
  (∀ tr, ans _ tr EAdmissionBlocked = false) →
  (∀ tr, ans _ tr (ELookup (UID requester) (CommandID request)) = Ok (Some record)) →
  c_RequestFingerprint (l_Claim record) ≠ Sum256 (marshal_request request) →
  let '(tr, r) := answer s ticks requester message ans in
  forallb (λ e, negb (effectful e)) tr = true ∧ MessageID r = MessageID message ∧ Type_ r = MessageError ∧
  Payload r = marshal_error (errorPayload ErrorCodeCommandIDConflict ErrorCategoryConflict
    "Command ID was already used for a different request" false (CommandID request)).
Proof.
  intros Hd Hn Hu Hr Hf.
  pose proof (answer_harmless s ticks requester message request record ans Hd Hn Hu Hr) as H1.
  destruct (answer_found s ticks requester message request record ans Hd Hn Hu Hr) as (tr0 & _ & Ha).
  unfold equalFingerprint in Ha. apply streq_false in Hf. rewrite Hf in Ha. cbn [negb] in Ha.
  destruct (answer s ticks requester message ans) as [tr r]. cbn [fst] in H1.
  split; [done|]. cbn in Ha. injection Ha as _ ->. by split.
Qed.

(** *** Concrete records, for the witnesses *)

Definition with_record (record : LedgerRecord) : oracle := λ X tr o,
  match o in op X return X → X with
  | ELookup _ _ => λ _, Ok (Some record)
  | _ => λ x, x
  end (friendly X tr o).

Definition finished_record (st : Status) (fp : string) (result error : option string) : LedgerRecord :=
  mkRecord (mkClaim 1000 "c-1" fp (marshal_request drain_request) "alice" 1000 "m-0" 990 "cockpit-slurm"
              "node" "update" "node.drain" "nodes.drain" "n1")
    st "admin" (Some "{}") (Some 64030) "slurm" "dbus:helper" result error 1000 1001 (1000 + Retention).

Lemma finished_fingerprint st fp result error :
  c_RequestFingerprint (l_Claim (finished_record st fp result error)) = fp.
Proof. done. Qed.

Definition replayed (st : Status) (result : option string) : LedgerRecord :=
  finished_record st (Sum256 (marshal_request drain_request)) result None.

Lemma conflict_answer_witness :
  let record := finished_record StatusRunning "another request" None None in
  let '(tr, r) := answer example_service 5 alice drain_message (with_record record) in
  forallb (λ e, negb (effectful e)) tr = true ∧ MessageID r = MessageID drain_message ∧ Type_ r = MessageError ∧
  Payload r = marshal_error (errorPayload ErrorCodeCommandIDConflict ErrorCategoryConflict
    "Command ID was already used for a different request" false (CommandID drain_request)).
Proof.
  assert (streq "another request" (Sum256 (marshal_request drain_request)) = false) as Hne by (by vm_compute).
  exact (conflict_answer example_service 5 alice drain_message drain_request
    (finished_record StatusRunning "another request" None None)
    (with_record (finished_record StatusRunning "another request" None None))
    drain_decodes ltac:(discriminate) (λ tr, eq_refl) (λ tr, eq_refl) (proj1 (streq_false _ _) Hne)).
Defined.

Definition storage_error (id : string) : string :=
  marshal_error (errorPayload ErrorCodeLedgerPersistenceFailed ErrorCategoryInternal
    "Command storage is unavailable; do not retry automatically" false id).

Lemma simulate_persistenceError (ans : oracle) tr m id :
  Payload (simulate ans tr (persistenceError m id)).2 = storage_error id.
Proof. cbn. by destruct (ans _ tr EAdmissionBlocked). Qed.

(** The outcome of a run that settled a running command. *)
Definition settled (x : context) (out : list event * Envelope) : Prop :=
  (∃ next data, Ev (ETransition (x_uid x) (x_id x) StatusRunning next data) (Ok tt) ∈ out.1 ∧
     (next = StatusSucceeded ∧ t_ResultPayload data = Some (Payload out.2) ∧ Type_ out.2 = MessageCommandResponse
      ∨ (next = StatusFailed ∨ next = StatusUnknown) ∧ t_ErrorPayload data = Some (Payload out.2)
        ∧ Type_ out.2 = MessageError))
  ∨ Payload out.2 = storage_error (x_id x).

(** One transition, then its answer or the storage error. *)
Lemma settled_transition x ans tr next data (p : prog Envelope) :
  (settled x (simulate ans (tr ++ [Ev (ETransition (x_uid x) (x_id x) StatusRunning next data) (Ok tt)]) p)) →
  settled x (simulate ans tr
    (r ← call (ETransition (x_uid x) (x_id x) StatusRunning next data);
     match r with Err _ => persistenceError (x_message x) (x_id x) | Ok _ => p end)).
Proof.
  intros Hp. cbn [call mbind prog_mbind prog_bind simulate].
  destruct (ans _ tr (ETransition _ _ _ _ _)) as [[]|e]; [done|].
  right. apply simulate_persistenceError.
Qed.

Ltac in_trace := rewrite ?elem_of_app, ?list_elem_of_singleton; auto.

Lemma settled_report_failure s x ans tr unknown : settled x (simulate ans tr (report_failure s x unknown)).
Proof.
  unfold report_failure. destruct unknown; cbn [execution_failure]; apply settled_transition; left;
    [exists StatusUnknown|exists StatusFailed]; eexists (error_data _); unfold requestNodeRefresh;
    change (eq_status StatusUnknown StatusUnknown) with true;
    change (eq_status StatusFailed StatusUnknown) with false;
    try destruct (s_refresh s);
    cbn [call reply_error mbind prog_mbind prog_bind mret prog_mret simulate fst snd];
    (split; [|right; split; [by auto|by split]]); in_trace.
Qed.

(** After an execution the answer is what the ledger holds: the payload
    answered is the result or the error of a transition from running that the
    ledger accepted; if it accepted none, the answer is the storage error. *)
Theorem execution_answer_recorded s x ans tr0 : settled x (simulate ans tr0 (execute s x)).
Proof.
  unfold execute. cbn [call mbind prog_mbind prog_bind simulate].
  destruct (ans _ tr0 (EExecute _ _ _)) as [u|e].
  - apply (settled_transition x ans _ StatusSucceeded). left. unfold requestNodeRefresh.
    destruct (s_refresh s);
      cbn [call reply mbind prog_mbind prog_bind mret prog_mret simulate fst snd];
      (exists StatusSucceeded, (mkData "" None None "" "" (Some (success_payload (x_request x))) None);
       split; [|left; by repeat split]); in_trace.
  - destruct (outcome_unknown e); [apply settled_report_failure|].
    cbn [call mbind prog_mbind prog_bind simulate]. apply settled_report_failure.
Qed.

(** A command that was running when the daemon stopped is recovered to unknown
    without an error payload; its replay is answered as an internal error that
    may be retried, and not as an unknown outcome. *)
Theorem recovered_unknown_reply :
  let row := recover_row 2000 (mkRow (mkClaim 1000 "c-1" (Sum256 (marshal_request drain_request))
      (marshal_request drain_request) "alice" 1000 "m-0" 990 "cockpit-slurm" "node" "update"
      "node.drain" "nodes.drain" "n1")
    StatusRunning (Some "admin") (Some "{}") (Some 64030) (Some "slurm") (Some "dbus:helper") None None
    1000 1001 (1000 + Retention)) in
  status row = StatusUnknown ∧
  Payload (answer example_service 5 alice drain_message (with_record (scanRecord row))).2 =
  marshal_error (errorPayload ErrorCodeInternal ErrorCategoryInternal "Command result is unavailable" true "c-1").
Proof. by vm_compute. Qed.
