(* ===== verification/AtMostOnce.v ===== *)
(** * AtMostOnce: concurrent handlers over one ledger

    Any number of handlers of Service.v run interleaved, call by call, over the
    ledger of Ledger.v, which may fail in every way, while the daemon may crash
    and restart at any moment and the clock may read anything. The lock of a
    command is not relied upon: its calls may be answered at any time. *)
From S2P Require Import Prelude Utf8 Json Message CommandPayload Connection Authorization Ledger LedgerLogic LedgerFacts LedgerHistory Service ServiceTraces.
From S2P Require NodeHelper.
From S2P Require Import Sha256.
Open Scope Z_scope.

(** ** The world *)

(** One request being handled: its inputs, its past and what it has left to do. *)
Record thread : Type := mkThread {
  th_requester : UserContext;
  th_request : NodeCommandRequestPayload;
  th_trace : list event;
  th_prog : prog Envelope;
}.
Definition th_key (t : thread) : key := (UID (th_requester t), CommandID (th_request t)).

(** The log of executions, and the log of commands whose row, at or beyond
    execution, has been lost. *)
Record world : Type := mkWorld {
  w_system : system;
  w_threads : list thread;
  w_execs : list key;
  w_lost : list key;
}.

Definition executing_row (m : gmap key Row) (k : key) : bool :=
  match m !! k with Some r => executing (status r) | None => false end.

(** The keys whose row was executing in [m] and is not in [m']. *)
Definition lost (m m' : gmap key Row) : list key :=
  filter (λ k, executing_row m k && negb (executing_row m' k) = true) (elements (dom m)).

(** The answer of the world to one call: the ledger's, at a clock reading, or
    anything for the other collaborators. *)
Definition answered {X} (o : op X) (now : Z) (l : Ledger) : X → Ledger → Prop :=
  match o in op X return X → Ledger → Prop with
  | EAdmissionBlocked => λ x l', x = AdmissionBlocked l ∧ l' = l
  | EReconcile => λ x l', (x, l') = Reconcile now l
  | ELookup uid id => λ x l', (x, l') = Lookup now uid id l
  | EReserve claim => λ x l', (x, l') = ReserveAuthorization now claim l
  | ETransition uid id expected next data => λ x l', (x, l') = Transition now uid id expected next data l
  | EAuthorize _ _ | EIdentity | EExecute _ _ _ | ENodeGet _ | ECtxErr | ERefresh | ELock _ | EUnlock _ | ENow =>
      λ x l', l' = l
  end.

(** The key the executor was called for, if this call is to the executor. *)
Definition execution {X} (o : op X) (k : key) : list key :=
  match o with EExecute _ _ _ => [k] | _ => [] end.

Inductive wstep : world → world → Prop :=
| step_arrive s ticks requester message request l ts ex lo :
    DecodeNodeCommandRequestPayload (Payload message) = Ok request →
    wstep (mkWorld (Up l) ts ex lo)
      (mkWorld (Up l) (ts ++ [mkThread requester request [] (Handle s ticks requester message)]) ex lo)
| step_call i requester request tr X (o : op X) k now l x l' ts ex lo :
    ts !! i = Some (mkThread requester request tr (Vis o k)) →
    answered o now l x l' →
    wstep (mkWorld (Up l) ts ex lo)
      (mkWorld (Up l') (<[i := mkThread requester request (tr ++ [Ev o x]) (k x)]> ts)
         (execution o (UID requester, CommandID request) ++ ex)
         (lost (rows (stored (dbs l))) (rows (stored (dbs l'))) ++ lo))
| step_return i requester request tr r l ts ex lo :
    ts !! i = Some (mkThread requester request tr (Ret r)) →
    wstep (mkWorld (Up l) ts ex lo) (mkWorld (Up l) (delete i ts) ex lo)
| step_crash l ts ex lo :
    wstep (mkWorld (Up l) ts ex lo) (mkWorld (Down (Close l)) [] ex lo)
| step_open outcomes cwd path now ans s y ex lo :
    y = run_op (OOpen outcomes cwd path now ans) (Down s) →
    wstep (mkWorld (Down s) [] ex lo)
      (mkWorld y [] ex (lost (rows s) (rows (content y)) ++ lo)).

Definition start : world := mkWorld (Down empty_store) [] [] [].
Definition reachable (w : world) : Prop := rtc wstep start w.

(** ** The right to execute *)

(** A thread is armed when its last transition to running succeeded and it has
    not executed since. *)
Definition arm (armed : bool) (e : event) : bool :=
  match e with
  | Ev o x => match o in op X return X → bool with
              | ETransition _ _ expected next _ => λ r,
                  if eq_status expected StatusAccepted && eq_status next StatusRunning && is_Ok r then true else armed
              | EExecute _ _ _ => λ _, false
              | _ => λ _, armed
              end x
  end.
Definition armed (t : thread) : bool := foldl arm false (th_trace t).

Definition count (k : key) (l : list key) : nat := length (filter (.= k) l).
Definition armed_count (k : key) (ts : list thread) : nat :=
  length (filter (λ t, th_key t = k ∧ armed t = true) ts).

(** The invariant: the handlers follow the protocol, and every execution and every
    right to execute is paid for by the row of the command, or by a lost row. *)
Record world_ok (w : world) : Prop := {
  wk_rest : at_rest (w_system w);
  wk_threads : Forall (λ t, gd (th_requester t) (th_request t) (th_trace t) (th_prog t) anything) (w_threads w);
  wk_count : ∀ k, (count k (w_execs w) + armed_count k (w_threads w)
    ≤ count k (w_lost w) + (if executing_row (rows (content (w_system w))) k then 1 else 0))%nat;
}.

Lemma count_app k l1 l2 : count k (l1 ++ l2) = (count k l1 + count k l2)%nat.
Proof. unfold count. by rewrite filter_app, length_app. Qed.

Lemma armed_count_insert k ts i t t' :
  ts !! i = Some t →
  (armed_count k (<[i := t']> ts) + (if bool_decide (th_key t = k ∧ armed t = true) then 1 else 0)
   = armed_count k ts + (if bool_decide (th_key t' = k ∧ armed t' = true) then 1 else 0))%nat.
Proof.
  intros Hi. unfold armed_count.
  rewrite insert_take_drop by (by eapply lookup_lt_Some).
  rewrite <-(take_drop_middle ts i t Hi) at 3.
  rewrite !filter_app, !filter_cons, !length_app. repeat case_bool_decide; repeat case_decide; cbn; try lia; tauto.
Qed.

Lemma armed_count_delete k ts i t :
  ts !! i = Some t → (armed_count k (delete i ts) ≤ armed_count k ts)%nat.
Proof.
  intros Hi. unfold armed_count. rewrite delete_take_drop. rewrite <-(take_drop_middle ts i t Hi) at 3.
  rewrite !filter_app, filter_cons, !length_app. case_decide; cbn; lia.
Qed.

(** A row that stops executing is in the log of the lost. *)
Lemma lost_count k m m' :
  ((if executing_row m k then 1 else 0) ≤ count k (lost m m') + (if executing_row m' k then 1 else 0))%nat.
Proof.
  destruct (executing_row m k) eqn:Hm; [|lia]. destruct (executing_row m' k) eqn:Hm'; [lia|].
  assert (k ∈ filter (.= k) (lost m m')) as Hin.
  { apply list_elem_of_filter. split; [done|]. apply list_elem_of_filter. split.
    - by rewrite Hm, Hm'.
    - unfold executing_row in Hm. destruct (m !! k) eqn:Hk; [|done].
      apply elem_of_elements, elem_of_dom. eauto. }
  unfold count. destruct (filter _ _) as [|k' l]; [by apply not_elem_of_nil in Hin|]. cbn. lia.
Qed.

(** ** The invariant is kept *)

Lemma arm_true e : ¬ is_execute e → arm true e = true.
Proof. destruct e as [X o x]. destruct o; cbn; try done; by case_match. Qed.

Lemma foldl_arm_true l : Forall (λ e, ¬ is_execute e) l → foldl arm true l = true.
Proof. induction 1 as [|e l He Hl IH]; [done|]. cbn [foldl]. by rewrite arm_true. Qed.

Lemma started_armed requester request tr operation :
  started_by requester request tr operation → Forall (λ e, ¬ is_execute e) tr → foldl arm false tr = true.
Proof.
  intros (claim & record & d & a & r & Hsub & _) Hno.
  assert (Ev (ETransition (UID requester) (CommandID request) StatusAccepted StatusRunning r) (Ok tt) ∈ tr) as Hin.
  { eapply elem_of_submseteq; [|by apply sublist_submseteq]. do 3 right. by left. }
  apply list_elem_of_split in Hin as (l1 & l2 & ->). rewrite foldl_app. cbn [foldl].
  apply Forall_app in Hno as [_ Hno]. apply Forall_cons in Hno as [_ Hno].
  change (foldl arm true l2 = true). by apply foldl_arm_true.
Qed.

(** The ledger's side of a call: at rest again, and one step on the table. *)
Lemma answered_step {X} (o : op X) now l x l' :
  answered o now l x l' → at_rest (Up l) →
  at_rest (Up l') ∧ ∃ o', table_step o' (rows (stored (dbs l))) (rows (stored (dbs l'))).
Proof.
  intros Ha Hl.
  assert (∀ o', run_op o' (Up l) = Up l' → at_rest (Up l') ∧
    ∃ o', table_step o' (rows (stored (dbs l))) (rows (stored (dbs l')))) as Hop.
  { intros o' Ho. pose proof (run_op_refines o' (Up l) Hl) as [H1 H2]. rewrite Ho in H1, H2. eauto. }
  destruct o; cbn in Ha.
  - destruct Ha as [_ ->]. split; [done|]. exists OCrash. by left.
  - apply (Hop (OReconcile now)). cbn. by rewrite <-Ha.
  - apply (Hop (OLookup now uid id)). cbn. by rewrite <-Ha.
  - apply (Hop (OReserve now claim)). cbn. by rewrite <-Ha.
  - apply (Hop (OTransition now uid id expected next data)). cbn. by rewrite <-Ha.
  - subst l'. split; [done|]. exists OCrash. by left.
  - subst l'. split; [done|]. exists OCrash. by left.
  - subst l'. split; [done|]. exists OCrash. by left.
  - subst l'. split; [done|]. exists OCrash. by left.
  - subst l'. split; [done|]. exists OCrash. by left.
  - subst l'. split; [done|]. exists OCrash. by left.
  - subst l'. split; [done|]. exists OCrash. by left.
  - subst l'. split; [done|]. exists OCrash. by left.
  - subst l'. split; [done|]. exists OCrash. by left.
Qed.

(** The start of a command turns an accepted row into a running one. *)
Lemma answered_start now uid id data l l' :
  answered (ETransition uid id StatusAccepted StatusRunning data) now l (Ok tt) l' → at_rest (Up l) →
  executing_row (rows (stored (dbs l))) (uid, id) = false ∧
  executing_row (rows (stored (dbs l'))) (uid, id) = true.
Proof.
  cbn. intros Ha Hl.
  pose proof (Transition_wp now uid id StatusAccepted StatusRunning data l _ _ _ (at_rest_at l Hl))
    as (s' & b' & [Hs _ _ _] & Hp).
  rewrite <-Ha in Hs, Hp. cbn [fst snd] in *. subst s'.
  destruct Hp as (_ & _ & _ & row & Hr & Hst & Hrows). unfold executing_row.
  rewrite Hr, Hst, Hrows. cbn [rows set_rows]. by rewrite lookup_insert_eq.
Qed.

Definition indicator (P : Prop) `{base.Decision P} : nat := if bool_decide P then 1 else 0.

Lemma count_single kt k : count k [kt] = indicator (kt = k).
Proof. unfold count, indicator. rewrite filter_cons. repeat case_decide; by case_bool_decide. Qed.

(** One call: what it adds to the executions and the armed threads is paid for. *)
Lemma call_paid requester request tr X (o : op X) now l x l' k :
  permitted requester request tr o → answered o now l x l' → at_rest (Up l) →
  let kt := (UID requester, CommandID request) in
  let m := rows (stored (dbs l)) in
  let m' := rows (stored (dbs l')) in
  (count k (execution o kt) + indicator (kt = k ∧ arm (foldl arm false tr) (Ev o x) = true)
     + (if executing_row m k then 1 else 0)
   ≤ indicator (kt = k ∧ foldl arm false tr = true) + count k (lost m m')
     + (if executing_row m' k then 1 else 0))%nat.
Proof.
  intros Hperm Ha Hl kt m m'. pose proof (lost_count k m m') as Hlost.
  assert (Hsame : execution o kt = [] → arm (foldl arm false tr) (Ev o x) = foldl arm false tr →
    (count k (execution o kt) + indicator (kt = k ∧ arm (foldl arm false tr) (Ev o x) = true)
     + (if executing_row m k then 1 else 0)
     ≤ indicator (kt = k ∧ foldl arm false tr = true) + count k (lost m m')
     + (if executing_row m' k then 1 else 0))%nat).
  { intros -> ->. cbn. lia. }
  destruct o; try (by apply Hsame).
  - destruct (eq_status expected StatusAccepted && eq_status next StatusRunning && is_Ok x) eqn:Hc;
      [|apply Hsame; [done|]; cbn; by rewrite Hc].
    apply andb_true_iff in Hc as [Hc Hok]. apply andb_true_iff in Hc as [He Hn].
    unfold eq_status in He, Hn. apply bool_decide_eq_true in He, Hn. subst expected next.
    destruct x as [[]|]; [|done]. destruct Hperm as [Hk _].
    destruct (decide (kt = k)) as [<-|Hne].
    + destruct (answered_start now _ _ _ _ _ Ha Hl) as [H1 H2]. unfold m, m', kt.
      rewrite <-Hk in *. rewrite H1, H2. cbn [execution count]. unfold indicator at 1.
      change (count (uid, id) []) with 0%nat. case_bool_decide; lia.
    + unfold indicator. rewrite !bool_decide_eq_false_2 by tauto. cbn. lia.
  - destruct Hperm as (Hst & Hno & _). pose proof (started_armed _ _ _ _ Hst Hno) as Harm.
    rewrite Harm. cbn in Ha. subst l'. cbn [arm execution].
    unfold indicator. rewrite (bool_decide_eq_false_2 (kt = k ∧ false = true)) by (by intros [_ ?]).
    rewrite count_single. unfold indicator. repeat case_bool_decide; try lia; exfalso; naive_solver.
Qed.

Lemma wstep_ok w w' : wstep w w' → world_ok w → world_ok w'.
Proof.
  intros Hs [Hr Ht Hc]. destruct Hs as [s ticks requester message request l ts ex lo Hd
    |i requester request tr X o kont now l x l' ts ex lo Hi Ha
    |i requester request tr r l ts ex lo Hi|l ts ex lo|outcomes cwd path now ans s y ex lo ->];
    cbn [w_system w_threads w_execs w_lost content] in *.
  - split; cbn [w_system w_threads w_execs w_lost content]; [done| |].
    + apply Forall_app. split; [done|]. constructor; [|done]. by apply gd_Handle.
    + intros k. specialize (Hc k). unfold armed_count, count in *. rewrite filter_app, length_app, filter_cons.
      rewrite decide_False by (by intros [_ ?]). cbn. lia.
  - pose proof (proj1 (Forall_lookup _ _) Ht i _ Hi) as Hg. cbn in Hg. destruct Hg as [Hperm Hk].
    destruct (answered_step o now l x l' Ha Hr) as [Hr' _]. split; cbn [w_system w_threads w_execs w_lost].
    + done.
    + apply Forall_insert; [done|]. cbn. apply Hk.
    + intros k. specialize (Hc k).
      pose proof (armed_count_insert k ts i _ (mkThread requester request (tr ++ [Ev o x]) (kont x)) Hi) as Hins.
      pose proof (call_paid requester request tr X o now l x l' k Hperm Ha Hr) as Hp.
      cbv zeta in Hp. unfold indicator in Hp. unfold armed, th_key in Hins.
      cbn [th_requester th_request th_trace] in Hins. rewrite foldl_app in Hins. cbn [foldl] in Hins.
      rewrite !count_app. cbn [content] in *. lia.
  - split; cbn [w_system w_threads w_execs w_lost content]; [done|by apply Forall_delete|].
    intros k. specialize (Hc k). pose proof (armed_count_delete k ts i _ Hi). lia.
  - split; cbn [w_system w_threads w_execs w_lost content]; [|constructor|].
    + by destruct Hr.
    + intros k. specialize (Hc k). change (armed_count k []) with 0%nat. cbn [Close]. unfold Close. lia.
  - destruct (run_op_refines (OOpen outcomes cwd path now ans) (Down s) Hr) as [Hr' _].
    split; [done|constructor|]. intros k. specialize (Hc k). cbn [w_system w_threads w_execs w_lost] in *.
    pose proof (lost_count k (rows s) (rows (content (run_op (OOpen outcomes cwd path now ans) (Down s))))).
    rewrite count_app. change (armed_count k []) with 0%nat in *. lia.
Qed.

Lemma reachable_ok w : reachable w → world_ok w.
Proof.
  intros Hw. apply (rtc_invariant _ _ _ _ wstep_ok Hw).
  split; cbn [w_system w_threads w_execs w_lost content]; [done|constructor|]. intros k. cbn. lia.
Qed.

(** ** A scheduler, for concrete runs *)

(** The ledger's answer, or the given one for the other collaborators. *)
Definition ledger_answer {X} (o : op X) (now : Z) (l : Ledger) : X → X * Ledger :=
  match o in op X return X → X * Ledger with
  | EAdmissionBlocked => λ _, (AdmissionBlocked l, l)
  | EReconcile => λ _, Reconcile now l
  | ELookup uid id => λ _, Lookup now uid id l
  | EReserve claim => λ _, ReserveAuthorization now claim l
  | ETransition uid id expected next data => λ _, Transition now uid id expected next data l
  | _ => λ x, (x, l)
  end.

Lemma ledger_answered {X} (o : op X) now l x :
  answered o now l (ledger_answer o now l x).1 (ledger_answer o now l x).2.
Proof. destruct o; cbn; try done; symmetry; apply surjective_pairing. Qed.

(** One call of the first thread. *)
Definition drive (ans : oracle) (now : Z) (w : world) : world :=
  match w with
  | mkWorld (Up l) (mkThread requester request tr (Vis o k) :: ts) ex lo =>
      let '(x, l') := ledger_answer o now l (ans _ tr o) in
      mkWorld (Up l') (mkThread requester request (tr ++ [Ev o x]) (k x) :: ts)
        (execution o (UID requester, CommandID request) ++ ex)
        (lost (rows (stored (dbs l))) (rows (stored (dbs l'))) ++ lo)
  | _ => w
  end.

Lemma drive_step ans now w : reachable w → reachable (drive ans now w).
Proof.
  intros Hw. destruct w as [[l|s] [|[requester request tr [r|X o k]] ts] ex lo]; try exact Hw.
  cbn [drive]. pose proof (ledger_answered o now l (ans X tr o)) as Ha.
  destruct (ledger_answer o now l (ans X tr o)) as [x l']. eapply rtc_r; [exact Hw|].
  apply (step_call 0 requester request tr X o k now l x l'
    (mkThread requester request tr (Vis o k) :: ts)); [done|exact Ha].
Qed.

Lemma drive_reachable ans now n w : reachable w → reachable (Nat.iter n (drive ans now) w).
Proof. intros Hw. induction n as [|n IH]; [done|]. by apply drive_step. Qed.

(** Two requests for the same command, run one after the other. *)
Definition opened_world : world :=
  mkWorld (run_op (OOpen [] "/" "" 100 []) (Down empty_store)) [] [] [].
Lemma opened_reachable : reachable opened_world.
Proof. eapply rtc_once. apply (step_open [] "/" "" 100 [] empty_store _ [] []). done. Qed.

Definition first_arrival : world :=
  match opened_world with
  | mkWorld (Up l) ts ex lo =>
      mkWorld (Up l) (ts ++ [mkThread alice drain_request [] (Handle example_service 5 alice drain_message)]) ex lo
  | w => w
  end.
Lemma first_arrival_reachable : reachable first_arrival.
Proof.
  eapply rtc_r; [apply opened_reachable|]. unfold first_arrival.
  destruct opened_world as [[l|s] ts ex lo] eqn:Hw; [|by vm_compute in Hw].
  apply step_arrive. apply drain_decodes.
Qed.

(** At most one execution. In every reachable state of the daemon, whatever
    handlers run interleaved, whatever the ledger's database, the authorizer,
    the executor and the clock answer, however often the daemon crashes and
    restarts: a command of a user has been executed at most once, and once more
    for every time the ledger has lost the record of an execution. *)
Theorem at_most_once w k : reachable w → (count k (w_execs w) ≤ 1 + count k (w_lost w))%nat.
Proof.
  intros Hw. destruct (reachable_ok w Hw) as [_ _ Hc]. specialize (Hc k).
  destruct (executing_row _ k); lia.
Qed.

Lemma at_most_once_witness :
  let w := Nat.iter 15 (drive friendly 500) first_arrival in
  w_execs w = [(1000%Z, "c-1")] ∧ (count (1000%Z, "c-1") (w_execs w) ≤ 1 + count (1000%Z, "c-1") (w_lost w))%nat.
Proof.
  split; [by vm_compute|].
  exact (at_most_once _ (1000%Z, "c-1") (drive_reachable friendly 500 15 _ first_arrival_reachable)).
Defined.

(** C33. The record of an execution is lost only by expiry: if the row of a
    running, succeeded, failed or unknown command is no longer one after an
    operation of the ledger, the clock of that operation has reached the row's
    expiry, 30 days after the command was reserved. *)
Theorem execution_record_expires ops o k r :
  let y := run_ops ops (Down empty_store) in
  rows (content y) !! k = Some r → executing (status r) = true →
  executing_row (rows (content (run_op o y))) k = false →
  ∃ now, op_time o = Some now ∧ created_at r + Retention ≤ now.
Proof.
  intros y Hk He Hl. destruct (ledger_ok ops) as [Hy Hm]. fold y in Hy, Hm.
  destruct (run_op_refines o y Hy) as [_ Hs]. rewrite <-(ok_expiry _ _ (Hm k r Hk)).
  assert (Hlater : (∀ now, op_time o = Some now → now < expires_at r) → False).
  { intros Hno. destruct (table_step_later _ _ _ _ _ Hs Hk Hno) as (r' & Hk' & Hr').
    unfold executing_row in Hl. rewrite Hk' in Hl.
    destruct (edge_closed _ _ (later_status _ _ Hr')) as (_ & Hx & _). by rewrite (Hx He) in Hl. }
  destruct (op_time o) as [now|].
  - exists now. split; [done|]. destruct (Z.le_gt_cases (expires_at r) now) as [|Hlt]; [done|].
    exfalso. apply Hlater. by intros n [= <-].
  - exfalso. apply Hlater. by intros n [=].
Qed.

Lemma execution_record_expires_witness :
  let ops := [OOpen [] "/" "" 100 []; OReserve 200 example_claim;
    OTransition 201 1000 "c-1" StatusAuthorizationPending StatusAccepted accept_data;
    OTransition 202 1000 "c-1" StatusAccepted StatusRunning run_data] in
  ∃ now, op_time (OReserve (Retention + 200) example_claim) = Some now ∧ 200 + Retention ≤ now.
Proof.
  intros ops.
  destruct (rows (content (run_ops ops (Down empty_store))) !! (1000%Z, "c-1")) as [r|] eqn:Hr;
    [|by vm_compute in Hr].
  assert (created_at r = 200 ∧ executing (status r) = true) as [Hc He]
    by (vm_compute in Hr; by injection Hr as <-).
  assert (executing_row (rows (content (run_op (OReserve (Retention + 200) example_claim)
    (run_ops ops (Down empty_store))))) (1000%Z, "c-1") = false) as Hl by (by vm_compute).
  pose proof (execution_record_expires ops (OReserve (Retention + 200) example_claim) _ r Hr He Hl) as H.
  rewrite Hc in H. exact H.
Defined.
