(* ===== verification/RequestLock.v ===== *)
(** * RequestLock: one handler per command at a time

    [Service.lock] of [internal/command/service.go]: a map of reference-counted
    mutexes, one for each command of a caller that some handler works on. The
    handlers are threads that go through the four atomic sections of [lock] and
    of the function it returns, in any interleaving. *)
From S2P Require Import Prelude Connection Authorization Service.
Open Scope Z_scope.

(** ** State *)

(** [requestLock]: the holder of the mutex and the number of references. *)
Record requestLock : Type := mkLock { held : option nat; refs : nat }.

(** Where a handler is: it has a reference and waits for the mutex, it holds the
    mutex, or it has unlocked it and still has its reference. *)
Inductive phase : Type := Waiting | Holding | Releasing.
#[export] Instance phase_eq_dec : EqDecision phase.
Proof. solve_decision. Defined.

(** [locks] is the map of the service, [heap] the lock objects it points to, and
    [inside] the handlers between the start of [lock] and the end of unlock. *)
Record lock_state : Type := mkLocks {
  locks : gmap string nat;
  heap : gmap nat requestLock;
  inside : gmap nat (string * nat * phase);
}.
Definition no_locks : lock_state := mkLocks ∅ ∅ ∅.

Definition user_lock (x : string * nat * phase) : nat := x.1.2.

(** ** The four sections *)

(** Under [locksMu]: find or create the lock, and take a reference. *)
Definition lock_reference (t : nat) (key : string) (s : lock_state) : option lock_state :=
  match inside s !! t with
  | Some _ => None
  | None =>
      let '(o, l) :=
        match locks s !! key with
        | Some o => (o, default (mkLock None 0) (heap s !! o))
        | None => (fresh (dom (heap s)), mkLock None 0)
        end in
      Some (mkLocks (<[key := o]> (locks s)) (<[o := mkLock (held l) (S (refs l))]> (heap s))
              (<[t := (key, o, Waiting)]> (inside s)))
  end.

(** [lock.mu.Lock()]: only while nobody holds the mutex. *)
Definition lock_mutex (t : nat) (s : lock_state) : option lock_state :=
  '(key, o, ph) ← inside s !! t;
  l ← heap s !! o;
  match (ph : phase), held l with
  | Waiting, None =>
      Some (mkLocks (locks s) (<[o := mkLock (Some t) (refs l)]> (heap s)) (<[t := (key, o, Holding)]> (inside s)))
  | _, _ => None
  end.

(** [lock.mu.Unlock()] *)
Definition unlock_mutex (t : nat) (s : lock_state) : option lock_state :=
  '(key, o, ph) ← inside s !! t;
  l ← heap s !! o;
  match (ph : phase) with
  | Holding =>
      Some (mkLocks (locks s) (<[o := mkLock None (refs l)]> (heap s)) (<[t := (key, o, Releasing)]> (inside s)))
  | _ => None
  end.

(** Under [locksMu]: give the reference back; the last one deletes the key. *)
Definition unlock_reference (t : nat) (s : lock_state) : option lock_state :=
  '(key, o, ph) ← inside s !! t;
  l ← heap s !! o;
  match (ph : phase) with
  | Releasing =>
      let n := (refs l - 1)%nat in
      Some (mkLocks (if (n =? 0)%nat then delete key (locks s) else locks s)
              (<[o := mkLock (held l) n]> (heap s)) (delete t (inside s)))
  | _ => None
  end.

Inductive lock_step (s s' : lock_state) : Prop :=
| step_reference t key : lock_reference t key s = Some s' → lock_step s s'
| step_mutex t : lock_mutex t s = Some s' → lock_step s s'
| step_unlock t : unlock_mutex t s = Some s' → lock_step s s'
| step_release t : unlock_reference t s = Some s' → lock_step s s'.
Definition lock_reachable (s : lock_state) : Prop := rtc lock_step no_locks s.

(** ** The invariant *)

Definition users (m : gmap nat (string * nat * phase)) (o : nat) : nat :=
  size (filter (λ p, user_lock p.2 = o) m).

Lemma users_insert m t x o :
  m !! t = None → users (<[t := x]> m) o = (users m o + if decide (user_lock x = o) then 1 else 0)%nat.
Proof.
  intros Ht. unfold users. rewrite map_filter_insert. case_decide as Hx; cbn in Hx.
  - rewrite decide_True by done. rewrite map_size_insert_None; [lia|]. apply map_lookup_filter_None. by left.
  - rewrite decide_False by done. rewrite delete_id by done. lia.
Qed.

Lemma users_delete m t x o :
  m !! t = Some x → users m o = (users (delete t m) o + if decide (user_lock x = o) then 1 else 0)%nat.
Proof.
  intros Ht. rewrite <-(insert_delete_id m t x Ht) at 1. by rewrite users_insert by apply lookup_delete_eq.
Qed.

Lemma users_update m t x y o :
  m !! t = Some x → user_lock y = user_lock x → users (<[t := y]> m) o = users m o.
Proof.
  intros Ht Hy. rewrite <-(insert_delete_eq m), users_insert by apply lookup_delete_eq.
  rewrite (users_delete m t x o Ht). by rewrite Hy.
Qed.

Lemma users_pos m t x : m !! t = Some x → (0 < users m (user_lock x))%nat.
Proof. intros Ht. rewrite (users_delete m t x _ Ht), decide_True by done. lia. Qed.

Record locks_ok (s : lock_state) : Prop := {
  lk_map : ∀ t key o ph, inside s !! t = Some (key, o, ph) → locks s !! key = Some o;
  lk_refs : ∀ key o, locks s !! key = Some o →
    ∃ l, heap s !! o = Some l ∧ refs l = users (inside s) o ∧ (0 < refs l)%nat;
  lk_inj : ∀ k1 k2 o, locks s !! k1 = Some o → locks s !! k2 = Some o → k1 = k2;
  lk_held : ∀ o l t, heap s !! o = Some l → held l = Some t ↔ ∃ key, inside s !! t = Some (key, o, Holding);
}.

Lemma no_locks_ok : locks_ok no_locks.
Proof. by split. Qed.

(** A reference to a lock that is there. *)
Lemma reference_known_ok t key o l s :
  locks_ok s → inside s !! t = None → locks s !! key = Some o → heap s !! o = Some l →
  locks_ok (mkLocks (<[key := o]> (locks s)) (<[o := mkLock (held l) (S (refs l))]> (heap s))
              (<[t := (key, o, Waiting)]> (inside s))).
Proof.
  intros [Hm Hr Hi Hh] Ht Hk Hl. split; cbn.
  - intros t' k o' ph. rewrite lookup_insert_Some. intros [[<- [= <- <- <-]] | [_ Hin]]; [apply lookup_insert_eq|].
    rewrite insert_id by done. by eapply Hm.
  - intros k o' Hk'. rewrite insert_id in Hk' by done. destruct (Hr k o' Hk') as (l' & Hl' & Hr' & Hp').
    destruct (decide (o' = o)) as [->|Hne].
    + rewrite lookup_insert_eq. eexists. split; [done|]. cbn. rewrite users_insert, decide_True by done.
      rewrite Hl in Hl'. injection Hl' as <-. lia.
    + rewrite lookup_insert_ne by done. exists l'. split; [done|].
      rewrite users_insert, decide_False by (done || by intros <-). split; lia.
  - intros k1 k2 o'. rewrite insert_id by done. apply Hi.
  - intros o' l' t'. assert (∀ l0, heap s !! o' = Some l0 → held l0 = Some t' ↔
      ∃ k, <[t := (key, o, Waiting)]> (inside s) !! t' = Some (k, o', Holding)) as Hinv.
    { intros l0 Hl0. rewrite (Hh o' l0 t' Hl0). setoid_rewrite lookup_insert_Some. split; [|naive_solver].
      intros [k Hk2]. exists k. right. split; [by intros ->; rewrite Ht in Hk2|done]. }
    rewrite lookup_insert_Some. intros [[<- <-] | [Hne Hl']]; [exact (Hinv l Hl)|exact (Hinv l' Hl')].
Qed.

(** A lock that no key points to has no users. *)
Lemma unused_lock o s : locks_ok s → (∀ k, locks s !! k ≠ Some o) → users (inside s) o = 0%nat.
Proof.
  intros Hs Hno. destruct (users (inside s) o) eqn:Hus; [done|]. unfold users in Hus.
  destruct (map_choose (filter (λ p, user_lock p.2 = o) (inside s))) as (t & [[k o'] ph] & Hin).
  { intros Hemp. rewrite Hemp in Hus. done. }
  apply map_lookup_filter_Some in Hin as [Hin Heq]. cbn in Heq. subst o'.
  by destruct (Hno k), (lk_map s Hs t k o ph Hin).
Qed.

(** A reference to a new lock. *)
Lemma reference_new_ok t key o s :
  locks_ok s → inside s !! t = None → locks s !! key = None → heap s !! o = None →
  locks_ok (mkLocks (<[key := o]> (locks s)) (<[o := mkLock None 1]> (heap s))
              (<[t := (key, o, Waiting)]> (inside s))).
Proof.
  intros Hs Ht Hk Ho. pose proof Hs as [Hm Hr Hi Hh].
  assert (∀ k, locks s !! k ≠ Some o) as Hno by (intros k Hk'; destruct (Hr k o Hk') as (l & Hl & _); congruence).
  pose proof (unused_lock o s Hs Hno) as Hu. split; cbn.
  - intros t' k o' ph. rewrite lookup_insert_Some. intros [[<- [= <- <- <-]] | [_ Hin]]; [apply lookup_insert_eq|].
    rewrite lookup_insert_ne; [by eapply Hm|]. intros <-. by rewrite (Hm _ _ _ _ Hin) in Hk.
  - intros k o'. rewrite lookup_insert_Some. intros [[<- <-] | [Hne Hk']].
    + rewrite lookup_insert_eq. eexists. split; [done|]. cbn. rewrite users_insert, decide_True by done. lia.
    + destruct (Hr k o' Hk') as (l' & Hl' & Hr' & Hp').
      rewrite lookup_insert_ne by (intros <-; by destruct (Hno k)). exists l'. split; [done|].
      rewrite users_insert, decide_False by (done || (intros <-; by destruct (Hno k))). split; lia.
  - intros k1 k2 o'. rewrite !lookup_insert_Some.
    intros [[<- <-] | [? H1]] [[<- H2] | [? H2]]; try done; [by destruct (Hno k2)|subst; by destruct (Hno k1)|by eapply Hi].
  - intros o' l' t'. rewrite lookup_insert_Some. intros [[<- <-] | [Hne Hl']]; cbn.
    + split; [done|]. intros [k Hk2]. apply lookup_insert_Some in Hk2 as [[_ ?] | [_ Hk2]]; [done|].
      by destruct (Hno k), (Hm _ _ _ _ Hk2).
    + rewrite (Hh o' l' t' Hl'). setoid_rewrite lookup_insert_Some. split; [|naive_solver].
      intros [k Hk2]. exists k. right. split; [by intros ->; rewrite Ht in Hk2|done].
Qed.

Lemma reference_ok t key s s' : locks_ok s → lock_reference t key s = Some s' → locks_ok s'.
Proof.
  intros Hs. unfold lock_reference. destruct (inside s !! t) eqn:Ht; [done|].
  destruct (locks s !! key) as [o|] eqn:Hk; intros [= <-].
  - destruct (lk_refs s Hs key o Hk) as (l & Hl & _). rewrite Hl. by apply reference_known_ok.
  - apply reference_new_ok; try done. apply not_elem_of_dom. apply is_fresh.
Qed.

(** A handler takes or leaves the mutex. *)
Lemma mutex_ok t key o ph ph' l h s :
  locks_ok s → inside s !! t = Some (key, o, ph) → heap s !! o = Some l →
  (held l = None ∨ held l = Some t) → h = (if decide (ph' = Holding) then Some t else None) →
  locks_ok (mkLocks (locks s) (<[o := mkLock h (refs l)]> (heap s)) (<[t := (key, o, ph')]> (inside s))).
Proof.
  intros [Hm Hr Hi Hh] Ht Hl Hheld ->.
  assert (∀ o', users (<[t := (key, o, ph')]> (inside s)) o' = users (inside s) o') as Hu
    by (intros o'; by apply (users_update _ _ _ _ _ Ht)).
  split; cbn.
  - intros t' k o' ph0. rewrite lookup_insert_Some. intros [[<- [= <- <- <-]] | [_ Hin]]; by eapply Hm.
  - intros k o' Hk. destruct (Hr k o' Hk) as (l' & Hl' & Hr' & Hp'). rewrite Hu. destruct (decide (o' = o)) as [->|Hne].
    + rewrite lookup_insert_eq. rewrite Hl in Hl'. injection Hl' as <-. eexists. by split.
    + rewrite lookup_insert_ne by done. by exists l'.
  - apply Hi.
  - intros o' l' t'. rewrite lookup_insert_Some. intros [[<- <-] | [Hne Hl']]; cbn.
    + split.
      * case_decide as Hph; intros [= <-]. exists key. by rewrite lookup_insert_eq, Hph.
      * intros [k Hk]. apply lookup_insert_Some in Hk as [[<- [= -> ->]] | [Hne Hk]]; [by rewrite decide_True|].
        assert (held l = Some t') as Hx by (apply (Hh o l t' Hl); by exists k). destruct Hheld; congruence.
    + rewrite (Hh o' l' t' Hl'). split; intros [k Hk].
      * exists k. apply lookup_insert_Some. right. split; [|done]. intros <-. congruence.
      * apply lookup_insert_Some in Hk as [[_ [= _ ? _]] | [_ Hk]]; [done|by exists k].
Qed.

Lemma lock_mutex_ok t s s' : locks_ok s → lock_mutex t s = Some s' → locks_ok s'.
Proof.
  intros Hs. unfold lock_mutex. destruct (inside s !! t) as [[[key o] ph]|] eqn:Ht; cbn; [|done].
  destruct (heap s !! o) as [l|] eqn:Hl; cbn; [|done].
  destruct ph, (held l) eqn:Hh; try done. intros [= <-]. apply (mutex_ok t key o Waiting Holding l); auto.
Qed.

Lemma unlock_mutex_ok t s s' : locks_ok s → unlock_mutex t s = Some s' → locks_ok s'.
Proof.
  intros Hs. unfold unlock_mutex. destruct (inside s !! t) as [[[key o] ph]|] eqn:Ht; cbn; [|done].
  destruct (heap s !! o) as [l|] eqn:Hl; cbn; [|done]. destruct ph; try done. intros [= <-].
  apply (mutex_ok t key o Holding Releasing l); auto. right. apply (lk_held s Hs o l t Hl). by exists key.
Qed.

Lemma unlock_reference_ok t s s' : locks_ok s → unlock_reference t s = Some s' → locks_ok s'.
Proof.
  intros [Hm Hr Hi Hh]. unfold unlock_reference. destruct (inside s !! t) as [[[key o] ph]|] eqn:Ht; cbn; [|done].
  destruct (heap s !! o) as [l|] eqn:Hl; cbn; [|done]. destruct ph; try done. intros [= <-].
  pose proof (Hm _ _ _ _ Ht) as Hk. destruct (Hr key o Hk) as (l0 & Hl0 & Hrefs & Hpos).
  rewrite Hl in Hl0. injection Hl0 as <-.
  assert (∀ o', users (inside s) o' = users (delete t (inside s)) o' + if decide (o = o') then 1 else 0)%nat as Hu
    by (intros o'; apply (users_delete _ _ _ o' Ht)).
  assert (∀ k o', (if (refs l - 1 =? 0)%nat then delete key (locks s) else locks s) !! k = Some o' → locks s !! k = Some o'
    ∧ ((refs l - 1 =? 0)%nat = true → k ≠ key)) as Hmap.
  { intros k o'. destruct (refs l - 1 =? 0)%nat; [rewrite lookup_delete_Some; naive_solver|done]. }
  split; cbn.
  - intros t' k o' ph. rewrite lookup_delete_Some. intros [Hne Hin]. pose proof (Hm _ _ _ _ Hin) as Hk'.
    destruct (refs l - 1 =? 0)%nat eqn:Hz; [|done]. apply lookup_delete_Some. split; [|done]. intros <-.
    rewrite Hk in Hk'. injection Hk' as <-. apply Nat.eqb_eq in Hz. specialize (Hu o). rewrite decide_True in Hu by done.
    pose proof (users_pos (delete t (inside s)) t' (key, o, ph)) as Hp. rewrite lookup_delete_ne in Hp by done.
    specialize (Hp Hin). unfold user_lock in Hp. cbn in Hp. lia.
  - intros k o' [Hk' Hz]%Hmap. destruct (Hr k o' Hk') as (l' & Hl' & Hr' & Hp'). specialize (Hu o').
    destruct (decide (o' = o)) as [->|Hne].
    + rewrite lookup_insert_eq. eexists. split; [done|]. cbn. rewrite decide_True in Hu by done.
      split; [lia|]. destruct (refs l - 1)%nat eqn:Hn; [|lia]. by destruct Hz, (Hi k key o).
    + rewrite lookup_insert_ne by done. exists l'. rewrite decide_False in Hu by done. split; [done|]. lia.
  - intros k1 k2 o' [H1 _]%Hmap [H2 _]%Hmap. by eapply Hi.
  - intros o' l' t'. assert (∀ l0, heap s !! o' = Some l0 → held l0 = Some t' ↔
      ∃ k, delete t (inside s) !! t' = Some (k, o', Holding)) as Hinv.
    { intros l0 Hl0. rewrite (Hh o' l0 t' Hl0). setoid_rewrite lookup_delete_Some. split; [|naive_solver].
      intros [k Hk2]. exists k. split; [|done]. intros ->. congruence. }
    rewrite lookup_insert_Some. intros [[<- <-] | [Hne Hl']]; [exact (Hinv l Hl)|exact (Hinv l' Hl')].
Qed.

Lemma lock_reachable_ok s : lock_reachable s → locks_ok s.
Proof.
  intros Hs. refine (rtc_invariant _ _ _ _ _ Hs no_locks_ok). intros s1 s2 Hst Hok.
  destruct Hst; eauto using reference_ok, lock_mutex_ok, unlock_mutex_ok, unlock_reference_ok.
Qed.

(** ** Keys *)

Definition no_colon (c : ascii) : bool := negb (c =a ":")%char.

Lemma pretty_N_char_no_colon x : no_colon (pretty_N_char x) = true.
Proof. destruct x as [|p]; [done|]. by do 4 (destruct p as [p|p|]; try done). Qed.

Lemma pretty_N_go_no_colon x s : sforallb no_colon s = true → sforallb no_colon (pretty_N_go x s) = true.
Proof.
  revert s. induction x as [x IH] using (well_founded_induction N.lt_wf_0). intros s Hs.
  destruct (N.eq_0_gt_0_cases x) as [->|Hx]; [by rewrite pretty_N_go_0|].
  rewrite pretty_N_go_step by done. apply IH; [by apply N.div_lt|]. cbn [sforallb].
  by rewrite pretty_N_char_no_colon.
Qed.

Lemma fmt_d_no_colon n : sforallb no_colon (fmt_d n) = true.
Proof.
  unfold fmt_d, pretty, pretty_N. case_decide; [done|]. by apply pretty_N_go_no_colon.
Qed.

Lemma split_at_colon a b a' b' :
  sforallb no_colon a = true → sforallb no_colon a' = true →
  a +:+ ":" +:+ b = a' +:+ ":" +:+ b' → a = a' ∧ b = b'.
Proof.
  revert a'. induction a as [|c a IH]; intros [|c' a'] Ha Ha'; rewrite ?sapp_cons, ?sapp_nil_l; cbn in *.
  - intros [= ->]. done.
  - intros [= <- _]. done.
  - intros [= -> _]. done.
  - apply andb_true_iff in Ha as [_ Ha], Ha' as [_ Ha']. intros [= -> H]. by destruct (IH a' Ha Ha' H) as [-> ->].
Qed.

Lemma lock_key_inj uid uid' id id' :
  0 ≤ uid → 0 ≤ uid' → lock_key uid id = lock_key uid' id' → uid = uid' ∧ id = id'.
Proof.
  unfold lock_key. intros H1 H2 H. apply split_at_colon in H as [H ->]; [|apply fmt_d_no_colon..].
  apply (inj pretty) in H. split; [lia|done].
Qed.

(** C22. Per-command locking. In every reachable state of the lock map, for any
    number of handlers interleaved in any way: two handlers never hold the lock
    of the same command; the map has an entry exactly for the commands some
    handler is inside for, so it neither leaks nor drops a lock in use; a
    handler that waits can proceed or another one holds the lock of the same
    command; and different commands or callers have different keys. *)
Theorem request_lock_contract s :
  lock_reachable s →
  (∀ t1 t2 key o1 o2, inside s !! t1 = Some (key, o1, Holding) → inside s !! t2 = Some (key, o2, Holding) → t1 = t2) ∧
  (∀ key, is_Some (locks s !! key) ↔ ∃ t o ph, inside s !! t = Some (key, o, ph)) ∧
  (∀ t key o, inside s !! t = Some (key, o, Waiting) →
     is_Some (lock_mutex t s) ∨ ∃ t', t' ≠ t ∧ inside s !! t' = Some (key, o, Holding)) ∧
  (∀ uid uid' id id', 0 ≤ uid → 0 ≤ uid' → lock_key uid id = lock_key uid' id' → uid = uid' ∧ id = id').
Proof.
  intros [Hm Hr Hi Hh]%lock_reachable_ok. split; [|split; [|split; [|by intros; apply lock_key_inj]]].
  - intros t1 t2 key o1 o2 H1 H2. pose proof (Hm _ _ _ _ H1) as Hk1. pose proof (Hm _ _ _ _ H2) as Hk2.
    rewrite Hk1 in Hk2. injection Hk2 as <-. destruct (Hr key o1 Hk1) as (l & Hl & _).
    assert (held l = Some t1) as Ht1 by (apply (Hh o1 l t1 Hl); by exists key).
    assert (held l = Some t2) as Ht2 by (apply (Hh o1 l t2 Hl); by exists key). congruence.
  - intros key. split.
    + intros [o Ho]. destruct (Hr key o Ho) as (l & Hl & Hrefs & Hpos). rewrite Hrefs in Hpos. unfold users in Hpos.
      destruct (map_choose (filter (λ p, user_lock p.2 = o) (inside s))) as (t & [[k o'] ph] & Hin).
      { intros Hemp. rewrite Hemp in Hpos. by apply Nat.lt_irrefl in Hpos. }
      apply map_lookup_filter_Some in Hin as [Hin Heq]. cbn in Heq. subst o'.
      rewrite (Hi key k o Ho (Hm _ _ _ _ Hin)). eauto.
    + intros (t & o & ph & Hin). rewrite (Hm _ _ _ _ Hin). by eexists.
  - intros t key o Hin. destruct (Hr key o (Hm _ _ _ _ Hin)) as (l & Hl & _). unfold lock_mutex. rewrite Hin. cbn.
    rewrite Hl. cbn. destruct (held l) as [t'|] eqn:Hheld; [|left; by eexists]. right. exists t'.
    apply (Hh o l t' Hl) in Hheld as [k Hk]. pose proof (Hi _ _ _ (Hm _ _ _ _ Hin) (Hm _ _ _ _ Hk)) as <-.
    split; [|done]. intros ->. congruence.
Qed.

(** Two handlers of one command: the second waits until the first has left. *)
Definition example_locks : option lock_state :=
  s1 ← lock_reference 1 "1000:c-1" no_locks;
  s2 ← lock_mutex 1 s1;
  lock_reference 2 "1000:c-1" s2.

Lemma request_lock_contract_witness :
  ∃ s, example_locks = Some s ∧ lock_mutex 2 s = None ∧
    (∀ t2 o2, inside s !! t2 = Some ("1000:c-1", o2, Holding) → 1%nat = t2) ∧ is_Some (locks s !! "1000:c-1").
Proof.
  destruct (lock_reference 1 "1000:c-1" no_locks) as [s1|] eqn:H1; [|by vm_compute in H1].
  destruct (lock_mutex 1 s1) as [s2|] eqn:H2; [|by vm_compute in H1; injection H1 as <-; vm_compute in H2].
  destruct (lock_reference 2 "1000:c-1" s2) as [s3|] eqn:H3;
    [|by vm_compute in H1; injection H1 as <-; vm_compute in H2; injection H2 as <-; vm_compute in H3].
  assert (lock_reachable s3) as Hr.
  { eapply rtc_l; [by apply (step_reference _ _ 1 "1000:c-1")|]. eapply rtc_l; [by apply (step_mutex _ _ 1)|].
    eapply rtc_l; [by apply (step_reference _ _ 2 "1000:c-1")|]. apply rtc_refl. }
  exists s3. split; [unfold example_locks; by rewrite H1; cbn; rewrite H2|].
  assert (∃ o1, inside s3 !! 1%nat = Some ("1000:c-1", o1, Holding) ∧ lock_mutex 2 s3 = None) as (o1 & Hin & Hn).
  { vm_compute in H1. injection H1 as <-. vm_compute in H2. injection H2 as <-. vm_compute in H3. injection H3 as <-.
    eexists. by split. }
  destruct (request_lock_contract s3 Hr) as (Hx & Hl & _). split; [done|]. split.
  - intros t2 o2 H. by apply (Hx 1%nat t2 "1000:c-1" o1 o2).
  - apply Hl. by exists 1%nat, o1, Holding.
Defined.
