(* ===== verification/Schema.v ===== *)
(** * Schema: [json.Unmarshal] into generated Go types

    The types of [hack/openapi] are data of this file: a small universe of Go
    types with its values and one decoder, directed by the type, that follows
    [encoding/json]: pointers are allocated unless the value is null, a repeated
    key decodes over the value already there (a slice reuses its elements),
    unknown keys are ignored, and a type error is saved while decoding goes on. *)
From S2P Require Import Prelude Utf8 Json JsonValidation.
Open Scope Z_scope.

(** ** Types and values *)

Inductive gotype : Type :=
| TString
| TBool
| TInt (bits : Z)
| TFloat64
| TFloat32
| TAny
| TAnyMap
| TSlice (t : gotype)
| TPtr (t : gotype)
| TStruct (fields : list (string * gotype)).

(** A slice is its length and the elements of its backing array that were ever
    written; what lies beyond them is zero. *)
Inductive goval : Type :=
| VString (s : string)
| VBool (b : bool)
| VInt (z : Z)
| VFloat (lit : string)
| VAny (v : json)
| VMap (m : list (string * json))
| VSlice (len : nat) (backing : list goval)
| VPtr (v : option goval)
| VStruct (fields : list (string * goval)).

Section gotype_induction.
Context (P : gotype → Prop).
Context (Hs : P TString) (Hb : P TBool) (Hi : ∀ b, P (TInt b)) (Hf : P TFloat64) (Hf32 : P TFloat32).
Context (Ha : P TAny) (Hm : P TAnyMap).
Context (Hl : ∀ t, P t → P (TSlice t)) (Hp : ∀ t, P t → P (TPtr t)).
Context (Ht : ∀ fs, Forall (λ f, P f.2) fs → P (TStruct fs)).

Lemma gotype_ind' t : P t.
Proof.
  revert t. fix IH 1. intros [| |b| | | | |t|t|fs].
  - exact Hs.
  - exact Hb.
  - exact (Hi b).
  - exact Hf.
  - exact Hf32.
  - exact Ha.
  - exact Hm.
  - apply Hl, IH.
  - apply Hp, IH.
  - apply Ht. induction fs as [|[n t] fs IHfs]; constructor; [apply IH|exact IHfs].
Qed.
End gotype_induction.

Fixpoint zero (t : gotype) : goval :=
  match t with
  | TString => VString ""
  | TBool => VBool false
  | TInt _ => VInt 0
  | TFloat64 | TFloat32 => VFloat "0"
  | TAny => VAny JNull
  | TAnyMap => VMap []
  | TSlice _ => VSlice 0 []
  | TPtr _ => VPtr None
  | TStruct fs => VStruct (map (λ f, (f.1, zero f.2)) fs)
  end.

(** ** Decoding *)

(** [strconv.ParseInt] on a JSON number: no fraction, no exponent. *)
Definition parse_int (lit : string) : option Z :=
  let '(neg, s) := strip_sign lit in
  let '(d, r) := span_digits s in
  if negb (streq d "") && streq r "" then Some (if neg then - digits_value 0 d else digits_value 0 d) else None.

(** [strconv.ParseFloat] for 32 bits: the least magnitude that rounds to infinity
    is half way between the largest finite value and 2^128. *)
Definition float32_limit : Z := 2 ^ 128 - 2 ^ 103.
Definition number_overflows32 (lit : string) : bool :=
  let '(m, e) := number_parts lit in
  if m =? 0 then false
  else if 0 <=? e then (40 <=? e) || (float32_limit <=? m * 10 ^ e)
  else float32_limit * 10 ^ (- e) <=? m.
Example float32_ex : (number_overflows32 "3.4028235e38", number_overflows32 "3.4028236e38", number_overflows32 "1e39")
  = (false, true, true).
Proof. vm_compute. reflexivity. Qed.

Definition fits (bits z : Z) : bool := (- 2 ^ (bits - 1) <=? z) && (z <? 2 ^ (bits - 1)).

(** The loop over the elements of an array: the k-th element is decoded over
    the k-th element of the backing array. *)
Fixpoint decode_elems (dec : json → goval → decoded goval) (z : goval) (vs : list json) (backing : list goval)
  : decoded (list goval) :=
  match vs with
  | [] => (backing, true)
  | v :: vs' =>
      let '(old, rest) := match backing with [] => (z, []) | x :: b => (x, b) end in
      let '(x, ok) := dec v old in
      let '(xs, oks) := decode_elems dec z vs' rest in
      (x :: xs, ok && oks)
  end.

(** The assignment to one field of a struct. *)
Definition set_member (dec : gotype → json → goval → decoded goval) (name : string) (w : json)
  : list (string * gotype) → list (string * goval) → decoded (list (string * goval)) :=
  fix go fs olds :=
    match fs, olds with
    | (n, t') :: fs', (n', x) :: olds' =>
        if streq n name then let '(y, ok) := dec t' w x in ((n', y) :: olds', ok)
        else let '(r, ok) := go fs' olds' in ((n', x) :: r, ok)
    | _, _ => (olds, true)
    end.

Fixpoint decode_into (t : gotype) (v : json) (old : goval) {struct t} : decoded goval :=
  match t, v with
  | TPtr _, JNull => (VPtr None, true)
  | TPtr t', _ =>
      map_decoded (VPtr ∘ Some) (decode_into t' v (match old with VPtr (Some x) => x | _ => zero t' end))
  | TSlice _, JNull => (VSlice 0 [], true)
  | TSlice _, JArr [] => (VSlice 0 [], true)
  | TSlice t', JArr l =>
      map_decoded (VSlice (length l))
        (decode_elems (decode_into t') (zero t') l (match old with VSlice _ b => b | _ => [] end))
  | TAny, _ => (VAny v, numbers_in_range v)
  | TAnyMap, JNull => (VMap [], true)
  | TAnyMap, JObj ms =>
      (VMap (match old with VMap m => m | _ => [] end ++ map (λ m, (mkey m, mval m)) ms),
       forallb (λ m, numbers_in_range (mval m)) ms)
  | _, JNull => (old, true)
  | TString, JStr s => (VString s, true)
  | TBool, JBool b => (VBool b, true)
  | TInt bits, JNum lit =>
      match parse_int lit with
      | Some z => if fits bits z then (VInt z, true) else (old, false)
      | None => (old, false)
      end
  | TFloat64, JNum lit => if number_overflows lit then (old, false) else (VFloat lit, true)
  | TFloat32, JNum lit => if number_overflows32 lit then (old, false) else (VFloat lit, true)
  | TStruct fs, JObj ms =>
      map_decoded VStruct
        (decode_fields false (map fst fs) (λ name _ w olds, set_member decode_into name w fs olds) ms (match old with VStruct olds => olds | _ => [] end))
  | _, _ => (old, false)
  end.

Definition unmarshal (t : gotype) (doc : string) : option goval :=
  v ← parse_document doc;
  let '(x, ok) := decode_into t v (zero t) in
  if ok then Some x else None.

(** [json.Unmarshal] into a [map[string]json.RawMessage]: the members in order. *)
Definition unmarshal_shape (doc : string) : option (list member) :=
  v ← parse_document doc;
  match v with JObj ms => Some ms | JNull => Some [] | _ => None end.

Definition shape_lookup (key : string) (ms : list member) : option string :=
  foldl (λ acc m, if streq (mkey m) key then Some (mraw m) else acc) None ms.

Definition starts_array (s : string) : bool :=
  match s with String c _ => (c =a "[")%char | EmptyString => false end.

(** ** Reading a value *)

Definition assoc {A} (k : string) (l : list (string * A)) : option A :=
  snd <$> find (λ p, streq p.1 k) l.
Definition field (name : string) (v : goval) : option goval :=
  match v with VStruct fs => assoc name fs | _ => None end.
Definition deref (v : option goval) : option goval :=
  match v with Some (VPtr p) => p | _ => None end.
Definition as_string (v : option goval) : option string :=
  match v with Some (VString s) => Some s | _ => None end.
Definition as_int (v : option goval) : option Z :=
  match v with Some (VInt z) => Some z | _ => None end.
Definition as_bool (v : option goval) : option bool :=
  match v with Some (VBool b) => Some b | _ => None end.
Definition as_slice (v : option goval) : option (list goval) :=
  match v with Some (VSlice n b) => Some (take n b) | _ => None end.

(** A field of type [*string], [*int], [*[]T]. *)
Definition opt_string (name : string) (v : goval) : option string := as_string (deref (field name v)).
Definition opt_int (name : string) (v : goval) : option Z := as_int (deref (field name v)).
Definition opt_slice (name : string) (v : goval) : option (list goval) := as_slice (deref (field name v)).
(** A slice of strings, a field of type [string]. *)
Definition strings_of (l : list goval) : list string := omap (λ v, as_string (Some v)) l.
Definition string_field (name : string) (v : goval) : string := default "" (as_string (field name v)).
Definition slice_field (name : string) (v : goval) : list goval := default [] (as_slice (field name v)).

(** ** Typing *)

Definition fields_typed (ht : gotype → goval → bool)
  : list (string * gotype) → list (string * goval) → bool :=
  fix go fs xs :=
    match fs, xs with
    | [], [] => true
    | (n, t') :: fs', (n', y) :: xs' => streq n n' && ht t' y && go fs' xs'
    | _, _ => false
    end.

Fixpoint has_type (t : gotype) (x : goval) {struct t} : bool :=
  match t, x with
  | TString, VString _ => true
  | TBool, VBool _ => true
  | TInt bits, VInt z => fits bits z || (z =? 0)
  | TFloat64, VFloat _ | TFloat32, VFloat _ => true
  | TAny, VAny _ => true
  | TAnyMap, VMap _ => true
  | TSlice t', VSlice n b => (n <=? length b)%nat && forallb (has_type t') b
  | TPtr t', VPtr None => true
  | TPtr t', VPtr (Some y) => has_type t' y
  | TStruct fs, VStruct xs => fields_typed has_type fs xs
  | _, _ => false
  end.

Lemma zero_typed t : has_type t (zero t) = true.
Proof.
  induction t as [| |b| | | | |t _|t _|fs IH] using gotype_ind'; try done.
  - cbn. by rewrite orb_true_r.
  - cbn. induction IH as [|[n t] fs Ht _ IHfs]; [done|]. cbn in *. by rewrite streq_refl, Ht, IHfs.
Qed.

Lemma decode_elems_typed t dec vs backing :
  (∀ v old, has_type t old = true → has_type t (dec v old).1 = true) →
  forallb (has_type t) backing = true →
  forallb (has_type t) (decode_elems dec (zero t) vs backing).1 = true
  ∧ (length vs ≤ length (decode_elems dec (zero t) vs backing).1)%nat.
Proof.
  intros Hd. revert backing. induction vs as [|v vs IH]; intros backing Hb; cbn; [split; [done|lia]|].
  destruct backing as [|x b]; cbn in Hb.
  - pose proof (Hd v (zero t) (zero_typed t)) as Hx. destruct (dec v (zero t)) as [y ok].
    destruct (IH [] eq_refl) as [H1 H2]. destruct (decode_elems dec (zero t) vs []) as [ys oks]. cbn in *.
    rewrite Hx. split; [done|lia].
  - apply andb_true_iff in Hb as [Hx Hb]. apply (Hd v) in Hx. destruct (dec v x) as [y ok].
    destruct (IH b Hb) as [H1 H2]. destruct (decode_elems dec (zero t) vs b) as [ys oks]. cbn in *.
    rewrite Hx. split; [done|lia].
Qed.

Lemma set_member_typed fs name w olds :
  Forall (λ f : string * gotype, ∀ v old, has_type f.2 old = true → has_type f.2 (decode_into f.2 v old).1 = true) fs →
  fields_typed has_type fs olds = true →
  fields_typed has_type fs (set_member decode_into name w fs olds).1 = true.
Proof.
  intros Hd. revert olds. induction Hd as [|[n t] fs Ht _ IH]; intros [|[n' x] olds]; try done.
  cbn. intros H. apply andb_true_iff in H as [H Hr]. apply andb_true_iff in H as [Hn Hx].
  destruct (streq n name).
  - pose proof (Ht w x Hx) as Hy. cbn in Hy. destruct (decode_into t w x) as [y ok]. cbn in *. by rewrite Hn, Hy, Hr.
  - specialize (IH olds Hr). destruct (set_member decode_into name w fs olds) as [r ok]. cbn in *. by rewrite Hn, Hx, IH.
Qed.

Lemma decode_into_typed t v old : has_type t old = true → has_type t (decode_into t v old).1 = true.
Proof.
  revert v old. induction t as [| |b| | | | |t IH|t IH|fs IH] using gotype_ind'; intros v old Ho.
  1-2: by destruct v.
  - destruct v as [| |lit| | |]; try done. cbn [decode_into]. destruct (parse_int lit) as [z|]; [|done].
    destruct (fits b z) eqn:Hf; [|done]. cbn. by rewrite Hf.
  - destruct v as [| |lit| | |]; try done. cbn. by destruct (number_overflows lit).
  - destruct v as [| |lit| | |]; try done. cbn. by destruct (number_overflows32 lit).
  - done.
  - by destruct v.
  - destruct v as [| | | |l|]; try done. destruct l as [|v l]; [done|]. cbn [decode_into map_decoded fst].
    assert (forallb (has_type t) (match old with VSlice _ b => b | _ => [] end) = true) as Hb.
    { destruct old; try done. cbn in Ho. by apply andb_true_iff in Ho as [_ ?]. }
    destruct (decode_elems_typed t (decode_into t) (v :: l) _ IH Hb) as [H1 H2]. cbn [has_type].
    rewrite H1, andb_true_r. by apply Nat.leb_le.
  - assert (has_type t (match old with VPtr (Some x) => x | _ => zero t end) = true) as Hp.
    { destruct old as [| | | | | | |[x|]|]; try done; try apply zero_typed. }
    destruct v; [done|..]; cbn; by apply IH.
  - destruct v as [| | | | |ms]; try done. cbn [decode_into map_decoded fst has_type].
    assert (fields_typed has_type fs (match old with VStruct olds => olds | _ => [] end) = true) as Hf by (by destruct old).
    unfold decode_fields. generalize true at 1 as ok. revert Hf.
    generalize (match old with VStruct olds => olds | _ => [] end) as st. clear Ho old.
    induction ms as [|m ms IHm]; intros st Hf ok; [done|]. cbn [foldl].
    destruct (find_field (map fst fs) (mkey m)) as [f|]; [|by apply IHm].
    pose proof (set_member_typed fs f (mval m) st IH Hf) as Hs. cbn [fst].
    destruct (set_member decode_into f (mval m) fs st) as [st' ok']. by apply IHm.
Qed.

Lemma unmarshal_typed t doc x : unmarshal t doc = Some x → has_type t x = true.
Proof.
  unfold unmarshal. destruct (parse_document doc) as [v|]; cbn; [|done].
  pose proof (decode_into_typed t v (zero t) (zero_typed t)) as H.
  destruct (decode_into t v (zero t)) as [y [|]]; [|done]. by intros [= <-].
Qed.

Lemma unmarshal_shape_Some doc ms :
  unmarshal_shape doc = Some ms →
  parse_document doc = Some (JObj ms) ∨ parse_document doc = Some JNull ∧ ms = [].
Proof.
  unfold unmarshal_shape. generalize (parse_document doc). intros [[| | | | |ms']|]; try done; cbn; intros [= <-]; auto.
Qed.

#[global] Arguments unmarshal : simpl never.
#[global] Arguments has_type : simpl never.
#[global] Arguments decode_into : simpl never.
