(* ===== verification/SchemaFacts.v ===== *)
(** * SchemaFacts: decoding a struct field by field

    The decoder of Schema.v walks through the members of an object and looks the
    field of each one up by its name, exactly or up to the case of its letters.
    When no two names of a struct are equal up to case, this is the same as
    decoding every field by itself from the members that address it. *)
From S2P Require Import Prelude Utf8 Json JsonValidation Schema.
Open Scope Z_scope.

(** ** The reference decoder *)

(** The values of the members that address the field [n], in their order. *)
Definition addressed (n : string) (ms : list member) : list json :=
  map mval (filter (λ m, fold_name n = fold_name (mkey m)) ms).

(** One value after the other is decoded over what is there. *)
Definition decode_seq (dec : json → goval → decoded goval) (ws : list json) (x : goval) : decoded goval :=
  foldl (λ acc w, let '(y, ok) := dec w acc.1 in (y, acc.2 && ok)) (x, true) ws.

Definition by_field (dec : gotype → json → goval → decoded goval) (ms : list member)
  : list (string * gotype) → list (string * goval) → decoded (list (string * goval)) :=
  fix go fs olds :=
    match fs, olds with
    | (n, t) :: fs', (n', x) :: olds' =>
        let '(y, ok) := decode_seq (dec t) (addressed n ms) x in
        let '(r, oks) := go fs' olds' in ((n', y) :: r, ok && oks)
    | _, _ => (olds, true)
    end.

Fixpoint decode_ref (t : gotype) (v : json) (old : goval) {struct t} : decoded goval :=
  match t, v with
  | TPtr _, JNull => (VPtr None, true)
  | TPtr t', _ =>
      map_decoded (VPtr ∘ Some) (decode_ref t' v (match old with VPtr (Some x) => x | _ => zero t' end))
  | TSlice _, JNull | TSlice _, JArr [] => (VSlice 0 [], true)
  | TSlice t', JArr l =>
      map_decoded (VSlice (length l))
        (decode_elems (decode_ref t') (zero t') l (match old with VSlice _ b => b | _ => [] end))
  | TStruct fs, JObj ms =>
      map_decoded VStruct (by_field decode_ref ms fs (match old with VStruct olds => olds | _ => [] end))
  | _, _ => decode_into t v old
  end.

(** The names of every struct inside a type are distinct up to case. *)
Definition distinct_fields (distinct : gotype → bool) (fs : list (string * gotype)) : bool :=
  bool_decide (NoDup (map (λ f, fold_name f.1) fs)) && forallb (λ f, distinct f.2) fs.
Fixpoint distinct (t : gotype) : bool :=
  match t with
  | TPtr t' | TSlice t' => distinct t'
  | TStruct fs => distinct_fields distinct fs
  | _ => true
  end.

(** ** Looking a field up *)

Lemma find_field_none names key : find_field names key = None ↔ ∀ n, n ∈ names → fold_name n ≠ fold_name key.
Proof.
  unfold find_field. split.
  - intros H n Hn Hf. destruct (list_find (λ n, n = key) names) as [[? ?]|]; [done|].
    destruct (list_find (λ n, fold_name n = fold_name key) names) as [[? ?]|] eqn:He; [done|].
    apply list_find_None in He. rewrite Forall_forall in He. by apply (He n).
  - intros H. rewrite (proj2 (list_find_None _ names)), (proj2 (list_find_None _ names)); [done|..].
    + apply Forall_forall. intros n Hn. by apply H.
    + apply Forall_forall. intros n Hn ->. by apply (H key).
Qed.

Lemma find_field_cons n names key : NoDup (map fold_name (n :: names)) →
  find_field (n :: names) key = if decide (fold_name n = fold_name key) then Some n else find_field names key.
Proof.
  intros [Hn Hd]%NoDup_cons. unfold find_field. cbn [list_find].
  destruct (decide (n = key)) as [->|Hk]; [by rewrite decide_True|].
  destruct (decide (fold_name n = fold_name key)) as [Hf|Hf].
  - assert (list_find (λ n, n = key) names = None) as ->; [|done].
    apply list_find_None, Forall_forall. intros x Hx ->. apply Hn. rewrite Hf. by apply list_elem_of_fmap_2.
  - destruct (list_find (λ n, n = key) names) as [[i x]|]; [done|].
    by destruct (list_find (λ n, fold_name n = fold_name key) names) as [[i x]|].
Qed.

Lemma addressed_snoc n ms m :
  addressed n (ms ++ [m]) = addressed n ms ++ if decide (fold_name n = fold_name (mkey m)) then [mval m] else [].
Proof. unfold addressed. rewrite filter_app, map_app, filter_cons. by case_decide. Qed.

Lemma decode_seq_snoc dec ws w x :
  decode_seq dec (ws ++ [w]) x =
  let '(y, ok) := decode_seq dec ws x in let '(z, ok') := dec w y in (z, ok && ok').
Proof.
  unfold decode_seq. rewrite foldl_app. cbn. by destruct (foldl _ (x, true) ws).
Qed.

(** ** One more member *)

Lemma by_field_skip dec ms m fs olds : (∀ f, f ∈ fs → fold_name f.1 ≠ fold_name (mkey m)) →
  by_field dec (ms ++ [m]) fs olds = by_field dec ms fs olds.
Proof.
  revert olds. induction fs as [|[n t] fs IH]; intros [|[n' x] olds] H; try done. cbn.
  rewrite addressed_snoc, decide_False by (apply (H (n, t)); by left). rewrite app_nil_r.
  by rewrite IH by (intros f Hf; apply H; by right).
Qed.

Lemma by_field_snoc dec ms m fs olds : NoDup (map (λ f, fold_name f.1) fs) →
  by_field dec (ms ++ [m]) fs olds =
  let '(st, ok) := by_field dec ms fs olds in
  match find_field (map fst fs) (mkey m) with
  | Some f => let '(st', ok') := set_member dec f (mval m) fs st in (st', ok && ok')
  | None => (st, ok)
  end.
Proof.
  revert olds. induction fs as [|[n t] fs IH]; intros [|[n' x] olds] Hd;
    [destruct (find_field _ _); reflexivity..|cbn; by destruct (find_field (n :: map fst fs) (mkey m))|].
  - assert (NoDup (map fold_name (map fst ((n, t) :: fs)))) as Hd' by (by rewrite map_map).
    cbn [map fst]. rewrite find_field_cons by exact Hd'. apply NoDup_cons in Hd as [Hn Hd].
    cbn [by_field]. fold (by_field dec (ms ++ [m])) (by_field dec ms). rewrite addressed_snoc.
    destruct (decide (fold_name n = fold_name (mkey m))) as [Hf|Hf].
    + rewrite decode_seq_snoc, by_field_skip.
      2: { intros f Hin Heq. apply Hn. cbn [fst]. rewrite Hf, <-Heq.
        by apply (list_elem_of_fmap_2 (λ f, fold_name f.1)). }
      destruct (decode_seq (dec t) (addressed n ms) x) as [y ok]. destruct (by_field dec ms fs olds) as [r oks].
      cbn [set_member]. rewrite streq_refl. destruct (dec t (mval m) y) as [z ok']. f_equal. by rewrite <-!andb_assoc, (andb_comm ok').
    + rewrite app_nil_r, IH by done. destruct (decode_seq (dec t) (addressed n ms) x) as [y ok].
      destruct (by_field dec ms fs olds) as [r oks]. destruct (find_field (map fst fs) (mkey m)) as [f|] eqn:Hfind; [|done].
      cbn [set_member]. assert (streq n f = false) as ->.
      { apply streq_false. intros ->. apply Hn. apply find_field_elem in Hfind.
        apply list_elem_of_fmap in Hfind as (g & -> & Hg). by apply (list_elem_of_fmap_2 (λ f, fold_name f.1)) in Hg. }
      fold (set_member dec f (mval m)). destruct (set_member dec f (mval m) fs r) as [r' ok']. f_equal. by rewrite andb_assoc.
Qed.

(** The loop over the members is the loop over the fields. *)
Lemma decode_fields_by_field dec fs ms olds : NoDup (map (λ f, fold_name f.1) fs) →
  decode_fields false (map fst fs) (λ name _ w olds, set_member dec name w fs olds) ms olds = by_field dec ms fs olds.
Proof.
  intros Hd. induction ms as [|m ms IH] using rev_ind.
  - cbn. revert olds. induction fs as [|[n t] fs IH]; intros [|[n' x] olds]; try done. cbn.
    apply NoDup_cons in Hd as [_ Hd]. by rewrite <-IH.
  - rewrite by_field_snoc by done. rewrite <-IH. unfold decode_fields. rewrite foldl_app. cbn [foldl].
    destruct (foldl _ (olds, true) ms) as [st ok]. cbn [fst snd]. destruct (find_field _ _); [done|]. by rewrite andb_true_r.
Qed.

(** ** The two decoders agree *)

Lemma decode_elems_ext dec dec' z vs backing : (∀ v old, dec v old = dec' v old) →
  decode_elems dec z vs backing = decode_elems dec' z vs backing.
Proof.
  intros H. revert backing. induction vs as [|v vs IH]; intros backing; [done|]. cbn.
  destruct backing as [|x b]; rewrite H; destruct (dec' _ _); by rewrite IH.
Qed.

Lemma decode_seq_ext dec dec' ws x : (∀ v old, dec v old = dec' v old) → decode_seq dec ws x = decode_seq dec' ws x.
Proof.
  intros H. unfold decode_seq. generalize (x, true). induction ws as [|w ws IH]; intros acc; [done|]. cbn. by rewrite H.
Qed.

Lemma by_field_ext dec dec' ms fs olds :
  Forall (λ f : string * gotype, ∀ v old, dec f.2 v old = dec' f.2 v old) fs → by_field dec ms fs olds = by_field dec' ms fs olds.
Proof.
  intros H. revert olds. induction H as [|[n t] fs Ht _ IH]; intros [|[n' x] olds]; try done. cbn.
  rewrite (decode_seq_ext _ _ _ _ Ht). destruct (decode_seq _ _ x). by rewrite IH.
Qed.

Lemma decode_into_ref t v old : distinct t = true → decode_into t v old = decode_ref t v old.
Proof.
  revert v old. induction t as [| |b| | | | |t IH|t IH|fs IH] using gotype_ind'; intros v old Hd; try by destruct v.
  - destruct v as [| | | |l|]; try done. destruct l as [|v l]; [done|]. unfold decode_into, decode_ref.
    fold decode_into decode_ref. f_equal. apply decode_elems_ext. intros w x. by apply IH.
  - destruct v; [done|..]; unfold decode_into, decode_ref; fold decode_into decode_ref; f_equal; by apply IH.
  - destruct v as [| | | | |ms]; try done. cbn in Hd. unfold distinct_fields in Hd. apply andb_true_iff in Hd as [Hn Hds].
    apply bool_decide_eq_true in Hn. unfold decode_into, decode_ref. fold decode_into decode_ref.
    rewrite decode_fields_by_field by done. f_equal. apply by_field_ext.
    rewrite Forall_forall in IH |- *. intros f Hf w x. apply IH; [done|].
    rewrite forallb_forall in Hds. apply Hds. by apply list_elem_of_In.
Qed.

(** ** What a field holds *)

Lemma by_field_names dec ms fs olds : map fst (by_field dec ms fs olds).1 = map fst olds.
Proof.
  revert olds. induction fs as [|[n t] fs IH]; intros [|[n' x] olds]; try done. cbn.
  destruct (decode_seq _ _ x) as [y ok]. specialize (IH olds). fold (by_field dec ms). by destruct (by_field dec ms fs olds); cbn in *; rewrite IH.
Qed.

(** A struct that was zero holds in each field what the members that address it
    decode to, one over the other. *)
Lemma by_field_zero dec ms fs n t : NoDup (map (λ f, fold_name f.1) fs) → (n, t) ∈ fs →
  assoc n (by_field dec ms fs (map (λ f, (f.1, zero f.2)) fs)).1 = Some (decode_seq (dec t) (addressed n ms) (zero t)).1.
Proof.
  induction fs as [|[n' t'] fs IH]; intros Hd Hin; [by apply elem_of_nil in Hin|].
  cbn [map] in Hd. apply NoDup_cons in Hd as [Hn Hd]. cbn [map by_field]. fold (by_field dec ms). cbn [fst snd].
  destruct (decode_seq (dec t') (addressed n' ms) (zero t')) as [y ok] eqn:Hy.
  destruct (by_field dec ms fs (map (λ f, (f.1, zero f.2)) fs)) as [r oks]. unfold assoc. cbn [fst find].
  apply elem_of_cons in Hin as [[= -> ->]|Hin].
  - by rewrite streq_refl, Hy.
  - assert (streq n' n = false) as ->.
    { apply streq_false. intros ->. apply Hn. by apply (list_elem_of_fmap_2 (λ f, fold_name f.1)) in Hin. }
    exact (IH Hd Hin).
Qed.

(** It is decoded without an error when every field is. *)
Lemma by_field_ok dec ms fs :
  (by_field dec ms fs (map (λ f, (f.1, zero f.2)) fs)).2
  = forallb (λ f, (decode_seq (dec f.2) (addressed f.1 ms) (zero f.2)).2) fs.
Proof.
  induction fs as [|[n t] fs IH]; [done|]. cbn. rewrite <-IH. fold (by_field dec ms).
  destruct (decode_seq _ _ _) as [y ok]. by destruct (by_field dec ms fs _).
Qed.

(** A struct of which some fields are known to decode, and the others do. *)
Definition unread (fs : list (string * gotype)) (read : list string) (ms : list member) : Prop :=
  ∀ n t, (n, t) ∈ fs → n ∉ read → (decode_seq (decode_into t) (addressed n ms) (zero t)).2 = true.

Lemma decode_struct fs read ms : distinct (TStruct fs) = true → (∀ f, f ∈ read → f ∈ fs) →
  (∀ n t, (n, t) ∈ read → (decode_seq (decode_into t) (addressed n ms) (zero t)).2 = true) →
  unread fs (map fst read) ms →
  ∃ x, decode_into (TStruct fs) (JObj ms) (zero (TStruct fs)) = (x, true) ∧
    ∀ n t, (n, t) ∈ read → field n x = Some (decode_seq (decode_into t) (addressed n ms) (zero t)).1.
Proof.
  intros Hd Hsub Hread Hrest. cbn in Hd. unfold distinct_fields in Hd. apply andb_true_iff in Hd as [Hd _].
  apply bool_decide_eq_true in Hd.
  unfold decode_into. fold decode_into. cbn [zero]. rewrite decode_fields_by_field by done.
  pose proof (by_field_ok decode_into ms fs) as Hok.
  assert (forallb (λ f, (decode_seq (decode_into f.2) (addressed f.1 ms) (zero f.2)).2) fs = true) as Hall.
  { apply forallb_forall. intros [n t] Hin%list_elem_of_In. destruct (decide (n ∈ map fst read)) as [Hn|Hn]; [|by apply Hrest].
    apply list_elem_of_fmap in Hn as ([n' t'] & -> & Hr). cbn [fst snd] in *. apply Hread.
    replace t with t'; [done|]. pose proof (Hsub _ Hr) as Hr'.
    apply list_elem_of_lookup in Hin as [i Hi], Hr' as [j Hj].
    assert (i = j) as ->; [|congruence]. eapply NoDup_lookup; [exact Hd|..]; rewrite list_lookup_fmap, ?Hi, ?Hj; done. }
  rewrite Hall in Hok. destruct (by_field decode_into ms fs _) as [r ok] eqn:Hr. cbn in Hok. subst ok.
  eexists. split; [done|]. intros n t Hin. cbn [field].
  pose proof (by_field_zero decode_into ms fs n t Hd (Hsub _ Hin)) as Hf. by rewrite Hr in Hf.
Qed.

Lemma unmarshal_parsed t doc :
  unmarshal t doc = match parse_document doc with
                    | Some v => let '(x, ok) := decode_into t v (zero t) in if ok : bool then Some x else None
                    | None => None
                    end.
Proof. unfold unmarshal. by destruct (parse_document doc). Qed.

(** [json.Unmarshal] into a type with distinct names is the reference decoder. *)
Lemma unmarshal_ref t doc : distinct t = true →
  unmarshal t doc = v ← parse_document doc; let '(x, ok) := decode_ref t v (zero t) in if ok then Some x else None.
Proof.
  intros Hd. rewrite unmarshal_parsed. generalize (parse_document doc). intros [v|]; [|done]. cbn.
  by rewrite decode_into_ref.
Qed.

Lemma unmarshal_field fs doc ms x n t : distinct (TStruct fs) = true →
  parse_document doc = Some (JObj ms) → unmarshal (TStruct fs) doc = Some x → (n, t) ∈ fs →
  field n x = Some (decode_seq (decode_into t) (addressed n ms) (zero t)).1.
Proof.
  intros Hd Hp Hu Hin. cbn in Hd. unfold distinct_fields in Hd. apply andb_true_iff in Hd as [Hd _].
  apply bool_decide_eq_true in Hd. rewrite unmarshal_parsed, Hp in Hu.
  unfold decode_into in Hu. fold decode_into in Hu. cbn [zero] in Hu. rewrite decode_fields_by_field in Hu by done.
  rewrite <-(by_field_zero decode_into ms fs n t Hd Hin).
  destruct (by_field decode_into ms fs _) as [r [|]]; [|done]. cbn in Hu. by injection Hu as <-.
Qed.
