(* ===== verification/OpenApi.v ===== *)
(** * OpenApi: the generated types of Slurm's answers

    The types of [hack/openapi/slurm_openapi.gen.go] that the daemon decodes:
    the closure of [V0043OpenapiNodesResp] ([scontrol show nodes]) and of
    [V0043OpenapiUsersResp] ([sacctmgr show user]), field by field, with the
    JSON names of the struct tags. *)
From S2P Require Import Prelude Schema.
Open Scope Z_scope.

Definition V0043OpenapiError : gotype :=
  TStruct [
    ("description", TPtr TString);
    ("error", TPtr TString);
    ("error_number", TPtr (TInt 32));
    ("source", TPtr TString)
  ].

Definition V0043OpenapiErrors : gotype := TSlice V0043OpenapiError.

Definition V0043Uint64NoValStruct : gotype :=
  TStruct [
    ("infinite", TPtr TBool);
    ("number", TPtr (TInt 64));
    ("set", TPtr TBool)
  ].

Definition V0043StringArray : gotype := TSlice TString.

Definition V0043OpenapiMeta : gotype :=
  TStruct [
    ("client", TPtr (TStruct [
        ("group", TPtr TString);
        ("source", TPtr TString);
        ("user", TPtr TString)
      ]));
    ("command", TPtr V0043StringArray);
    ("plugin", TPtr (TStruct [
        ("accounting_storage", TPtr TString);
        ("data_parser", TPtr TString);
        ("name", TPtr TString);
        ("type", TPtr TString)
      ]));
    ("slurm", TPtr (TStruct [
        ("cluster", TPtr TString);
        ("release", TPtr TString);
        ("version", TPtr (TStruct [
            ("major", TPtr TString);
            ("micro", TPtr TString);
            ("minor", TPtr TString)
          ]))
      ]))
  ].

Definition V0043CsvString : gotype := TSlice TString.

Definition V0043NodeCertFlags : gotype := TString.

Definition V0043Uint32NoValStruct : gotype :=
  TStruct [
    ("infinite", TPtr TBool);
    ("number", TPtr (TInt 32));
    ("set", TPtr TBool)
  ].

Definition V0043AcctGatherEnergy : gotype :=
  TStruct [
    ("average_watts", TPtr (TInt 32));
    ("base_consumed_energy", TPtr (TInt 64));
    ("consumed_energy", TPtr (TInt 64));
    ("current_watts", TPtr V0043Uint32NoValStruct);
    ("last_collected", TPtr (TInt 64));
    ("previous_consumed_energy", TPtr (TInt 64))
  ].

Definition V0043NodeNextStateAfterReboot : gotype := TString.

Definition V0043NodeState : gotype := TString.

Definition V0043Node : gotype :=
  TStruct [
    ("active_features", TPtr V0043CsvString);
    ("address", TPtr TString);
    ("alloc_cpus", TPtr (TInt 32));
    ("alloc_idle_cpus", TPtr (TInt 32));
    ("alloc_memory", TPtr (TInt 64));
    ("architecture", TPtr TString);
    ("boards", TPtr (TInt 32));
    ("boot_time", TPtr V0043Uint64NoValStruct);
    ("burstbuffer_network_address", TPtr TString);
    ("cert_flags", TPtr (TSlice V0043NodeCertFlags));
    ("cluster_name", TPtr TString);
    ("comment", TPtr TString);
    ("cores", TPtr (TInt 32));
    ("cpu_binding", TPtr (TInt 32));
    ("cpu_load", TPtr (TInt 32));
    ("cpus", TPtr (TInt 32));
    ("effective_cpus", TPtr (TInt 32));
    ("energy", TPtr V0043AcctGatherEnergy);
    ("external_sensors", TPtr TAnyMap);
    ("extra", TPtr TString);
    ("features", TPtr V0043CsvString);
    ("free_mem", TPtr V0043Uint64NoValStruct);
    ("gpu_spec", TPtr TString);
    ("gres", TPtr TString);
    ("gres_drained", TPtr TString);
    ("gres_used", TPtr TString);
    ("hostname", TPtr TString);
    ("instance_id", TPtr TString);
    ("instance_type", TPtr TString);
    ("last_busy", TPtr V0043Uint64NoValStruct);
    ("mcs_label", TPtr TString);
    ("name", TPtr TString);
    ("next_state_after_reboot", TPtr (TSlice V0043NodeNextStateAfterReboot));
    ("operating_system", TPtr TString);
    ("owner", TPtr TString);
    ("partitions", TPtr V0043CsvString);
    ("port", TPtr (TInt 32));
    ("power", TPtr TAnyMap);
    ("real_memory", TPtr (TInt 64));
    ("reason", TPtr TString);
    ("reason_changed_at", TPtr V0043Uint64NoValStruct);
    ("reason_set_by_user", TPtr TString);
    ("res_cores_per_gpu", TPtr (TInt 32));
    ("reservation", TPtr TString);
    ("resume_after", TPtr V0043Uint64NoValStruct);
    ("slurmd_start_time", TPtr V0043Uint64NoValStruct);
    ("sockets", TPtr (TInt 32));
    ("specialized_cores", TPtr (TInt 32));
    ("specialized_cpus", TPtr TString);
    ("specialized_memory", TPtr (TInt 64));
    ("state", TPtr (TSlice V0043NodeState));
    ("temporary_disk", TPtr (TInt 32));
    ("threads", TPtr (TInt 32));
    ("tls_cert_last_renewal", TPtr V0043Uint64NoValStruct);
    ("topology", TPtr TString);
    ("tres", TPtr TString);
    ("tres_used", TPtr TString);
    ("tres_weighted", TPtr TFloat64);
    ("version", TPtr TString);
    ("weight", TPtr (TInt 32))
  ].

Definition V0043Nodes : gotype := TSlice V0043Node.

Definition V0043OpenapiWarning : gotype :=
  TStruct [
    ("description", TPtr TString);
    ("source", TPtr TString)
  ].

Definition V0043OpenapiWarnings : gotype := TSlice V0043OpenapiWarning.

Definition V0043OpenapiNodesResp : gotype :=
  TStruct [
    ("errors", TPtr V0043OpenapiErrors);
    ("last_update", V0043Uint64NoValStruct);
    ("meta", TPtr V0043OpenapiMeta);
    ("nodes", V0043Nodes);
    ("warnings", TPtr V0043OpenapiWarnings)
  ].

Definition V0043UserAdministratorLevel : gotype := TString.

Definition V0043AssocShort : gotype :=
  TStruct [
    ("account", TPtr TString);
    ("cluster", TPtr TString);
    ("id", TPtr (TInt 32));
    ("partition", TPtr TString);
    ("user", TString)
  ].

Definition V0043AssocShortList : gotype := TSlice V0043AssocShort.

Definition V0043Coord : gotype :=
  TStruct [
    ("direct", TPtr TBool);
    ("name", TString)
  ].

Definition V0043CoordList : gotype := TSlice V0043Coord.

Definition V0043UserFlags : gotype := TString.

Definition V0043Tres : gotype :=
  TStruct [
    ("count", TPtr (TInt 64));
    ("id", TPtr (TInt 32));
    ("name", TPtr TString);
    ("type", TString)
  ].

Definition V0043Accounting : gotype :=
  TStruct [
    ("TRES", TPtr V0043Tres);
    ("allocated", TPtr (TStruct [
        ("seconds", TPtr (TInt 64))
      ]));
    ("id", TPtr (TInt 32));
    ("id_alt", TPtr (TInt 32));
    ("start", TPtr (TInt 64))
  ].

Definition V0043AccountingList : gotype := TSlice V0043Accounting.

Definition V0043WckeyFlags : gotype := TString.

Definition V0043Wckey : gotype :=
  TStruct [
    ("accounting", TPtr V0043AccountingList);
    ("cluster", TString);
    ("flags", TPtr (TSlice V0043WckeyFlags));
    ("id", TPtr (TInt 32));
    ("name", TString);
    ("user", TString)
  ].

Definition V0043WckeyList : gotype := TSlice V0043Wckey.

Definition V0043User : gotype :=
  TStruct [
    ("administrator_level", TPtr (TSlice V0043UserAdministratorLevel));
    ("associations", TPtr V0043AssocShortList);
    ("coordinators", TPtr V0043CoordList);
    ("default", TPtr (TStruct [
        ("account", TPtr TString);
        ("wckey", TPtr TString)
      ]));
    ("flags", TPtr (TSlice V0043UserFlags));
    ("name", TString);
    ("old_name", TPtr TString);
    ("wckeys", TPtr V0043WckeyList)
  ].

Definition V0043UserList : gotype := TSlice V0043User.

Definition V0043OpenapiUsersResp : gotype :=
  TStruct [
    ("errors", TPtr V0043OpenapiErrors);
    ("meta", TPtr V0043OpenapiMeta);
    ("users", V0043UserList);
    ("warnings", TPtr V0043OpenapiWarnings)
  ].

