(* ===== verification/OpenApiModels.v ===== *)
(** * OpenApiModels: the other generated models

    The types of [hack/openapi/slurm_openapi.gen.go] outside the answers of
    OpenApi.v: jobs, reservations, accounts, clusters, statistics. *)
From S2P Require Import Prelude Schema OpenApi.
Open Scope Z_scope.

Definition V0043AccountFlags : gotype := TString.

Definition V0043Account : gotype :=
  TStruct [
    ("associations", TPtr V0043AssocShortList);
    ("coordinators", TPtr V0043CoordList);
    ("description", TString);
    ("flags", TPtr (TSlice V0043AccountFlags));
    ("name", TString);
    ("organization", TString)
  ].

Definition V0043AccountList : gotype := TSlice V0043Account.

Definition V0043AccountShort : gotype :=
  TStruct [
    ("description", TPtr TString);
    ("organization", TPtr TString)
  ].

Definition V0043StringList : gotype := TSlice TString.

Definition V0043TresList : gotype := TSlice V0043Tres.

Definition V0043QosStringIdList : gotype := TSlice TString.

Definition V0043AssocRecSet : gotype :=
  TStruct [
    ("comment", TPtr TString);
    ("defaultqos", TPtr TString);
    ("fairshare", TPtr (TInt 32));
    ("grpjobs", TPtr V0043Uint32NoValStruct);
    ("grpjobsaccrue", TPtr V0043Uint32NoValStruct);
    ("grpsubmitjobs", TPtr V0043Uint32NoValStruct);
    ("grptres", TPtr V0043TresList);
    ("grptresmins", TPtr V0043TresList);
    ("grptresrunmins", TPtr V0043TresList);
    ("grpwall", TPtr V0043Uint32NoValStruct);
    ("maxjobs", TPtr V0043Uint32NoValStruct);
    ("maxjobsaccrue", TPtr V0043Uint32NoValStruct);
    ("maxsubmitjobs", TPtr V0043Uint32NoValStruct);
    ("maxtresminsperjob", TPtr V0043TresList);
    ("maxtresperjob", TPtr V0043TresList);
    ("maxtrespernode", TPtr V0043TresList);
    ("maxtresrunmins", TPtr V0043TresList);
    ("maxwalldurationperjob", TPtr V0043Uint32NoValStruct);
    ("minpriothresh", TPtr V0043Uint32NoValStruct);
    ("parent", TPtr TString);
    ("priority", TPtr V0043Uint32NoValStruct);
    ("qoslevel", TPtr V0043QosStringIdList)
  ].

Definition V0043AccountsAddCond : gotype :=
  TStruct [
    ("accounts", V0043StringList);
    ("association", TPtr V0043AssocRecSet);
    ("clusters", TPtr V0043StringList)
  ].

Definition V0043AssocFlags : gotype := TString.

Definition V0043Assoc : gotype :=
  TStruct [
    ("account", TPtr TString);
    ("accounting", TPtr V0043AccountingList);
    ("cluster", TPtr TString);
    ("comment", TPtr TString);
    ("default", TPtr (TStruct [
        ("qos", TPtr TString)
      ]));
    ("flags", TPtr (TSlice V0043AssocFlags));
    ("id", TPtr (TInt 32));
    ("is_default", TPtr TBool);
    ("lineage", TPtr TString);
    ("max", TPtr (TStruct [
        ("jobs", TPtr (TStruct [
            ("accruing", TPtr V0043Uint32NoValStruct);
            ("active", TPtr V0043Uint32NoValStruct);
            ("per", TPtr (TStruct [
                ("accruing", TPtr V0043Uint32NoValStruct);
                ("count", TPtr V0043Uint32NoValStruct);
                ("submitted", TPtr V0043Uint32NoValStruct);
                ("wall_clock", TPtr V0043Uint32NoValStruct)
              ]));
            ("total", TPtr V0043Uint32NoValStruct)
          ]));
        ("per", TPtr (TStruct [
            ("account", TPtr (TStruct [
                ("wall_clock", TPtr V0043Uint32NoValStruct)
              ]))
          ]));
        ("tres", TPtr (TStruct [
            ("group", TPtr (TStruct [
                ("active", TPtr V0043TresList);
                ("minutes", TPtr V0043TresList)
              ]));
            ("minutes", TPtr (TStruct [
                ("per", TPtr (TStruct [
                    ("job", TPtr V0043TresList)
                  ]));
                ("total", TPtr V0043TresList)
              ]));
            ("per", TPtr (TStruct [
                ("job", TPtr V0043TresList);
                ("node", TPtr V0043TresList)
              ]));
            ("total", TPtr V0043TresList)
          ]))
      ]));
    ("min", TPtr (TStruct [
        ("priority_threshold", TPtr V0043Uint32NoValStruct)
      ]));
    ("parent_account", TPtr TString);
    ("partition", TPtr TString);
    ("priority", TPtr V0043Uint32NoValStruct);
    ("qos", TPtr V0043QosStringIdList);
    ("shares_raw", TPtr (TInt 32));
    ("user", TString)
  ].

Definition V0043AssocList : gotype := TSlice V0043Assoc.

Definition V0043Float64NoValStruct : gotype :=
  TStruct [
    ("infinite", TPtr TBool);
    ("number", TPtr TFloat64);
    ("set", TPtr TBool)
  ].

Definition V0043SharesUint64Tres : gotype :=
  TStruct [
    ("name", TPtr TString);
    ("value", TPtr V0043Uint64NoValStruct)
  ].

Definition V0043SharesUint64TresList : gotype := TSlice V0043SharesUint64Tres.

Definition V0043SharesFloat128Tres : gotype :=
  TStruct [
    ("name", TPtr TString);
    ("value", TPtr TFloat32)
  ].

Definition V0043SharesFloat128TresList : gotype := TSlice V0043SharesFloat128Tres.

Definition V0043AssocSharesObjWrapType : gotype := TString.

Definition V0043AssocSharesObjWrap : gotype :=
  TStruct [
    ("cluster", TPtr TString);
    ("effective_usage", TPtr V0043Float64NoValStruct);
    ("fairshare", TPtr (TStruct [
        ("factor", TPtr V0043Float64NoValStruct);
        ("level", TPtr V0043Float64NoValStruct)
      ]));
    ("id", TPtr (TInt 32));
    ("name", TPtr TString);
    ("parent", TPtr TString);
    ("partition", TPtr TString);
    ("shares", TPtr V0043Uint32NoValStruct);
    ("shares_normalized", TPtr V0043Float64NoValStruct);
    ("tres", TPtr (TStruct [
        ("group_minutes", TPtr V0043SharesUint64TresList);
        ("run_seconds", TPtr V0043SharesUint64TresList);
        ("usage", TPtr V0043SharesFloat128TresList)
      ]));
    ("type", TPtr (TSlice V0043AssocSharesObjWrapType));
    ("usage", TPtr (TInt 64));
    ("usage_normalized", TPtr V0043Float64NoValStruct)
  ].

Definition V0043AssocSharesObjList : gotype := TSlice V0043AssocSharesObjWrap.

Definition V0043BfExitFields : gotype :=
  TStruct [
    ("bf_max_job_start", TPtr (TInt 32));
    ("bf_max_job_test", TPtr (TInt 32));
    ("bf_max_time", TPtr (TInt 32));
    ("bf_node_space_size", TPtr (TInt 32));
    ("end_job_queue", TPtr (TInt 32));
    ("state_changed", TPtr (TInt 32))
  ].

Definition V0043ClusterRecFlags : gotype := TString.

Definition V0043ClusterRec : gotype :=
  TStruct [
    ("associations", TPtr (TStruct [
        ("root", TPtr V0043AssocShort)
      ]));
    ("controller", TPtr (TStruct [
        ("host", TPtr TString);
        ("port", TPtr (TInt 32))
      ]));
    ("flags", TPtr (TSlice V0043ClusterRecFlags));
    ("name", TPtr TString);
    ("nodes", TPtr TString);
    ("rpc_version", TPtr (TInt 32));
    ("select_plugin", TPtr TString);
    ("tres", TPtr V0043TresList)
  ].

Definition V0043ClusterRecList : gotype := TSlice V0043ClusterRec.

Definition V0043ControllerPing : gotype :=
  TStruct [
    ("hostname", TPtr TString);
    ("latency", TPtr (TInt 64));
    ("mode", TPtr TString);
    ("pinged", TPtr TString);
    ("primary", TBool);
    ("responding", TBool)
  ].

Definition V0043ControllerPingArray : gotype := TSlice V0043ControllerPing.

Definition V0043CronEntryFlags : gotype := TString.

Definition V0043CronEntry : gotype :=
  TStruct [
    ("command", TPtr TString);
    ("day_of_month", TPtr TString);
    ("day_of_week", TPtr TString);
    ("flags", TPtr (TSlice V0043CronEntryFlags));
    ("hour", TPtr TString);
    ("line", TPtr (TStruct [
        ("end", TPtr (TInt 32));
        ("start", TPtr (TInt 32))
      ]));
    ("minute", TPtr TString);
    ("month", TPtr TString);
    ("specification", TPtr TString)
  ].

Definition V0043Hostlist : gotype := TSlice TString.

Definition V0043HostlistString : gotype := TSlice TString.

Definition V0043Instance : gotype :=
  TStruct [
    ("cluster", TPtr TString);
    ("extra", TPtr TString);
    ("instance_id", TPtr TString);
    ("instance_type", TPtr TString);
    ("node_name", TPtr TString);
    ("time", TPtr (TStruct [
        ("time_end", TPtr (TInt 64));
        ("time_start", TPtr (TInt 64))
      ]))
  ].

Definition V0043InstanceList : gotype := TSlice V0043Instance.

Definition V0043Uint16NoValStruct : gotype :=
  TStruct [
    ("infinite", TPtr TBool);
    ("number", TPtr (TInt 32));
    ("set", TPtr TBool)
  ].

Definition V0043ProcessExitCodeVerboseStatus : gotype := TString.

Definition V0043ProcessExitCodeVerbose : gotype :=
  TStruct [
    ("return_code", TPtr V0043Uint32NoValStruct);
    ("signal", TPtr (TStruct [
        ("id", TPtr V0043Uint16NoValStruct);
        ("name", TPtr TString)
      ]));
    ("status", TPtr (TSlice V0043ProcessExitCodeVerboseStatus))
  ].

Definition V0043JobFlags : gotype := TString.

Definition V0043JobStateCurrent : gotype := TString.

Definition V0043StepState : gotype := TString.

Definition V0043StepTresUsageMax : gotype := TSlice V0043Tres.

Definition V0043StepTresUsageMin : gotype := TSlice V0043Tres.

Definition V0043StepTresReqMax : gotype := TSlice V0043Tres.

Definition V0043StepTresReqMin : gotype := TSlice V0043Tres.

Definition V0043Step : gotype :=
  TStruct [
    ("CPU", TPtr (TStruct [
        ("governor", TPtr TString);
        ("requested_frequency", TPtr (TStruct [
            ("max", TPtr V0043Uint32NoValStruct);
            ("min", TPtr V0043Uint32NoValStruct)
          ]))
      ]));
    ("exit_code", TPtr V0043ProcessExitCodeVerbose);
    ("kill_request_user", TPtr TString);
    ("nodes", TPtr (TStruct [
        ("count", TPtr (TInt 32));
        ("list", TPtr V0043Hostlist);
        ("range", TPtr TString)
      ]));
    ("pid", TPtr TString);
    ("state", TPtr (TSlice V0043StepState));
    ("statistics", TPtr (TStruct [
        ("CPU", TPtr (TStruct [
            ("actual_frequency", TPtr (TInt 64))
          ]));
        ("energy", TPtr (TStruct [
            ("consumed", TPtr V0043Uint64NoValStruct)
          ]))
      ]));
    ("step", TPtr (TStruct [
        ("id", TPtr TString);
        ("name", TPtr TString);
        ("stderr", TPtr TString);
        ("stderr_expanded", TPtr TString);
        ("stdin", TPtr TString);
        ("stdin_expanded", TPtr TString);
        ("stdout", TPtr TString);
        ("stdout_expanded", TPtr TString)
      ]));
    ("task", TPtr (TStruct [
        ("distribution", TPtr TString)
      ]));
    ("tasks", TPtr (TStruct [
        ("count", TPtr (TInt 32))
      ]));
    ("time", TPtr (TStruct [
        ("elapsed", TPtr (TInt 32));
        ("end", TPtr V0043Uint64NoValStruct);
        ("limit", TPtr V0043Uint32NoValStruct);
        ("start", TPtr V0043Uint64NoValStruct);
        ("suspended", TPtr (TInt 32));
        ("system", TPtr (TStruct [
            ("microseconds", TPtr (TInt 32));
            ("seconds", TPtr (TInt 64))
          ]));
        ("total", TPtr (TStruct [
            ("microseconds", TPtr (TInt 32));
            ("seconds", TPtr (TInt 64))
          ]));
        ("user", TPtr (TStruct [
            ("microseconds", TPtr (TInt 32));
            ("seconds", TPtr (TInt 64))
          ]))
      ]));
    ("tres", TPtr (TStruct [
        ("allocated", TPtr V0043TresList);
        ("consumed", TPtr (TStruct [
            ("average", TPtr V0043TresList);
            ("max", TPtr V0043StepTresUsageMax);
            ("min", TPtr V0043StepTresUsageMin);
            ("total", TPtr V0043TresList)
          ]));
        ("requested", TPtr (TStruct [
            ("average", TPtr V0043TresList);
            ("max", TPtr V0043StepTresReqMax);
            ("min", TPtr V0043StepTresReqMin);
            ("total", TPtr V0043TresList)
          ]))
      ]))
  ].

Definition V0043StepList : gotype := TSlice V0043Step.

Definition V0043WckeyTagStructFlags : gotype := TString.

Definition V0043WckeyTagStruct : gotype :=
  TStruct [
    ("flags", TSlice V0043WckeyTagStructFlags);
    ("wckey", TString)
  ].

Definition V0043Job : gotype :=
  TStruct [
    ("account", TPtr TString);
    ("allocation_nodes", TPtr (TInt 32));
    ("array", TPtr (TStruct [
        ("job_id", TPtr (TInt 32));
        ("limits", TPtr (TStruct [
            ("max", TPtr (TStruct [
                ("running", TPtr (TStruct [
                    ("tasks", TPtr (TInt 32))
                  ]))
              ]))
          ]));
        ("task", TPtr TString);
        ("task_id", TPtr V0043Uint32NoValStruct)
      ]));
    ("association", TPtr V0043AssocShort);
    ("block", TPtr TString);
    ("cluster", TPtr TString);
    ("comment", TPtr (TStruct [
        ("administrator", TPtr TString);
        ("job", TPtr TString);
        ("system", TPtr TString)
      ]));
    ("constraints", TPtr TString);
    ("container", TPtr TString);
    ("derived_exit_code", TPtr V0043ProcessExitCodeVerbose);
    ("exit_code", TPtr V0043ProcessExitCodeVerbose);
    ("extra", TPtr TString);
    ("failed_node", TPtr TString);
    ("flags", TPtr (TSlice V0043JobFlags));
    ("group", TPtr TString);
    ("het", TPtr (TStruct [
        ("job_id", TPtr (TInt 32));
        ("job_offset", TPtr V0043Uint32NoValStruct)
      ]));
    ("hold", TPtr TBool);
    ("job_id", TPtr (TInt 32));
    ("kill_request_user", TPtr TString);
    ("licenses", TPtr TString);
    ("mcs", TPtr (TStruct [
        ("label", TPtr TString)
      ]));
    ("name", TPtr TString);
    ("nodes", TPtr TString);
    ("partition", TPtr TString);
    ("priority", TPtr V0043Uint32NoValStruct);
    ("qos", TPtr TString);
    ("qosreq", TPtr TString);
    ("required", TPtr (TStruct [
        ("CPUs", TPtr (TInt 32));
        ("memory_per_cpu", TPtr V0043Uint64NoValStruct);
        ("memory_per_node", TPtr V0043Uint64NoValStruct)
      ]));
    ("reservation", TPtr (TStruct [
        ("id", TPtr (TInt 32));
        ("name", TPtr TString);
        ("requested", TPtr TString)
      ]));
    ("restart_cnt", TPtr (TInt 32));
    ("script", TPtr TString);
    ("segment_size", TPtr (TInt 32));
    ("state", TPtr (TStruct [
        ("current", TPtr (TSlice V0043JobStateCurrent));
        ("reason", TPtr TString)
      ]));
    ("stderr", TPtr TString);
    ("stderr_expanded", TPtr TString);
    ("stdin", TPtr TString);
    ("stdin_expanded", TPtr TString);
    ("stdout", TPtr TString);
    ("stdout_expanded", TPtr TString);
    ("steps", TPtr V0043StepList);
    ("submit_line", TPtr TString);
    ("time", TPtr (TStruct [
        ("elapsed", TPtr (TInt 32));
        ("eligible", TPtr (TInt 64));
        ("end", TPtr (TInt 64));
        ("limit", TPtr V0043Uint32NoValStruct);
        ("planned", TPtr V0043Uint64NoValStruct);
        ("start", TPtr (TInt 64));
        ("submission", TPtr (TInt 64));
        ("suspended", TPtr (TInt 32));
        ("system", TPtr (TStruct [
            ("microseconds", TPtr (TInt 64));
            ("seconds", TPtr (TInt 64))
          ]));
        ("total", TPtr (TStruct [
            ("microseconds", TPtr (TInt 64));
            ("seconds", TPtr (TInt 64))
          ]));
        ("user", TPtr (TStruct [
            ("microseconds", TPtr (TInt 64));
            ("seconds", TPtr (TInt 64))
          ]))
      ]));
    ("tres", TPtr (TStruct [
        ("allocated", TPtr V0043TresList);
        ("requested", TPtr V0043TresList)
      ]));
    ("used_gres", TPtr TString);
    ("user", TPtr TString);
    ("wckey", TPtr V0043WckeyTagStruct);
    ("working_directory", TPtr TString)
  ].

Definition V0043JobDescMsgCpuBindingFlags : gotype := TString.

Definition V0043JobDescMsgFlags : gotype := TString.

Definition V0043JobDescMsgKillWarningFlags : gotype := TString.

Definition V0043JobDescMsgMailType : gotype := TString.

Definition V0043JobDescMsgMemoryBindingType : gotype := TString.

Definition V0043JobDescMsgOpenMode : gotype := TString.

Definition V0043JobDescMsgProfile : gotype := TString.

Definition V0043JobDescMsgShared : gotype := TString.

Definition V0043JobDescMsgX11 : gotype := TString.

Definition V0043JobDescMsg : gotype :=
  TStruct [
    ("account", TPtr TString);
    ("account_gather_frequency", TPtr TString);
    ("admin_comment", TPtr TString);
    ("allocation_node_list", TPtr TString);
    ("allocation_node_port", TPtr (TInt 32));
    ("argv", TPtr V0043StringArray);
    ("array", TPtr TString);
    ("batch_features", TPtr TString);
    ("begin_time", TPtr V0043Uint64NoValStruct);
    ("burst_buffer", TPtr TString);
    ("cluster_constraint", TPtr TString);
    ("clusters", TPtr TString);
    ("comment", TPtr TString);
    ("constraints", TPtr TString);
    ("container", TPtr TString);
    ("container_id", TPtr TString);
    ("contiguous", TPtr TBool);
    ("core_specification", TPtr (TInt 32));
    ("cpu_binding", TPtr TString);
    ("cpu_binding_flags", TPtr (TSlice V0043JobDescMsgCpuBindingFlags));
    ("cpu_frequency", TPtr TString);
    ("cpus_per_task", TPtr (TInt 32));
    ("cpus_per_tres", TPtr TString);
    ("crontab", TPtr V0043CronEntry);
    ("current_working_directory", TPtr TString);
    ("deadline", TPtr (TInt 64));
    ("delay_boot", TPtr (TInt 32));
    ("dependency", TPtr TString);
    ("distribution", TPtr TString);
    ("distribution_plane_size", TPtr V0043Uint16NoValStruct);
    ("end_time", TPtr (TInt 64));
    ("environment", TPtr V0043StringArray);
    ("excluded_nodes", TPtr V0043CsvString);
    ("extra", TPtr TString);
    ("flags", TPtr (TSlice V0043JobDescMsgFlags));
    ("group_id", TPtr TString);
    ("hetjob_group", TPtr (TInt 32));
    ("hold", TPtr TBool);
    ("immediate", TPtr TBool);
    ("job_id", TPtr (TInt 32));
    ("kill_on_node_fail", TPtr TBool);
    ("kill_warning_delay", TPtr V0043Uint16NoValStruct);
    ("kill_warning_flags", TPtr (TSlice V0043JobDescMsgKillWarningFlags));
    ("kill_warning_signal", TPtr TString);
    ("licenses", TPtr TString);
    ("mail_type", TPtr (TSlice V0043JobDescMsgMailType));
    ("mail_user", TPtr TString);
    ("maximum_cpus", TPtr (TInt 32));
    ("maximum_nodes", TPtr (TInt 32));
    ("mcs_label", TPtr TString);
    ("memory_binding", TPtr TString);
    ("memory_binding_type", TPtr (TSlice V0043JobDescMsgMemoryBindingType));
    ("memory_per_cpu", TPtr V0043Uint64NoValStruct);
    ("memory_per_node", TPtr V0043Uint64NoValStruct);
    ("memory_per_tres", TPtr TString);
    ("minimum_boards_per_node", TPtr (TInt 32));
    ("minimum_cpus", TPtr (TInt 32));
    ("minimum_cpus_per_node", TPtr (TInt 32));
    ("minimum_nodes", TPtr (TInt 32));
    ("minimum_sockets_per_board", TPtr (TInt 32));
    ("name", TPtr TString);
    ("network", TPtr TString);
    ("nice", TPtr (TInt 32));
    ("nodes", TPtr TString);
    ("ntasks_per_tres", TPtr (TInt 32));
    ("oom_kill_step", TPtr (TInt 32));
    ("open_mode", TPtr (TSlice V0043JobDescMsgOpenMode));
    ("overcommit", TPtr TBool);
    ("partition", TPtr TString);
    ("power_flags", TPtr (TSlice TAny));
    ("prefer", TPtr TString);
    ("priority", TPtr V0043Uint32NoValStruct);
    ("profile", TPtr (TSlice V0043JobDescMsgProfile));
    ("qos", TPtr TString);
    ("reboot", TPtr TBool);
    ("requeue", TPtr TBool);
    ("required_nodes", TPtr V0043CsvString);
    ("required_switches", TPtr V0043Uint32NoValStruct);
    ("reservation", TPtr TString);
    ("reserve_ports", TPtr (TInt 32));
    ("rlimits", TPtr (TStruct [
        ("as", TPtr V0043Uint64NoValStruct);
        ("core", TPtr V0043Uint64NoValStruct);
        ("cpu", TPtr V0043Uint64NoValStruct);
        ("data", TPtr V0043Uint64NoValStruct);
        ("fsize", TPtr V0043Uint64NoValStruct);
        ("memlock", TPtr V0043Uint64NoValStruct);
        ("nofile", TPtr V0043Uint64NoValStruct);
        ("nproc", TPtr V0043Uint64NoValStruct);
        ("rss", TPtr V0043Uint64NoValStruct);
        ("stack", TPtr V0043Uint64NoValStruct)
      ]));
    ("script", TPtr TString);
    ("segment_size", TPtr V0043Uint16NoValStruct);
    ("selinux_context", TPtr TString);
    ("shared", TPtr (TSlice V0043JobDescMsgShared));
    ("site_factor", TPtr (TInt 32));
    ("sockets_per_node", TPtr (TInt 32));
    ("spank_environment", TPtr V0043StringArray);
    ("standard_error", TPtr TString);
    ("standard_input", TPtr TString);
    ("standard_output", TPtr TString);
    ("tasks", TPtr (TInt 32));
    ("tasks_per_board", TPtr (TInt 32));
    ("tasks_per_core", TPtr (TInt 32));
    ("tasks_per_node", TPtr (TInt 32));
    ("tasks_per_socket", TPtr (TInt 32));
    ("temporary_disk_per_node", TPtr (TInt 32));
    ("thread_specification", TPtr (TInt 32));
    ("threads_per_core", TPtr (TInt 32));
    ("time_limit", TPtr V0043Uint32NoValStruct);
    ("time_minimum", TPtr V0043Uint32NoValStruct);
    ("tres_bind", TPtr TString);
    ("tres_freq", TPtr TString);
    ("tres_per_job", TPtr TString);
    ("tres_per_node", TPtr TString);
    ("tres_per_socket", TPtr TString);
    ("tres_per_task", TPtr TString);
    ("user_id", TPtr TString);
    ("wait_all_nodes", TPtr TBool);
    ("wait_for_switch", TPtr (TInt 32));
    ("wckey", TPtr TString);
    ("x11", TPtr (TSlice V0043JobDescMsgX11));
    ("x11_magic_cookie", TPtr TString);
    ("x11_target_host", TPtr TString);
    ("x11_target_port", TPtr (TInt 32))
  ].

Definition V0043JobDescMsgList : gotype := TSlice V0043JobDescMsg.

Definition V0043JobAllocReq : gotype :=
  TStruct [
    ("hetjob", TPtr V0043JobDescMsgList);
    ("job", TPtr V0043JobDescMsg)
  ].

Definition V0043JobArrayResponseMsgEntry : gotype :=
  TStruct [
    ("error", TPtr TString);
    ("error_code", TPtr (TInt 32));
    ("job_id", TPtr (TInt 32));
    ("step_id", TPtr TString);
    ("why", TPtr TString)
  ].

Definition V0043JobArrayResponseArray : gotype := TSlice V0043JobArrayResponseMsgEntry.

Definition V0043JobInfoFlags : gotype := TString.

Definition V0043JobInfoGresDetail : gotype := TSlice TString.

Definition V0043JobResCoreStatus : gotype := TString.

Definition V0043JobResCore : gotype :=
  TStruct [
    ("index", TInt 32);
    ("status", TSlice V0043JobResCoreStatus)
  ].

Definition V0043JobResCoreArray : gotype := TSlice V0043JobResCore.

Definition V0043JobResSocket : gotype :=
  TStruct [
    ("cores", V0043JobResCoreArray);
    ("index", TInt 32)
  ].

Definition V0043JobResSocketArray : gotype := TSlice V0043JobResSocket.

Definition V0043JobResNode : gotype :=
  TStruct [
    ("cpus", TPtr (TStruct [
        ("count", TPtr (TInt 32));
        ("used", TPtr (TInt 32))
      ]));
    ("index", TInt 32);
    ("memory", TPtr (TStruct [
        ("allocated", TPtr (TInt 64));
        ("used", TPtr (TInt 64))
      ]));
    ("name", TString);
    ("sockets", V0043JobResSocketArray)
  ].

Definition V0043JobResNodes : gotype := TSlice V0043JobResNode.

Definition V0043JobResNodesSelectType : gotype := TString.

Definition V0043JobResSelectType : gotype := TString.

Definition V0043JobRes : gotype :=
  TStruct [
    ("cpus", TInt 32);
    ("nodes", TPtr (TStruct [
        ("allocation", TPtr V0043JobResNodes);
        ("count", TPtr (TInt 32));
        ("list", TPtr TString);
        ("select_type", TPtr (TSlice V0043JobResNodesSelectType));
        ("whole", TPtr TBool)
      ]));
    ("select_type", TSlice V0043JobResSelectType);
    ("threads_per_core", V0043Uint16NoValStruct)
  ].

Definition V0043JobInfoJobState : gotype := TString.

Definition V0043JobInfoMailType : gotype := TString.

Definition V0043PartPrio : gotype :=
  TStruct [
    ("partition", TPtr TString);
    ("priority", TPtr (TInt 32))
  ].

Definition V0043PriorityByPartition : gotype := TSlice V0043PartPrio.

Definition V0043JobInfoProfile : gotype := TString.

Definition V0043JobInfoShared : gotype := TString.

Definition V0043JobInfo : gotype :=
  TStruct [
    ("account", TPtr TString);
    ("accrue_time", TPtr V0043Uint64NoValStruct);
    ("admin_comment", TPtr TString);
    ("allocating_node", TPtr TString);
    ("array_job_id", TPtr V0043Uint32NoValStruct);
    ("array_max_tasks", TPtr V0043Uint32NoValStruct);
    ("array_task_id", TPtr V0043Uint32NoValStruct);
    ("array_task_string", TPtr TString);
    ("association_id", TPtr (TInt 32));
    ("batch_features", TPtr TString);
    ("batch_flag", TPtr TBool);
    ("batch_host", TPtr TString);
    ("billable_tres", TPtr V0043Float64NoValStruct);
    ("burst_buffer", TPtr TString);
    ("burst_buffer_state", TPtr TString);
    ("cluster", TPtr TString);
    ("cluster_features", TPtr TString);
    ("command", TPtr TString);
    ("comment", TPtr TString);
    ("container", TPtr TString);
    ("container_id", TPtr TString);
    ("contiguous", TPtr TBool);
    ("core_spec", TPtr (TInt 32));
    ("cores_per_socket", TPtr V0043Uint16NoValStruct);
    ("cpu_frequency_governor", TPtr V0043Uint32NoValStruct);
    ("cpu_frequency_maximum", TPtr V0043Uint32NoValStruct);
    ("cpu_frequency_minimum", TPtr V0043Uint32NoValStruct);
    ("cpus", TPtr V0043Uint32NoValStruct);
    ("cpus_per_task", TPtr V0043Uint16NoValStruct);
    ("cpus_per_tres", TPtr TString);
    ("cron", TPtr TString);
    ("current_working_directory", TPtr TString);
    ("deadline", TPtr V0043Uint64NoValStruct);
    ("delay_boot", TPtr V0043Uint32NoValStruct);
    ("dependency", TPtr TString);
    ("derived_exit_code", TPtr V0043ProcessExitCodeVerbose);
    ("eligible_time", TPtr V0043Uint64NoValStruct);
    ("end_time", TPtr V0043Uint64NoValStruct);
    ("excluded_nodes", TPtr TString);
    ("exit_code", TPtr V0043ProcessExitCodeVerbose);
    ("extra", TPtr TString);
    ("failed_node", TPtr TString);
    ("features", TPtr TString);
    ("federation_origin", TPtr TString);
    ("federation_siblings_active", TPtr TString);
    ("federation_siblings_viable", TPtr TString);
    ("flags", TPtr (TSlice V0043JobInfoFlags));
    ("gres_detail", TPtr V0043JobInfoGresDetail);
    ("group_id", TPtr (TInt 32));
    ("group_name", TPtr TString);
    ("het_job_id", TPtr V0043Uint32NoValStruct);
    ("het_job_id_set", TPtr TString);
    ("het_job_offset", TPtr V0043Uint32NoValStruct);
    ("hold", TPtr TBool);
    ("job_id", TPtr (TInt 32));
    ("job_resources", TPtr V0043JobRes);
    ("job_size_str", TPtr V0043CsvString);
    ("job_state", TPtr (TSlice V0043JobInfoJobState));
    ("last_sched_evaluation", TPtr V0043Uint64NoValStruct);
    ("licenses", TPtr TString);
    ("licenses_allocated", TPtr TString);
    ("mail_type", TPtr (TSlice V0043JobInfoMailType));
    ("mail_user", TPtr TString);
    ("max_cpus", TPtr V0043Uint32NoValStruct);
    ("max_nodes", TPtr V0043Uint32NoValStruct);
    ("maximum_switch_wait_time", TPtr (TInt 32));
    ("mcs_label", TPtr TString);
    ("memory_per_cpu", TPtr V0043Uint64NoValStruct);
    ("memory_per_node", TPtr V0043Uint64NoValStruct);
    ("memory_per_tres", TPtr TString);
    ("minimum_cpus_per_node", TPtr V0043Uint16NoValStruct);
    ("minimum_tmp_disk_per_node", TPtr V0043Uint32NoValStruct);
    ("name", TPtr TString);
    ("network", TPtr TString);
    ("nice", TPtr (TInt 32));
    ("node_count", TPtr V0043Uint32NoValStruct);
    ("nodes", TPtr TString);
    ("partition", TPtr TString);
    ("power", TPtr (TStruct [
        ("flags", TPtr (TSlice TAny))
      ]));
    ("pre_sus_time", TPtr V0043Uint64NoValStruct);
    ("preempt_time", TPtr V0043Uint64NoValStruct);
    ("preemptable_time", TPtr V0043Uint64NoValStruct);
    ("prefer", TPtr TString);
    ("priority", TPtr V0043Uint32NoValStruct);
    ("priority_by_partition", TPtr V0043PriorityByPartition);
    ("profile", TPtr (TSlice V0043JobInfoProfile));
    ("qos", TPtr TString);
    ("reboot", TPtr TBool);
    ("requeue", TPtr TBool);
    ("required_nodes", TPtr TString);
    ("required_switches", TPtr (TInt 32));
    ("resize_time", TPtr V0043Uint64NoValStruct);
    ("restart_cnt", TPtr (TInt 32));
    ("resv_name", TPtr TString);
    ("scheduled_nodes", TPtr TString);
    ("segment_size", TPtr (TInt 32));
    ("selinux_context", TPtr TString);
    ("shared", TPtr (TSlice V0043JobInfoShared));
    ("sockets_per_board", TPtr (TInt 32));
    ("sockets_per_node", TPtr V0043Uint16NoValStruct);
    ("standard_error", TPtr TString);
    ("standard_input", TPtr TString);
    ("standard_output", TPtr TString);
    ("start_time", TPtr V0043Uint64NoValStruct);
    ("state_description", TPtr TString);
    ("state_reason", TPtr TString);
    ("stderr_expanded", TPtr TString);
    ("stdin_expanded", TPtr TString);
    ("stdout_expanded", TPtr TString);
    ("submit_time", TPtr V0043Uint64NoValStruct);
    ("suspend_time", TPtr V0043Uint64NoValStruct);
    ("system_comment", TPtr TString);
    ("tasks", TPtr V0043Uint32NoValStruct);
    ("tasks_per_board", TPtr V0043Uint16NoValStruct);
    ("tasks_per_core", TPtr V0043Uint16NoValStruct);
    ("tasks_per_node", TPtr V0043Uint16NoValStruct);
    ("tasks_per_socket", TPtr V0043Uint16NoValStruct);
    ("tasks_per_tres", TPtr V0043Uint16NoValStruct);
    ("thread_spec", TPtr (TInt 32));
    ("threads_per_core", TPtr V0043Uint16NoValStruct);
    ("time_limit", TPtr V0043Uint32NoValStruct);
    ("time_minimum", TPtr V0043Uint32NoValStruct);
    ("tres_alloc_str", TPtr TString);
    ("tres_bind", TPtr TString);
    ("tres_freq", TPtr TString);
    ("tres_per_job", TPtr TString);
    ("tres_per_node", TPtr TString);
    ("tres_per_socket", TPtr TString);
    ("tres_per_task", TPtr TString);
    ("tres_req_str", TPtr TString);
    ("user_id", TPtr (TInt 32));
    ("user_name", TPtr TString);
    ("wckey", TPtr TString)
  ].

Definition V0043JobInfoMsg : gotype := TSlice V0043JobInfo.

Definition V0043JobList : gotype := TSlice V0043Job.

Definition V0043JobSubmitReq : gotype :=
  TStruct [
    ("job", TPtr V0043JobDescMsg);
    ("jobs", TPtr V0043JobDescMsgList);
    ("script", TPtr TString)
  ].

Definition V0043KillJobsMsgFlags : gotype := TString.

Definition V0043KillJobsMsgJobState : gotype := TString.

Definition V0043KillJobsMsgJobsArray : gotype := TSlice TString.

Definition V0043KillJobsMsg : gotype :=
  TStruct [
    ("account", TPtr TString);
    ("flags", TPtr (TSlice V0043KillJobsMsgFlags));
    ("job_name", TPtr TString);
    ("job_state", TPtr (TSlice V0043KillJobsMsgJobState));
    ("jobs", TPtr V0043KillJobsMsgJobsArray);
    ("nodes", TPtr V0043HostlistString);
    ("partition", TPtr TString);
    ("qos", TPtr TString);
    ("reservation", TPtr TString);
    ("signal", TPtr TString);
    ("user_id", TPtr TString);
    ("user_name", TPtr TString);
    ("wckey", TPtr TString)
  ].

Definition V0043KillJobsRespJob : gotype :=
  TStruct [
    ("error", TPtr (TStruct [
        ("code", TPtr (TInt 32));
        ("message", TPtr TString);
        ("string", TPtr TString)
      ]));
    ("federation", TPtr (TStruct [
        ("sibling", TPtr TString)
      ]));
    ("job_id", V0043Uint32NoValStruct);
    ("step_id", TString)
  ].

Definition V0043KillJobsRespMsg : gotype := TSlice V0043KillJobsRespJob.

Definition V0043License : gotype :=
  TStruct [
    ("Free", TPtr (TInt 32));
    ("LastConsumed", TPtr (TInt 32));
    ("LastDeficit", TPtr (TInt 32));
    ("LastUpdate", TPtr (TInt 64));
    ("LicenseName", TPtr TString);
    ("Remote", TPtr TBool);
    ("Reserved", TPtr (TInt 32));
    ("Total", TPtr (TInt 32));
    ("Used", TPtr (TInt 32))
  ].

Definition V0043Licenses : gotype := TSlice V0043License.

Definition V0043OpenapiAccountsAddCondResp : gotype :=
  TStruct [
    ("account", TPtr V0043AccountShort);
    ("association_condition", TPtr V0043AccountsAddCond);
    ("errors", TPtr V0043OpenapiErrors);
    ("meta", TPtr V0043OpenapiMeta);
    ("warnings", TPtr V0043OpenapiWarnings)
  ].

Definition V0043OpenapiAccountsAddCondRespStr : gotype :=
  TStruct [
    ("added_accounts", TString);
    ("errors", TPtr V0043OpenapiErrors);
    ("meta", TPtr V0043OpenapiMeta);
    ("warnings", TPtr V0043OpenapiWarnings)
  ].

Definition V0043OpenapiAccountsRemovedResp : gotype :=
  TStruct [
    ("errors", TPtr V0043OpenapiErrors);
    ("meta", TPtr V0043OpenapiMeta);
    ("removed_accounts", V0043StringList);
    ("warnings", TPtr V0043OpenapiWarnings)
  ].

Definition V0043OpenapiAccountsResp : gotype :=
  TStruct [
    ("accounts", V0043AccountList);
    ("errors", TPtr V0043OpenapiErrors);
    ("meta", TPtr V0043OpenapiMeta);
    ("warnings", TPtr V0043OpenapiWarnings)
  ].

Definition V0043OpenapiAssocsRemovedResp : gotype :=
  TStruct [
    ("errors", TPtr V0043OpenapiErrors);
    ("meta", TPtr V0043OpenapiMeta);
    ("removed_associations", V0043StringList);
    ("warnings", TPtr V0043OpenapiWarnings)
  ].

Definition V0043OpenapiAssocsResp : gotype :=
  TStruct [
    ("associations", V0043AssocList);
    ("errors", TPtr V0043OpenapiErrors);
    ("meta", TPtr V0043OpenapiMeta);
    ("warnings", TPtr V0043OpenapiWarnings)
  ].

Definition V0043OpenapiClustersRemovedResp : gotype :=
  TStruct [
    ("deleted_clusters", V0043StringList);
    ("errors", TPtr V0043OpenapiErrors);
    ("meta", TPtr V0043OpenapiMeta);
    ("warnings", TPtr V0043OpenapiWarnings)
  ].

Definition V0043OpenapiClustersResp : gotype :=
  TStruct [
    ("clusters", V0043ClusterRecList);
    ("errors", TPtr V0043OpenapiErrors);
    ("meta", TPtr V0043OpenapiMeta);
    ("warnings", TPtr V0043OpenapiWarnings)
  ].

Definition V0043StatsMsgRpcQueue : gotype :=
  TStruct [
    ("count", TInt 32);
    ("message_type", TString);
    ("type_id", TInt 32)
  ].

Definition V0043StatsMsgRpcsQueue : gotype := TSlice V0043StatsMsgRpcQueue.

Definition V0043StatsMsgRpcDump : gotype :=
  TStruct [
    ("count", V0043HostlistString);
    ("message_type", TString);
    ("type_id", TInt 32)
  ].

Definition V0043StatsMsgRpcsDump : gotype := TSlice V0043StatsMsgRpcDump.

Definition V0043StatsMsgRpcType : gotype :=
  TStruct [
    ("average_time", V0043Uint64NoValStruct);
    ("count", TInt 32);
    ("cycle_last", TInt 32);
    ("cycle_max", TInt 32);
    ("dropped", TInt 64);
    ("message_type", TString);
    ("queued", TInt 32);
    ("total_time", TInt 64);
    ("type_id", TInt 32)
  ].

Definition V0043StatsMsgRpcsByType : gotype := TSlice V0043StatsMsgRpcType.

Definition V0043StatsMsgRpcUser : gotype :=
  TStruct [
    ("average_time", V0043Uint64NoValStruct);
    ("count", TInt 32);
    ("total_time", TInt 64);
    ("user", TString);
    ("user_id", TInt 32)
  ].

Definition V0043StatsMsgRpcsByUser : gotype := TSlice V0043StatsMsgRpcUser.

Definition V0043ScheduleExitFields : gotype :=
  TStruct [
    ("default_queue_depth", TPtr (TInt 32));
    ("end_job_queue", TPtr (TInt 32));
    ("licenses", TPtr (TInt 32));
    ("max_job_start", TPtr (TInt 32));
    ("max_rpc_cnt", TPtr (TInt 32));
    ("max_sched_time", TPtr (TInt 32))
  ].

Definition V0043StatsMsg : gotype :=
  TStruct [
    ("agent_count", TPtr (TInt 32));
    ("agent_queue_size", TPtr (TInt 32));
    ("agent_thread_count", TPtr (TInt 32));
    ("bf_active", TPtr TBool);
    ("bf_backfilled_het_jobs", TPtr (TInt 32));
    ("bf_backfilled_jobs", TPtr (TInt 32));
    ("bf_cycle_counter", TPtr (TInt 32));
    ("bf_cycle_last", TPtr (TInt 32));
    ("bf_cycle_max", TPtr (TInt 32));
    ("bf_cycle_mean", TPtr (TInt 64));
    ("bf_cycle_sum", TPtr (TInt 64));
    ("bf_depth_mean", TPtr (TInt 64));
    ("bf_depth_mean_try", TPtr (TInt 64));
    ("bf_depth_sum", TPtr (TInt 32));
    ("bf_depth_try_sum", TPtr (TInt 32));
    ("bf_exit", TPtr V0043BfExitFields);
    ("bf_last_backfilled_jobs", TPtr (TInt 32));
    ("bf_last_depth", TPtr (TInt 32));
    ("bf_last_depth_try", TPtr (TInt 32));
    ("bf_queue_len", TPtr (TInt 32));
    ("bf_queue_len_mean", TPtr (TInt 64));
    ("bf_queue_len_sum", TPtr (TInt 32));
    ("bf_table_size", TPtr (TInt 32));
    ("bf_table_size_mean", TPtr (TInt 64));
    ("bf_table_size_sum", TPtr (TInt 32));
    ("bf_when_last_cycle", TPtr V0043Uint64NoValStruct);
    ("dbd_agent_queue_size", TPtr (TInt 32));
    ("gettimeofday_latency", TPtr (TInt 32));
    ("job_states_ts", TPtr V0043Uint64NoValStruct);
    ("jobs_canceled", TPtr (TInt 32));
    ("jobs_completed", TPtr (TInt 32));
    ("jobs_failed", TPtr (TInt 32));
    ("jobs_pending", TPtr (TInt 32));
    ("jobs_running", TPtr (TInt 32));
    ("jobs_started", TPtr (TInt 32));
    ("jobs_submitted", TPtr (TInt 32));
    ("parts_packed", TPtr (TInt 32));
    ("pending_rpcs", TPtr V0043StatsMsgRpcsQueue);
    ("pending_rpcs_by_hostlist", TPtr V0043StatsMsgRpcsDump);
    ("req_time", TPtr V0043Uint64NoValStruct);
    ("req_time_start", TPtr V0043Uint64NoValStruct);
    ("rpcs_by_message_type", TPtr V0043StatsMsgRpcsByType);
    ("rpcs_by_user", TPtr V0043StatsMsgRpcsByUser);
    ("schedule_cycle_depth", TPtr (TInt 32));
    ("schedule_cycle_last", TPtr (TInt 32));
    ("schedule_cycle_max", TPtr (TInt 32));
    ("schedule_cycle_mean", TPtr (TInt 64));
    ("schedule_cycle_mean_depth", TPtr (TInt 64));
    ("schedule_cycle_per_minute", TPtr (TInt 64));
    ("schedule_cycle_sum", TPtr (TInt 32));
    ("schedule_cycle_total", TPtr (TInt 32));
    ("schedule_exit", TPtr V0043ScheduleExitFields);
    ("schedule_queue_length", TPtr (TInt 32));
    ("server_thread_count", TPtr (TInt 32))
  ].

Definition V0043OpenapiDiagResp : gotype :=
  TStruct [
    ("errors", TPtr V0043OpenapiErrors);
    ("meta", TPtr V0043OpenapiMeta);
    ("statistics", V0043StatsMsg);
    ("warnings", TPtr V0043OpenapiWarnings)
  ].

Definition V0043OpenapiInstancesResp : gotype :=
  TStruct [
    ("errors", TPtr V0043OpenapiErrors);
    ("instances", V0043InstanceList);
    ("meta", TPtr V0043OpenapiMeta);
    ("warnings", TPtr V0043OpenapiWarnings)
  ].

Definition V0043OpenapiJobAllocResp : gotype :=
  TStruct [
    ("errors", TPtr V0043OpenapiErrors);
    ("job_id", TPtr (TInt 32));
    ("job_submit_user_msg", TPtr TString);
    ("meta", TPtr V0043OpenapiMeta);
    ("warnings", TPtr V0043OpenapiWarnings)
  ].

Definition V0043OpenapiJobInfoResp : gotype :=
  TStruct [
    ("errors", TPtr V0043OpenapiErrors);
    ("jobs", V0043JobInfoMsg);
    ("last_backfill", V0043Uint64NoValStruct);
    ("last_update", V0043Uint64NoValStruct);
    ("meta", TPtr V0043OpenapiMeta);
    ("warnings", TPtr V0043OpenapiWarnings)
  ].

Definition V0043OpenapiJobPostResponse : gotype :=
  TStruct [
    ("errors", TPtr V0043OpenapiErrors);
    ("meta", TPtr V0043OpenapiMeta);
    ("results", TPtr V0043JobArrayResponseArray);
    ("warnings", TPtr V0043OpenapiWarnings)
  ].

Definition V0043OpenapiJobSubmitResponse : gotype :=
  TStruct [
    ("errors", TPtr V0043OpenapiErrors);
    ("job_id", TPtr (TInt 32));
    ("job_submit_user_msg", TPtr TString);
    ("meta", TPtr V0043OpenapiMeta);
    ("step_id", TPtr TString);
    ("warnings", TPtr V0043OpenapiWarnings)
  ].

Definition V0043OpenapiKillJobResp : gotype :=
  TStruct [
    ("errors", TPtr V0043OpenapiErrors);
    ("meta", TPtr V0043OpenapiMeta);
    ("status", V0043KillJobsRespMsg);
    ("warnings", TPtr V0043OpenapiWarnings)
  ].

Definition V0043OpenapiKillJobsResp : gotype :=
  TStruct [
    ("errors", TPtr V0043OpenapiErrors);
    ("meta", TPtr V0043OpenapiMeta);
    ("status", V0043KillJobsRespMsg);
    ("warnings", TPtr V0043OpenapiWarnings)
  ].

Definition V0043OpenapiLicensesResp : gotype :=
  TStruct [
    ("errors", TPtr V0043OpenapiErrors);
    ("last_update", V0043Uint64NoValStruct);
    ("licenses", V0043Licenses);
    ("meta", TPtr V0043OpenapiMeta);
    ("warnings", TPtr V0043OpenapiWarnings)
  ].

Definition V0043PartitionInfoMaximumsOversubscribeFlags : gotype := TString.

Definition V0043PartitionInfoPartitionState : gotype := TString.

Definition V0043PartitionInfoSelectType : gotype := TString.

Definition V0043PartitionInfo : gotype :=
  TStruct [
    ("accounts", TPtr (TStruct [
        ("allowed", TPtr TString);
        ("deny", TPtr TString)
      ]));
    ("alternate", TPtr TString);
    ("cluster", TPtr TString);
    ("cpus", TPtr (TStruct [
        ("task_binding", TPtr (TInt 32));
        ("total", TPtr (TInt 32))
      ]));
    ("defaults", TPtr (TStruct [
        ("job", TPtr TString);
        ("memory_per_cpu", TPtr (TInt 64));
        ("partition_memory_per_cpu", TPtr V0043Uint64NoValStruct);
        ("partition_memory_per_node", TPtr V0043Uint64NoValStruct);
        ("time", TPtr V0043Uint32NoValStruct)
      ]));
    ("grace_time", TPtr (TInt 32));
    ("groups", TPtr (TStruct [
        ("allowed", TPtr TString)
      ]));
    ("maximums", TPtr (TStruct [
        ("cpus_per_node", TPtr V0043Uint32NoValStruct);
        ("cpus_per_socket", TPtr V0043Uint32NoValStruct);
        ("memory_per_cpu", TPtr (TInt 64));
        ("nodes", TPtr V0043Uint32NoValStruct);
        ("over_time_limit", TPtr V0043Uint16NoValStruct);
        ("oversubscribe", TPtr (TStruct [
            ("flags", TPtr (TSlice V0043PartitionInfoMaximumsOversubscribeFlags));
            ("jobs", TPtr (TInt 32))
          ]));
        ("partition_memory_per_cpu", TPtr V0043Uint64NoValStruct);
        ("partition_memory_per_node", TPtr V0043Uint64NoValStruct);
        ("shares", TPtr (TInt 32));
        ("time", TPtr V0043Uint32NoValStruct)
      ]));
    ("minimums", TPtr (TStruct [
        ("nodes", TPtr (TInt 32))
      ]));
    ("name", TPtr TString);
    ("node_sets", TPtr TString);
    ("nodes", TPtr (TStruct [
        ("allowed_allocation", TPtr TString);
        ("configured", TPtr TString);
        ("total", TPtr (TInt 32))
      ]));
    ("partition", TPtr (TStruct [
        ("state", TPtr (TSlice V0043PartitionInfoPartitionState))
      ]));
    ("priority", TPtr (TStruct [
        ("job_factor", TPtr (TInt 32));
        ("tier", TPtr (TInt 32))
      ]));
    ("qos", TPtr (TStruct [
        ("allowed", TPtr TString);
        ("assigned", TPtr TString);
        ("deny", TPtr TString)
      ]));
    ("select_type", TPtr (TSlice V0043PartitionInfoSelectType));
    ("suspend_time", TPtr V0043Uint32NoValStruct);
    ("timeouts", TPtr (TStruct [
        ("resume", TPtr V0043Uint16NoValStruct);
        ("suspend", TPtr V0043Uint16NoValStruct)
      ]));
    ("topology", TPtr TString);
    ("tres", TPtr (TStruct [
        ("billing_weights", TPtr TString);
        ("configured", TPtr TString)
      ]))
  ].

Definition V0043PartitionInfoMsg : gotype := TSlice V0043PartitionInfo.

Definition V0043OpenapiPartitionResp : gotype :=
  TStruct [
    ("errors", TPtr V0043OpenapiErrors);
    ("last_update", V0043Uint64NoValStruct);
    ("meta", TPtr V0043OpenapiMeta);
    ("partitions", V0043PartitionInfoMsg);
    ("warnings", TPtr V0043OpenapiWarnings)
  ].

Definition V0043OpenapiPingArrayResp : gotype :=
  TStruct [
    ("errors", TPtr V0043OpenapiErrors);
    ("meta", TPtr V0043OpenapiMeta);
    ("pings", V0043ControllerPingArray);
    ("warnings", TPtr V0043OpenapiWarnings)
  ].

Definition V0043ReservationDescMsgFlags : gotype := TString.

Definition V0043ReservationDescMsg : gotype :=
  TStruct [
    ("accounts", TPtr V0043CsvString);
    ("burst_buffer", TPtr TString);
    ("comment", TPtr TString);
    ("core_count", TPtr V0043Uint32NoValStruct);
    ("duration", TPtr V0043Uint32NoValStruct);
    ("end_time", TPtr V0043Uint64NoValStruct);
    ("features", TPtr TString);
    ("flags", TPtr (TSlice V0043ReservationDescMsgFlags));
    ("groups", TPtr V0043CsvString);
    ("licenses", TPtr V0043CsvString);
    ("max_start_delay", TPtr V0043Uint32NoValStruct);
    ("name", TPtr TString);
    ("node_count", TPtr V0043Uint32NoValStruct);
    ("node_list", TPtr V0043HostlistString);
    ("partition", TPtr TString);
    ("purge_completed", TPtr (TStruct [
        ("time", TPtr V0043Uint32NoValStruct)
      ]));
    ("start_time", TPtr V0043Uint64NoValStruct);
    ("tres", TPtr V0043TresList);
    ("users", TPtr V0043CsvString)
  ].

Definition V0043ReservationDescMsgList : gotype := TSlice V0043ReservationDescMsg.

Definition V0043OpenapiReservationModResp : gotype :=
  TStruct [
    ("errors", TPtr V0043OpenapiErrors);
    ("meta", TPtr V0043OpenapiMeta);
    ("reservations", V0043ReservationDescMsgList);
    ("warnings", TPtr V0043OpenapiWarnings)
  ].

Definition V0043ReservationCoreSpec : gotype :=
  TStruct [
    ("core", TPtr TString);
    ("node", TPtr TString)
  ].

Definition V0043ReservationInfoCoreSpec : gotype := TSlice V0043ReservationCoreSpec.

Definition V0043ReservationInfoFlags : gotype := TString.

Definition V0043ReservationInfo : gotype :=
  TStruct [
    ("accounts", TPtr TString);
    ("burst_buffer", TPtr TString);
    ("core_count", TPtr (TInt 32));
    ("core_specializations", TPtr V0043ReservationInfoCoreSpec);
    ("end_time", TPtr V0043Uint64NoValStruct);
    ("features", TPtr TString);
    ("flags", TPtr (TSlice V0043ReservationInfoFlags));
    ("groups", TPtr TString);
    ("licenses", TPtr TString);
    ("max_start_delay", TPtr (TInt 32));
    ("name", TPtr TString);
    ("node_count", TPtr (TInt 32));
    ("node_list", TPtr TString);
    ("partition", TPtr TString);
    ("purge_completed", TPtr (TStruct [
        ("time", TPtr V0043Uint32NoValStruct)
      ]));
    ("start_time", TPtr V0043Uint64NoValStruct);
    ("tres", TPtr TString);
    ("users", TPtr TString);
    ("watts", TPtr V0043Uint32NoValStruct)
  ].

Definition V0043ReservationInfoMsg : gotype := TSlice V0043ReservationInfo.

Definition V0043OpenapiReservationResp : gotype :=
  TStruct [
    ("errors", TPtr V0043OpenapiErrors);
    ("last_update", V0043Uint64NoValStruct);
    ("meta", TPtr V0043OpenapiMeta);
    ("reservations", V0043ReservationInfoMsg);
    ("warnings", TPtr V0043OpenapiWarnings)
  ].

Definition V0043OpenapiResp : gotype :=
  TStruct [
    ("errors", TPtr V0043OpenapiErrors);
    ("meta", TPtr V0043OpenapiMeta);
    ("warnings", TPtr V0043OpenapiWarnings)
  ].

Definition V0043SharesRespMsg : gotype :=
  TStruct [
    ("shares", TPtr V0043AssocSharesObjList);
    ("total_shares", TPtr (TInt 64))
  ].

Definition V0043OpenapiSharesResp : gotype :=
  TStruct [
    ("errors", TPtr V0043OpenapiErrors);
    ("meta", TPtr V0043OpenapiMeta);
    ("shares", V0043SharesRespMsg);
    ("warnings", TPtr V0043OpenapiWarnings)
  ].

Definition V0043QosFlags : gotype := TString.

Definition V0043QosPreemptList : gotype := TSlice TString.

Definition V0043QosPreemptMode : gotype := TString.

Definition V0043Qos : gotype :=
  TStruct [
    ("description", TPtr TString);
    ("flags", TPtr (TSlice V0043QosFlags));
    ("id", TPtr (TInt 32));
    ("limits", TPtr (TStruct [
        ("factor", TPtr V0043Float64NoValStruct);
        ("grace_time", TPtr (TInt 32));
        ("max", TPtr (TStruct [
            ("accruing", TPtr (TStruct [
                ("per", TPtr (TStruct [
                    ("account", TPtr V0043Uint32NoValStruct);
                    ("user", TPtr V0043Uint32NoValStruct)
                  ]))
              ]));
            ("active_jobs", TPtr (TStruct [
                ("accruing", TPtr V0043Uint32NoValStruct);
                ("count", TPtr V0043Uint32NoValStruct)
              ]));
            ("jobs", TPtr (TStruct [
                ("active_jobs", TPtr (TStruct [
                    ("per", TPtr (TStruct [
                        ("account", TPtr V0043Uint32NoValStruct);
                        ("user", TPtr V0043Uint32NoValStruct)
                      ]))
                  ]));
                ("count", TPtr V0043Uint32NoValStruct);
                ("per", TPtr (TStruct [
                    ("account", TPtr V0043Uint32NoValStruct);
                    ("user", TPtr V0043Uint32NoValStruct)
                  ]))
              ]));
            ("tres", TPtr (TStruct [
                ("minutes", TPtr (TStruct [
                    ("per", TPtr (TStruct [
                        ("account", TPtr V0043TresList);
                        ("job", TPtr V0043TresList);
                        ("qos", TPtr V0043TresList);
                        ("user", TPtr V0043TresList)
                      ]));
                    ("total", TPtr V0043TresList)
                  ]));
                ("per", TPtr (TStruct [
                    ("account", TPtr V0043TresList);
                    ("job", TPtr V0043TresList);
                    ("node", TPtr V0043TresList);
                    ("user", TPtr V0043TresList)
                  ]));
                ("total", TPtr V0043TresList)
              ]));
            ("wall_clock", TPtr (TStruct [
                ("per", TPtr (TStruct [
                    ("job", TPtr V0043Uint32NoValStruct);
                    ("qos", TPtr V0043Uint32NoValStruct)
                  ]))
              ]))
          ]));
        ("min", TPtr (TStruct [
            ("priority_threshold", TPtr V0043Uint32NoValStruct);
            ("tres", TPtr (TStruct [
                ("per", TPtr (TStruct [
                    ("job", TPtr V0043TresList)
                  ]))
              ]))
          ]))
      ]));
    ("name", TPtr TString);
    ("preempt", TPtr (TStruct [
        ("exempt_time", TPtr V0043Uint32NoValStruct);
        ("list", TPtr V0043QosPreemptList);
        ("mode", TPtr (TSlice V0043QosPreemptMode))
      ]));
    ("priority", TPtr V0043Uint32NoValStruct);
    ("usage_factor", TPtr V0043Float64NoValStruct);
    ("usage_threshold", TPtr V0043Float64NoValStruct)
  ].

Definition V0043QosList : gotype := TSlice V0043Qos.

Definition V0043OpenapiSlurmdbdConfigResp : gotype :=
  TStruct [
    ("accounts", TPtr V0043AccountList);
    ("associations", TPtr V0043AssocList);
    ("clusters", TPtr V0043ClusterRecList);
    ("errors", TPtr V0043OpenapiErrors);
    ("instances", TPtr V0043InstanceList);
    ("meta", TPtr V0043OpenapiMeta);
    ("qos", TPtr V0043QosList);
    ("tres", TPtr V0043TresList);
    ("users", TPtr V0043UserList);
    ("warnings", TPtr V0043OpenapiWarnings);
    ("wckeys", TPtr V0043WckeyList)
  ].

Definition V0043OpenapiSlurmdbdJobsResp : gotype :=
  TStruct [
    ("errors", TPtr V0043OpenapiErrors);
    ("jobs", V0043JobList);
    ("meta", TPtr V0043OpenapiMeta);
    ("warnings", TPtr V0043OpenapiWarnings)
  ].

Definition V0043SlurmdbdPing : gotype :=
  TStruct [
    ("hostname", TString);
    ("latency", TInt 64);
    ("primary", TBool);
    ("responding", TBool)
  ].

Definition V0043SlurmdbdPingArray : gotype := TSlice V0043SlurmdbdPing.

Definition V0043OpenapiSlurmdbdPingResp : gotype :=
  TStruct [
    ("errors", TPtr V0043OpenapiErrors);
    ("meta", TPtr V0043OpenapiMeta);
    ("pings", V0043SlurmdbdPingArray);
    ("warnings", TPtr V0043OpenapiWarnings)
  ].

Definition V0043OpenapiSlurmdbdQosRemovedResp : gotype :=
  TStruct [
    ("errors", TPtr V0043OpenapiErrors);
    ("meta", TPtr V0043OpenapiMeta);
    ("removed_qos", V0043StringList);
    ("warnings", TPtr V0043OpenapiWarnings)
  ].

Definition V0043OpenapiSlurmdbdQosResp : gotype :=
  TStruct [
    ("errors", TPtr V0043OpenapiErrors);
    ("meta", TPtr V0043OpenapiMeta);
    ("qos", V0043QosList);
    ("warnings", TPtr V0043OpenapiWarnings)
  ].

Definition V0043StatsRpc : gotype :=
  TStruct [
    ("count", TPtr (TInt 32));
    ("rpc", TPtr TString);
    ("time", TPtr (TStruct [
        ("average", TPtr (TInt 64));
        ("total", TPtr (TInt 64))
      ]))
  ].

Definition V0043StatsRpcList : gotype := TSlice V0043StatsRpc.

Definition V0043RollupStats : gotype :=
  TStruct [
    ("daily", TPtr (TStruct [
        ("count", TPtr (TInt 32));
        ("duration", TPtr (TStruct [
            ("last", TPtr (TInt 64));
            ("max", TPtr (TInt 64));
            ("time", TPtr (TInt 64))
          ]));
        ("last_run", TPtr (TInt 64))
      ]));
    ("hourly", TPtr (TStruct [
        ("count", TPtr (TInt 32));
        ("duration", TPtr (TStruct [
            ("last", TPtr (TInt 64));
            ("max", TPtr (TInt 64));
            ("time", TPtr (TInt 64))
          ]));
        ("last_run", TPtr (TInt 64))
      ]));
    ("monthly", TPtr (TStruct [
        ("count", TPtr (TInt 32));
        ("duration", TPtr (TStruct [
            ("last", TPtr (TInt 64));
            ("max", TPtr (TInt 64));
            ("time", TPtr (TInt 64))
          ]));
        ("last_run", TPtr (TInt 64))
      ]))
  ].

Definition V0043StatsUser : gotype :=
  TStruct [
    ("count", TPtr (TInt 32));
    ("time", TPtr (TStruct [
        ("average", TPtr (TInt 64));
        ("total", TPtr (TInt 64))
      ]));
    ("user", TPtr TString)
  ].

Definition V0043StatsUserList : gotype := TSlice V0043StatsUser.

Definition V0043StatsRec : gotype :=
  TStruct [
    ("RPCs", TPtr V0043StatsRpcList);
    ("rollups", TPtr V0043RollupStats);
    ("time_start", TPtr (TInt 64));
    ("users", TPtr V0043StatsUserList)
  ].

Definition V0043OpenapiSlurmdbdStatsResp : gotype :=
  TStruct [
    ("errors", TPtr V0043OpenapiErrors);
    ("meta", TPtr V0043OpenapiMeta);
    ("statistics", V0043StatsRec);
    ("warnings", TPtr V0043OpenapiWarnings)
  ].

Definition V0043OpenapiTresResp : gotype :=
  TStruct [
    ("TRES", V0043TresList);
    ("errors", TPtr V0043OpenapiErrors);
    ("meta", TPtr V0043OpenapiMeta);
    ("warnings", TPtr V0043OpenapiWarnings)
  ].

Definition V0043UsersAddCond : gotype :=
  TStruct [
    ("accounts", TPtr V0043StringList);
    ("association", TPtr V0043AssocRecSet);
    ("clusters", TPtr V0043StringList);
    ("partitions", TPtr V0043StringList);
    ("users", V0043StringList);
    ("wckeys", TPtr V0043StringList)
  ].

Definition V0043UserShortAdminlevel : gotype := TString.

Definition V0043UserShort : gotype :=
  TStruct [
    ("adminlevel", TPtr (TSlice V0043UserShortAdminlevel));
    ("defaultaccount", TPtr TString);
    ("defaultwckey", TPtr TString)
  ].

Definition V0043OpenapiUsersAddCondResp : gotype :=
  TStruct [
    ("association_condition", V0043UsersAddCond);
    ("errors", TPtr V0043OpenapiErrors);
    ("meta", TPtr V0043OpenapiMeta);
    ("user", V0043UserShort);
    ("warnings", TPtr V0043OpenapiWarnings)
  ].

Definition V0043OpenapiUsersAddCondRespStr : gotype :=
  TStruct [
    ("added_users", TString);
    ("errors", TPtr V0043OpenapiErrors);
    ("meta", TPtr V0043OpenapiMeta);
    ("warnings", TPtr V0043OpenapiWarnings)
  ].

Definition V0043OpenapiWckeyRemovedResp : gotype :=
  TStruct [
    ("deleted_wckeys", V0043StringList);
    ("errors", TPtr V0043OpenapiErrors);
    ("meta", TPtr V0043OpenapiMeta);
    ("warnings", TPtr V0043OpenapiWarnings)
  ].

Definition V0043OpenapiWckeyResp : gotype :=
  TStruct [
    ("errors", TPtr V0043OpenapiErrors);
    ("meta", TPtr V0043OpenapiMeta);
    ("warnings", TPtr V0043OpenapiWarnings);
    ("wckeys", V0043WckeyList)
  ].

Definition V0043ReservationModReq : gotype :=
  TStruct [
    ("reservations", TPtr V0043ReservationDescMsgList)
  ].

Definition V0043UpdateNodeMsgState : gotype := TString.

Definition V0043UpdateNodeMsg : gotype :=
  TStruct [
    ("address", TPtr V0043HostlistString);
    ("comment", TPtr TString);
    ("cpu_bind", TPtr (TInt 32));
    ("extra", TPtr TString);
    ("features", TPtr V0043CsvString);
    ("features_act", TPtr V0043CsvString);
    ("gres", TPtr TString);
    ("hostname", TPtr V0043HostlistString);
    ("name", TPtr V0043HostlistString);
    ("reason", TPtr TString);
    ("reason_uid", TPtr TString);
    ("resume_after", TPtr V0043Uint32NoValStruct);
    ("state", TPtr (TSlice V0043UpdateNodeMsgState));
    ("topology_str", TPtr TString);
    ("weight", TPtr V0043Uint32NoValStruct)
  ].
