(* ===== verification/OpenApiRequests.v ===== *)
(** * OpenApiRequests: the generated parameters and bodies of requests

    The parameter structs of [hack/openapi/slurm_openapi.gen.go], by the names of
    their [json] tags, and the aliases for the bodies of requests. *)
From S2P Require Import Prelude Schema OpenApi OpenApiModels.
Open Scope Z_scope.

Definition SlurmV0043DeleteJobParamsFlags : gotype := TString.

Definition SlurmV0043DeleteJobParams : gotype :=
  TStruct [
    ("signal", TPtr TString);
    ("flags", TPtr SlurmV0043DeleteJobParamsFlags)
  ].

Definition SlurmV0043GetJobParamsFlags : gotype := TString.

Definition SlurmV0043GetJobParams : gotype :=
  TStruct [
    ("update_time", TPtr TString);
    ("flags", TPtr SlurmV0043GetJobParamsFlags)
  ].

Definition SlurmV0043GetJobsParamsFlags : gotype := TString.

Definition SlurmV0043GetJobsParams : gotype :=
  TStruct [
    ("update_time", TPtr TString);
    ("flags", TPtr SlurmV0043GetJobsParamsFlags)
  ].

Definition SlurmV0043GetJobsStateParams : gotype :=
  TStruct [
    ("job_id", TPtr TString)
  ].

Definition SlurmV0043GetNodeParamsFlags : gotype := TString.

Definition SlurmV0043GetNodeParams : gotype :=
  TStruct [
    ("update_time", TPtr TString);
    ("flags", TPtr SlurmV0043GetNodeParamsFlags)
  ].

Definition SlurmV0043GetNodesParamsFlags : gotype := TString.

Definition SlurmV0043GetNodesParams : gotype :=
  TStruct [
    ("update_time", TPtr TString);
    ("flags", TPtr SlurmV0043GetNodesParamsFlags)
  ].

Definition SlurmV0043GetPartitionParamsFlags : gotype := TString.

Definition SlurmV0043GetPartitionParams : gotype :=
  TStruct [
    ("update_time", TPtr TString);
    ("flags", TPtr SlurmV0043GetPartitionParamsFlags)
  ].

Definition SlurmV0043GetPartitionsParamsFlags : gotype := TString.

Definition SlurmV0043GetPartitionsParams : gotype :=
  TStruct [
    ("update_time", TPtr TString);
    ("flags", TPtr SlurmV0043GetPartitionsParamsFlags)
  ].

Definition SlurmV0043GetReservationParams : gotype :=
  TStruct [
    ("update_time", TPtr TString)
  ].

Definition SlurmV0043GetReservationsParams : gotype :=
  TStruct [
    ("update_time", TPtr TString)
  ].

Definition SlurmV0043GetSharesParams : gotype :=
  TStruct [
    ("accounts", TPtr TString);
    ("users", TPtr TString)
  ].

Definition SlurmdbV0043GetAccountParams : gotype :=
  TStruct [
    ("with_assocs", TPtr TString);
    ("with_coords", TPtr TString);
    ("with_deleted", TPtr TString)
  ].

Definition SlurmdbV0043GetAccountsParams : gotype :=
  TStruct [
    ("description", TPtr TString);
    ("DELETED", TPtr TString);
    ("WithAssociations", TPtr TString);
    ("WithCoordinators", TPtr TString);
    ("NoUsersAreCoords", TPtr TString);
    ("UsersAreCoords", TPtr TString)
  ].

Definition SlurmdbV0043DeleteAssociationParams : gotype :=
  TStruct [
    ("account", TPtr TString);
    ("cluster", TPtr TString);
    ("default_qos", TPtr TString);
    ("Include deleted associations", TPtr TString);
    ("Include usage", TPtr TString);
    ("Filter to only defaults", TPtr TString);
    ("Include the raw QOS or delta_qos", TPtr TString);
    ("Include sub acct information", TPtr TString);
    ("Exclude parent id/name", TPtr TString);
    ("Exclude limits from parents", TPtr TString);
    ("format", TPtr TString);
    ("id", TPtr TString);
    ("parent_account", TPtr TString);
    ("partition", TPtr TString);
    ("qos", TPtr TString);
    ("usage_end", TPtr TString);
    ("usage_start", TPtr TString);
    ("user", TPtr TString)
  ].

Definition SlurmdbV0043GetAssociationParams : gotype :=
  TStruct [
    ("account", TPtr TString);
    ("cluster", TPtr TString);
    ("default_qos", TPtr TString);
    ("Include deleted associations", TPtr TString);
    ("Include usage", TPtr TString);
    ("Filter to only defaults", TPtr TString);
    ("Include the raw QOS or delta_qos", TPtr TString);
    ("Include sub acct information", TPtr TString);
    ("Exclude parent id/name", TPtr TString);
    ("Exclude limits from parents", TPtr TString);
    ("format", TPtr TString);
    ("id", TPtr TString);
    ("parent_account", TPtr TString);
    ("partition", TPtr TString);
    ("qos", TPtr TString);
    ("usage_end", TPtr TString);
    ("usage_start", TPtr TString);
    ("user", TPtr TString)
  ].

Definition SlurmdbV0043DeleteAssociationsParams : gotype :=
  TStruct [
    ("account", TPtr TString);
    ("cluster", TPtr TString);
    ("default_qos", TPtr TString);
    ("Include deleted associations", TPtr TString);
    ("Include usage", TPtr TString);
    ("Filter to only defaults", TPtr TString);
    ("Include the raw QOS or delta_qos", TPtr TString);
    ("Include sub acct information", TPtr TString);
    ("Exclude parent id/name", TPtr TString);
    ("Exclude limits from parents", TPtr TString);
    ("format", TPtr TString);
    ("id", TPtr TString);
    ("parent_account", TPtr TString);
    ("partition", TPtr TString);
    ("qos", TPtr TString);
    ("usage_end", TPtr TString);
    ("usage_start", TPtr TString);
    ("user", TPtr TString)
  ].

Definition SlurmdbV0043GetAssociationsParams : gotype :=
  TStruct [
    ("account", TPtr TString);
    ("cluster", TPtr TString);
    ("default_qos", TPtr TString);
    ("Include deleted associations", TPtr TString);
    ("Include usage", TPtr TString);
    ("Filter to only defaults", TPtr TString);
    ("Include the raw QOS or delta_qos", TPtr TString);
    ("Include sub acct information", TPtr TString);
    ("Exclude parent id/name", TPtr TString);
    ("Exclude limits from parents", TPtr TString);
    ("format", TPtr TString);
    ("id", TPtr TString);
    ("parent_account", TPtr TString);
    ("partition", TPtr TString);
    ("qos", TPtr TString);
    ("usage_end", TPtr TString);
    ("usage_start", TPtr TString);
    ("user", TPtr TString)
  ].

Definition SlurmdbV0043DeleteClusterParamsClassification : gotype := TString.

Definition SlurmdbV0043DeleteClusterParamsFlags : gotype := TString.

Definition SlurmdbV0043DeleteClusterParams : gotype :=
  TStruct [
    ("classification", TPtr SlurmdbV0043DeleteClusterParamsClassification);
    ("cluster", TPtr TString);
    ("federation", TPtr TString);
    ("flags", TPtr SlurmdbV0043DeleteClusterParamsFlags);
    ("format", TPtr TString);
    ("rpc_version", TPtr TString);
    ("usage_end", TPtr TString);
    ("usage_start", TPtr TString);
    ("with_deleted", TPtr TString);
    ("with_usage", TPtr TString)
  ].

Definition SlurmdbV0043GetClusterParamsClassification : gotype := TString.

Definition SlurmdbV0043GetClusterParamsFlags : gotype := TString.

Definition SlurmdbV0043GetClusterParams : gotype :=
  TStruct [
    ("classification", TPtr SlurmdbV0043GetClusterParamsClassification);
    ("cluster", TPtr TString);
    ("federation", TPtr TString);
    ("flags", TPtr SlurmdbV0043GetClusterParamsFlags);
    ("format", TPtr TString);
    ("rpc_version", TPtr TString);
    ("usage_end", TPtr TString);
    ("usage_start", TPtr TString);
    ("with_deleted", TPtr TString);
    ("with_usage", TPtr TString)
  ].

Definition SlurmdbV0043GetClustersParams : gotype :=
  TStruct [
    ("update_time", TPtr TString)
  ].

Definition SlurmdbV0043PostClustersParams : gotype :=
  TStruct [
    ("update_time", TPtr TString)
  ].

Definition SlurmdbV0043GetInstanceParams : gotype :=
  TStruct [
    ("cluster", TPtr TString);
    ("extra", TPtr TString);
    ("format", TPtr TString);
    ("instance_id", TPtr TString);
    ("instance_type", TPtr TString);
    ("node_list", TPtr TString);
    ("time_end", TPtr TString);
    ("time_start", TPtr TString)
  ].

Definition SlurmdbV0043GetInstancesParams : gotype :=
  TStruct [
    ("cluster", TPtr TString);
    ("extra", TPtr TString);
    ("format", TPtr TString);
    ("instance_id", TPtr TString);
    ("instance_type", TPtr TString);
    ("node_list", TPtr TString);
    ("time_end", TPtr TString);
    ("time_start", TPtr TString)
  ].

Definition SlurmdbV0043GetJobsParams : gotype :=
  TStruct [
    ("account", TPtr TString);
    ("association", TPtr TString);
    ("cluster", TPtr TString);
    ("constraints", TPtr TString);
    ("scheduler_unset", TPtr TString);
    ("scheduled_on_submit", TPtr TString);
    ("scheduled_by_main", TPtr TString);
    ("scheduled_by_backfill", TPtr TString);
    ("job_started", TPtr TString);
    ("exit_code", TPtr TString);
    ("show_duplicates", TPtr TString);
    ("skip_steps", TPtr TString);
    ("disable_truncate_usage_time", TPtr TString);
    ("whole_hetjob", TPtr TString);
    ("disable_whole_hetjob", TPtr TString);
    ("disable_wait_for_result", TPtr TString);
    ("usage_time_as_submit_time", TPtr TString);
    ("show_batch_script", TPtr TString);
    ("show_job_environment", TPtr TString);
    ("format", TPtr TString);
    ("groups", TPtr TString);
    ("job_name", TPtr TString);
    ("partition", TPtr TString);
    ("qos", TPtr TString);
    ("reason", TPtr TString);
    ("reservation", TPtr TString);
    ("reservation_id", TPtr TString);
    ("state", TPtr TString);
    ("step", TPtr TString);
    ("end_time", TPtr TString);
    ("start_time", TPtr TString);
    ("node", TPtr TString);
    ("users", TPtr TString);
    ("wckey", TPtr TString)
  ].

Definition SlurmdbV0043GetQosParamsPreemptMode : gotype := TString.

Definition SlurmdbV0043GetQosParams : gotype :=
  TStruct [
    ("description", TPtr TString);
    ("Include deleted QOS", TPtr TString);
    ("id", TPtr TString);
    ("format", TPtr TString);
    ("name", TPtr TString);
    ("preempt_mode", TPtr SlurmdbV0043GetQosParamsPreemptMode)
  ].

Definition SlurmdbV0043PostQosParamsPreemptMode : gotype := TString.

Definition SlurmdbV0043PostQosParams : gotype :=
  TStruct [
    ("description", TPtr TString);
    ("Include deleted QOS", TPtr TString);
    ("id", TPtr TString);
    ("format", TPtr TString);
    ("name", TPtr TString);
    ("preempt_mode", TPtr SlurmdbV0043PostQosParamsPreemptMode)
  ].

Definition SlurmdbV0043GetSingleQosParams : gotype :=
  TStruct [
    ("with_deleted", TPtr TString)
  ].

Definition SlurmdbV0043GetUserParams : gotype :=
  TStruct [
    ("with_deleted", TPtr TString);
    ("with_assocs", TPtr TString);
    ("with_coords", TPtr TString);
    ("with_wckeys", TPtr TString)
  ].

Definition SlurmdbV0043GetUsersParamsAdminLevel : gotype := TString.

Definition SlurmdbV0043GetUsersParams : gotype :=
  TStruct [
    ("admin_level", TPtr SlurmdbV0043GetUsersParamsAdminLevel);
    ("default_account", TPtr TString);
    ("default_wckey", TPtr TString);
    ("with_assocs", TPtr TString);
    ("with_coords", TPtr TString);
    ("with_deleted", TPtr TString);
    ("with_wckeys", TPtr TString);
    ("without_defaults", TPtr TString)
  ].

Definition SlurmdbV0043PostUsersAssociationParamsFlags : gotype := TString.

Definition SlurmdbV0043PostUsersAssociationParams : gotype :=
  TStruct [
    ("update_time", TPtr TString);
    ("flags", TPtr SlurmdbV0043PostUsersAssociationParamsFlags)
  ].

Definition SlurmdbV0043GetWckeysParams : gotype :=
  TStruct [
    ("cluster", TPtr TString);
    ("format", TPtr TString);
    ("id", TPtr TString);
    ("name", TPtr TString);
    ("only_defaults", TPtr TString);
    ("usage_end", TPtr TString);
    ("usage_start", TPtr TString);
    ("user", TPtr TString);
    ("with_usage", TPtr TString);
    ("with_deleted", TPtr TString)
  ].

Definition SlurmdbV0043PostWckeysParams : gotype :=
  TStruct [
    ("cluster", TPtr TString);
    ("format", TPtr TString);
    ("id", TPtr TString);
    ("name", TPtr TString);
    ("only_defaults", TPtr TString);
    ("usage_end", TPtr TString);
    ("usage_start", TPtr TString);
    ("user", TPtr TString);
    ("with_usage", TPtr TString);
    ("with_deleted", TPtr TString)
  ].

Definition SlurmV0043PostJobAllocateJSONRequestBody : gotype := V0043JobAllocReq.

Definition SlurmV0043PostJobSubmitJSONRequestBody : gotype := V0043JobSubmitReq.

Definition SlurmV0043PostJobJSONRequestBody : gotype := V0043JobDescMsg.

Definition SlurmV0043DeleteJobsJSONRequestBody : gotype := V0043KillJobsMsg.

Definition SlurmV0043PostNodeJSONRequestBody : gotype := V0043UpdateNodeMsg.

Definition SlurmV0043PostNodesJSONRequestBody : gotype := V0043UpdateNodeMsg.

Definition SlurmV0043PostReservationJSONRequestBody : gotype := V0043ReservationDescMsg.

Definition SlurmV0043PostReservationsJSONRequestBody : gotype := V0043ReservationModReq.

Definition SlurmdbV0043PostAccountsJSONRequestBody : gotype := V0043OpenapiAccountsResp.

Definition SlurmdbV0043PostAccountsAssociationJSONRequestBody : gotype := V0043OpenapiAccountsAddCondResp.

Definition SlurmdbV0043PostAssociationsJSONRequestBody : gotype := V0043OpenapiAssocsResp.

Definition SlurmdbV0043PostClustersJSONRequestBody : gotype := V0043OpenapiClustersResp.

Definition SlurmdbV0043PostConfigJSONRequestBody : gotype := V0043OpenapiSlurmdbdConfigResp.

Definition SlurmdbV0043PostQosJSONRequestBody : gotype := V0043OpenapiSlurmdbdQosResp.

Definition SlurmdbV0043PostTresJSONRequestBody : gotype := V0043OpenapiTresResp.

Definition SlurmdbV0043PostUsersJSONRequestBody : gotype := V0043OpenapiUsersResp.

Definition SlurmdbV0043PostUsersAssociationJSONRequestBody : gotype := V0043OpenapiUsersAddCondResp.

Definition SlurmdbV0043PostWckeysJSONRequestBody : gotype := V0043OpenapiWckeyResp.
