(* ===== verification/OpenApiValues.v ===== *)
(** * OpenApiValues: the generated constants

    The [const] blocks of [hack/openapi/slurm_openapi.gen.go]: the names of the
    constants of a string type, each with its value. *)
From S2P Require Import Prelude.

Definition ScopesValues : list (string * string) :=
  [("BearerAuthScopes", "bearerAuth.Scopes");
   ("TokenScopes", "token.Scopes");
   ("UserScopes", "user.Scopes")].

Definition V0043AccountFlagsValues : list (string * string) :=
  [("V0043AccountFlagsDELETED", "DELETED");
   ("V0043AccountFlagsNoUsersAreCoords", "NoUsersAreCoords");
   ("V0043AccountFlagsUsersAreCoords", "UsersAreCoords");
   ("V0043AccountFlagsWithAssociations", "WithAssociations");
   ("V0043AccountFlagsWithCoordinators", "WithCoordinators")].

Definition V0043AssocFlagsValues : list (string * string) :=
  [("V0043AssocFlagsDELETED", "DELETED");
   ("V0043AssocFlagsExact", "Exact");
   ("V0043AssocFlagsNoUpdate", "NoUpdate");
   ("V0043AssocFlagsNoUsersAreCoords", "NoUsersAreCoords");
   ("V0043AssocFlagsUsersAreCoords", "UsersAreCoords")].

Definition V0043AssocSharesObjWrapTypeValues : list (string * string) :=
  [("ASSOCIATION", "ASSOCIATION");
   ("USER", "USER")].

Definition V0043ClusterRecFlagsValues : list (string * string) :=
  [("V0043ClusterRecFlagsDELETED", "DELETED");
   ("V0043ClusterRecFlagsEXTERNAL", "EXTERNAL");
   ("V0043ClusterRecFlagsFEDERATION", "FEDERATION");
   ("V0043ClusterRecFlagsMULTIPLESLURMD", "MULTIPLE_SLURMD");
   ("V0043ClusterRecFlagsREGISTERING", "REGISTERING")].

Definition V0043CronEntryFlagsValues : list (string * string) :=
  [("WILDDAYOFMONTH", "WILD_DAY_OF_MONTH");
   ("WILDDAYOFWEEK", "WILD_DAY_OF_WEEK");
   ("WILDHOUR", "WILD_HOUR");
   ("WILDMINUTE", "WILD_MINUTE");
   ("WILDMONTH", "WILD_MONTH")].

Definition V0043JobFlagsValues : list (string * string) :=
  [("V0043JobFlagsCLEARSCHEDULING", "CLEAR_SCHEDULING");
   ("V0043JobFlagsNONE", "NONE");
   ("V0043JobFlagsNOTSET", "NOT_SET");
   ("V0043JobFlagsSTARTEDONBACKFILL", "STARTED_ON_BACKFILL");
   ("V0043JobFlagsSTARTEDONSCHEDULE", "STARTED_ON_SCHEDULE");
   ("V0043JobFlagsSTARTEDONSUBMIT", "STARTED_ON_SUBMIT");
   ("V0043JobFlagsSTARTRECEIVED", "START_RECEIVED")].

Definition V0043JobStateCurrentValues : list (string * string) :=
  [("V0043JobStateCurrentBOOTFAIL", "BOOT_FAIL");
   ("V0043JobStateCurrentCANCELLED", "CANCELLED");
   ("V0043JobStateCurrentCOMPLETED", "COMPLETED");
   ("V0043JobStateCurrentCOMPLETING", "COMPLETING");
   ("V0043JobStateCurrentCONFIGURING", "CONFIGURING");
   ("V0043JobStateCurrentDEADLINE", "DEADLINE");
   ("V0043JobStateCurrentFAILED", "FAILED");
   ("V0043JobStateCurrentLAUNCHFAILED", "LAUNCH_FAILED");
   ("V0043JobStateCurrentNODEFAIL", "NODE_FAIL");
   ("V0043JobStateCurrentOUTOFMEMORY", "OUT_OF_MEMORY");
   ("V0043JobStateCurrentPENDING", "PENDING");
   ("V0043JobStateCurrentPOWERUPNODE", "POWER_UP_NODE");
   ("V0043JobStateCurrentPREEMPTED", "PREEMPTED");
   ("V0043JobStateCurrentRECONFIGFAIL", "RECONFIG_FAIL");
   ("V0043JobStateCurrentREQUEUED", "REQUEUED");
   ("V0043JobStateCurrentREQUEUEFED", "REQUEUE_FED");
   ("V0043JobStateCurrentREQUEUEHOLD", "REQUEUE_HOLD");
   ("V0043JobStateCurrentRESIZING", "RESIZING");
   ("V0043JobStateCurrentRESVDELHOLD", "RESV_DEL_HOLD");
   ("V0043JobStateCurrentREVOKED", "REVOKED");
   ("V0043JobStateCurrentRUNNING", "RUNNING");
   ("V0043JobStateCurrentSIGNALING", "SIGNALING");
   ("V0043JobStateCurrentSPECIALEXIT", "SPECIAL_EXIT");
   ("V0043JobStateCurrentSTAGEOUT", "STAGE_OUT");
   ("V0043JobStateCurrentSTOPPED", "STOPPED");
   ("V0043JobStateCurrentSUSPENDED", "SUSPENDED");
   ("V0043JobStateCurrentTIMEOUT", "TIMEOUT")].

Definition V0043JobDescMsgCpuBindingFlagsValues : list (string * string) :=
  [("V0043JobDescMsgCpuBindingFlagsCPUBINDLDMAP", "CPU_BIND_LDMAP");
   ("V0043JobDescMsgCpuBindingFlagsCPUBINDLDMASK", "CPU_BIND_LDMASK");
   ("V0043JobDescMsgCpuBindingFlagsCPUBINDLDRANK", "CPU_BIND_LDRANK");
   ("V0043JobDescMsgCpuBindingFlagsCPUBINDMAP", "CPU_BIND_MAP");
   ("V0043JobDescMsgCpuBindingFlagsCPUBINDMASK", "CPU_BIND_MASK");
   ("V0043JobDescMsgCpuBindingFlagsCPUBINDNONE", "CPU_BIND_NONE");
   ("V0043JobDescMsgCpuBindingFlagsCPUBINDONETHREADPERCORE", "CPU_BIND_ONE_THREAD_PER_CORE");
   ("V0043JobDescMsgCpuBindingFlagsCPUBINDRANK", "CPU_BIND_RANK");
   ("V0043JobDescMsgCpuBindingFlagsCPUBINDTOCORES", "CPU_BIND_TO_CORES");
   ("V0043JobDescMsgCpuBindingFlagsCPUBINDTOLDOMS", "CPU_BIND_TO_LDOMS");
   ("V0043JobDescMsgCpuBindingFlagsCPUBINDTOSOCKETS", "CPU_BIND_TO_SOCKETS");
   ("V0043JobDescMsgCpuBindingFlagsCPUBINDTOTHREADS", "CPU_BIND_TO_THREADS");
   ("V0043JobDescMsgCpuBindingFlagsVERBOSE", "VERBOSE")].

Definition V0043JobDescMsgFlagsValues : list (string * string) :=
  [("V0043JobDescMsgFlagsACCRUECOUNTCLEARED", "ACCRUE_COUNT_CLEARED");
   ("V0043JobDescMsgFlagsBACKFILLATTEMPTED", "BACKFILL_ATTEMPTED");
   ("V0043JobDescMsgFlagsCRONJOB", "CRON_JOB");
   ("V0043JobDescMsgFlagsDEPENDENT", "DEPENDENT");
   ("V0043JobDescMsgFlagsEXACTCPUCOUNTREQUESTED", "EXACT_CPU_COUNT_REQUESTED");
   ("V0043JobDescMsgFlagsEXACTMEMORYREQUESTED", "EXACT_MEMORY_REQUESTED");
   ("V0043JobDescMsgFlagsEXACTTASKCOUNTREQUESTED", "EXACT_TASK_COUNT_REQUESTED");
   ("V0043JobDescMsgFlagsEXTERNALJOB", "EXTERNAL_JOB");
   ("V0043JobDescMsgFlagsGRESBINDINGDISABLED", "GRES_BINDING_DISABLED");
   ("V0043JobDescMsgFlagsGRESBINDINGENFORCED", "GRES_BINDING_ENFORCED");
   ("V0043JobDescMsgFlagsHASSTATEDIRECTORY", "HAS_STATE_DIRECTORY");
   ("V0043JobDescMsgFlagsHETEROGENEOUSJOB", "HETEROGENEOUS_JOB");
   ("V0043JobDescMsgFlagsJOBACCRUETIMERESET", "JOB_ACCRUE_TIME_RESET");
   ("V0043JobDescMsgFlagsJOBKILLHURRY", "JOB_KILL_HURRY");
   ("V0043JobDescMsgFlagsJOBWASRUNNING", "JOB_WAS_RUNNING");
   ("V0043JobDescMsgFlagsKILLINVALIDDEPENDENCY", "KILL_INVALID_DEPENDENCY");
   ("V0043JobDescMsgFlagsMAGNETIC", "MAGNETIC");
   ("V0043JobDescMsgFlagsNOKILLINVALIDDEPENDENCY", "NO_KILL_INVALID_DEPENDENCY");
   ("V0043JobDescMsgFlagsPARTITIONASSIGNED", "PARTITION_ASSIGNED");
   ("V0043JobDescMsgFlagsPREFERMINIMUMNODECOUNT", "PREFER_MINIMUM_NODE_COUNT");
   ("V0043JobDescMsgFlagsSCHEDULINGATTEMPTED", "SCHEDULING_ATTEMPTED");
   ("V0043JobDescMsgFlagsSENDJOBENVIRONMENT", "SEND_JOB_ENVIRONMENT");
   ("V0043JobDescMsgFlagsSIBLINGCLUSTERUPDATEONLY", "SIBLING_CLUSTER_UPDATE_ONLY");
   ("V0043JobDescMsgFlagsSKIPTRESSTRINGACCOUNTING", "SKIP_TRES_STRING_ACCOUNTING");
   ("V0043JobDescMsgFlagsSPREADJOB", "SPREAD_JOB");
   ("V0043JobDescMsgFlagsSTEPMGRENABLED", "STEPMGR_ENABLED");
   ("V0043JobDescMsgFlagsTESTINGBACKFILL", "TESTING_BACKFILL");
   ("V0043JobDescMsgFlagsTESTINGWHOLENODEBACKFILL", "TESTING_WHOLE_NODE_BACKFILL");
   ("V0043JobDescMsgFlagsTESTNOWONLY", "TEST_NOW_ONLY");
   ("V0043JobDescMsgFlagsTOPPRIORITYJOB", "TOP_PRIORITY_JOB");
   ("V0043JobDescMsgFlagsUSINGDEFAULTACCOUNT", "USING_DEFAULT_ACCOUNT");
   ("V0043JobDescMsgFlagsUSINGDEFAULTPARTITION", "USING_DEFAULT_PARTITION");
   ("V0043JobDescMsgFlagsUSINGDEFAULTQOS", "USING_DEFAULT_QOS");
   ("V0043JobDescMsgFlagsUSINGDEFAULTWCKEY", "USING_DEFAULT_WCKEY")].

Definition V0043JobDescMsgKillWarningFlagsValues : list (string * string) :=
  [("V0043JobDescMsgKillWarningFlagsARRAYTASK", "ARRAY_TASK");
   ("V0043JobDescMsgKillWarningFlagsBATCHJOB", "BATCH_JOB");
   ("V0043JobDescMsgKillWarningFlagsCRONJOBS", "CRON_JOBS");
   ("V0043JobDescMsgKillWarningFlagsFEDERATIONREQUEUE", "FEDERATION_REQUEUE");
   ("V0043JobDescMsgKillWarningFlagsFULLJOB", "FULL_JOB");
   ("V0043JobDescMsgKillWarningFlagsFULLSTEPSONLY", "FULL_STEPS_ONLY");
   ("V0043JobDescMsgKillWarningFlagsHURRY", "HURRY");
   ("V0043JobDescMsgKillWarningFlagsNOSIBLINGJOBS", "NO_SIBLING_JOBS");
   ("V0043JobDescMsgKillWarningFlagsOUTOFMEMORY", "OUT_OF_MEMORY");
   ("V0043JobDescMsgKillWarningFlagsRESERVATIONJOB", "RESERVATION_JOB");
   ("V0043JobDescMsgKillWarningFlagsVERBOSE", "VERBOSE");
   ("V0043JobDescMsgKillWarningFlagsWARNINGSENT", "WARNING_SENT")].

Definition V0043JobDescMsgMailTypeValues : list (string * string) :=
  [("V0043JobDescMsgMailTypeARRAYTASKS", "ARRAY_TASKS");
   ("V0043JobDescMsgMailTypeBEGIN", "BEGIN");
   ("V0043JobDescMsgMailTypeEND", "END");
   ("V0043JobDescMsgMailTypeFAIL", "FAIL");
   ("V0043JobDescMsgMailTypeINVALIDDEPENDENCY", "INVALID_DEPENDENCY");
   ("V0043JobDescMsgMailTypeREQUEUE", "REQUEUE");
   ("V0043JobDescMsgMailTypeSTAGEOUT", "STAGE_OUT");
   ("V0043JobDescMsgMailTypeTIME100", "TIME=100%");
   ("V0043JobDescMsgMailTypeTIME50", "TIME=50%");
   ("V0043JobDescMsgMailTypeTIME80", "TIME=80%");
   ("V0043JobDescMsgMailTypeTIME90", "TIME=90%")].

Definition V0043JobDescMsgMemoryBindingTypeValues : list (string * string) :=
  [("V0043JobDescMsgMemoryBindingTypeLOCAL", "LOCAL");
   ("V0043JobDescMsgMemoryBindingTypeMAP", "MAP");
   ("V0043JobDescMsgMemoryBindingTypeMASK", "MASK");
   ("V0043JobDescMsgMemoryBindingTypeNONE", "NONE");
   ("V0043JobDescMsgMemoryBindingTypePREFER", "PREFER");
   ("V0043JobDescMsgMemoryBindingTypeRANK", "RANK");
   ("V0043JobDescMsgMemoryBindingTypeSORT", "SORT");
   ("V0043JobDescMsgMemoryBindingTypeVERBOSE", "VERBOSE")].

Definition V0043JobDescMsgOpenModeValues : list (string * string) :=
  [("APPEND", "APPEND");
   ("TRUNCATE", "TRUNCATE")].

Definition V0043JobDescMsgProfileValues : list (string * string) :=
  [("V0043JobDescMsgProfileENERGY", "ENERGY");
   ("V0043JobDescMsgProfileLUSTRE", "LUSTRE");
   ("V0043JobDescMsgProfileNETWORK", "NETWORK");
   ("V0043JobDescMsgProfileNONE", "NONE");
   ("V0043JobDescMsgProfileNOTSET", "NOT_SET");
   ("V0043JobDescMsgProfileTASK", "TASK")].

Definition V0043JobDescMsgSharedValues : list (string * string) :=
  [("V0043JobDescMsgSharedMcs", "mcs");
   ("V0043JobDescMsgSharedNone", "none");
   ("V0043JobDescMsgSharedOversubscribe", "oversubscribe");
   ("V0043JobDescMsgSharedTopo", "topo");
   ("V0043JobDescMsgSharedUser", "user")].

Definition V0043JobDescMsgX11Values : list (string * string) :=
  [("BATCHNODE", "BATCH_NODE");
   ("FIRSTNODE", "FIRST_NODE");
   ("FORWARDALLNODES", "FORWARD_ALL_NODES");
   ("LASTNODE", "LAST_NODE")].

Definition V0043JobInfoFlagsValues : list (string * string) :=
  [("V0043JobInfoFlagsACCRUECOUNTCLEARED", "ACCRUE_COUNT_CLEARED");
   ("V0043JobInfoFlagsBACKFILLATTEMPTED", "BACKFILL_ATTEMPTED");
   ("V0043JobInfoFlagsCRONJOB", "CRON_JOB");
   ("V0043JobInfoFlagsDEPENDENT", "DEPENDENT");
   ("V0043JobInfoFlagsEXACTCPUCOUNTREQUESTED", "EXACT_CPU_COUNT_REQUESTED");
   ("V0043JobInfoFlagsEXACTMEMORYREQUESTED", "EXACT_MEMORY_REQUESTED");
   ("V0043JobInfoFlagsEXACTTASKCOUNTREQUESTED", "EXACT_TASK_COUNT_REQUESTED");
   ("V0043JobInfoFlagsEXTERNALJOB", "EXTERNAL_JOB");
   ("V0043JobInfoFlagsGRESBINDINGDISABLED", "GRES_BINDING_DISABLED");
   ("V0043JobInfoFlagsGRESBINDINGENFORCED", "GRES_BINDING_ENFORCED");
   ("V0043JobInfoFlagsHASSTATEDIRECTORY", "HAS_STATE_DIRECTORY");
   ("V0043JobInfoFlagsHETEROGENEOUSJOB", "HETEROGENEOUS_JOB");
   ("V0043JobInfoFlagsJOBACCRUETIMERESET", "JOB_ACCRUE_TIME_RESET");
   ("V0043JobInfoFlagsJOBKILLHURRY", "JOB_KILL_HURRY");
   ("V0043JobInfoFlagsJOBWASRUNNING", "JOB_WAS_RUNNING");
   ("V0043JobInfoFlagsKILLINVALIDDEPENDENCY", "KILL_INVALID_DEPENDENCY");
   ("V0043JobInfoFlagsMAGNETIC", "MAGNETIC");
   ("V0043JobInfoFlagsNOKILLINVALIDDEPENDENCY", "NO_KILL_INVALID_DEPENDENCY");
   ("V0043JobInfoFlagsPARTITIONASSIGNED", "PARTITION_ASSIGNED");
   ("V0043JobInfoFlagsPREFERMINIMUMNODECOUNT", "PREFER_MINIMUM_NODE_COUNT");
   ("V0043JobInfoFlagsSCHEDULINGATTEMPTED", "SCHEDULING_ATTEMPTED");
   ("V0043JobInfoFlagsSENDJOBENVIRONMENT", "SEND_JOB_ENVIRONMENT");
   ("V0043JobInfoFlagsSIBLINGCLUSTERUPDATEONLY", "SIBLING_CLUSTER_UPDATE_ONLY");
   ("V0043JobInfoFlagsSKIPTRESSTRINGACCOUNTING", "SKIP_TRES_STRING_ACCOUNTING");
   ("V0043JobInfoFlagsSPREADJOB", "SPREAD_JOB");
   ("V0043JobInfoFlagsSTEPMGRENABLED", "STEPMGR_ENABLED");
   ("V0043JobInfoFlagsTESTINGBACKFILL", "TESTING_BACKFILL");
   ("V0043JobInfoFlagsTESTINGWHOLENODEBACKFILL", "TESTING_WHOLE_NODE_BACKFILL");
   ("V0043JobInfoFlagsTESTNOWONLY", "TEST_NOW_ONLY");
   ("V0043JobInfoFlagsTOPPRIORITYJOB", "TOP_PRIORITY_JOB");
   ("V0043JobInfoFlagsUSINGDEFAULTACCOUNT", "USING_DEFAULT_ACCOUNT");
   ("V0043JobInfoFlagsUSINGDEFAULTPARTITION", "USING_DEFAULT_PARTITION");
   ("V0043JobInfoFlagsUSINGDEFAULTQOS", "USING_DEFAULT_QOS");
   ("V0043JobInfoFlagsUSINGDEFAULTWCKEY", "USING_DEFAULT_WCKEY")].

Definition V0043JobInfoJobStateValues : list (string * string) :=
  [("V0043JobInfoJobStateBOOTFAIL", "BOOT_FAIL");
   ("V0043JobInfoJobStateCANCELLED", "CANCELLED");
   ("V0043JobInfoJobStateCOMPLETED", "COMPLETED");
   ("V0043JobInfoJobStateCOMPLETING", "COMPLETING");
   ("V0043JobInfoJobStateCONFIGURING", "CONFIGURING");
   ("V0043JobInfoJobStateDEADLINE", "DEADLINE");
   ("V0043JobInfoJobStateFAILED", "FAILED");
   ("V0043JobInfoJobStateLAUNCHFAILED", "LAUNCH_FAILED");
   ("V0043JobInfoJobStateNODEFAIL", "NODE_FAIL");
   ("V0043JobInfoJobStateOUTOFMEMORY", "OUT_OF_MEMORY");
   ("V0043JobInfoJobStatePENDING", "PENDING");
   ("V0043JobInfoJobStatePOWERUPNODE", "POWER_UP_NODE");
   ("V0043JobInfoJobStatePREEMPTED", "PREEMPTED");
   ("V0043JobInfoJobStateRECONFIGFAIL", "RECONFIG_FAIL");
   ("V0043JobInfoJobStateREQUEUED", "REQUEUED");
   ("V0043JobInfoJobStateREQUEUEFED", "REQUEUE_FED");
   ("V0043JobInfoJobStateREQUEUEHOLD", "REQUEUE_HOLD");
   ("V0043JobInfoJobStateRESIZING", "RESIZING");
   ("V0043JobInfoJobStateRESVDELHOLD", "RESV_DEL_HOLD");
   ("V0043JobInfoJobStateREVOKED", "REVOKED");
   ("V0043JobInfoJobStateRUNNING", "RUNNING");
   ("V0043JobInfoJobStateSIGNALING", "SIGNALING");
   ("V0043JobInfoJobStateSPECIALEXIT", "SPECIAL_EXIT");
   ("V0043JobInfoJobStateSTAGEOUT", "STAGE_OUT");
   ("V0043JobInfoJobStateSTOPPED", "STOPPED");
   ("V0043JobInfoJobStateSUSPENDED", "SUSPENDED");
   ("V0043JobInfoJobStateTIMEOUT", "TIMEOUT")].

Definition V0043JobInfoMailTypeValues : list (string * string) :=
  [("V0043JobInfoMailTypeARRAYTASKS", "ARRAY_TASKS");
   ("V0043JobInfoMailTypeBEGIN", "BEGIN");
   ("V0043JobInfoMailTypeEND", "END");
   ("V0043JobInfoMailTypeFAIL", "FAIL");
   ("V0043JobInfoMailTypeINVALIDDEPENDENCY", "INVALID_DEPENDENCY");
   ("V0043JobInfoMailTypeREQUEUE", "REQUEUE");
   ("V0043JobInfoMailTypeSTAGEOUT", "STAGE_OUT");
   ("V0043JobInfoMailTypeTIME100", "TIME=100%");
   ("V0043JobInfoMailTypeTIME50", "TIME=50%");
   ("V0043JobInfoMailTypeTIME80", "TIME=80%");
   ("V0043JobInfoMailTypeTIME90", "TIME=90%")].

Definition V0043JobInfoProfileValues : list (string * string) :=
  [("V0043JobInfoProfileENERGY", "ENERGY");
   ("V0043JobInfoProfileLUSTRE", "LUSTRE");
   ("V0043JobInfoProfileNETWORK", "NETWORK");
   ("V0043JobInfoProfileNONE", "NONE");
   ("V0043JobInfoProfileNOTSET", "NOT_SET");
   ("V0043JobInfoProfileTASK", "TASK")].

Definition V0043JobInfoSharedValues : list (string * string) :=
  [("V0043JobInfoSharedMcs", "mcs");
   ("V0043JobInfoSharedNone", "none");
   ("V0043JobInfoSharedOversubscribe", "oversubscribe");
   ("V0043JobInfoSharedTopo", "topo");
   ("V0043JobInfoSharedUser", "user")].

Definition V0043JobResNodesSelectTypeValues : list (string * string) :=
  [("V0043JobResNodesSelectTypeAVAILABLE", "AVAILABLE");
   ("V0043JobResNodesSelectTypeONEROW", "ONE_ROW");
   ("V0043JobResNodesSelectTypeRESERVED", "RESERVED")].

Definition V0043JobResSelectTypeValues : list (string * string) :=
  [("V0043JobResSelectTypeBOARD", "BOARD");
   ("V0043JobResSelectTypeCORE", "CORE");
   ("V0043JobResSelectTypeCOREDEFAULTDISTBLOCK", "CORE_DEFAULT_DIST_BLOCK");
   ("V0043JobResSelectTypeCPU", "CPU");
   ("V0043JobResSelectTypeLINEAR", "LINEAR");
   ("V0043JobResSelectTypeLLN", "LLN");
   ("V0043JobResSelectTypeMEMORY", "MEMORY");
   ("V0043JobResSelectTypeONETASKPERCORE", "ONE_TASK_PER_CORE");
   ("V0043JobResSelectTypePACKNODES", "PACK_NODES");
   ("V0043JobResSelectTypeSOCKET", "SOCKET")].

Definition V0043JobResCoreStatusValues : list (string * string) :=
  [("V0043JobResCoreStatusALLOCATED", "ALLOCATED");
   ("V0043JobResCoreStatusINUSE", "IN_USE");
   ("V0043JobResCoreStatusINVALID", "INVALID");
   ("V0043JobResCoreStatusUNALLOCATED", "UNALLOCATED")].

Definition V0043KillJobsMsgFlagsValues : list (string * string) :=
  [("V0043KillJobsMsgFlagsARRAYTASK", "ARRAY_TASK");
   ("V0043KillJobsMsgFlagsBATCHJOB", "BATCH_JOB");
   ("V0043KillJobsMsgFlagsCRONJOBS", "CRON_JOBS");
   ("V0043KillJobsMsgFlagsFEDERATIONREQUEUE", "FEDERATION_REQUEUE");
   ("V0043KillJobsMsgFlagsFULLJOB", "FULL_JOB");
   ("V0043KillJobsMsgFlagsFULLSTEPSONLY", "FULL_STEPS_ONLY");
   ("V0043KillJobsMsgFlagsHURRY", "HURRY");
   ("V0043KillJobsMsgFlagsNOSIBLINGJOBS", "NO_SIBLING_JOBS");
   ("V0043KillJobsMsgFlagsOUTOFMEMORY", "OUT_OF_MEMORY");
   ("V0043KillJobsMsgFlagsRESERVATIONJOB", "RESERVATION_JOB");
   ("V0043KillJobsMsgFlagsVERBOSE", "VERBOSE");
   ("V0043KillJobsMsgFlagsWARNINGSENT", "WARNING_SENT")].

Definition V0043KillJobsMsgJobStateValues : list (string * string) :=
  [("V0043KillJobsMsgJobStateBOOTFAIL", "BOOT_FAIL");
   ("V0043KillJobsMsgJobStateCANCELLED", "CANCELLED");
   ("V0043KillJobsMsgJobStateCOMPLETED", "COMPLETED");
   ("V0043KillJobsMsgJobStateCOMPLETING", "COMPLETING");
   ("V0043KillJobsMsgJobStateCONFIGURING", "CONFIGURING");
   ("V0043KillJobsMsgJobStateDEADLINE", "DEADLINE");
   ("V0043KillJobsMsgJobStateFAILED", "FAILED");
   ("V0043KillJobsMsgJobStateLAUNCHFAILED", "LAUNCH_FAILED");
   ("V0043KillJobsMsgJobStateNODEFAIL", "NODE_FAIL");
   ("V0043KillJobsMsgJobStateOUTOFMEMORY", "OUT_OF_MEMORY");
   ("V0043KillJobsMsgJobStatePENDING", "PENDING");
   ("V0043KillJobsMsgJobStatePOWERUPNODE", "POWER_UP_NODE");
   ("V0043KillJobsMsgJobStatePREEMPTED", "PREEMPTED");
   ("V0043KillJobsMsgJobStateRECONFIGFAIL", "RECONFIG_FAIL");
   ("V0043KillJobsMsgJobStateREQUEUED", "REQUEUED");
   ("V0043KillJobsMsgJobStateREQUEUEFED", "REQUEUE_FED");
   ("V0043KillJobsMsgJobStateREQUEUEHOLD", "REQUEUE_HOLD");
   ("V0043KillJobsMsgJobStateRESIZING", "RESIZING");
   ("V0043KillJobsMsgJobStateRESVDELHOLD", "RESV_DEL_HOLD");
   ("V0043KillJobsMsgJobStateREVOKED", "REVOKED");
   ("V0043KillJobsMsgJobStateRUNNING", "RUNNING");
   ("V0043KillJobsMsgJobStateSIGNALING", "SIGNALING");
   ("V0043KillJobsMsgJobStateSPECIALEXIT", "SPECIAL_EXIT");
   ("V0043KillJobsMsgJobStateSTAGEOUT", "STAGE_OUT");
   ("V0043KillJobsMsgJobStateSTOPPED", "STOPPED");
   ("V0043KillJobsMsgJobStateSUSPENDED", "SUSPENDED");
   ("V0043KillJobsMsgJobStateTIMEOUT", "TIMEOUT")].

Definition V0043NodeCertFlagsValues : list (string * string) :=
  [("TOKENSET", "TOKEN_SET")].

Definition V0043NodeNextStateAfterRebootValues : list (string * string) :=
  [("V0043NodeNextStateAfterRebootALLOCATED", "ALLOCATED");
   ("V0043NodeNextStateAfterRebootCLOUD", "CLOUD");
   ("V0043NodeNextStateAfterRebootCOMPLETING", "COMPLETING");
   ("V0043NodeNextStateAfterRebootDOWN", "DOWN");
   ("V0043NodeNextStateAfterRebootDRAIN", "DRAIN");
   ("V0043NodeNextStateAfterRebootDYNAMICFUTURE", "DYNAMIC_FUTURE");
   ("V0043NodeNextStateAfterRebootDYNAMICNORM", "DYNAMIC_NORM");
   ("V0043NodeNextStateAfterRebootERROR", "ERROR");
   ("V0043NodeNextStateAfterRebootFAIL", "FAIL");
   ("V0043NodeNextStateAfterRebootFUTURE", "FUTURE");
   ("V0043NodeNextStateAfterRebootIDLE", "IDLE");
   ("V0043NodeNextStateAfterRebootINVALID", "INVALID");
   ("V0043NodeNextStateAfterRebootINVALIDREG", "INVALID_REG");
   ("V0043NodeNextStateAfterRebootMAINTENANCE", "MAINTENANCE");
   ("V0043NodeNextStateAfterRebootMIXED", "MIXED");
   ("V0043NodeNextStateAfterRebootNOTRESPONDING", "NOT_RESPONDING");
   ("V0043NodeNextStateAfterRebootPLANNED", "PLANNED");
   ("V0043NodeNextStateAfterRebootPOWERDOWN", "POWER_DOWN");
   ("V0043NodeNextStateAfterRebootPOWERDRAIN", "POWER_DRAIN");
   ("V0043NodeNextStateAfterRebootPOWEREDDOWN", "POWERED_DOWN");
   ("V0043NodeNextStateAfterRebootPOWERINGDOWN", "POWERING_DOWN");
   ("V0043NodeNextStateAfterRebootPOWERINGUP", "POWERING_UP");
   ("V0043NodeNextStateAfterRebootPOWERUP", "POWER_UP");
   ("V0043NodeNextStateAfterRebootREBOOTCANCELED", "REBOOT_CANCELED");
   ("V0043NodeNextStateAfterRebootREBOOTISSUED", "REBOOT_ISSUED");
   ("V0043NodeNextStateAfterRebootREBOOTREQUESTED", "REBOOT_REQUESTED");
   ("V0043NodeNextStateAfterRebootRESERVED", "RESERVED");
   ("V0043NodeNextStateAfterRebootRESUME", "RESUME");
   ("V0043NodeNextStateAfterRebootUNDRAIN", "UNDRAIN");
   ("V0043NodeNextStateAfterRebootUNKNOWN", "UNKNOWN")].

Definition V0043NodeStateValues : list (string * string) :=
  [("V0043NodeStateALLOCATED", "ALLOCATED");
   ("V0043NodeStateCLOUD", "CLOUD");
   ("V0043NodeStateCOMPLETING", "COMPLETING");
   ("V0043NodeStateDOWN", "DOWN");
   ("V0043NodeStateDRAIN", "DRAIN");
   ("V0043NodeStateDYNAMICFUTURE", "DYNAMIC_FUTURE");
   ("V0043NodeStateDYNAMICNORM", "DYNAMIC_NORM");
   ("V0043NodeStateERROR", "ERROR");
   ("V0043NodeStateFAIL", "FAIL");
   ("V0043NodeStateFUTURE", "FUTURE");
   ("V0043NodeStateIDLE", "IDLE");
   ("V0043NodeStateINVALID", "INVALID");
   ("V0043NodeStateINVALIDREG", "INVALID_REG");
   ("V0043NodeStateMAINTENANCE", "MAINTENANCE");
   ("V0043NodeStateMIXED", "MIXED");
   ("V0043NodeStateNOTRESPONDING", "NOT_RESPONDING");
   ("V0043NodeStatePLANNED", "PLANNED");
   ("V0043NodeStatePOWERDOWN", "POWER_DOWN");
   ("V0043NodeStatePOWERDRAIN", "POWER_DRAIN");
   ("V0043NodeStatePOWEREDDOWN", "POWERED_DOWN");
   ("V0043NodeStatePOWERINGDOWN", "POWERING_DOWN");
   ("V0043NodeStatePOWERINGUP", "POWERING_UP");
   ("V0043NodeStatePOWERUP", "POWER_UP");
   ("V0043NodeStateREBOOTCANCELED", "REBOOT_CANCELED");
   ("V0043NodeStateREBOOTISSUED", "REBOOT_ISSUED");
   ("V0043NodeStateREBOOTREQUESTED", "REBOOT_REQUESTED");
   ("V0043NodeStateRESERVED", "RESERVED");
   ("V0043NodeStateRESUME", "RESUME");
   ("V0043NodeStateUNDRAIN", "UNDRAIN");
   ("V0043NodeStateUNKNOWN", "UNKNOWN")].

Definition V0043PartitionInfoMaximumsOversubscribeFlagsValues : list (string * string) :=
  [("Force", "force")].

Definition V0043PartitionInfoPartitionStateValues : list (string * string) :=
  [("V0043PartitionInfoPartitionStateDOWN", "DOWN");
   ("V0043PartitionInfoPartitionStateDRAIN", "DRAIN");
   ("V0043PartitionInfoPartitionStateINACTIVE", "INACTIVE");
   ("V0043PartitionInfoPartitionStateUNKNOWN", "UNKNOWN");
   ("V0043PartitionInfoPartitionStateUP", "UP")].

Definition V0043PartitionInfoSelectTypeValues : list (string * string) :=
  [("V0043PartitionInfoSelectTypeBOARD", "BOARD");
   ("V0043PartitionInfoSelectTypeCORE", "CORE");
   ("V0043PartitionInfoSelectTypeCOREDEFAULTDISTBLOCK", "CORE_DEFAULT_DIST_BLOCK");
   ("V0043PartitionInfoSelectTypeCPU", "CPU");
   ("V0043PartitionInfoSelectTypeLINEAR", "LINEAR");
   ("V0043PartitionInfoSelectTypeLLN", "LLN");
   ("V0043PartitionInfoSelectTypeMEMORY", "MEMORY");
   ("V0043PartitionInfoSelectTypeONETASKPERCORE", "ONE_TASK_PER_CORE");
   ("V0043PartitionInfoSelectTypePACKNODES", "PACK_NODES");
   ("V0043PartitionInfoSelectTypeSOCKET", "SOCKET")].

Definition V0043ProcessExitCodeVerboseStatusValues : list (string * string) :=
  [("V0043ProcessExitCodeVerboseStatusCOREDUMPED", "CORE_DUMPED");
   ("V0043ProcessExitCodeVerboseStatusERROR", "ERROR");
   ("V0043ProcessExitCodeVerboseStatusINVALID", "INVALID");
   ("V0043ProcessExitCodeVerboseStatusPENDING", "PENDING");
   ("V0043ProcessExitCodeVerboseStatusSIGNALED", "SIGNALED");
   ("V0043ProcessExitCodeVerboseStatusSUCCESS", "SUCCESS")].

Definition V0043QosFlagsValues : list (string * string) :=
  [("V0043QosFlagsADD", "ADD");
   ("V0043QosFlagsDELETED", "DELETED");
   ("V0043QosFlagsDENYLIMIT", "DENY_LIMIT");
   ("V0043QosFlagsENFORCEUSAGETHRESHOLD", "ENFORCE_USAGE_THRESHOLD");
   ("V0043QosFlagsNODECAY", "NO_DECAY");
   ("V0043QosFlagsNORESERVE", "NO_RESERVE");
   ("V0043QosFlagsNOTSET", "NOT_SET");
   ("V0043QosFlagsOVERRIDEPARTITIONQOS", "OVERRIDE_PARTITION_QOS");
   ("V0043QosFlagsPARTITIONMAXIMUMNODE", "PARTITION_MAXIMUM_NODE");
   ("V0043QosFlagsPARTITIONMINIMUMNODE", "PARTITION_MINIMUM_NODE");
   ("V0043QosFlagsPARTITIONQOS", "PARTITION_QOS");
   ("V0043QosFlagsPARTITIONTIMELIMIT", "PARTITION_TIME_LIMIT");
   ("V0043QosFlagsRELATIVE", "RELATIVE");
   ("V0043QosFlagsREMOVE", "REMOVE");
   ("V0043QosFlagsREQUIREDRESERVATION", "REQUIRED_RESERVATION");
   ("V0043QosFlagsUSAGEFACTORSAFE", "USAGE_FACTOR_SAFE")].

Definition V0043QosPreemptModeValues : list (string * string) :=
  [("V0043QosPreemptModeCANCEL", "CANCEL");
   ("V0043QosPreemptModeDISABLED", "DISABLED");
   ("V0043QosPreemptModeGANG", "GANG");
   ("V0043QosPreemptModeREQUEUE", "REQUEUE");
   ("V0043QosPreemptModeSUSPEND", "SUSPEND")].

Definition V0043ReservationDescMsgFlagsValues : list (string * string) :=
  [("V0043ReservationDescMsgFlagsALLNODES", "ALL_NODES");
   ("V0043ReservationDescMsgFlagsANYNODES", "ANY_NODES");
   ("V0043ReservationDescMsgFlagsDAILY", "DAILY");
   ("V0043ReservationDescMsgFlagsDURATIONMINUS", "DURATION_MINUS");
   ("V0043ReservationDescMsgFlagsDURATIONPLUS", "DURATION_PLUS");
   ("V0043ReservationDescMsgFlagsFLEX", "FLEX");
   ("V0043ReservationDescMsgFlagsHOURLY", "HOURLY");
   ("V0043ReservationDescMsgFlagsIGNOREJOBS", "IGNORE_JOBS");
   ("V0043ReservationDescMsgFlagsMAGNETIC", "MAGNETIC");
   ("V0043ReservationDescMsgFlagsMAINT", "MAINT");
   ("V0043ReservationDescMsgFlagsNODAILY", "NO_DAILY");
   ("V0043ReservationDescMsgFlagsNOFLEX", "NO_FLEX");
   ("V0043ReservationDescMsgFlagsNOHOLDJOBSAFTEREND", "NO_HOLD_JOBS_AFTER_END");
   ("V0043ReservationDescMsgFlagsNOHOURLY", "NO_HOURLY");
   ("V0043ReservationDescMsgFlagsNOIGNOREJOBS", "NO_IGNORE_JOBS");
   ("V0043ReservationDescMsgFlagsNOMAINT", "NO_MAINT");
   ("V0043ReservationDescMsgFlagsNOPARTNODES", "NO_PART_NODES");
   ("V0043ReservationDescMsgFlagsNOPURGECOMP", "NO_PURGE_COMP");
   ("V0043ReservationDescMsgFlagsNOSTATIC", "NO_STATIC");
   ("V0043ReservationDescMsgFlagsNOUSERDELETE", "NO_USER_DELETE");
   ("V0043ReservationDescMsgFlagsNOWEEKDAY", "NO_WEEKDAY");
   ("V0043ReservationDescMsgFlagsNOWEEKEND", "NO_WEEKEND");
   ("V0043ReservationDescMsgFlagsNOWEEKLY", "NO_WEEKLY");
   ("V0043ReservationDescMsgFlagsOVERLAP", "OVERLAP");
   ("V0043ReservationDescMsgFlagsPARTNODES", "PART_NODES");
   ("V0043ReservationDescMsgFlagsPURGECOMP", "PURGE_COMP");
   ("V0043ReservationDescMsgFlagsREOCCURRING", "REOCCURRING");
   ("V0043ReservationDescMsgFlagsREPLACE", "REPLACE");
   ("V0043ReservationDescMsgFlagsSKIP", "SKIP");
   ("V0043ReservationDescMsgFlagsSPECNODES", "SPEC_NODES");
   ("V0043ReservationDescMsgFlagsSTATIC", "STATIC");
   ("V0043ReservationDescMsgFlagsTIMEFLOAT", "TIME_FLOAT");
   ("V0043ReservationDescMsgFlagsUSERDELETE", "USER_DELETE");
   ("V0043ReservationDescMsgFlagsWEEKDAY", "WEEKDAY");
   ("V0043ReservationDescMsgFlagsWEEKEND", "WEEKEND");
   ("V0043ReservationDescMsgFlagsWEEKLY", "WEEKLY")].

Definition V0043ReservationInfoFlagsValues : list (string * string) :=
  [("V0043ReservationInfoFlagsALLNODES", "ALL_NODES");
   ("V0043ReservationInfoFlagsANYNODES", "ANY_NODES");
   ("V0043ReservationInfoFlagsDAILY", "DAILY");
   ("V0043ReservationInfoFlagsDURATIONMINUS", "DURATION_MINUS");
   ("V0043ReservationInfoFlagsDURATIONPLUS", "DURATION_PLUS");
   ("V0043ReservationInfoFlagsFLEX", "FLEX");
   ("V0043ReservationInfoFlagsHOURLY", "HOURLY");
   ("V0043ReservationInfoFlagsIGNOREJOBS", "IGNORE_JOBS");
   ("V0043ReservationInfoFlagsMAGNETIC", "MAGNETIC");
   ("V0043ReservationInfoFlagsMAINT", "MAINT");
   ("V0043ReservationInfoFlagsNODAILY", "NO_DAILY");
   ("V0043ReservationInfoFlagsNOFLEX", "NO_FLEX");
   ("V0043ReservationInfoFlagsNOHOLDJOBSAFTEREND", "NO_HOLD_JOBS_AFTER_END");
   ("V0043ReservationInfoFlagsNOHOURLY", "NO_HOURLY");
   ("V0043ReservationInfoFlagsNOIGNOREJOBS", "NO_IGNORE_JOBS");
   ("V0043ReservationInfoFlagsNOMAINT", "NO_MAINT");
   ("V0043ReservationInfoFlagsNOPARTNODES", "NO_PART_NODES");
   ("V0043ReservationInfoFlagsNOPURGECOMP", "NO_PURGE_COMP");
   ("V0043ReservationInfoFlagsNOSTATIC", "NO_STATIC");
   ("V0043ReservationInfoFlagsNOUSERDELETE", "NO_USER_DELETE");
   ("V0043ReservationInfoFlagsNOWEEKDAY", "NO_WEEKDAY");
   ("V0043ReservationInfoFlagsNOWEEKEND", "NO_WEEKEND");
   ("V0043ReservationInfoFlagsNOWEEKLY", "NO_WEEKLY");
   ("V0043ReservationInfoFlagsOVERLAP", "OVERLAP");
   ("V0043ReservationInfoFlagsPARTNODES", "PART_NODES");
   ("V0043ReservationInfoFlagsPURGECOMP", "PURGE_COMP");
   ("V0043ReservationInfoFlagsREOCCURRING", "REOCCURRING");
   ("V0043ReservationInfoFlagsREPLACE", "REPLACE");
   ("V0043ReservationInfoFlagsSKIP", "SKIP");
   ("V0043ReservationInfoFlagsSPECNODES", "SPEC_NODES");
   ("V0043ReservationInfoFlagsSTATIC", "STATIC");
   ("V0043ReservationInfoFlagsTIMEFLOAT", "TIME_FLOAT");
   ("V0043ReservationInfoFlagsUSERDELETE", "USER_DELETE");
   ("V0043ReservationInfoFlagsWEEKDAY", "WEEKDAY");
   ("V0043ReservationInfoFlagsWEEKEND", "WEEKEND");
   ("V0043ReservationInfoFlagsWEEKLY", "WEEKLY")].

Definition V0043StepStateValues : list (string * string) :=
  [("V0043StepStateBOOTFAIL", "BOOT_FAIL");
   ("V0043StepStateCANCELLED", "CANCELLED");
   ("V0043StepStateCOMPLETED", "COMPLETED");
   ("V0043StepStateCOMPLETING", "COMPLETING");
   ("V0043StepStateCONFIGURING", "CONFIGURING");
   ("V0043StepStateDEADLINE", "DEADLINE");
   ("V0043StepStateFAILED", "FAILED");
   ("V0043StepStateLAUNCHFAILED", "LAUNCH_FAILED");
   ("V0043StepStateNODEFAIL", "NODE_FAIL");
   ("V0043StepStateOUTOFMEMORY", "OUT_OF_MEMORY");
   ("V0043StepStatePENDING", "PENDING");
   ("V0043StepStatePOWERUPNODE", "POWER_UP_NODE");
   ("V0043StepStatePREEMPTED", "PREEMPTED");
   ("V0043StepStateRECONFIGFAIL", "RECONFIG_FAIL");
   ("V0043StepStateREQUEUED", "REQUEUED");
   ("V0043StepStateREQUEUEFED", "REQUEUE_FED");
   ("V0043StepStateREQUEUEHOLD", "REQUEUE_HOLD");
   ("V0043StepStateRESIZING", "RESIZING");
   ("V0043StepStateRESVDELHOLD", "RESV_DEL_HOLD");
   ("V0043StepStateREVOKED", "REVOKED");
   ("V0043StepStateRUNNING", "RUNNING");
   ("V0043StepStateSIGNALING", "SIGNALING");
   ("V0043StepStateSPECIALEXIT", "SPECIAL_EXIT");
   ("V0043StepStateSTAGEOUT", "STAGE_OUT");
   ("V0043StepStateSTOPPED", "STOPPED");
   ("V0043StepStateSUSPENDED", "SUSPENDED");
   ("V0043StepStateTIMEOUT", "TIMEOUT")].

Definition V0043UpdateNodeMsgStateValues : list (string * string) :=
  [("V0043UpdateNodeMsgStateALLOCATED", "ALLOCATED");
   ("V0043UpdateNodeMsgStateCLOUD", "CLOUD");
   ("V0043UpdateNodeMsgStateCOMPLETING", "COMPLETING");
   ("V0043UpdateNodeMsgStateDOWN", "DOWN");
   ("V0043UpdateNodeMsgStateDRAIN", "DRAIN");
   ("V0043UpdateNodeMsgStateDYNAMICFUTURE", "DYNAMIC_FUTURE");
   ("V0043UpdateNodeMsgStateDYNAMICNORM", "DYNAMIC_NORM");
   ("V0043UpdateNodeMsgStateERROR", "ERROR");
   ("V0043UpdateNodeMsgStateFAIL", "FAIL");
   ("V0043UpdateNodeMsgStateFUTURE", "FUTURE");
   ("V0043UpdateNodeMsgStateIDLE", "IDLE");
   ("V0043UpdateNodeMsgStateINVALID", "INVALID");
   ("V0043UpdateNodeMsgStateINVALIDREG", "INVALID_REG");
   ("V0043UpdateNodeMsgStateMAINTENANCE", "MAINTENANCE");
   ("V0043UpdateNodeMsgStateMIXED", "MIXED");
   ("V0043UpdateNodeMsgStateNOTRESPONDING", "NOT_RESPONDING");
   ("V0043UpdateNodeMsgStatePLANNED", "PLANNED");
   ("V0043UpdateNodeMsgStatePOWERDOWN", "POWER_DOWN");
   ("V0043UpdateNodeMsgStatePOWERDRAIN", "POWER_DRAIN");
   ("V0043UpdateNodeMsgStatePOWEREDDOWN", "POWERED_DOWN");
   ("V0043UpdateNodeMsgStatePOWERINGDOWN", "POWERING_DOWN");
   ("V0043UpdateNodeMsgStatePOWERINGUP", "POWERING_UP");
   ("V0043UpdateNodeMsgStatePOWERUP", "POWER_UP");
   ("V0043UpdateNodeMsgStateREBOOTCANCELED", "REBOOT_CANCELED");
   ("V0043UpdateNodeMsgStateREBOOTISSUED", "REBOOT_ISSUED");
   ("V0043UpdateNodeMsgStateREBOOTREQUESTED", "REBOOT_REQUESTED");
   ("V0043UpdateNodeMsgStateRESERVED", "RESERVED");
   ("V0043UpdateNodeMsgStateRESUME", "RESUME");
   ("V0043UpdateNodeMsgStateUNDRAIN", "UNDRAIN");
   ("V0043UpdateNodeMsgStateUNKNOWN", "UNKNOWN")].

Definition V0043UserAdministratorLevelValues : list (string * string) :=
  [("V0043UserAdministratorLevelAdministrator", "Administrator");
   ("V0043UserAdministratorLevelNone", "None");
   ("V0043UserAdministratorLevelNotSet", "Not Set");
   ("V0043UserAdministratorLevelOperator", "Operator")].

Definition V0043UserFlagsValues : list (string * string) :=
  [("V0043UserFlagsDELETED", "DELETED");
   ("V0043UserFlagsNONE", "NONE")].

Definition V0043UserShortAdminlevelValues : list (string * string) :=
  [("V0043UserShortAdminlevelAdministrator", "Administrator");
   ("V0043UserShortAdminlevelNone", "None");
   ("V0043UserShortAdminlevelNotSet", "Not Set");
   ("V0043UserShortAdminlevelOperator", "Operator")].

Definition V0043WckeyFlagsValues : list (string * string) :=
  [("V0043WckeyFlagsDELETED", "DELETED")].

Definition V0043WckeyTagStructFlagsValues : list (string * string) :=
  [("ASSIGNEDDEFAULT", "ASSIGNED_DEFAULT")].

Definition SlurmV0043DeleteJobParamsFlagsValues : list (string * string) :=
  [("ARRAYTASK", "ARRAY_TASK");
   ("BATCHJOB", "BATCH_JOB");
   ("CRONJOBS", "CRON_JOBS");
   ("FEDERATIONREQUEUE", "FEDERATION_REQUEUE");
   ("FULLJOB", "FULL_JOB");
   ("FULLSTEPSONLY", "FULL_STEPS_ONLY");
   ("HURRY", "HURRY");
   ("NOSIBLINGJOBS", "NO_SIBLING_JOBS");
   ("OUTOFMEMORY", "OUT_OF_MEMORY");
   ("RESERVATIONJOB", "RESERVATION_JOB");
   ("VERBOSE", "VERBOSE");
   ("WARNINGSENT", "WARNING_SENT")].

Definition SlurmV0043GetJobParamsFlagsValues : list (string * string) :=
  [("SlurmV0043GetJobParamsFlagsALL", "ALL");
   ("SlurmV0043GetJobParamsFlagsDETAIL", "DETAIL");
   ("SlurmV0043GetJobParamsFlagsFEDERATION", "FEDERATION");
   ("SlurmV0043GetJobParamsFlagsFUTURE", "FUTURE");
   ("SlurmV0043GetJobParamsFlagsLOCAL", "LOCAL");
   ("SlurmV0043GetJobParamsFlagsMIXED", "MIXED");
   ("SlurmV0043GetJobParamsFlagsSIBLING", "SIBLING")].

Definition SlurmV0043GetJobsParamsFlagsValues : list (string * string) :=
  [("SlurmV0043GetJobsParamsFlagsALL", "ALL");
   ("SlurmV0043GetJobsParamsFlagsDETAIL", "DETAIL");
   ("SlurmV0043GetJobsParamsFlagsFEDERATION", "FEDERATION");
   ("SlurmV0043GetJobsParamsFlagsFUTURE", "FUTURE");
   ("SlurmV0043GetJobsParamsFlagsLOCAL", "LOCAL");
   ("SlurmV0043GetJobsParamsFlagsMIXED", "MIXED");
   ("SlurmV0043GetJobsParamsFlagsSIBLING", "SIBLING")].

Definition SlurmV0043GetNodeParamsFlagsValues : list (string * string) :=
  [("SlurmV0043GetNodeParamsFlagsALL", "ALL");
   ("SlurmV0043GetNodeParamsFlagsDETAIL", "DETAIL");
   ("SlurmV0043GetNodeParamsFlagsFEDERATION", "FEDERATION");
   ("SlurmV0043GetNodeParamsFlagsFUTURE", "FUTURE");
   ("SlurmV0043GetNodeParamsFlagsLOCAL", "LOCAL");
   ("SlurmV0043GetNodeParamsFlagsMIXED", "MIXED");
   ("SlurmV0043GetNodeParamsFlagsSIBLING", "SIBLING")].

Definition SlurmV0043GetNodesParamsFlagsValues : list (string * string) :=
  [("SlurmV0043GetNodesParamsFlagsALL", "ALL");
   ("SlurmV0043GetNodesParamsFlagsDETAIL", "DETAIL");
   ("SlurmV0043GetNodesParamsFlagsFEDERATION", "FEDERATION");
   ("SlurmV0043GetNodesParamsFlagsFUTURE", "FUTURE");
   ("SlurmV0043GetNodesParamsFlagsLOCAL", "LOCAL");
   ("SlurmV0043GetNodesParamsFlagsMIXED", "MIXED");
   ("SlurmV0043GetNodesParamsFlagsSIBLING", "SIBLING")].

Definition SlurmV0043GetPartitionParamsFlagsValues : list (string * string) :=
  [("SlurmV0043GetPartitionParamsFlagsALL", "ALL");
   ("SlurmV0043GetPartitionParamsFlagsDETAIL", "DETAIL");
   ("SlurmV0043GetPartitionParamsFlagsFEDERATION", "FEDERATION");
   ("SlurmV0043GetPartitionParamsFlagsFUTURE", "FUTURE");
   ("SlurmV0043GetPartitionParamsFlagsLOCAL", "LOCAL");
   ("SlurmV0043GetPartitionParamsFlagsMIXED", "MIXED");
   ("SlurmV0043GetPartitionParamsFlagsSIBLING", "SIBLING")].

Definition SlurmV0043GetPartitionsParamsFlagsValues : list (string * string) :=
  [("SlurmV0043GetPartitionsParamsFlagsALL", "ALL");
   ("SlurmV0043GetPartitionsParamsFlagsDETAIL", "DETAIL");
   ("SlurmV0043GetPartitionsParamsFlagsFEDERATION", "FEDERATION");
   ("SlurmV0043GetPartitionsParamsFlagsFUTURE", "FUTURE");
   ("SlurmV0043GetPartitionsParamsFlagsLOCAL", "LOCAL");
   ("SlurmV0043GetPartitionsParamsFlagsMIXED", "MIXED");
   ("SlurmV0043GetPartitionsParamsFlagsSIBLING", "SIBLING")].

Definition SlurmdbV0043DeleteClusterParamsClassificationValues : list (string * string) :=
  [("SlurmdbV0043DeleteClusterParamsClassificationCAPABILITY", "CAPABILITY");
   ("SlurmdbV0043DeleteClusterParamsClassificationCAPACITY", "CAPACITY");
   ("SlurmdbV0043DeleteClusterParamsClassificationCAPAPACITY", "CAPAPACITY");
   ("SlurmdbV0043DeleteClusterParamsClassificationUNCLASSIFIED", "UNCLASSIFIED")].

Definition SlurmdbV0043DeleteClusterParamsFlagsValues : list (string * string) :=
  [("SlurmdbV0043DeleteClusterParamsFlagsDELETED", "DELETED");
   ("SlurmdbV0043DeleteClusterParamsFlagsEXTERNAL", "EXTERNAL");
   ("SlurmdbV0043DeleteClusterParamsFlagsFEDERATION", "FEDERATION");
   ("SlurmdbV0043DeleteClusterParamsFlagsMULTIPLESLURMD", "MULTIPLE_SLURMD");
   ("SlurmdbV0043DeleteClusterParamsFlagsREGISTERING", "REGISTERING")].

Definition SlurmdbV0043GetClusterParamsClassificationValues : list (string * string) :=
  [("SlurmdbV0043GetClusterParamsClassificationCAPABILITY", "CAPABILITY");
   ("SlurmdbV0043GetClusterParamsClassificationCAPACITY", "CAPACITY");
   ("SlurmdbV0043GetClusterParamsClassificationCAPAPACITY", "CAPAPACITY");
   ("SlurmdbV0043GetClusterParamsClassificationUNCLASSIFIED", "UNCLASSIFIED")].

Definition SlurmdbV0043GetClusterParamsFlagsValues : list (string * string) :=
  [("SlurmdbV0043GetClusterParamsFlagsDELETED", "DELETED");
   ("SlurmdbV0043GetClusterParamsFlagsEXTERNAL", "EXTERNAL");
   ("SlurmdbV0043GetClusterParamsFlagsFEDERATION", "FEDERATION");
   ("SlurmdbV0043GetClusterParamsFlagsMULTIPLESLURMD", "MULTIPLE_SLURMD");
   ("SlurmdbV0043GetClusterParamsFlagsREGISTERING", "REGISTERING")].

Definition SlurmdbV0043GetQosParamsPreemptModeValues : list (string * string) :=
  [("SlurmdbV0043GetQosParamsPreemptModeCANCEL", "CANCEL");
   ("SlurmdbV0043GetQosParamsPreemptModeDISABLED", "DISABLED");
   ("SlurmdbV0043GetQosParamsPreemptModeGANG", "GANG");
   ("SlurmdbV0043GetQosParamsPreemptModeREQUEUE", "REQUEUE");
   ("SlurmdbV0043GetQosParamsPreemptModeSUSPEND", "SUSPEND")].

Definition SlurmdbV0043PostQosParamsPreemptModeValues : list (string * string) :=
  [("CANCEL", "CANCEL");
   ("DISABLED", "DISABLED");
   ("GANG", "GANG");
   ("REQUEUE", "REQUEUE");
   ("SUSPEND", "SUSPEND")].

Definition SlurmdbV0043GetUsersParamsAdminLevelValues : list (string * string) :=
  [("Administrator", "Administrator");
   ("None", "None");
   ("NotSet", "Not Set");
   ("Operator", "Operator")].

Definition SlurmdbV0043PostUsersAssociationParamsFlagsValues : list (string * string) :=
  [("ALL", "ALL");
   ("DETAIL", "DETAIL");
   ("FEDERATION", "FEDERATION");
   ("FUTURE", "FUTURE");
   ("LOCAL", "LOCAL");
   ("MIXED", "MIXED");
   ("SIBLING", "SIBLING")].
