(* ===== verification/Sacctmgr.v ===== *)
(** * Sacctmgr: looking up a Slurm user

    [internal/identity/sacctmgr.go]: the query of [sacctmgr], the checks on its
    answer and the normalized user record the capability resolver of
    Authorization.v works from. *)
From stdpp Require Import sorting.
From S2P Require Import Prelude Utf8 Json Schema OpenApi Connection Authorization.
Open Scope Z_scope.

(** ** The query *)

Definition sacctmgrPath : string := "/usr/bin/sacctmgr".

(** All of them wrap [ErrSlurmUserLookup]. *)
Inductive lookup_error : Type :=
| InvalidUsername
| ExecutorUnavailable
| QueryFailed
| InvalidJSON
| NoUsersField
| UsersNotArray
| InvalidUserRecord
| ReturnedError
| UnexpectedUserRecord
| MultipleAdminLevels.

Definition username_rune (r : Z) : bool :=
  in_range 97 122 r || in_range 65 90 r || in_range 48 57 r
  || existsb (Z.eqb r) [95; 46; 45]. (* one of "_.-" *)
Definition validSlurmUsername (username : string) : bool :=
  if streq username "" || (255 <? slen username)%nat then false
  else forallb username_rune (runes username).

(** ** The answer *)

(** The loop over the associations: [seen] are the accounts met so far. *)
Fixpoint collect_accounts (seen : gset string) (associations : list goval) : list string :=
  match associations with
  | [] => []
  | a :: l =>
      match opt_string "account" a with
      | None => collect_accounts seen l
      | Some account =>
          if streq account "" then collect_accounts seen l
          else if bool_decide (account ∈ seen) then collect_accounts seen l
          else account :: collect_accounts ({[account]} ∪ seen) l
      end
  end.

(** [sort.Strings] *)
Definition sort_strings (l : list string) : list string := merge_sort String.le l.

(** The loop of [compactStrings]: [last] is the last value of the result. *)
Fixpoint compact_loop (last : string) (values : list string) : list string :=
  match values with
  | [] => []
  | v :: l => if negb (streq v last) then v :: compact_loop v l else compact_loop last l
  end.
Definition compactStrings (values : list string) : list string :=
  match values with
  | v :: ((_ :: _) as l) => v :: compact_loop v l
  | _ => values
  end.

Definition coordinator_names (coordinators : list goval) : list string :=
  List.filter (λ s, negb (streq s "")) (map (string_field "name") coordinators).

(** The record of the one user the response holds. *)
Definition user_record (user : goval) : result lookup_error SlurmUser :=
  let levels := strings_of <$> opt_slice "administrator_level" user in
  adminLevel ← match levels with
               | Some [level] => Ok level
               | Some (_ :: _ :: _) => Err MultipleAdminLevels
               | _ => Ok ""
               end;
  let accounts := collect_accounts ∅ (default [] (opt_slice "associations" user)) in
  let coordinators := coordinator_names (default [] (opt_slice "coordinators" user)) in
  Ok (mkSlurmUser (string_field "name" user) adminLevel (sort_strings accounts)
        (compactStrings (sort_strings coordinators))).

Definition parseSacctmgrUser (output requestedUsername : string) : result lookup_error (option SlurmUser) :=
  match unmarshal_shape output with
  | None => Err InvalidJSON
  | Some shape =>
      match shape_lookup "users" shape with
      | None => Err NoUsersField
      | Some rawUsers =>
          guard_err (starts_array (trim_space rawUsers)) UsersNotArray;;
          match unmarshal V0043OpenapiUsersResp output with
          | None => Err InvalidUserRecord
          | Some response =>
              guard_err (match opt_slice "errors" response with Some (_ :: _) => false | _ => true end) ReturnedError;;
              match slice_field "users" response with
              | [] => Ok None
              | [user] =>
                  guard_err (streq (string_field "name" user) requestedUsername) UnexpectedUserRecord;;
                  Some <$> user_record user
              | _ => Err UnexpectedUserRecord
              end
          end
      end
  end.

(** [exec] runs a command within the time limit of the lookup; [None] is a
    resolver without an executor. *)
Definition LookupUser (exec : option (list string → option string)) (username : string)
  : result lookup_error (option SlurmUser) :=
  guard_err (validSlurmUsername username) InvalidUsername;;
  match exec with
  | None => Err ExecutorUnavailable
  | Some run =>
      match run [sacctmgrPath; "--readonly"; "--json"; "show"; "user"; "where";
                 "name=" +:+ username; "withcoords"; "withassoc"] with
      | None => Err QueryFailed
      | Some output => parseSacctmgrUser output username
      end
  end.

(** The lookup as the resolver sees it. *)
Definition NewSacctmgrUserLookup (run : list string → option string) : SlurmUserLookup := λ username,
  match LookupUser (Some run) username with Ok u => Ok u | Err _ => Err ErrSlurmUserLookup end.

(** ** Facts *)

Lemma collect_accounts_spec seen l :
  NoDup (collect_accounts seen l) ∧
  ∀ a, a ∈ collect_accounts seen l ↔
    a ∉ seen ∧ a ≠ "" ∧ ∃ v, v ∈ l ∧ opt_string "account" v = Some a.
Proof.
  revert seen. induction l as [|x l IH]; intros seen; cbn -[streq].
  { split; [constructor|]. intros a. split; [by intros ?%elem_of_nil|]. intros (_ & _ & v & ?%elem_of_nil & _). done. }
  destruct (opt_string "account" x) as [b|] eqn:Hx.
  2: { destruct (IH seen) as [H1 H2]. split; [done|]. intros a. rewrite H2. split.
       - intros (? & ? & v & ? & ?). split; [done|]. split; [done|]. exists v. split; [by right|done].
       - intros (? & ? & v & [-> | ?]%elem_of_cons & Hv); [congruence|]. eauto. }
  destruct (streq b "") eqn:Hb.
  { apply streq_true in Hb. destruct (IH seen) as [H1 H2]. split; [done|]. intros a. rewrite H2. split.
    - intros (? & ? & v & ? & ?). split; [done|]. split; [done|]. exists v. split; [by right|done].
    - intros (? & ? & v & [-> | ?]%elem_of_cons & Hv); [congruence|]. eauto. }
  apply streq_false in Hb. case_bool_decide as Hs.
  { destruct (IH seen) as [H1 H2]. split; [done|]. intros a. rewrite H2. split.
    - intros (? & ? & v & ? & ?). split; [done|]. split; [done|]. exists v. split; [by right|done].
    - intros (? & ? & v & [-> | ?]%elem_of_cons & Hv); [congruence|]. eauto. }
  destruct (IH ({[b]} ∪ seen)) as [H1 H2]. split.
  - apply NoDup_cons. split; [|done]. rewrite H2. intros [Hn _]. apply Hn, elem_of_union_l, elem_of_singleton. done.
  - intros a. rewrite elem_of_cons, H2. split.
    + intros [-> | (Hn & ? & v & ? & ?)].
      * split; [done|]. split; [done|]. exists x. split; [by left|done].
      * split; [intros ?; by apply Hn, elem_of_union_r|]. split; [done|]. exists v. split; [by right|done].
    + intros (Hn & ? & v & Hv & Hav). destruct (decide (a = b)) as [->|Hab]; [by left|]. right.
      split; [by intros [?%elem_of_singleton|?]%elem_of_union|]. split; [done|].
      apply elem_of_cons in Hv as [-> | Hv]; [congruence|]. eauto.
Qed.

(** A strictly increasing list of strings. *)
Definition increasing (l : list string) : Prop := StronglySorted (λ a b, String.le a b ∧ a ≠ b) l.

Lemma sorted_NoDup_increasing l : StronglySorted String.le l → NoDup l → increasing l.
Proof.
  induction 1 as [|a l Hs IH Ha]; [constructor|]. intros [Hn Hd]%NoDup_cons. constructor; [by apply IH|].
  apply Forall_forall. intros b Hb. rewrite Forall_forall in Ha. split; [by apply Ha|]. by intros ->.
Qed.

Lemma sort_strings_spec l :
  StronglySorted String.le (sort_strings l) ∧ sort_strings l ≡ₚ l.
Proof. split; [apply StronglySorted_merge_sort; apply _|apply merge_sort_Permutation]. Qed.

Lemma compact_loop_spec last l :
  StronglySorted String.le (last :: l) →
  increasing (last :: compact_loop last l) ∧ ∀ a, a ∈ last :: compact_loop last l ↔ a ∈ last :: l.
Proof.
  revert last. induction l as [|v l IH]; intros last Hs; cbn -[streq].
  { split; [by repeat constructor|done]. }
  apply StronglySorted_inv in Hs as [Hv Hlast]. apply Forall_cons in Hlast as [Hle Hall].
  destruct (streq v last) eqn:Hvl; cbn [negb].
  - apply streq_true in Hvl as ->. destruct (IH last Hv) as [H1 H2]. split; [done|]. intros a.
    rewrite H2, !elem_of_cons. tauto.
  - apply streq_false in Hvl. destruct (IH v Hv) as [H1 H2]. split.
    + constructor; [done|]. apply Forall_forall. intros b Hb%H2. split.
      * apply elem_of_cons in Hb as [-> | Hb]; [done|]. rewrite Forall_forall in Hall. by apply Hall.
      * intros <-. apply Hvl. apply (anti_symm String.le); [|done].
        apply elem_of_cons in Hb as [-> | Hb]; [done|]. apply StronglySorted_inv in Hv as [_ Hv].
        rewrite Forall_forall in Hv. by apply Hv.
    + intros a. rewrite elem_of_cons, H2, (elem_of_cons (v :: l)). done.
Qed.

Lemma compactStrings_spec l :
  StronglySorted String.le l → increasing (compactStrings l) ∧ ∀ a, a ∈ compactStrings l ↔ a ∈ l.
Proof.
  destruct l as [|a [|b l]]; intros Hs; [split; [constructor|done]|split; [by repeat constructor|done]|].
  cbn [compactStrings]. by apply compact_loop_spec.
Qed.

Lemma user_record_spec user su :
  user_record user = Ok su →
  su_Username su = string_field "name" user ∧
  (su_AdminLevel su ≠ "" → strings_of <$> opt_slice "administrator_level" user = Some [su_AdminLevel su]) ∧
  increasing (su_Accounts su) ∧
  (∀ a, a ∈ su_Accounts su ↔ a ≠ "" ∧
     ∃ v, v ∈ default [] (opt_slice "associations" user) ∧ opt_string "account" v = Some a) ∧
  increasing (su_CoordinatorAccounts su) ∧
  (∀ a, a ∈ su_CoordinatorAccounts su ↔ a ≠ "" ∧
     ∃ v, v ∈ default [] (opt_slice "coordinators" user) ∧ string_field "name" v = a).
Proof.
  unfold user_record. intros H. apply bind_Ok_inv in H as (level & Hlevel & [= <-]). cbn.
  split; [done|]. split.
  { intros Hne. destruct (strings_of <$> opt_slice "administrator_level" user) as [[|x [|y l]]|];
      try discriminate Hlevel; injection Hlevel as <-; done. }
  destruct (collect_accounts_spec ∅ (default [] (opt_slice "associations" user))) as [Hnd Hacc].
  destruct (sort_strings_spec (collect_accounts ∅ (default [] (opt_slice "associations" user)))) as [Hs1 Hp1].
  destruct (sort_strings_spec (coordinator_names (default [] (opt_slice "coordinators" user)))) as [Hs2 Hp2].
  destruct (compactStrings_spec _ Hs2) as [Hc Hca].
  split; [apply sorted_NoDup_increasing; [done|by rewrite Hp1]|]. split.
  { intros a. rewrite Hp1, Hacc. split; [intros (_ & ? & ?); auto|]. intros [? ?]. split; [apply not_elem_of_empty|auto]. }
  split; [exact Hc|]. intros a. rewrite Hca, Hp2. unfold coordinator_names.
  rewrite list_elem_of_In, filter_In, <-list_elem_of_In, list_elem_of_fmap, negb_true_iff, streq_false.
  split; [intros [(v & -> & Hv) Hn]; eauto|]. intros (Hn & v & Hv & <-). eauto.
Qed.


Definition example_users : string := sq
  "{'users':[{'name':'alice','administrator_level':['Administrator'],'associations':[{'account':'z','user':'alice'},{'account':'a','user':'alice'},{'account':'z','user':'alice'}],'coordinators':[{'name':'b'},{'name':''},{'name':'b'}]}],'errors':[]}".

