(* ===== verification/NodeCache.v ===== *)
(** * NodeCache: the node snapshot of the daemon

    [internal/resource]: the canonical node, the comparison of node states, the
    cache with its generation and the changes a commit publishes, the snapshots
    taken from it and the validation of a listing. Go iterates over maps in an
    unspecified order: the iteration orders are arguments. *)
From stdpp Require Import sorting.
From S2P Require Import Prelude.
Open Scope Z_scope.

(** ** The canonical node *)

Record NodeMetadata : Type := mkMetadata {
  m_Name : string;
  m_Kind : string;
  m_Generation : Z;
  m_ObservedAt : Z * Z; (* Unix seconds and nanoseconds *)
  m_Source : string;
}.

Record NodeSpec : Type := mkSpec {
  sp_NodeName : string;
  sp_Address : string;
  sp_Hostname : string;
  sp_CPULoad : Z;
  sp_RealMemory : Z;
  sp_AllocMemory : Z;
  sp_FreeMemory : Z;
}.

Record NodeStatus : Type := mkStatus {
  st_State : string;
  st_StateFlags : list string;
  st_Reason : string;
}.

Record Node : Type := mkNode {
  n_Metadata : NodeMetadata;
  n_Spec : NodeSpec;
  n_Status : NodeStatus;
}.

#[export] Instance NodeMetadata_eq_dec : EqDecision NodeMetadata.
Proof. solve_decision. Defined.
#[export] Instance NodeSpec_eq_dec : EqDecision NodeSpec.
Proof. solve_decision. Defined.
#[export] Instance NodeStatus_eq_dec : EqDecision NodeStatus.
Proof. solve_decision. Defined.
#[export] Instance Node_eq_dec : EqDecision Node.
Proof. solve_decision. Defined.

Definition NewNode (now : Z * Z) (name : string) (generation : Z) : Node :=
  mkNode (mkMetadata name "Node" generation now "cockpit-slurm")
         (mkSpec name "" "" 0 0 0 0) (mkStatus "" [] "").

Definition Identity (n : Node) : string :=
  if negb (streq (sp_NodeName (n_Spec n)) "") then sp_NodeName (n_Spec n) else m_Name (n_Metadata n).

Definition set_generation (g : Z) (n : Node) : Node :=
  let m := n_Metadata n in
  mkNode (mkMetadata (m_Name m) (m_Kind m) g (m_ObservedAt m) (m_Source m)) (n_Spec n) (n_Status n).

(** ** Changes *)

Inductive NodeChangeKind : Type := NodeAdded | NodeUpdated | NodeRemoved.
#[export] Instance NodeChangeKind_eq_dec : EqDecision NodeChangeKind.
Proof. solve_decision. Defined.

Record NodeChange : Type := mkChange { ch_Kind : NodeChangeKind; ch_Node : Node }.

Record NodeChangeBatch : Type := mkBatch {
  b_Resource : string;
  b_Event : string;
  b_Generation : Z;
  b_Changes : list NodeChange;
}.

Definition sameNodeState (a b : Node) : bool :=
  bool_decide (n_Spec a = n_Spec b)
  && streq (st_State (n_Status a)) (st_State (n_Status b))
  && bool_decide (st_StateFlags (n_Status a) = st_StateFlags (n_Status b))
  && streq (st_Reason (n_Status a)) (st_Reason (n_Status b)).

Definition change_id (c : NodeChange) : string := Identity (ch_Node c).
Definition change_le (a b : NodeChange) : Prop := String.le (change_id a) (change_id b).
#[export] Instance change_le_dec a b : base.Decision (change_le a b).
Proof. unfold change_le. apply _. Defined.
#[export] Instance change_le_total : Total change_le.
Proof. intros a b. apply (total String.le). Qed.
#[export] Instance change_le_trans : Transitive change_le.
Proof. intros a b c. unfold change_le. apply (transitivity (R := String.le)). Qed.

(** [sort.Slice] by identity. *)
Definition sortNodeChanges (l : list NodeChange) : list NodeChange := merge_sort change_le l.

(** ** The cache *)

Record NodeCache : Type := mkCache {
  generation : Z;
  nodes : gmap string Node;
}.

Definition NewNodeCache : NodeCache := mkCache 0 ∅.

(** The order in which a [range] over a map visits its entries. *)
Definition order : Type := gmap string Node → list (string * Node).
Definition fair (o : order) : Prop := ∀ m, o m ≡ₚ map_to_list m.

Definition keyed (ns : list Node) : gmap string Node :=
  foldl (λ m n, <[Identity n := n]> m) ∅ ns.

Definition upserts (old : gmap string Node) (incoming : list (string * Node)) : list NodeChange :=
  omap (λ p : string * Node, match old !! p.1 with
       | None => Some (mkChange NodeAdded p.2)
       | Some o => if negb (sameNodeState o p.2) then Some (mkChange NodeUpdated p.2) else None
       end) incoming.

Definition removals (incoming : gmap string Node) (old : list (string * Node)) : list NodeChange :=
  omap (λ p : string * Node, match incoming !! p.1 with
       | None => Some (mkChange NodeRemoved p.2)
       | Some _ => None
       end) old.

Definition updated_node (g : Z) (old : gmap string Node) (p : string * Node) : Node :=
  match old !! p.1 with
  | Some o => if sameNodeState o p.2 then o else set_generation g p.2
  | None => set_generation g p.2
  end.

Definition stamp (g : Z) (c : NodeChange) : NodeChange :=
  match ch_Kind c with
  | NodeRemoved => c
  | k => mkChange k (set_generation g (ch_Node c))
  end.

(** [o1], [o2], [o3] are the orders of the three loops over maps. *)
Definition replaceSnapshot (o1 o2 o3 : order) (ns : list Node) (c : NodeCache)
  : NodeChangeBatch * bool * NodeCache :=
  let incoming := keyed ns in
  let changes := upserts (nodes c) (o1 incoming) ++ removals incoming (o2 (nodes c)) in
  if bool_decide (length changes = 0%nat) then (mkBatch "" "" 0 [], false, c)
  else
    let g := uint64_wrap (generation c + 1) in
    let updated := foldl (λ m p, <[p.1 := updated_node g (nodes c) p]> m) ∅ (o3 incoming) in
    (mkBatch "node" "changes" g (sortNodeChanges (map (stamp g) changes)), true, mkCache g updated).

Record Snapshot : Type := mkSnapshot {
  s_Generation : Z;
  s_Resource : string;
  s_Nodes : list Node;
}.

Definition NewSnapshot (resource : string) (generation : Z) (ns : list Node) : Snapshot :=
  mkSnapshot generation resource ns.

Definition cache_Snapshot (o : order) (c : NodeCache) : Snapshot :=
  NewSnapshot "nodes" (generation c) (map snd (o (nodes c))).

Definition cache_Get (c : NodeCache) (name : string) : option Node := nodes c !! name.
Definition cache_Generation (c : NodeCache) : Z := generation c.

(** ** Validation of a listing *)

Inductive snapshot_error : Type :=
| NoIdentity (index : nat)
| DuplicateIdentity (identity : string).

Fixpoint validate_loop (i : nat) (identities : gset string) (ns : list Node) : result snapshot_error unit :=
  match ns with
  | [] => Ok tt
  | n :: ns' =>
      let identity := Identity n in
      guard_err (negb (streq identity "")) (NoIdentity i) ;;
      guard_err (negb (bool_decide (identity ∈ identities))) (DuplicateIdentity identity) ;;
      validate_loop (S i) ({[identity]} ∪ identities) ns'
  end.
Definition validateNodeSnapshot (ns : list Node) : result snapshot_error unit := validate_loop 0 ∅ ns.

(** ** Facts *)

Lemma sameNodeState_spec a b :
  sameNodeState a b = true ↔ n_Spec a = n_Spec b ∧ n_Status a = n_Status b.
Proof.
  unfold sameNodeState. rewrite !andb_true_iff, !bool_decide_eq_true, !streq_true.
  destruct (n_Status a), (n_Status b); cbn. naive_solver.
Qed.

Lemma Identity_set_generation g n : Identity (set_generation g n) = Identity n.
Proof. done. Qed.

Lemma same_set_generation g a b : sameNodeState a (set_generation g b) = sameNodeState a b.
Proof. done. Qed.

(** Every cached node is stored under its identity, and none is younger than
    the cache. *)
Record cache_ok (c : NodeCache) : Prop := {
  ck_identity : map_Forall (λ id n, Identity n = id) (nodes c);
  ck_generation : 0 ≤ generation c < 2 ^ 64;
}.

Lemma keyed_fold (m : gmap string Node) ns :
  map_Forall (λ id n, Identity n = id) m →
  map_Forall (λ id n, Identity n = id) (foldl (λ m n, <[Identity n := n]> m) m ns).
Proof.
  revert m. induction ns as [|n ns IH]; intros m Hm; [done|]. apply IH.
  by apply map_Forall_insert_2.
Qed.
Lemma keyed_identity ns : map_Forall (λ id n, Identity n = id) (keyed ns).
Proof. apply keyed_fold, map_Forall_empty. Qed.

Lemma keyed_snoc ns n : keyed (ns ++ [n]) = <[Identity n := n]> (keyed ns).
Proof. unfold keyed. by rewrite foldl_app. Qed.

Lemma keyed_lookup ns id n : keyed ns !! id = Some n → n ∈ ns ∧ Identity n = id.
Proof.
  induction ns as [|x ns IH] using rev_ind; [done|]. rewrite keyed_snoc, elem_of_app, list_elem_of_singleton.
  intros [[<- <-] | [_ H]]%lookup_insert_Some; [auto|]. destruct (IH H). auto.
Qed.

Lemma keyed_NoDup ns n : NoDup (map Identity ns) → n ∈ ns → keyed ns !! Identity n = Some n.
Proof.
  induction ns as [|x ns IH] using rev_ind; [by intros _ ?%elem_of_nil|].
  rewrite map_app, NoDup_app, keyed_snoc, elem_of_app, list_elem_of_singleton. intros (Hn & Hx & _) [Hin | ->].
  - rewrite lookup_insert_ne; [by apply IH|]. intros Heq. apply (Hx (Identity n)); [by apply list_elem_of_fmap_2|].
    rewrite <-Heq. by left.
  - by rewrite lookup_insert_eq.
Qed.

Lemma foldl_insert_union {A B} (f : string * A → B) (l : list (string * A)) (m : gmap string B) :
  NoDup l.*1 →
  foldl (λ m p, <[p.1 := f p]> m) m l = list_to_map ((λ p, (p.1, f p)) <$> l) ∪ m.
Proof.
  revert m. induction l as [|[k x] l IH]; intros m; cbn; [by rewrite (left_id_L ∅ (∪))|].
  intros [Hk Hl]%NoDup_cons. rewrite IH by done. rewrite <-insert_union_l. symmetry.
  apply insert_union_r. apply not_elem_of_list_to_map_1.
  rewrite <-list_fmap_compose. exact Hk.
Qed.

Lemma fair_keys o m : fair o → NoDup (o m).*1.
Proof. intros Ho. rewrite (Ho m). apply NoDup_fst_map_to_list. Qed.

Lemma fair_elem o m k n : fair o → (k, n) ∈ o m ↔ m !! k = Some n.
Proof. intros Ho. rewrite (Ho m). apply elem_of_map_to_list. Qed.

Lemma updated_lookup o g old incoming k :
  fair o →
  foldl (λ m p, <[p.1 := updated_node g old p]> m) (∅ : gmap string Node) (o incoming) !! k
  = (λ n, updated_node g old (k, n)) <$> (incoming !! k).
Proof.
  intros Ho. rewrite (foldl_insert_union (updated_node g old)) by (by apply fair_keys).
  rewrite (right_id_L ∅ (∪)).
  assert (NoDup ((λ p : string * Node, (p.1, updated_node g old p)) <$> o incoming).*1) as Hn.
  { rewrite <-list_fmap_compose. apply (fair_keys o incoming Ho). }
  destruct (incoming !! k) as [n|] eqn:Hk; cbn.
  - apply elem_of_list_to_map_1; [done|].
    apply list_elem_of_fmap. exists (k, n). split; [done|]. by apply fair_elem.
  - apply not_elem_of_list_to_map_1. intros Hin. rewrite <-list_fmap_compose in Hin.
    apply list_elem_of_fmap in Hin as ([k' n] & -> & Hin). apply fair_elem in Hin; [|done].
    cbn in Hk. congruence.
Qed.

(** *** What a commit changes, per identity *)

Definition change_of (old incoming : gmap string Node) (id : string) : option NodeChange :=
  match incoming !! id, old !! id with
  | Some n, None => Some (mkChange NodeAdded n)
  | Some n, Some o => if sameNodeState o n then None else Some (mkChange NodeUpdated n)
  | None, Some o => Some (mkChange NodeRemoved o)
  | None, None => None
  end.

(** What a reader does with a batch. *)
Definition apply_change (m : gmap string Node) (c : NodeChange) : gmap string Node :=
  match ch_Kind c with
  | NodeRemoved => delete (change_id c) m
  | _ => <[change_id c := ch_Node c]> m
  end.
Definition apply_changes (m : gmap string Node) (l : list NodeChange) : gmap string Node :=
  foldl apply_change m l.

Definition change_keys (o1 o2 : order) (old incoming : gmap string Node) : list string :=
  (o1 incoming).*1 ++ filter (λ id, incoming !! id = None) (o2 old).*1.

Lemma change_keys_NoDup o1 o2 old incoming :
  fair o1 → fair o2 → NoDup (change_keys o1 o2 old incoming).
Proof.
  intros H1 H2. apply NoDup_app. split; [by apply fair_keys|]. split.
  - intros id ([k n] & -> & Hin)%list_elem_of_fmap [Hno _]%list_elem_of_filter.
    apply fair_elem in Hin; [|done]. cbn in Hno. congruence.
  - by apply NoDup_filter, fair_keys.
Qed.

Lemma changes_omap o1 o2 old incoming :
  fair o1 → fair o2 →
  upserts old (o1 incoming) ++ removals incoming (o2 old)
  = omap (change_of old incoming) (change_keys o1 o2 old incoming).
Proof.
  intros H1 H2. unfold change_keys. rewrite omap_app. f_equal.
  - assert (∀ p, p ∈ o1 incoming → incoming !! p.1 = Some p.2) as Hin
      by (intros [k n] Hp; by apply fair_elem in Hp).
    revert Hin. generalize (o1 incoming). intros l. unfold upserts.
    induction l as [|[k n] l IH]; intros Hin; [done|]. pose proof (Hin (k, n) (list_elem_of_here _ _)) as Hk. cbn in *.
    unfold change_of at 1. rewrite Hk, IH by (intros p Hp; apply Hin; by right).
    destruct (old !! k) as [o|]; [|done]. by destruct (sameNodeState o n).
  - assert (∀ p, p ∈ o2 old → old !! p.1 = Some p.2) as Hin
      by (intros [k n] Hp; by apply fair_elem in Hp).
    revert Hin. generalize (o2 old). intros l. unfold removals.
    induction l as [|[k n] l IH]; intros Hin; [done|].
    pose proof (Hin (k, n) (list_elem_of_here _ _)) as Hold. cbn in Hold.
    rewrite fmap_cons, filter_cons.
    assert (∀ p, p ∈ l → old !! p.1 = Some p.2) as Hl by (intros p Hp; apply Hin; by right).
    case_decide as Hk; cbn in *.
    + unfold change_of at 1. by rewrite Hk, Hold, IH.
    + destruct (incoming !! k); [by apply IH|done].
Qed.

Lemma change_of_id old incoming id c :
  map_Forall (λ id n, Identity n = id) old → map_Forall (λ id n, Identity n = id) incoming →
  change_of old incoming id = Some c → change_id c = id.
Proof.
  unfold change_of, change_id. intros Ho Hi.
  destruct (incoming !! id) as [n|] eqn:Hn, (old !! id) as [o|] eqn:Hold; try done;
    [destruct (sameNodeState o n); [done|]|..]; intros [= <-]; cbn;
    first [by apply Hi | by apply Ho].
Qed.

Lemma omap_ids old incoming keys :
  map_Forall (λ id n, Identity n = id) old → map_Forall (λ id n, Identity n = id) incoming →
  map change_id (omap (change_of old incoming) keys)
  = filter (λ id, change_of old incoming id ≠ None) keys.
Proof.
  intros Ho Hi. induction keys as [|k keys IH]; [done|]. rewrite filter_cons. cbn [omap list_omap].
  destruct (change_of old incoming k) as [c|] eqn:Hc; case_decide as Hd; try done; cbn.
  f_equal; [by apply (change_of_id old incoming)|done].
Qed.

Lemma stamp_id g c : change_id (stamp g c) = change_id c.
Proof. by destruct c as [[] n]. Qed.
Lemma stamp_ids g l : map change_id (map (stamp g) l) = map change_id l.
Proof. rewrite map_map. apply map_ext, stamp_id. Qed.

Lemma apply_changes_other m l id : id ∉ map change_id l → apply_changes m l !! id = m !! id.
Proof.
  revert m. induction l as [|c l IH]; intros m; [done|]. cbn. intros [Hc Hl]%not_elem_of_cons.
  rewrite IH by done. unfold apply_change. destruct (ch_Kind c);
    [by rewrite lookup_insert_ne|by rewrite lookup_insert_ne|by rewrite lookup_delete_ne].
Qed.

Definition change_effect (c : NodeChange) : option Node :=
  match ch_Kind c with NodeRemoved => None | _ => Some (ch_Node c) end.

Lemma apply_changes_in m l c :
  NoDup (map change_id l) → c ∈ l → apply_changes m l !! change_id c = change_effect c.
Proof.
  revert m. induction l as [|c' l IH]; intros m; [by intros _ ?%elem_of_nil|]. cbn.
  intros [Hc Hl]%NoDup_cons [-> | Hin]%elem_of_cons; [|by apply IH].
  rewrite apply_changes_other by done. unfold apply_change, change_effect.
  destruct (ch_Kind c'); first [apply lookup_insert_eq | apply lookup_delete_eq].
Qed.

Lemma NoDup_map_inj {A B} (f : A → B) l x y : NoDup (map f l) → x ∈ l → y ∈ l → f x = f y → x = y.
Proof.
  induction l as [|z l IH]; [by intros _ ?%elem_of_nil|]. cbn. intros [Hz Hl]%NoDup_cons.
  intros [-> | Hx]%elem_of_cons [-> | Hy]%elem_of_cons Hf; [done| | |by apply IH].
  - destruct Hz. rewrite Hf. by apply list_elem_of_fmap_2.
  - destruct Hz. rewrite <-Hf. by apply list_elem_of_fmap_2.
Qed.

(** *** One commit *)

Definition same_entry (a b : option Node) : Prop :=
  match a, b with
  | Some a, Some b => sameNodeState a b = true
  | None, None => True
  | _, _ => False
  end.

Lemma change_of_None old incoming id :
  change_of old incoming id = None ↔ same_entry (old !! id) (incoming !! id).
Proof.
  unfold change_of, same_entry. destruct (old !! id) as [o|], (incoming !! id) as [n|]; try done.
  by destruct (sameNodeState o n).
Qed.

Section commit.
Context (o1 o2 o3 : order) (H1 : fair o1) (H2 : fair o2) (H3 : fair o3).
Context (old incoming : gmap string Node) (g : Z).
Context (Hold : map_Forall (λ id n, Identity n = id) old).
Context (Hin : map_Forall (λ id n, Identity n = id) incoming).

Let raw := upserts old (o1 incoming) ++ removals incoming (o2 old).
Let published := sortNodeChanges (map (stamp g) raw).
Let updated := foldl (λ m p, <[p.1 := updated_node g old p]> m) (∅ : gmap string Node) (o3 incoming).

Lemma change_key id : change_of old incoming id ≠ None → id ∈ change_keys o1 o2 old incoming.
Proof.
  unfold change_of, change_keys. intros Hc. apply elem_of_app.
  destruct (incoming !! id) as [n|] eqn:Hn.
  - left. apply list_elem_of_fmap. exists (id, n). split; [done|]. by apply fair_elem.
  - right. destruct (old !! id) as [o|] eqn:Ho; [|done]. apply list_elem_of_filter. split; [done|].
    apply list_elem_of_fmap. exists (id, o). split; [done|]. by apply fair_elem.
Qed.

Lemma raw_elem c : c ∈ raw ↔ ∃ id, change_of old incoming id = Some c.
Proof.
  unfold raw. rewrite changes_omap by done. rewrite list_elem_of_omap. split.
  - intros (id & _ & Hc). eauto.
  - intros (id & Hc). exists id. split; [|done]. apply change_key. by rewrite Hc.
Qed.

Lemma raw_ids : NoDup (map change_id raw).
Proof.
  unfold raw. rewrite changes_omap, omap_ids by done. apply NoDup_filter. by apply change_keys_NoDup.
Qed.

Lemma published_perm : published ≡ₚ map (stamp g) raw.
Proof. apply merge_sort_Permutation. Qed.

Lemma published_ids : NoDup (map change_id published).
Proof. rewrite published_perm, stamp_ids. apply raw_ids. Qed.

Lemma published_elem c :
  c ∈ published ↔ ∃ id c0, change_of old incoming id = Some c0 ∧ c = stamp g c0.
Proof.
  rewrite published_perm, list_elem_of_fmap. setoid_rewrite raw_elem. naive_solver.
Qed.

Lemma published_sorted : StronglySorted change_le published.
Proof. apply StronglySorted_merge_sort; apply _. Qed.

Lemma raw_empty : raw = [] ↔ ∀ id, same_entry (old !! id) (incoming !! id).
Proof.
  setoid_rewrite <-change_of_None. split.
  - intros He id. destruct (change_of old incoming id) as [c|] eqn:Hc; [|done].
    assert (c ∈ raw) as Hr by (apply raw_elem; eauto). rewrite He in Hr. by apply elem_of_nil in Hr.
  - intros Hn. destruct raw as [|c l] eqn:Hr; [done|].
    assert (c ∈ raw) as Hc by (rewrite Hr; by left). apply raw_elem in Hc as [id Hc]. by rewrite Hn in Hc.
Qed.

Lemma updated_at id : updated !! id = (λ n, updated_node g old (id, n)) <$> (incoming !! id).
Proof. by apply updated_lookup. Qed.

Lemma updated_change id :
  updated !! id = match change_of old incoming id with
                  | Some c => change_effect (stamp g c)
                  | None => old !! id
                  end.
Proof.
  rewrite updated_at. unfold change_of, updated_node. cbn.
  destruct (incoming !! id) as [n|], (old !! id) as [o|]; cbn; try done. by destruct (sameNodeState o n).
Qed.

Lemma updated_same id : same_entry (updated !! id) (incoming !! id).
Proof.
  rewrite updated_at. unfold updated_node. destruct (incoming !! id) as [n|]; cbn; [|done].
  destruct (old !! id) as [o|]; [|by apply sameNodeState_spec].
  destruct (sameNodeState o n) eqn:Hs; [done|by apply sameNodeState_spec].
Qed.

Lemma published_apply : apply_changes old published = updated.
Proof.
  apply map_eq. intros id. rewrite updated_change.
  destruct (change_of old incoming id) as [c|] eqn:Hc.
  - pose proof (change_of_id old incoming id c Hold Hin Hc) as Hid.
    rewrite <-Hid, <-(stamp_id g c). apply apply_changes_in; [apply published_ids|].
    apply published_elem. eauto.
  - apply apply_changes_other. intros (c & -> & Hp)%list_elem_of_fmap.
    apply published_elem in Hp as (id & c0 & Hc0 & ->).
    rewrite stamp_id, (change_of_id old incoming id c0 Hold Hin Hc0) in Hc. congruence.
Qed.

Lemma updated_identity : map_Forall (λ id n, Identity n = id) updated.
Proof.
  intros id n. rewrite updated_at. destruct (incoming !! id) as [x|] eqn:Hx; cbn; [|done].
  unfold updated_node. cbn. destruct (old !! id) as [o|] eqn:Ho.
  - destruct (sameNodeState o x); intros [= <-]; [exact (Hold _ _ Ho)|exact (Hin _ _ Hx)].
  - intros [= <-]. exact (Hin _ _ Hx).
Qed.
End commit.

(** The iteration orders are not observable. *)
Lemma published_order o1 o2 o1' o2' old incoming g :
  fair o1 → fair o2 → fair o1' → fair o2' →
  map_Forall (λ id n, Identity n = id) old → map_Forall (λ id n, Identity n = id) incoming →
  sortNodeChanges (map (stamp g) (upserts old (o1' incoming) ++ removals incoming (o2' old)))
  = sortNodeChanges (map (stamp g) (upserts old (o1 incoming) ++ removals incoming (o2 old))).
Proof.
  intros H1 H2 H1' H2' Hold Hin.
  assert (map (stamp g) (upserts old (o1' incoming) ++ removals incoming (o2' old))
    ≡ₚ map (stamp g) (upserts old (o1 incoming) ++ removals incoming (o2 old))) as Hp.
  { rewrite !changes_omap by done. apply Permutation_map, omap_Permutation. unfold change_keys.
    by rewrite (H1 incoming), (H1' incoming), (H2 old), (H2' old). }
  apply (StronglySorted_unique_strong change_le); try by apply published_sorted.
  - intros x y Hx Hy Hxy Hyx.
    apply (NoDup_map_inj change_id (sortNodeChanges
      (map (stamp g) (upserts old (o1 incoming) ++ removals incoming (o2 old)))));
      [by apply published_ids| |done|by apply (anti_symm String.le)].
    unfold sortNodeChanges in *. by rewrite merge_sort_Permutation, <-Hp, <-merge_sort_Permutation.
  - unfold sortNodeChanges. by rewrite !merge_sort_Permutation.
Qed.

Definition sound_change (old new : gmap string Node) (c : NodeChange) : Prop :=
  match ch_Kind c with
  | NodeAdded => old !! change_id c = None ∧ new !! change_id c = Some (ch_Node c)
  | NodeUpdated => new !! change_id c = Some (ch_Node c) ∧
      ∃ o, old !! change_id c = Some o ∧ sameNodeState o (ch_Node c) = false
  | NodeRemoved => old !! change_id c = Some (ch_Node c) ∧ new !! change_id c = None
  end.

Lemma replaceSnapshot_ok o1 o2 o3 ns c :
  fair o1 → fair o2 → fair o3 → cache_ok c → cache_ok (replaceSnapshot o1 o2 o3 ns c).2.
Proof.
  intros H1 H2 H3 [Hid Hg]. unfold replaceSnapshot. case_bool_decide; [done|]. split; cbn.
  - apply updated_identity; [done..|apply keyed_identity].
  - unfold uint64_wrap. apply Z.mod_pos_bound. lia.
Qed.

Lemma replaceSnapshot_same o1 o2 o3 ns c :
  fair o1 → fair o2 → fair o3 →
  ∀ id, same_entry (nodes (replaceSnapshot o1 o2 o3 ns c).2 !! id) (keyed ns !! id).
Proof.
  intros H1 H2 H3. unfold replaceSnapshot. case_bool_decide as Hl; cbn.
  - apply (raw_empty o1 o2 H1 H2 (nodes c) (keyed ns) 0). by apply nil_length_inv.
  - intros id. by apply updated_same.
Qed.

Lemma replaceSnapshot_orders o1 o2 o3 o1' o2' o3' ns c :
  fair o1 → fair o2 → fair o3 → fair o1' → fair o2' → fair o3' → cache_ok c →
  replaceSnapshot o1' o2' o3' ns c = replaceSnapshot o1 o2 o3 ns c.
Proof.
  intros H1 H2 H3 H1' H2' H3' [Hid Hg]. unfold replaceSnapshot.
  pose proof (keyed_identity ns) as Hk.
  assert (length (upserts (nodes c) (o1' (keyed ns)) ++ removals (keyed ns) (o2' (nodes c)))
    = length (upserts (nodes c) (o1 (keyed ns)) ++ removals (keyed ns) (o2 (nodes c)))) as ->.
  { rewrite !changes_omap by done. apply Permutation_length, omap_Permutation. unfold change_keys.
    by rewrite (H1 _), (H1' _), (H2 _), (H2' _). }
  case_bool_decide; [done|]. rewrite (published_order o1 o2 o1' o2') by done.
  f_equal. f_equal. apply map_eq. intros id. by rewrite !updated_lookup.
Qed.

(** A published change describes the step of its node between two commits. *)
Lemma published_sound o1 o2 o3 ns c ch :
  fair o1 → fair o2 → fair o3 → cache_ok c →
  ch ∈ b_Changes (replaceSnapshot o1 o2 o3 ns c).1.1 →
  sound_change (nodes c) (nodes (replaceSnapshot o1 o2 o3 ns c).2) ch.
Proof.
  intros H1 H2 H3 [Hid Hg]. unfold replaceSnapshot. case_bool_decide; [by intros ?%elem_of_nil|].
  cbn. intros Hc. apply published_elem in Hc as (id & c0 & Hc0 & ->); [|done..].
  pose proof (keyed_identity ns) as Hk. pose proof (change_of_id _ _ _ _ Hid Hk Hc0) as Hi.
  assert (change_id (stamp (uint64_wrap (generation c + 1)) c0) = id) as Hs by (by rewrite stamp_id).
  unfold sound_change. rewrite !Hs, !updated_change, Hc0 by done. clear Hs. revert Hc0. unfold change_of.
  destruct (keyed ns !! id) as [n|], (nodes c !! id) as [o|] eqn:Ho; try done;
    [destruct (sameNodeState o n) eqn:Hno; [done|]|..]; intros [= <-]; cbn; eauto.
Qed.

Lemma replaceSnapshot_changed o1 o2 o3 ns c :
  fair o1 → fair o2 → fair o3 →
  (replaceSnapshot o1 o2 o3 ns c).1.2 = false ↔ ∀ id, same_entry (nodes c !! id) (keyed ns !! id).
Proof.
  intros H1 H2 H3. rewrite <-(raw_empty o1 o2 H1 H2 (nodes c) (keyed ns) 0).
  unfold replaceSnapshot.
  case_bool_decide as Hl; cbn; split; try done.
  - intros _. by apply nil_length_inv.
  - intros He. by rewrite He in Hl.
Qed.

(** A commit that changed something. *)
Lemma replaceSnapshot_commit o1 o2 o3 ns c batch c' :
  fair o1 → fair o2 → fair o3 → cache_ok c → replaceSnapshot o1 o2 o3 ns c = (batch, true, c') →
  generation c' = uint64_wrap (generation c + 1) ∧
  b_Resource batch = "node" ∧ b_Event batch = "changes" ∧ b_Generation batch = generation c' ∧
  b_Changes batch ≠ [] ∧ StronglySorted change_le (b_Changes batch) ∧ NoDup (map change_id (b_Changes batch)) ∧
  apply_changes (nodes c) (b_Changes batch) = nodes c'.
Proof.
  intros H1 H2 H3 [Hid Hg]. pose proof (keyed_identity ns) as Hk. unfold replaceSnapshot.
  case_bool_decide as Hl; intros [= <- <-]. cbn. repeat (split; [done|]).
  split; [|split; [by apply published_sorted|split; [by apply published_ids|by apply published_apply]]].
  intros He. apply (f_equal length) in He. unfold sortNodeChanges in He.
  by rewrite merge_sort_Permutation, length_map in He.
Qed.

Lemma replaceSnapshot_forall (P : Node → Prop) o1 o2 o3 ns c :
  fair o3 → (∀ n, P n → P (set_generation (uint64_wrap (generation c + 1)) n)) →
  Forall P ns → map_Forall (λ _, P) (nodes c) →
  map_Forall (λ _, P) (nodes (replaceSnapshot o1 o2 o3 ns c).2).
Proof.
  intros H3 HP Hns Hc. unfold replaceSnapshot. case_bool_decide; [done|]. cbn. intros id n.
  rewrite updated_lookup by done. destruct (keyed ns !! id) as [x|] eqn:Hx; cbn; [|done].
  assert (P x) as Hpx. { apply (proj1 (Forall_forall _ _) Hns). by apply keyed_lookup in Hx as [? _]. }
  unfold updated_node. cbn. destruct (nodes c !! id) as [o|] eqn:Ho.
  - destruct (sameNodeState o x); intros [= <-]; [by apply (Hc id)|by apply HP].
  - intros [= <-]. by apply HP.
Qed.

(** C23. A commit and its change batch. For every cache in which the nodes are
    stored under their identities, whatever the iteration orders of Go's maps:
    the new cache holds the states of the listing; a commit is reported
    unchanged exactly when no state differs, and then touches nothing; else it
    advances the generation by one (modulo 2^64) and returns a batch that
    carries this generation, is not empty, is sorted by identity with one
    change per identity, describes each change soundly, and turns the old nodes
    into the new ones when it is applied. Nodes that did not change keep
    their generation, the others carry the new one, and the result does not
    depend on the iteration orders. *)
Theorem replaceSnapshot_spec o1 o2 o3 ns c :
  fair o1 → fair o2 → fair o3 → cache_ok c →
  let '(batch, changed, c') := replaceSnapshot o1 o2 o3 ns c in
  (∀ id, same_entry (nodes c' !! id) (keyed ns !! id)) ∧
  (changed = false ↔ ∀ id, same_entry (nodes c !! id) (keyed ns !! id)) ∧
  (changed = false → c' = c) ∧
  (changed = true →
    generation c' = uint64_wrap (generation c + 1) ∧
    b_Resource batch = "node" ∧ b_Event batch = "changes" ∧ b_Generation batch = generation c' ∧
    b_Changes batch ≠ [] ∧ StronglySorted change_le (b_Changes batch) ∧ NoDup (map change_id (b_Changes batch)) ∧
    (∀ ch, ch ∈ b_Changes batch → sound_change (nodes c) (nodes c') ch) ∧
    apply_changes (nodes c) (b_Changes batch) = nodes c') ∧
  (∀ id n, nodes c' !! id = Some n →
     nodes c !! id = Some n ∨ m_Generation (n_Metadata n) = generation c') ∧
  (∀ o1' o2' o3', fair o1' → fair o2' → fair o3' →
     replaceSnapshot o1' o2' o3' ns c = replaceSnapshot o1 o2 o3 ns c).
Proof.
  intros H1 H2 H3 Hc. pose proof (replaceSnapshot_changed o1 o2 o3 ns c H1 H2 H3) as Hch.
  pose proof (λ ch, published_sound o1 o2 o3 ns c ch H1 H2 H3 Hc) as Hs.
  pose proof (replaceSnapshot_same o1 o2 o3 ns c H1 H2 H3) as Hsame.
  pose proof (λ o1' o2' o3' H1' H2' H3', replaceSnapshot_orders o1 o2 o3 o1' o2' o3' ns c H1 H2 H3 H1' H2' H3' Hc) as Ho.
  pose proof (λ b c', replaceSnapshot_commit o1 o2 o3 ns c b c' H1 H2 H3 Hc) as Hcommit.
  destruct (replaceSnapshot o1 o2 o3 ns c) as [[batch changed] c'] eqn:Hr. cbn in Hch, Hs, Hsame.
  split; [exact Hsame|]. split; [exact Hch|]. split; [|split; [|split; [|exact Ho]]].
  - intros ->. revert Hr. unfold replaceSnapshot. by case_bool_decide; intros [= <- <-].
  - intros ->. destruct (Hcommit _ _ eq_refl) as (? & ? & ? & ? & ? & ? & ? & ?). tauto.
  - revert Hr. unfold replaceSnapshot. case_bool_decide; intros [= <- <- <-]; [by auto|]. cbn. intros id n.
    rewrite updated_lookup by done. destruct (keyed ns !! id) as [x|]; cbn; [|done]. unfold updated_node. cbn.
    destruct (nodes c !! id) as [o|]; [destruct (sameNodeState o x)|]; intros [= <-]; auto.
Qed.

Definition example_node (name state : string) : Node :=
  mkNode (mkMetadata name "Node" 0 (1753920000, 0) "cockpit-slurm") (mkSpec name "" "" 0 0 0 0)
    (mkStatus state [] "").
Definition example_cache : NodeCache :=
  (replaceSnapshot map_to_list map_to_list map_to_list [example_node "n1" "IDLE"; example_node "n2" "IDLE"] NewNodeCache).2.

Lemma fair_map_to_list : fair map_to_list.
Proof. by intros m. Qed.
Lemma NewNodeCache_ok : cache_ok NewNodeCache.
Proof. split; [apply map_Forall_empty|done]. Qed.
Lemma example_cache_ok : cache_ok example_cache.
Proof. apply replaceSnapshot_ok; first [apply fair_map_to_list | apply NewNodeCache_ok]. Qed.

Lemma replaceSnapshot_spec_witness :
  let '(batch, changed, c') :=
    replaceSnapshot map_to_list map_to_list map_to_list [example_node "n2" "DOWN"; example_node "n0" "IDLE"] example_cache in
  changed = true ∧ generation c' = 2 ∧ map change_id (b_Changes batch) = ["n0"; "n1"; "n2"] ∧
  apply_changes (nodes example_cache) (b_Changes batch) = nodes c'.
Proof.
  pose proof (replaceSnapshot_spec map_to_list map_to_list map_to_list
    [example_node "n2" "DOWN"; example_node "n0" "IDLE"] example_cache
    fair_map_to_list fair_map_to_list fair_map_to_list example_cache_ok) as H.
  assert ((replaceSnapshot map_to_list map_to_list map_to_list
    [example_node "n2" "DOWN"; example_node "n0" "IDLE"] example_cache).1.2 = true) as Hc by (by vm_compute).
  assert (generation (replaceSnapshot map_to_list map_to_list map_to_list
    [example_node "n2" "DOWN"; example_node "n0" "IDLE"] example_cache).2 = 2) as Hg by (by vm_compute).
  assert (map change_id (b_Changes (replaceSnapshot map_to_list map_to_list map_to_list
    [example_node "n2" "DOWN"; example_node "n0" "IDLE"] example_cache).1.1) = ["n0"; "n1"; "n2"]) as Hi by (by vm_compute).
  destruct (replaceSnapshot map_to_list map_to_list map_to_list
    [example_node "n2" "DOWN"; example_node "n0" "IDLE"] example_cache) as [[batch changed] c'].
  cbn in Hc, Hg, Hi. destruct H as (_ & _ & _ & H & _). destruct (H Hc) as (_ & _ & _ & _ & _ & _ & _ & _ & Ha).
  by repeat split.
Defined.

(** *** Validation *)

Lemma validate_loop_Ok i ids ns :
  validate_loop i ids ns = Ok tt ↔
  NoDup (map Identity ns) ∧ (∀ n, n ∈ ns → Identity n ≠ "" ∧ Identity n ∉ ids).
Proof.
  revert i ids. induction ns as [|n ns IH]; intros i ids; cbn.
  { split; [|done]. intros _. split; [constructor|]. by intros ? ?%elem_of_nil. }
  unfold guard_err. destruct (streq (Identity n) "") eqn:He; cbn.
  { apply streq_true in He. split; [done|]. intros [_ H]. by destruct (H n (list_elem_of_here _ _)). }
  apply streq_false in He. case_bool_decide as Hin; cbn.
  { split; [done|]. intros [_ H]. by destruct (H n (list_elem_of_here _ _)). }
  rewrite IH, NoDup_cons. split.
  - intros [Hnd Hall]. split; [split; [|done]|].
    + intros (n' & Heq & Hn')%list_elem_of_fmap. destruct (Hall n' Hn') as [_ Hx]. apply Hx. rewrite <-Heq. set_solver.
    + intros n' [-> | Hn']%elem_of_cons; [done|]. destruct (Hall n' Hn'). set_solver.
  - intros [[Hn Hnd] Hall]. split; [done|]. intros n' Hn'.
    destruct (Hall n') as [H1 H2]; [by right|]. split; [done|].
    intros [Heq%elem_of_singleton | Hx]%elem_of_union; [|done].
    apply Hn. rewrite <-Heq. by apply list_elem_of_fmap_2.
Qed.

Lemma validateNodeSnapshot_Ok ns :
  validateNodeSnapshot ns = Ok tt ↔ NoDup (map Identity ns) ∧ ∀ n, n ∈ ns → Identity n ≠ "".
Proof.
  unfold validateNodeSnapshot. rewrite validate_loop_Ok. split.
  - intros [Hn Ha]. split; [done|]. intros n Hin. by apply Ha.
  - intros [Hn Ha]. split; [done|]. intros n Hin. split; [by apply Ha|]. apply not_elem_of_empty.
Qed.
