(* ===== verification/NodeSource.v ===== *)
(** * NodeSource: from Slurm's listing to the cache

    [internal/resource]: the mapping of a generated node to the canonical one
    ([node.go]), the adapter that runs [scontrol] ([node_adapter.go]) and the
    synchronizer that validates a listing and commits it
    ([node_synchronizer.go]). *)
From S2P Require Import Prelude Utf8 Json Schema OpenApi NodeCache.
Open Scope Z_scope.

(** ** Mapping one node *)

Definition V0043NodeStateMIXED : string := "MIXED".
Definition primary_states : list string :=
  ["ALLOCATED"; "DOWN"; "ERROR"; "FAIL"; "FUTURE"; "IDLE"; V0043NodeStateMIXED; "PLANNED"; "UNKNOWN"].
Definition is_primary (state : string) : bool := existsb (streq state) primary_states.

Definition summarizeNodeState (states : list string) : string :=
  match states with
  | [] => ""
  | first :: _ =>
      if (1 <? length (List.filter is_primary states))%nat then V0043NodeStateMIXED
      else default first (find is_primary states)
  end.

Definition stateFlagsFromGenerated (states : list string) : list string :=
  List.filter (λ s, negb (is_primary s)) states.

Definition nodeNameFromGenerated (inn : goval) : string :=
  let non_empty name := s ← opt_string name inn; if negb (streq s "") then Some s else None in
  match non_empty "name" with
  | Some s => s
  | None => match non_empty "hostname" with Some s => s | None => default "" (non_empty "address") end
  end.

(** [FreeMem]: the number counts only when it is set. *)
Definition free_memory (inn : goval) : option Z :=
  v ← deref (field "free_mem" inn);
  number ← opt_int "number" v;
  set ← as_bool (deref (field "set" v));
  if (set : bool) then Some number else None.

(** [now] is the reading of the clock in [NewNode]. *)
Definition MapSlurmNode (now : Z * Z) (inn : goval) : Node :=
  let node := NewNode now (nodeNameFromGenerated inn) 0 in
  let name := opt_string "name" inn in
  let m := n_Metadata node in let sp := n_Spec node in
  let states := strings_of <$> opt_slice "state" inn in
  mkNode (mkMetadata (default (m_Name m) name) (m_Kind m) (m_Generation m) (m_ObservedAt m) (m_Source m))
    (mkSpec (default (sp_NodeName sp) name)
       (default (sp_Address sp) (opt_string "address" inn))
       (default (sp_Hostname sp) (opt_string "hostname" inn))
       (default (sp_CPULoad sp) (opt_int "cpu_load" inn))
       (default (sp_RealMemory sp) (opt_int "real_memory" inn))
       (default (sp_AllocMemory sp) (opt_int "alloc_memory" inn))
       (default (sp_FreeMemory sp) (free_memory inn)))
    (mkStatus (default "" (summarizeNodeState <$> states))
       (default [] (stateFlagsFromGenerated <$> states))
       (default "" (opt_string "reason" inn))).

(** ** The adapter *)

Inductive exec_error : Type :=
| ExitError (code : Z) (stderr : string)
| StartError (msg : string).

Inductive list_error : Type :=
| ScontrolFailed (code : Z) (stderr : string)
| InvokeScontrol (msg : string)
| DecodeNodes
| MissingNodes
| NodesNotArray
| ResponseErrors.

Definition scontrol_command : list string := ["scontrol"; "show"; "nodes"; "--json"].

(** [exec] runs a command; [now k] is the clock when the k-th node is mapped. *)
Definition ListNodes (exec : list string → result exec_error string) (now : nat → Z * Z)
  : result list_error (list Node) :=
  match exec scontrol_command with
  | Err (ExitError code stderr) => Err (ScontrolFailed code (trim_space stderr))
  | Err (StartError msg) => Err (InvokeScontrol msg)
  | Ok out =>
      match unmarshal_shape out with
      | None => Err DecodeNodes
      | Some shape =>
          match shape_lookup "nodes" shape with
          | None => Err MissingNodes
          | Some rawNodes =>
              guard_err (starts_array (trim_space rawNodes)) NodesNotArray;;
              match unmarshal V0043OpenapiNodesResp out with
              | None => Err DecodeNodes
              | Some resp =>
                  guard_err (match opt_slice "errors" resp with Some (_ :: _) => false | _ => true end) ResponseErrors;;
                  Ok (imap (λ k n, MapSlurmNode (now k) n) (slice_field "nodes" resp))
              end
          end
      end
  end.

(** ** Publication *)

(** What a commit publishes to. *)
Class NodeChangePublisher (P : Type) : Type := Publish : NodeChangeBatch → P → P.

Section publication.
Context {P : Type} `{NodeChangePublisher P}.
Context (o1 o2 o3 : order).

Definition ReplaceSnapshotAndPublish (ns : list Node) (st : NodeCache * option P)
  : NodeChangeBatch * bool * (NodeCache * option P) :=
  let '(batch, changed, c) := replaceSnapshot o1 o2 o3 ns st.1 in
  (batch, changed, (c, if (changed : bool) then Publish batch <$> st.2 else st.2)).

Inductive refresh_error : Type :=
| NotInitialized
| ListFailed (e : list_error)
| ContextEnded
| InvalidSnapshot (e : snapshot_error).

(** [Refresh]: [ctx_ended] is what [ctx.Err] says after the listing. *)
Definition Refresh (listing : result list_error (list Node)) (ctx_ended : bool) (st : NodeCache * option P)
  : result refresh_error unit * (NodeCache * option P) :=
  match listing with
  | Err e => (Err (ListFailed e), st)
  | Ok ns =>
      if ctx_ended then (Err ContextEnded, st)
      else match validateNodeSnapshot ns with
           | Err e => (Err (InvalidSnapshot e), st)
           | Ok _ => (Ok tt, (ReplaceSnapshotAndPublish ns st).2)
           end
  end.

(** What wakes the loop of [Run]: a tick, with what the refresh meets, or the
    end of the context. *)
Inductive wakeup : Type :=
| Tick (listing : result list_error (list Node)) (ctx_ended : bool)
| Done.

Fixpoint Run (events : list wakeup) (st : NodeCache * option P) : option (NodeCache * option P) :=
  match events with
  | [] => None
  | Done :: _ => Some st
  | Tick listing ctx_ended :: events' => Run events' (Refresh listing ctx_ended st).2
  end.
End publication.

(** [NewNodeSynchronizer]: [nil] arguments and the interval are checked. *)
Definition DefaultNodeSyncInterval : Z := 5 * 10 ^ 9.
Definition NewNodeSynchronizer (adapter cache : bool) (interval : Z) : result string Z :=
  guard_err adapter "node adapter is required";;
  guard_err cache "node cache is required";;
  guard_err (0 <? interval) "node synchronization interval must be positive";;
  Ok interval.

(** ** Facts *)

Lemma find_filter {A} (f : A → bool) l : find f l = head (List.filter f l).
Proof. induction l as [|x l IH]; [done|]. cbn. by destruct (f x). Qed.

Lemma summarize_primary states :
  summarizeNodeState states =
    match List.filter is_primary states with
    | [] => default "" (head states)
    | [s] => s
    | _ => V0043NodeStateMIXED
    end.
Proof.
  destruct states as [|s states]; [done|]. unfold summarizeNodeState. rewrite find_filter.
  destruct (List.filter is_primary (s :: states)) as [|x [|y l]]; done.
Qed.

(** What the client sees of a state list: the state it summarizes and the flags. *)
Definition states_shown (states : list string) (n : Node) : Prop :=
  (∀ s, s ∈ st_StateFlags (n_Status n) ↔ s ∈ states ∧ is_primary s = false) ∧
  match List.filter is_primary states with
  | [] => st_State (n_Status n) = default "" (head states)
  | [s] => st_State (n_Status n) = s
  | _ => st_State (n_Status n) = V0043NodeStateMIXED
  end ∧
  ((length (List.filter is_primary states) ≤ 1)%nat →
     ∀ s, s ∈ states → s = st_State (n_Status n) ∨ s ∈ st_StateFlags (n_Status n)).

Lemma elem_of_filterb {A} (f : A → bool) l x : x ∈ List.filter f l ↔ x ∈ l ∧ f x = true.
Proof. rewrite !list_elem_of_In. apply filter_In. Qed.

Lemma states_shown_map now inn states :
  strings_of <$> opt_slice "state" inn = Some states → states_shown states (MapSlurmNode now inn).
Proof.
  intros Hs. unfold states_shown, MapSlurmNode. cbn [n_Status st_State st_StateFlags]. rewrite Hs. cbn.
  assert (∀ s, s ∈ stateFlagsFromGenerated states ↔ s ∈ states ∧ is_primary s = false) as Hf.
  { intros s. unfold stateFlagsFromGenerated. by rewrite elem_of_filterb, negb_true_iff. }
  assert (∀ s, s ∈ states → s ∈ List.filter is_primary states ∨ s ∈ stateFlagsFromGenerated states) as Hsplit.
  { intros s Hin. rewrite Hf, elem_of_filterb. destruct (is_primary s); auto. }
  split; [exact Hf|]. rewrite summarize_primary.
  destruct (List.filter is_primary states) as [|x [|y l]]; cbn; (split; [done|]).
  - intros _ s [Hin%elem_of_nil | ?]%Hsplit; auto; done.
  - intros _ s [Hin%list_elem_of_singleton | ?]%Hsplit; auto.
  - lia.
Qed.

(** C38. The canonical node. Whatever document Slurm returned: the identity of a
    node is its name when the name is given, else the first of host name and
    address that is not empty; the flags are exactly the reported states that
    are not primary; the state is the primary one when there is exactly one,
    MIXED when there are several, the first reported one otherwise, so that no
    reported state is lost unless several primary ones became MIXED; the free
    memory is the reported number when there is one and it is marked as set, and 0
    in every other case; the address, the host name, the reason and the other
    numbers are the reported ones, and empty or 0 when they are absent; and the
    node carries generation 0 until a commit stamps it. *)
Theorem MapSlurmNode_spec now inn :
  let n := MapSlurmNode now inn in
  Identity n = match opt_string "name" inn with
               | Some s => s
               | None => match opt_string "hostname" inn, opt_string "address" inn with
                         | Some h, a => if streq h "" then default "" a else h
                         | None, a => default "" a
                         end
               end ∧
  sp_NodeName (n_Spec n) = m_Name (n_Metadata n) ∧
  (∀ states, strings_of <$> opt_slice "state" inn = Some states → states_shown states n) ∧
  (opt_slice "state" inn = None → st_State (n_Status n) = "" ∧ st_StateFlags (n_Status n) = []) ∧
  sp_FreeMemory (n_Spec n) =
    match deref (field "free_mem" inn) with
    | Some v => match opt_int "number" v with
                | Some k => if decide (as_bool (deref (field "set" v)) = Some true) then k else 0
                | None => 0
                end
    | None => 0
    end ∧
  sp_Address (n_Spec n) = default "" (opt_string "address" inn) ∧
  sp_Hostname (n_Spec n) = default "" (opt_string "hostname" inn) ∧
  sp_CPULoad (n_Spec n) = default 0 (opt_int "cpu_load" inn) ∧
  sp_RealMemory (n_Spec n) = default 0 (opt_int "real_memory" inn) ∧
  sp_AllocMemory (n_Spec n) = default 0 (opt_int "alloc_memory" inn) ∧
  st_Reason (n_Status n) = default "" (opt_string "reason" inn) ∧
  m_Generation (n_Metadata n) = 0 ∧ m_ObservedAt (n_Metadata n) = now.
Proof.
  cbn zeta. split; [|split; [|split; [|split; [|split; [|done]]]]].
  - unfold MapSlurmNode, Identity, nodeNameFromGenerated. cbn -[streq].
    destruct (opt_string "name" inn) as [s|]; cbn -[streq]; [by destruct (streq s "")|].
    assert (∀ x y : string, (if negb (streq x "") then x else x) = x) as Hx by (intros x y; by destruct (streq x "")).
    rewrite Hx by exact "". destruct (opt_string "hostname" inn) as [h|]; cbn -[streq].
    + destruct (streq h "") eqn:Hh; cbn -[streq]; [|done]. destruct (opt_string "address" inn) as [a|]; [|done].
      cbn -[streq]. destruct (streq a "") eqn:Ha; [|done]. by apply streq_true in Ha as ->.
    + destruct (opt_string "address" inn) as [a|]; [|done].
      cbn -[streq]. destruct (streq a "") eqn:Ha; [|done]. by apply streq_true in Ha as ->.
  - unfold MapSlurmNode. cbn. by destruct (opt_string "name" inn).
  - apply states_shown_map.
  - intros Hs. unfold MapSlurmNode. cbn. by rewrite Hs.
  - unfold MapSlurmNode, free_memory. cbn -[field deref opt_int as_bool].
    destruct (deref (field "free_mem" inn)) as [v|]; cbn -[field deref opt_int as_bool]; [|done].
    destruct (opt_int "number" v) as [k|]; cbn -[field deref opt_int as_bool]; [|done].
    destruct (as_bool (deref (field "set" v))) as [[]|]; cbn; by case_decide.
Qed.

(** A name that is present but empty hides the host name and the address: the
    fallback of [nodeNameFromGenerated] is overwritten. *)
Lemma empty_name_hides_fallback now inn :
  opt_string "name" inn = Some "" → Identity (MapSlurmNode now inn) = "".
Proof. intros Hn. unfold MapSlurmNode, Identity. cbn. by rewrite Hn. Qed.

Definition example_listing : string :=
  "{'nodes': [{'name': 'n1', 'hostname': 'h1', 'state': ['IDLE', 'DRAIN'], 'free_mem': {'set': true, 'number': 512}, 'cpus': 8}], 'last_update': {}}".
Definition example_document : string := sq example_listing.

Lemma MapSlurmNode_spec_witness :
  ∃ resp inn, unmarshal V0043OpenapiNodesResp example_document = Some resp ∧ slice_field "nodes" resp = [inn] ∧
  states_shown ["IDLE"; "DRAIN"] (MapSlurmNode (0, 0) inn) ∧ sp_FreeMemory (n_Spec (MapSlurmNode (0, 0) inn)) = 512.
Proof.
  destruct (unmarshal V0043OpenapiNodesResp example_document) as [resp|] eqn:Hr; [|by vm_compute in Hr].
  exists resp, (default (VBool false) (head (slice_field "nodes" resp))).
  split; [done|].
  assert (slice_field "nodes" resp = [default (VBool false) (head (slice_field "nodes" resp))]
    ∧ (strings_of <$> opt_slice "state" (default (VBool false) (head (slice_field "nodes" resp)))) = Some ["IDLE"; "DRAIN"]
    ∧ ∃ v, deref (field "free_mem" (default (VBool false) (head (slice_field "nodes" resp)))) = Some v
         ∧ opt_int "number" v = Some 512 ∧ as_bool (deref (field "set" v)) = Some true) as (H1 & H2 & v & H3 & H4 & H5).
  { vm_compute in Hr. injection Hr as <-. vm_compute. repeat (split; [done|]). eexists. by repeat split. }
  split; [exact H1|]. clear Hr H1. generalize dependent (default (VBool false) (head (slice_field "nodes" resp))).
  intros inn H2 H3. destruct (MapSlurmNode_spec (0, 0) inn) as (_ & _ & Hs & _ & Hf & _).
  split; [by apply Hs|]. rewrite Hf, H3, H4. by rewrite decide_True.
Defined.

(** C37. The listing. [ListNodes] answers with nodes only when [scontrol]
    succeeded and printed one JSON document: an object whose last member named
    ["nodes"] is an array, that decodes into the generated type, without
    reported errors; it then maps every decoded element in order. In every
    other case it fails, and the decoded value always has the generated type. *)
Theorem ListNodes_sound exec now ns :
  ListNodes exec now = Ok ns →
  ∃ out ms raw resp,
    exec scontrol_command = Ok out ∧
    (parse_document out = Some (JObj ms) ∨ parse_document out = Some JNull ∧ ms = []) ∧
    shape_lookup "nodes" ms = Some raw ∧ starts_array (trim_space raw) = true ∧
    unmarshal V0043OpenapiNodesResp out = Some resp ∧ has_type V0043OpenapiNodesResp resp = true ∧
    (∀ e es, opt_slice "errors" resp ≠ Some (e :: es)) ∧
    length ns = length (slice_field "nodes" resp) ∧
    ∀ k inn, slice_field "nodes" resp !! k = Some inn → ns !! k = Some (MapSlurmNode (now k) inn).
Proof.
  unfold ListNodes. intros H. destruct (exec scontrol_command) as [out|[]]; [|discriminate H..].
  destruct (unmarshal_shape out) as [ms|] eqn:Hshape; [|discriminate H].
  destruct (shape_lookup "nodes" ms) as [raw|] eqn:Hraw; [|discriminate H].
  apply bind_Ok_inv in H as ([] & Ha%guard_err_Ok_inv & H).
  destruct (unmarshal V0043OpenapiNodesResp out) as [resp|] eqn:Hu; [|discriminate H].
  apply bind_Ok_inv in H as ([] & He%guard_err_Ok_inv & H). injection H as <-.
  exists out, ms, raw, resp. split; [reflexivity|]. split; [exact (unmarshal_shape_Some _ _ Hshape)|].
  split; [exact Hraw|]. split; [exact Ha|]. split; [exact Hu|].
  split; [exact (unmarshal_typed _ _ _ Hu)|]. clear Hu. split.
  { intros e es Hes. by rewrite Hes in He. }
  split; [apply length_imap|]. intros k inn Hk. by rewrite list_lookup_imap, Hk.
Qed.

Lemma ListNodes_sound_witness :
  ∃ ns, ListNodes (λ _, Ok example_document) (λ _, (0, 0)) = Ok ns ∧
    map Identity ns = ["n1"] ∧ map (λ n, st_StateFlags (n_Status n)) ns = [["DRAIN"]] ∧
    ∃ out, unmarshal V0043OpenapiNodesResp out ≠ None.
Proof.
  destruct (ListNodes (λ _, Ok example_document) (λ _, (0, 0))) as [ns|] eqn:Hl; [|by vm_compute in Hl].
  exists ns. split; [done|].
  destruct (ListNodes_sound _ _ _ Hl) as (out & ms & raw & resp & _ & _ & _ & _ & Hu & _).
  split; [|split]; [| |exists out; by rewrite Hu]; clear Hu; vm_compute in Hl; by injection Hl as <-.
Defined.

Section refresh.
Context {P : Type} `{NodeChangePublisher P}.
Context (o1 o2 o3 : order) (H1 : fair o1) (H2 : fair o2) (H3 : fair o3).

Lemma Refresh_facts listing ctx_ended (st : NodeCache * option P) :
  cache_ok st.1 →
  let '(r, st') := Refresh o1 o2 o3 listing ctx_ended st in
  cache_ok st'.1 ∧
  (r = Ok tt ↔ ∃ ns, listing = Ok ns ∧ ctx_ended = false ∧
                    NoDup (map Identity ns) ∧ ∀ n, n ∈ ns → Identity n ≠ "") ∧
  (r ≠ Ok tt → st' = st) ∧
  (r = Ok tt → ∀ ns, listing = Ok ns →
    (∀ n, n ∈ ns → ∃ n', nodes st'.1 !! Identity n = Some n' ∧ sameNodeState n' n = true) ∧
    (∀ id n', nodes st'.1 !! id = Some n' → ∃ n, n ∈ ns ∧ Identity n = id) ∧
    (st'.2 = if (replaceSnapshot o1 o2 o3 ns st.1).1.2 then Publish (replaceSnapshot o1 o2 o3 ns st.1).1.1 <$> st.2
             else st.2)).
Proof.
  intros Hc. unfold Refresh. destruct listing as [ns|e].
  2: { split; [done|]. split; [|done]. split; [done|]. by intros (? & ? & _). }
  destruct ctx_ended.
  { split; [done|]. split; [|done]. split; [done|]. by intros (? & _ & ? & _). }
  pose proof (validateNodeSnapshot_Ok ns) as Hv. destruct (validateNodeSnapshot ns) as [[]|e].
  2: { split; [done|]. split; [|done]. split; [done|]. intros (? & [= <-] & _ & Hx). by apply Hv in Hx. }
  apply proj1 in Hv. destruct (Hv eq_refl) as [Hnd Hne]. unfold ReplaceSnapshotAndPublish.
  pose proof (replaceSnapshot_ok o1 o2 o3 ns st.1 H1 H2 H3 Hc) as Hok.
  pose proof (replaceSnapshot_same o1 o2 o3 ns st.1 H1 H2 H3) as Hs.
  destruct (replaceSnapshot o1 o2 o3 ns st.1) as [[batch changed] c'] eqn:Hr. cbn in *.
  split; [done|]. split; [|split; [done|]].
  { split; [|done]. intros _. by exists ns. }
  intros _ ns' [= <-]. rewrite Hr. split; [|split].
  - intros n Hn. specialize (Hs (Identity n)). rewrite (keyed_NoDup ns n Hnd Hn) in Hs.
    destruct (nodes c' !! Identity n) as [n'|]; [|done]. by exists n'.
  - intros id n' Hn'. specialize (Hs id). rewrite Hn' in Hs.
    destruct (keyed ns !! id) as [n|] eqn:Hk; [|done]. apply keyed_lookup in Hk as [? ?]. by exists n.
  - done.
Qed.

(** C35. Refresh commits all or nothing. A refresh fails exactly when the
    listing failed, the context ended or the listing is not a valid
    snapshot (a node without identity, or two with the same one), and a
    failed refresh leaves the cache, its generation and the publisher as they
    were. A refresh that succeeds makes the cache hold exactly the listed
    nodes, and publishes the batch of the commit exactly when a state changed. *)
Theorem Refresh_spec listing ctx_ended (st : NodeCache * option P) :
  cache_ok st.1 →
  let '(r, st') := Refresh o1 o2 o3 listing ctx_ended st in
  cache_ok st'.1 ∧
  (r = Ok tt ↔ ∃ ns, listing = Ok ns ∧ ctx_ended = false ∧
                    NoDup (map Identity ns) ∧ ∀ n, n ∈ ns → Identity n ≠ "") ∧
  (r ≠ Ok tt → st' = st) ∧
  (r = Ok tt → ∀ ns, listing = Ok ns →
    (∀ n, n ∈ ns → ∃ n', nodes st'.1 !! Identity n = Some n' ∧ sameNodeState n' n = true) ∧
    (∀ id n', nodes st'.1 !! id = Some n' → ∃ n, n ∈ ns ∧ Identity n = id) ∧
    (st'.2 = if (replaceSnapshot o1 o2 o3 ns st.1).1.2 then Publish (replaceSnapshot o1 o2 o3 ns st.1).1.1 <$> st.2
             else st.2)).
Proof. apply Refresh_facts. Qed.
End refresh.

(** A publisher that keeps what it was given, for the examples. *)
#[local] Instance log_publisher : NodeChangePublisher (list NodeChangeBatch) := λ b l, l ++ [b].

Lemma Refresh_spec_witness :
  let '(r, st) := Refresh map_to_list map_to_list map_to_list (Ok [example_node "n2" "DOWN"]) false
    (example_cache, Some []) in
  r = Ok tt ∧ cache_ok st.1 ∧ (∀ id n', nodes st.1 !! id = Some n' → id = "n2") ∧
  length <$> st.2 = Some 1%nat.
Proof.
  pose proof (Refresh_spec map_to_list map_to_list map_to_list fair_map_to_list fair_map_to_list fair_map_to_list
    (Ok [example_node "n2" "DOWN"]) false (example_cache, Some []) example_cache_ok) as H.
  assert ((Refresh map_to_list map_to_list map_to_list (Ok [example_node "n2" "DOWN"]) false
    (example_cache, Some [])).1 = Ok tt) as Hr by (by vm_compute).
  assert (length <$> (Refresh map_to_list map_to_list map_to_list (Ok [example_node "n2" "DOWN"]) false
    (example_cache, Some [])).2.2 = Some 1%nat) as Hl by (by vm_compute).
  destruct (Refresh _ _ _ _ _ _) as [r st]. cbn in Hr, Hl. subst r. destruct H as (Hok & _ & _ & H).
  split; [done|]. split; [done|]. split; [|done]. destruct (H eq_refl _ eq_refl) as (_ & Hd & _).
  intros id n' Hn'. destruct (Hd id n' Hn') as (n & ->%list_elem_of_singleton & <-). done.
Defined.
