(* ===== verification/OpenApiFacts.v ===== *)
(** * OpenApiFacts: decoding into the generated types

    All the types and constants of [hack/openapi/slurm_openapi.gen.go] together:
    no two names in a struct are equal up to case, so decoding is field by field;
    and what the daemon makes of the generated constants. *)
From S2P Require Import Prelude Utf8 Json JsonValidation Schema SchemaFacts Connection Authorization NodeCache NodeSource.
From S2P Require Import OpenApi OpenApiModels OpenApiRequests OpenApiValues.
Open Scope Z_scope.

(** ** The declarations of the file *)

Definition generated_types : list (string * gotype) :=
  [("V0043Account", V0043Account); ("V0043AccountFlags", V0043AccountFlags);
   ("V0043AccountList", V0043AccountList); ("V0043AccountShort", V0043AccountShort);
   ("V0043Accounting", V0043Accounting); ("V0043AccountingList", V0043AccountingList);
   ("V0043AccountsAddCond", V0043AccountsAddCond); ("V0043AcctGatherEnergy", V0043AcctGatherEnergy);
   ("V0043Assoc", V0043Assoc); ("V0043AssocFlags", V0043AssocFlags);
   ("V0043AssocList", V0043AssocList); ("V0043AssocRecSet", V0043AssocRecSet);
   ("V0043AssocSharesObjList", V0043AssocSharesObjList); ("V0043AssocSharesObjWrap", V0043AssocSharesObjWrap);
   ("V0043AssocSharesObjWrapType", V0043AssocSharesObjWrapType); ("V0043AssocShort", V0043AssocShort);
   ("V0043AssocShortList", V0043AssocShortList); ("V0043BfExitFields", V0043BfExitFields);
   ("V0043ClusterRec", V0043ClusterRec); ("V0043ClusterRecFlags", V0043ClusterRecFlags);
   ("V0043ClusterRecList", V0043ClusterRecList); ("V0043ControllerPing", V0043ControllerPing);
   ("V0043ControllerPingArray", V0043ControllerPingArray); ("V0043Coord", V0043Coord);
   ("V0043CoordList", V0043CoordList); ("V0043CronEntry", V0043CronEntry);
   ("V0043CronEntryFlags", V0043CronEntryFlags); ("V0043CsvString", V0043CsvString);
   ("V0043Float64NoValStruct", V0043Float64NoValStruct); ("V0043Hostlist", V0043Hostlist);
   ("V0043HostlistString", V0043HostlistString); ("V0043Instance", V0043Instance);
   ("V0043InstanceList", V0043InstanceList); ("V0043Job", V0043Job);
   ("V0043JobFlags", V0043JobFlags); ("V0043JobStateCurrent", V0043JobStateCurrent);
   ("V0043JobAllocReq", V0043JobAllocReq); ("V0043JobArrayResponseArray", V0043JobArrayResponseArray);
   ("V0043JobArrayResponseMsgEntry", V0043JobArrayResponseMsgEntry); ("V0043JobDescMsg", V0043JobDescMsg);
   ("V0043JobDescMsgCpuBindingFlags", V0043JobDescMsgCpuBindingFlags); ("V0043JobDescMsgFlags", V0043JobDescMsgFlags);
   ("V0043JobDescMsgKillWarningFlags", V0043JobDescMsgKillWarningFlags); ("V0043JobDescMsgMailType", V0043JobDescMsgMailType);
   ("V0043JobDescMsgMemoryBindingType", V0043JobDescMsgMemoryBindingType); ("V0043JobDescMsgOpenMode", V0043JobDescMsgOpenMode);
   ("V0043JobDescMsgProfile", V0043JobDescMsgProfile); ("V0043JobDescMsgShared", V0043JobDescMsgShared);
   ("V0043JobDescMsgX11", V0043JobDescMsgX11); ("V0043JobDescMsgList", V0043JobDescMsgList);
   ("V0043JobInfo", V0043JobInfo); ("V0043JobInfoFlags", V0043JobInfoFlags);
   ("V0043JobInfoJobState", V0043JobInfoJobState); ("V0043JobInfoMailType", V0043JobInfoMailType);
   ("V0043JobInfoProfile", V0043JobInfoProfile); ("V0043JobInfoShared", V0043JobInfoShared);
   ("V0043JobInfoGresDetail", V0043JobInfoGresDetail); ("V0043JobInfoMsg", V0043JobInfoMsg);
   ("V0043JobList", V0043JobList); ("V0043JobRes", V0043JobRes);
   ("V0043JobResNodesSelectType", V0043JobResNodesSelectType); ("V0043JobResSelectType", V0043JobResSelectType);
   ("V0043JobResCore", V0043JobResCore); ("V0043JobResCoreStatus", V0043JobResCoreStatus);
   ("V0043JobResCoreArray", V0043JobResCoreArray); ("V0043JobResNode", V0043JobResNode);
   ("V0043JobResNodes", V0043JobResNodes); ("V0043JobResSocket", V0043JobResSocket);
   ("V0043JobResSocketArray", V0043JobResSocketArray); ("V0043JobSubmitReq", V0043JobSubmitReq);
   ("V0043KillJobsMsg", V0043KillJobsMsg); ("V0043KillJobsMsgFlags", V0043KillJobsMsgFlags);
   ("V0043KillJobsMsgJobState", V0043KillJobsMsgJobState); ("V0043KillJobsMsgJobsArray", V0043KillJobsMsgJobsArray);
   ("V0043KillJobsRespJob", V0043KillJobsRespJob); ("V0043KillJobsRespMsg", V0043KillJobsRespMsg);
   ("V0043License", V0043License); ("V0043Licenses", V0043Licenses);
   ("V0043Node", V0043Node); ("V0043NodeCertFlags", V0043NodeCertFlags);
   ("V0043NodeNextStateAfterReboot", V0043NodeNextStateAfterReboot); ("V0043NodeState", V0043NodeState);
   ("V0043Nodes", V0043Nodes); ("V0043OpenapiAccountsAddCondResp", V0043OpenapiAccountsAddCondResp);
   ("V0043OpenapiAccountsAddCondRespStr", V0043OpenapiAccountsAddCondRespStr); ("V0043OpenapiAccountsRemovedResp", V0043OpenapiAccountsRemovedResp);
   ("V0043OpenapiAccountsResp", V0043OpenapiAccountsResp); ("V0043OpenapiAssocsRemovedResp", V0043OpenapiAssocsRemovedResp);
   ("V0043OpenapiAssocsResp", V0043OpenapiAssocsResp); ("V0043OpenapiClustersRemovedResp", V0043OpenapiClustersRemovedResp);
   ("V0043OpenapiClustersResp", V0043OpenapiClustersResp); ("V0043OpenapiDiagResp", V0043OpenapiDiagResp);
   ("V0043OpenapiError", V0043OpenapiError); ("V0043OpenapiErrors", V0043OpenapiErrors);
   ("V0043OpenapiInstancesResp", V0043OpenapiInstancesResp); ("V0043OpenapiJobAllocResp", V0043OpenapiJobAllocResp);
   ("V0043OpenapiJobInfoResp", V0043OpenapiJobInfoResp); ("V0043OpenapiJobPostResponse", V0043OpenapiJobPostResponse);
   ("V0043OpenapiJobSubmitResponse", V0043OpenapiJobSubmitResponse); ("V0043OpenapiKillJobResp", V0043OpenapiKillJobResp);
   ("V0043OpenapiKillJobsResp", V0043OpenapiKillJobsResp); ("V0043OpenapiLicensesResp", V0043OpenapiLicensesResp);
   ("V0043OpenapiMeta", V0043OpenapiMeta); ("V0043OpenapiNodesResp", V0043OpenapiNodesResp);
   ("V0043OpenapiPartitionResp", V0043OpenapiPartitionResp); ("V0043OpenapiPingArrayResp", V0043OpenapiPingArrayResp);
   ("V0043OpenapiReservationModResp", V0043OpenapiReservationModResp); ("V0043OpenapiReservationResp", V0043OpenapiReservationResp);
   ("V0043OpenapiResp", V0043OpenapiResp); ("V0043OpenapiSharesResp", V0043OpenapiSharesResp);
   ("V0043OpenapiSlurmdbdConfigResp", V0043OpenapiSlurmdbdConfigResp); ("V0043OpenapiSlurmdbdJobsResp", V0043OpenapiSlurmdbdJobsResp);
   ("V0043OpenapiSlurmdbdPingResp", V0043OpenapiSlurmdbdPingResp); ("V0043OpenapiSlurmdbdQosRemovedResp", V0043OpenapiSlurmdbdQosRemovedResp);
   ("V0043OpenapiSlurmdbdQosResp", V0043OpenapiSlurmdbdQosResp); ("V0043OpenapiSlurmdbdStatsResp", V0043OpenapiSlurmdbdStatsResp);
   ("V0043OpenapiTresResp", V0043OpenapiTresResp); ("V0043OpenapiUsersAddCondResp", V0043OpenapiUsersAddCondResp);
   ("V0043OpenapiUsersAddCondRespStr", V0043OpenapiUsersAddCondRespStr); ("V0043OpenapiUsersResp", V0043OpenapiUsersResp);
   ("V0043OpenapiWarning", V0043OpenapiWarning); ("V0043OpenapiWarnings", V0043OpenapiWarnings);
   ("V0043OpenapiWckeyRemovedResp", V0043OpenapiWckeyRemovedResp); ("V0043OpenapiWckeyResp", V0043OpenapiWckeyResp);
   ("V0043PartPrio", V0043PartPrio); ("V0043PartitionInfo", V0043PartitionInfo);
   ("V0043PartitionInfoMaximumsOversubscribeFlags", V0043PartitionInfoMaximumsOversubscribeFlags); ("V0043PartitionInfoPartitionState", V0043PartitionInfoPartitionState);
   ("V0043PartitionInfoSelectType", V0043PartitionInfoSelectType); ("V0043PartitionInfoMsg", V0043PartitionInfoMsg);
   ("V0043PriorityByPartition", V0043PriorityByPartition); ("V0043ProcessExitCodeVerbose", V0043ProcessExitCodeVerbose);
   ("V0043ProcessExitCodeVerboseStatus", V0043ProcessExitCodeVerboseStatus); ("V0043Qos", V0043Qos);
   ("V0043QosFlags", V0043QosFlags); ("V0043QosPreemptMode", V0043QosPreemptMode);
   ("V0043QosList", V0043QosList); ("V0043QosPreemptList", V0043QosPreemptList);
   ("V0043QosStringIdList", V0043QosStringIdList); ("V0043ReservationCoreSpec", V0043ReservationCoreSpec);
   ("V0043ReservationDescMsg", V0043ReservationDescMsg); ("V0043ReservationDescMsgFlags", V0043ReservationDescMsgFlags);
   ("V0043ReservationDescMsgList", V0043ReservationDescMsgList); ("V0043ReservationInfo", V0043ReservationInfo);
   ("V0043ReservationInfoFlags", V0043ReservationInfoFlags); ("V0043ReservationInfoCoreSpec", V0043ReservationInfoCoreSpec);
   ("V0043ReservationInfoMsg", V0043ReservationInfoMsg); ("V0043ReservationModReq", V0043ReservationModReq);
   ("V0043RollupStats", V0043RollupStats); ("V0043ScheduleExitFields", V0043ScheduleExitFields);
   ("V0043SharesFloat128Tres", V0043SharesFloat128Tres); ("V0043SharesFloat128TresList", V0043SharesFloat128TresList);
   ("V0043SharesRespMsg", V0043SharesRespMsg); ("V0043SharesUint64Tres", V0043SharesUint64Tres);
   ("V0043SharesUint64TresList", V0043SharesUint64TresList); ("V0043SlurmdbdPing", V0043SlurmdbdPing);
   ("V0043SlurmdbdPingArray", V0043SlurmdbdPingArray); ("V0043StatsMsg", V0043StatsMsg);
   ("V0043StatsMsgRpcDump", V0043StatsMsgRpcDump); ("V0043StatsMsgRpcQueue", V0043StatsMsgRpcQueue);
   ("V0043StatsMsgRpcType", V0043StatsMsgRpcType); ("V0043StatsMsgRpcUser", V0043StatsMsgRpcUser);
   ("V0043StatsMsgRpcsByType", V0043StatsMsgRpcsByType); ("V0043StatsMsgRpcsByUser", V0043StatsMsgRpcsByUser);
   ("V0043StatsMsgRpcsDump", V0043StatsMsgRpcsDump); ("V0043StatsMsgRpcsQueue", V0043StatsMsgRpcsQueue);
   ("V0043StatsRec", V0043StatsRec); ("V0043StatsRpc", V0043StatsRpc);
   ("V0043StatsRpcList", V0043StatsRpcList); ("V0043StatsUser", V0043StatsUser);
   ("V0043StatsUserList", V0043StatsUserList); ("V0043Step", V0043Step);
   ("V0043StepState", V0043StepState); ("V0043StepList", V0043StepList);
   ("V0043StepTresReqMax", V0043StepTresReqMax); ("V0043StepTresReqMin", V0043StepTresReqMin);
   ("V0043StepTresUsageMax", V0043StepTresUsageMax); ("V0043StepTresUsageMin", V0043StepTresUsageMin);
   ("V0043StringArray", V0043StringArray); ("V0043StringList", V0043StringList);
   ("V0043Tres", V0043Tres); ("V0043TresList", V0043TresList);
   ("V0043Uint16NoValStruct", V0043Uint16NoValStruct); ("V0043Uint32NoValStruct", V0043Uint32NoValStruct);
   ("V0043Uint64NoValStruct", V0043Uint64NoValStruct); ("V0043UpdateNodeMsg", V0043UpdateNodeMsg);
   ("V0043UpdateNodeMsgState", V0043UpdateNodeMsgState); ("V0043User", V0043User);
   ("V0043UserAdministratorLevel", V0043UserAdministratorLevel); ("V0043UserFlags", V0043UserFlags);
   ("V0043UserList", V0043UserList); ("V0043UserShort", V0043UserShort);
   ("V0043UserShortAdminlevel", V0043UserShortAdminlevel); ("V0043UsersAddCond", V0043UsersAddCond);
   ("V0043Wckey", V0043Wckey); ("V0043WckeyFlags", V0043WckeyFlags);
   ("V0043WckeyList", V0043WckeyList); ("V0043WckeyTagStruct", V0043WckeyTagStruct);
   ("V0043WckeyTagStructFlags", V0043WckeyTagStructFlags); ("SlurmV0043DeleteJobParams", SlurmV0043DeleteJobParams);
   ("SlurmV0043DeleteJobParamsFlags", SlurmV0043DeleteJobParamsFlags); ("SlurmV0043GetJobParams", SlurmV0043GetJobParams);
   ("SlurmV0043GetJobParamsFlags", SlurmV0043GetJobParamsFlags); ("SlurmV0043GetJobsParams", SlurmV0043GetJobsParams);
   ("SlurmV0043GetJobsParamsFlags", SlurmV0043GetJobsParamsFlags); ("SlurmV0043GetJobsStateParams", SlurmV0043GetJobsStateParams);
   ("SlurmV0043GetNodeParams", SlurmV0043GetNodeParams); ("SlurmV0043GetNodeParamsFlags", SlurmV0043GetNodeParamsFlags);
   ("SlurmV0043GetNodesParams", SlurmV0043GetNodesParams); ("SlurmV0043GetNodesParamsFlags", SlurmV0043GetNodesParamsFlags);
   ("SlurmV0043GetPartitionParams", SlurmV0043GetPartitionParams); ("SlurmV0043GetPartitionParamsFlags", SlurmV0043GetPartitionParamsFlags);
   ("SlurmV0043GetPartitionsParams", SlurmV0043GetPartitionsParams); ("SlurmV0043GetPartitionsParamsFlags", SlurmV0043GetPartitionsParamsFlags);
   ("SlurmV0043GetReservationParams", SlurmV0043GetReservationParams); ("SlurmV0043GetReservationsParams", SlurmV0043GetReservationsParams);
   ("SlurmV0043GetSharesParams", SlurmV0043GetSharesParams); ("SlurmdbV0043GetAccountParams", SlurmdbV0043GetAccountParams);
   ("SlurmdbV0043GetAccountsParams", SlurmdbV0043GetAccountsParams); ("SlurmdbV0043DeleteAssociationParams", SlurmdbV0043DeleteAssociationParams);
   ("SlurmdbV0043GetAssociationParams", SlurmdbV0043GetAssociationParams); ("SlurmdbV0043DeleteAssociationsParams", SlurmdbV0043DeleteAssociationsParams);
   ("SlurmdbV0043GetAssociationsParams", SlurmdbV0043GetAssociationsParams); ("SlurmdbV0043DeleteClusterParams", SlurmdbV0043DeleteClusterParams);
   ("SlurmdbV0043DeleteClusterParamsClassification", SlurmdbV0043DeleteClusterParamsClassification); ("SlurmdbV0043DeleteClusterParamsFlags", SlurmdbV0043DeleteClusterParamsFlags);
   ("SlurmdbV0043GetClusterParams", SlurmdbV0043GetClusterParams); ("SlurmdbV0043GetClusterParamsClassification", SlurmdbV0043GetClusterParamsClassification);
   ("SlurmdbV0043GetClusterParamsFlags", SlurmdbV0043GetClusterParamsFlags); ("SlurmdbV0043GetClustersParams", SlurmdbV0043GetClustersParams);
   ("SlurmdbV0043PostClustersParams", SlurmdbV0043PostClustersParams); ("SlurmdbV0043GetInstanceParams", SlurmdbV0043GetInstanceParams);
   ("SlurmdbV0043GetInstancesParams", SlurmdbV0043GetInstancesParams); ("SlurmdbV0043GetJobsParams", SlurmdbV0043GetJobsParams);
   ("SlurmdbV0043GetQosParams", SlurmdbV0043GetQosParams); ("SlurmdbV0043GetQosParamsPreemptMode", SlurmdbV0043GetQosParamsPreemptMode);
   ("SlurmdbV0043PostQosParams", SlurmdbV0043PostQosParams); ("SlurmdbV0043PostQosParamsPreemptMode", SlurmdbV0043PostQosParamsPreemptMode);
   ("SlurmdbV0043GetSingleQosParams", SlurmdbV0043GetSingleQosParams); ("SlurmdbV0043GetUserParams", SlurmdbV0043GetUserParams);
   ("SlurmdbV0043GetUsersParams", SlurmdbV0043GetUsersParams); ("SlurmdbV0043GetUsersParamsAdminLevel", SlurmdbV0043GetUsersParamsAdminLevel);
   ("SlurmdbV0043PostUsersAssociationParams", SlurmdbV0043PostUsersAssociationParams); ("SlurmdbV0043PostUsersAssociationParamsFlags", SlurmdbV0043PostUsersAssociationParamsFlags);
   ("SlurmdbV0043GetWckeysParams", SlurmdbV0043GetWckeysParams); ("SlurmdbV0043PostWckeysParams", SlurmdbV0043PostWckeysParams);
   ("SlurmV0043PostJobAllocateJSONRequestBody", SlurmV0043PostJobAllocateJSONRequestBody); ("SlurmV0043PostJobSubmitJSONRequestBody", SlurmV0043PostJobSubmitJSONRequestBody);
   ("SlurmV0043PostJobJSONRequestBody", SlurmV0043PostJobJSONRequestBody); ("SlurmV0043DeleteJobsJSONRequestBody", SlurmV0043DeleteJobsJSONRequestBody);
   ("SlurmV0043PostNodeJSONRequestBody", SlurmV0043PostNodeJSONRequestBody); ("SlurmV0043PostNodesJSONRequestBody", SlurmV0043PostNodesJSONRequestBody);
   ("SlurmV0043PostReservationJSONRequestBody", SlurmV0043PostReservationJSONRequestBody); ("SlurmV0043PostReservationsJSONRequestBody", SlurmV0043PostReservationsJSONRequestBody);
   ("SlurmdbV0043PostAccountsJSONRequestBody", SlurmdbV0043PostAccountsJSONRequestBody); ("SlurmdbV0043PostAccountsAssociationJSONRequestBody", SlurmdbV0043PostAccountsAssociationJSONRequestBody);
   ("SlurmdbV0043PostAssociationsJSONRequestBody", SlurmdbV0043PostAssociationsJSONRequestBody); ("SlurmdbV0043PostClustersJSONRequestBody", SlurmdbV0043PostClustersJSONRequestBody);
   ("SlurmdbV0043PostConfigJSONRequestBody", SlurmdbV0043PostConfigJSONRequestBody); ("SlurmdbV0043PostQosJSONRequestBody", SlurmdbV0043PostQosJSONRequestBody);
   ("SlurmdbV0043PostTresJSONRequestBody", SlurmdbV0043PostTresJSONRequestBody); ("SlurmdbV0043PostUsersJSONRequestBody", SlurmdbV0043PostUsersJSONRequestBody);
   ("SlurmdbV0043PostUsersAssociationJSONRequestBody", SlurmdbV0043PostUsersAssociationJSONRequestBody); ("SlurmdbV0043PostWckeysJSONRequestBody", SlurmdbV0043PostWckeysJSONRequestBody)].

Definition generated_constants : list (string * list (string * string)) :=
  [("Scopes", ScopesValues);
   ("V0043AccountFlags", V0043AccountFlagsValues);
   ("V0043AssocFlags", V0043AssocFlagsValues);
   ("V0043AssocSharesObjWrapType", V0043AssocSharesObjWrapTypeValues);
   ("V0043ClusterRecFlags", V0043ClusterRecFlagsValues);
   ("V0043CronEntryFlags", V0043CronEntryFlagsValues);
   ("V0043JobFlags", V0043JobFlagsValues);
   ("V0043JobStateCurrent", V0043JobStateCurrentValues);
   ("V0043JobDescMsgCpuBindingFlags", V0043JobDescMsgCpuBindingFlagsValues);
   ("V0043JobDescMsgFlags", V0043JobDescMsgFlagsValues);
   ("V0043JobDescMsgKillWarningFlags", V0043JobDescMsgKillWarningFlagsValues);
   ("V0043JobDescMsgMailType", V0043JobDescMsgMailTypeValues);
   ("V0043JobDescMsgMemoryBindingType", V0043JobDescMsgMemoryBindingTypeValues);
   ("V0043JobDescMsgOpenMode", V0043JobDescMsgOpenModeValues);
   ("V0043JobDescMsgProfile", V0043JobDescMsgProfileValues);
   ("V0043JobDescMsgShared", V0043JobDescMsgSharedValues);
   ("V0043JobDescMsgX11", V0043JobDescMsgX11Values);
   ("V0043JobInfoFlags", V0043JobInfoFlagsValues);
   ("V0043JobInfoJobState", V0043JobInfoJobStateValues);
   ("V0043JobInfoMailType", V0043JobInfoMailTypeValues);
   ("V0043JobInfoProfile", V0043JobInfoProfileValues);
   ("V0043JobInfoShared", V0043JobInfoSharedValues);
   ("V0043JobResNodesSelectType", V0043JobResNodesSelectTypeValues);
   ("V0043JobResSelectType", V0043JobResSelectTypeValues);
   ("V0043JobResCoreStatus", V0043JobResCoreStatusValues);
   ("V0043KillJobsMsgFlags", V0043KillJobsMsgFlagsValues);
   ("V0043KillJobsMsgJobState", V0043KillJobsMsgJobStateValues);
   ("V0043NodeCertFlags", V0043NodeCertFlagsValues);
   ("V0043NodeNextStateAfterReboot", V0043NodeNextStateAfterRebootValues);
   ("V0043NodeState", V0043NodeStateValues);
   ("V0043PartitionInfoMaximumsOversubscribeFlags", V0043PartitionInfoMaximumsOversubscribeFlagsValues);
   ("V0043PartitionInfoPartitionState", V0043PartitionInfoPartitionStateValues);
   ("V0043PartitionInfoSelectType", V0043PartitionInfoSelectTypeValues);
   ("V0043ProcessExitCodeVerboseStatus", V0043ProcessExitCodeVerboseStatusValues);
   ("V0043QosFlags", V0043QosFlagsValues);
   ("V0043QosPreemptMode", V0043QosPreemptModeValues);
   ("V0043ReservationDescMsgFlags", V0043ReservationDescMsgFlagsValues);
   ("V0043ReservationInfoFlags", V0043ReservationInfoFlagsValues);
   ("V0043StepState", V0043StepStateValues);
   ("V0043UpdateNodeMsgState", V0043UpdateNodeMsgStateValues);
   ("V0043UserAdministratorLevel", V0043UserAdministratorLevelValues);
   ("V0043UserFlags", V0043UserFlagsValues);
   ("V0043UserShortAdminlevel", V0043UserShortAdminlevelValues);
   ("V0043WckeyFlags", V0043WckeyFlagsValues);
   ("V0043WckeyTagStructFlags", V0043WckeyTagStructFlagsValues);
   ("SlurmV0043DeleteJobParamsFlags", SlurmV0043DeleteJobParamsFlagsValues);
   ("SlurmV0043GetJobParamsFlags", SlurmV0043GetJobParamsFlagsValues);
   ("SlurmV0043GetJobsParamsFlags", SlurmV0043GetJobsParamsFlagsValues);
   ("SlurmV0043GetNodeParamsFlags", SlurmV0043GetNodeParamsFlagsValues);
   ("SlurmV0043GetNodesParamsFlags", SlurmV0043GetNodesParamsFlagsValues);
   ("SlurmV0043GetPartitionParamsFlags", SlurmV0043GetPartitionParamsFlagsValues);
   ("SlurmV0043GetPartitionsParamsFlags", SlurmV0043GetPartitionsParamsFlagsValues);
   ("SlurmdbV0043DeleteClusterParamsClassification", SlurmdbV0043DeleteClusterParamsClassificationValues);
   ("SlurmdbV0043DeleteClusterParamsFlags", SlurmdbV0043DeleteClusterParamsFlagsValues);
   ("SlurmdbV0043GetClusterParamsClassification", SlurmdbV0043GetClusterParamsClassificationValues);
   ("SlurmdbV0043GetClusterParamsFlags", SlurmdbV0043GetClusterParamsFlagsValues);
   ("SlurmdbV0043GetQosParamsPreemptMode", SlurmdbV0043GetQosParamsPreemptModeValues);
   ("SlurmdbV0043PostQosParamsPreemptMode", SlurmdbV0043PostQosParamsPreemptModeValues);
   ("SlurmdbV0043GetUsersParamsAdminLevel", SlurmdbV0043GetUsersParamsAdminLevelValues);
   ("SlurmdbV0043PostUsersAssociationParamsFlags", SlurmdbV0043PostUsersAssociationParamsFlagsValues)].

(** ** Types *)

Lemma generated_distinct : forallb (λ x, distinct x.2) generated_types = true.
Proof. by vm_compute. Qed.

Lemma generated_type_distinct name t : (name, t) ∈ generated_types → distinct t = true.
Proof.
  intros H. pose proof generated_distinct as Hd. rewrite forallb_forall in Hd. apply (Hd (name, t)). by apply list_elem_of_In.
Qed.

(** Decoding the generated types. For every type of the generated file and
    every document: [json.Unmarshal] is the decoder that treats each field by
    itself; a value it returns has the type; and when the type is a struct and
    the document an object, each field holds what the members that carry its
    name, up to case, decode to one over the other, zero when there is none, so
    that no member reaches two fields and no field depends on another's. *)
Theorem generated_types_decode name t doc : (name, t) ∈ generated_types →
  unmarshal t doc = (v ← parse_document doc; let '(x, ok) := decode_ref t v (zero t) in if ok then Some x else None) ∧
  ∀ x, unmarshal t doc = Some x → has_type t x = true ∧
    ∀ fs ms n t', t = TStruct fs → parse_document doc = Some (JObj ms) → (n, t') ∈ fs →
      field n x = Some (decode_seq (decode_into t') (addressed n ms) (zero t')).1.
Proof.
  intros Hd%generated_type_distinct. split; [by apply unmarshal_ref|]. intros x Hx. split; [by apply (unmarshal_typed _ doc)|].
  intros fs ms n t' -> Hp Hin. by apply (unmarshal_field fs doc ms x n t').
Qed.

(** The second member overwrites the first, another type's member is ignored. *)
Lemma generated_types_decode_witness :
  let doc := sq "{'description':'a','DESCRIPTION':'b','other':1}" in
  ∃ x, unmarshal V0043OpenapiWarning doc = Some x ∧ has_type V0043OpenapiWarning x = true ∧
    opt_string "description" x = Some "b" ∧ opt_string "source" x = None.
Proof.
  assert (∃ x, unmarshal V0043OpenapiWarning (sq "{'description':'a','DESCRIPTION':'b','other':1}") = Some x ∧
    opt_string "description" x = Some "b" ∧ opt_string "source" x = None) as (x & Hx & H1 & H2).
  { eexists. split; [by vm_compute|]. by split. }
  exists x. split; [exact Hx|]. split; [|by split].
  refine (proj1 (proj2 (generated_types_decode "V0043OpenapiWarning" V0043OpenapiWarning _ _) x Hx)).
  by apply (list_elem_of_lookup_2 _ 120).
Defined.

(** ** Constants *)

(** The constants of a type have distinct names and distinct values. *)
Lemma generated_constants_distinct :
  Forall (λ c, NoDup (map fst c.2) ∧ NoDup (map snd c.2)) generated_constants.
Proof. apply (bool_decide_unpack _); by vm_compute. Qed.

(** The primary states of a node are generated constants. *)
Lemma primary_states_generated state : is_primary state = true → state ∈ map snd V0043NodeStateValues.
Proof.
  unfold is_primary. intros (x & Hx%list_elem_of_In & ->%streq_true)%existsb_exists. revert x Hx.
  apply (proj1 (Forall_forall (λ x, x ∈ map snd V0043NodeStateValues) primary_states)).
  apply (bool_decide_unpack _). by vm_compute.
Qed.

(** Of the levels Slurm may report, the authorizer takes one for an
    administrator's; a user whose level is not set, or not given, has none. *)
Theorem admin_levels : map (λ c, normalizeAdminLevel c.2) V0043UserAdministratorLevelValues =
  [Ok "admin"; Ok "none"; Err (ErrUnknownAdminLevel "Not Set"); Ok "operator"] ∧
  normalizeAdminLevel "" = Err (ErrUnknownAdminLevel "").
Proof. by vm_compute. Qed.
