(* ===== verification/Documents.v ===== *)
(** * Documents: what Slurm reports and what the daemon makes of it

    The two documents the daemon reads, those of [scontrol show nodes --json] and
    [sacctmgr --json show user], described by what they say and not by how they
    are decoded; and that the generated types of OpenApi.v, the adapter of
    NodeSource.v and the lookup of Sacctmgr.v bring exactly this to the cache and
    to the authorizer. *)
From S2P Require Import Prelude Utf8 Json JsonValidation Schema SchemaFacts OpenApi NodeCache NodeSource Connection Authorization Sacctmgr.
Open Scope Z_scope.

(** ** What a value says *)

Definition a_string (s : string) (j : json) : Prop := j = JStr s.
Definition a_bool (b : bool) (j : json) : Prop := j = JBool b.
Definition a_number (bits z : Z) (j : json) : Prop := ∃ lit, j = JNum lit ∧ parse_int lit = Some z ∧ fits bits z = true.
Definition an_object {A} (f : A → list member → Prop) (a : A) (j : json) : Prop := ∃ ms, j = JObj ms ∧ f a ms.
Definition a_list {A} (f : A → json → Prop) (l : list A) (j : json) : Prop := ∃ js, j = JArr js ∧ Forall2 f l js.

(** An optional member: the one value it has, or nothing, or null. *)
Definition optional {A} (f : A → json → Prop) (v : option A) (ws : list json) : Prop :=
  match v with Some a => ∃ j, ws = [j] ∧ f a j | None => ws = [] ∨ ws = [JNull] end.

Definition struct_fields (t : gotype) : list (string * gotype) := match t with TStruct fs => fs | _ => [] end.

(** ** How it decodes *)

(** [f] describes values that decode into [t], to what [R] says. *)
Definition decodes {A} (t : gotype) (f : A → json → Prop) (R : A → goval → Prop) : Prop :=
  ∀ a j, f a j → j ≠ JNull ∧ ∃ x, decode_into t j (zero t) = (x, true) ∧ R a x.

Lemma decode_one dec w x : decode_seq dec [w] x = dec w x.
Proof. unfold decode_seq. cbn. by destruct (dec w x). Qed.

Lemma decode_ptr t j : j ≠ JNull →
  decode_into (TPtr t) j (zero (TPtr t)) = map_decoded (VPtr ∘ Some) (decode_into t j (zero t)).
Proof. by destruct j. Qed.

Lemma decode_optional {A} t f (R : A → goval → Prop) v ws : decodes t f R → optional f v ws →
  ∃ x, decode_seq (decode_into (TPtr t)) ws (zero (TPtr t)) = (VPtr x, true) ∧ option_Forall2 R v x.
Proof.
  intros Hd. destruct v as [a|]; cbn [optional].
  - intros (j & -> & (Hj & x & Hx & HR)%Hd). exists (Some x). rewrite decode_one, decode_ptr, Hx by done.
    split; [done|by constructor].
  - intros [-> | ->]; exists None; (split; [|constructor]); [done|]. rewrite decode_one. reflexivity.
Qed.

Lemma decodes_string : decodes TString a_string (λ s x, x = VString s).
Proof. intros s j Hj. unfold a_string in Hj. subst j. split; [done|]. by exists (VString s). Qed.
Lemma decodes_bool : decodes TBool a_bool (λ b x, x = VBool b).
Proof. intros b j Hj. unfold a_bool in Hj. subst j. split; [done|]. by exists (VBool b). Qed.
Lemma decodes_number bits : decodes (TInt bits) (a_number bits) (λ z x, x = VInt z).
Proof. intros z j (lit & -> & Hp & Hf). split; [done|]. exists (VInt z). unfold decode_into. by rewrite Hp, Hf. Qed.

Lemma decode_elems_Forall2 {A} t f (R : A → goval → Prop) l js : decodes t f R → Forall2 f l js →
  ∃ xs, decode_elems (decode_into t) (zero t) js [] = (xs, true) ∧ Forall2 R l xs.
Proof.
  intros Hd. induction 1 as [|a j l js (_ & x & Hx & HR)%Hd _ (xs & Hxs & IH)]; [by exists []|].
  exists (x :: xs). cbn. rewrite Hx, Hxs. split; [done|by constructor].
Qed.

Definition slice_is {A} (R : A → goval → Prop) (l : list A) (x : goval) : Prop :=
  ∃ xs, x = VSlice (length xs) xs ∧ Forall2 R l xs.
Lemma decodes_list {A} t f (R : A → goval → Prop) : decodes t f R → decodes (TSlice t) (a_list f) (slice_is R).
Proof.
  intros Hd l j (js & -> & Hl). split; [done|].
  destruct (decode_elems_Forall2 t f R l js Hd Hl) as (xs & Hxs & HR).
  assert (length xs = length js) as Hlen by (apply Forall2_length in Hl, HR; congruence).
  exists (VSlice (length xs) xs). split; [|by exists xs]. destruct js as [|j js]; [by destruct xs|].
  unfold decode_into. fold decode_into. cbn [zero]. rewrite Hxs. cbn. by rewrite Hlen.
Qed.

(** An object, of which the fields [read] are described. *)
Lemma decodes_struct {A} t read (f : A → list member → Prop) (R : A → goval → Prop) :
  distinct (TStruct (struct_fields t)) = true → t = TStruct (struct_fields t) →
  (∀ p, p ∈ read → p ∈ struct_fields t) →
  (∀ a ms, f a ms → unread (struct_fields t) (map fst read) ms ∧
     (∀ n t', (n, t') ∈ read → (decode_seq (decode_into t') (addressed n ms) (zero t')).2 = true) ∧
     ∀ x, (∀ n t', (n, t') ∈ read → field n x = Some (decode_seq (decode_into t') (addressed n ms) (zero t')).1) → R a x) →
  decodes t (an_object f) R.
Proof.
  intros Hd Ht Hsub Hf a j (ms & -> & (Hu & Hok & HR)%Hf). split; [done|]. rewrite Ht.
  destruct (decode_struct _ read ms Hd Hsub Hok Hu) as (x & Hx & Hfield). exists x. split; [done|by apply HR].
Qed.

(** Fields of a struct, by what they hold. *)
Lemma field_string n x v : field n x = Some (VPtr v) → ∀ s, option_Forall2 (λ s x, x = VString s) s v → opt_string n x = s.
Proof. intros Hf s Hs. unfold opt_string, deref. rewrite Hf. by destruct Hs as [a y ->|]. Qed.
Lemma field_int n x v : field n x = Some (VPtr v) → ∀ z, option_Forall2 (λ z x, x = VInt z) z v → opt_int n x = z.
Proof. intros Hf s Hs. unfold opt_int, deref. rewrite Hf. by destruct Hs as [a y ->|]. Qed.
Lemma field_slice {A} (R : A → goval → Prop) n x v : field n x = Some (VPtr v) →
  ∀ l, option_Forall2 (slice_is R) l v → option_Forall2 (Forall2 R) l (opt_slice n x).
Proof.
  intros Hf l Hl. unfold opt_slice, deref. rewrite Hf. destruct Hl as [a y (xs & -> & HR)|]; [|constructor].
  cbn. rewrite firstn_all. by constructor.
Qed.
Lemma strings_Forall2 l xs : Forall2 (λ s x, x = VString s) l xs → strings_of xs = l.
Proof. induction 1 as [|s x l xs -> _ IH]; [done|]. change (strings_of (VString s :: xs)) with (s :: strings_of xs). by rewrite IH. Qed.

(** ** The nodes *)

(** What Slurm says of a node, as far as the daemon reads it. *)
Record node_report : Type := mkNodeReport {
  rp_name : option string;
  rp_hostname : option string;
  rp_address : option string;
  rp_reason : option string;
  rp_state : option (list string);
  rp_cpu_load : option Z;
  rp_real_memory : option Z;
  rp_alloc_memory : option Z;
  rp_free_mem : option (option Z * option bool);
}.

Definition read_of_number : list (string * gotype) := [("number", TPtr (TInt 64)); ("set", TPtr TBool)].
Definition says_number (p : option Z * option bool) (ms : list member) : Prop :=
  optional (a_number 64) p.1 (addressed "number" ms) ∧ optional a_bool p.2 (addressed "set" ms) ∧
  unread (struct_fields V0043Uint64NoValStruct) ["number"; "set"] ms.

Definition read_of_node : list (string * gotype) :=
  [("name", TPtr TString); ("hostname", TPtr TString); ("address", TPtr TString); ("reason", TPtr TString);
   ("state", TPtr (TSlice TString)); ("cpu_load", TPtr (TInt 32)); ("real_memory", TPtr (TInt 64));
   ("alloc_memory", TPtr (TInt 64)); ("free_mem", TPtr V0043Uint64NoValStruct)].
Definition says_node (r : node_report) (ms : list member) : Prop :=
  optional a_string (rp_name r) (addressed "name" ms) ∧
  optional a_string (rp_hostname r) (addressed "hostname" ms) ∧
  optional a_string (rp_address r) (addressed "address" ms) ∧
  optional a_string (rp_reason r) (addressed "reason" ms) ∧
  optional (a_list a_string) (rp_state r) (addressed "state" ms) ∧
  optional (a_number 32) (rp_cpu_load r) (addressed "cpu_load" ms) ∧
  optional (a_number 64) (rp_real_memory r) (addressed "real_memory" ms) ∧
  optional (a_number 64) (rp_alloc_memory r) (addressed "alloc_memory" ms) ∧
  optional (an_object says_number) (rp_free_mem r) (addressed "free_mem" ms) ∧
  unread (struct_fields V0043Node)
    ["name"; "hostname"; "address"; "reason"; "state"; "cpu_load"; "real_memory"; "alloc_memory"; "free_mem"] ms.

(** The first of these that is not empty. *)
Definition first_name (names : list (option string)) : string :=
  default "" (head (List.filter (λ s, negb (streq s "")) (omap id names))).
(** The node the daemon makes of it at the time [now]. *)
Definition node_of (now : Z * Z) (r : node_report) : Node :=
  let name := default (first_name [rp_name r; rp_hostname r; rp_address r]) (rp_name r) in
  mkNode (mkMetadata name "Node" 0 now "cockpit-slurm")
    (NodeCache.mkSpec name (default "" (rp_address r)) (default "" (rp_hostname r)) (default 0 (rp_cpu_load r))
       (default 0 (rp_real_memory r)) (default 0 (rp_alloc_memory r))
       match rp_free_mem r with Some (Some k, Some true) => k | _ => 0 end)
    (mkStatus (default "" (summarizeNodeState <$> rp_state r))
       (List.filter (λ s, negb (is_primary s)) (default [] (rp_state r))) (default "" (rp_reason r))).

Ltac in_fields := apply Forall_forall; repeat (apply Forall_cons; split); [..|by apply Forall_nil];
  repeat first [apply list_elem_of_here|apply list_elem_of_further].

Definition is_number (p : option Z * option bool) (x : goval) : Prop :=
  opt_int "number" x = p.1 ∧ as_bool (deref (field "set" x)) = p.2.
Lemma decodes_free_mem : decodes V0043Uint64NoValStruct (an_object says_number) is_number.
Proof.
  apply (decodes_struct _ read_of_number); [by vm_compute|done|in_fields|]. intros p ms (H1 & H2 & Hu).
  split; [exact Hu|].
  destruct (decode_optional _ _ _ _ _ (decodes_number 64) H1) as (x1 & E1 & R1).
  destruct (decode_optional _ _ _ _ _ decodes_bool H2) as (x2 & E2 & R2). split.
  - intros n t. unfold read_of_number. rewrite !elem_of_cons, elem_of_nil.
    intros [[= -> ->]|[[= -> ->]|[]]]; by rewrite ?E1, ?E2.
  - intros x Hx. split.
    + apply (field_int _ _ x1); [|done]. rewrite (Hx "number" (TPtr (TInt 64))), E1 by (by left). done.
    + unfold deref. rewrite (Hx "set" (TPtr TBool)), E2 by (right; by left). cbn. by destruct R2 as [b y ->|].
Qed.

Definition is_node (r : node_report) (x : goval) : Prop := ∀ now, MapSlurmNode now x = node_of now r.

Lemma nodeNameFromGenerated_first x :
  nodeNameFromGenerated x = first_name [opt_string "name" x; opt_string "hostname" x; opt_string "address" x].
Proof.
  unfold nodeNameFromGenerated, first_name. cbn [omap list_omap id].
  destruct (opt_string "name" x) as [a|], (opt_string "hostname" x) as [b|], (opt_string "address" x) as [c|];
    cbn -[streq]; repeat match goal with |- context [streq ?s ""] => destruct (streq s ""); cbn -[streq] end; done.
Qed.

Lemma field_strings n x v : field n x = Some (VPtr v) → ∀ l, option_Forall2 (slice_is (λ s x, x = VString s)) l v →
  strings_of <$> opt_slice n x = l.
Proof.
  intros Hf l Hl. pose proof (field_slice _ n x v Hf l Hl) as H. destruct H as [l' xs H|]; [|done].
  cbn. by rewrite (strings_Forall2 l' xs H).
Qed.

(** What is reported is what the mapping reads. *)
Lemma read_node r x : opt_string "name" x = rp_name r → opt_string "hostname" x = rp_hostname r →
  opt_string "address" x = rp_address r → opt_string "reason" x = rp_reason r →
  strings_of <$> opt_slice "state" x = rp_state r → opt_int "cpu_load" x = rp_cpu_load r →
  opt_int "real_memory" x = rp_real_memory r → opt_int "alloc_memory" x = rp_alloc_memory r →
  option_Forall2 is_number (rp_free_mem r) (deref (field "free_mem" x)) → is_node r x.
Proof.
  intros H1 H2 H3 H4 H5 H6 H7 H8 H9 now. unfold MapSlurmNode, node_of, NewNode.
  rewrite nodeNameFromGenerated_first, H1, H2, H3, H4, H5, H6, H7, H8.
  assert (default 0 (free_memory x) = match rp_free_mem r with Some (Some k, Some true) => k | _ => 0 end) as Hfree.
  { unfold free_memory. destruct H9 as [[k b] y [Hk Hb]|]; [|done]. cbn [mbind option_bind fst snd] in *. rewrite Hk, Hb.
    by destruct k, b as [[]|]. }
  cbn -[free_memory first_name]. rewrite Hfree. f_equal. by destruct (rp_state r) as [[|s l]|].
Qed.

Lemma decodes_node : decodes V0043Node (an_object says_node) is_node.
Proof.
  apply (decodes_struct _ read_of_node); [by vm_compute|done|in_fields|].
  intros r ms (H1 & H2 & H3 & H4 & H5 & H6 & H7 & H8 & H9 & Hu). split; [exact Hu|].
  destruct (decode_optional _ _ _ _ _ decodes_string H1) as (x1 & E1 & R1).
  destruct (decode_optional _ _ _ _ _ decodes_string H2) as (x2 & E2 & R2).
  destruct (decode_optional _ _ _ _ _ decodes_string H3) as (x3 & E3 & R3).
  destruct (decode_optional _ _ _ _ _ decodes_string H4) as (x4 & E4 & R4).
  destruct (decode_optional _ _ _ _ _ (decodes_list _ _ _ decodes_string) H5) as (x5 & E5 & R5).
  destruct (decode_optional _ _ _ _ _ (decodes_number 32) H6) as (x6 & E6 & R6).
  destruct (decode_optional _ _ _ _ _ (decodes_number 64) H7) as (x7 & E7 & R7).
  destruct (decode_optional _ _ _ _ _ (decodes_number 64) H8) as (x8 & E8 & R8).
  destruct (decode_optional _ _ _ _ _ decodes_free_mem H9) as (x9 & E9 & R9).
  assert (Forall (λ f, ∃ x, decode_seq (decode_into f.2) (addressed f.1 ms) (zero f.2) = (VPtr x, true)) read_of_node) as Hall
    by (repeat (apply Forall_cons; split); [by eexists..|by apply Forall_nil]).
  rewrite Forall_forall in Hall. split.
  - intros n t (x & Hx)%Hall. cbn [fst snd] in Hx. by rewrite Hx.
  - intros x Hx. assert (∀ n t v, (n, t) ∈ read_of_node → decode_seq (decode_into t) (addressed n ms) (zero t) = (VPtr v, true) →
      field n x = Some (VPtr v)) as Hf by (intros n t v Hin Hv; by rewrite (Hx n t Hin), Hv).
    apply read_node;
      [eapply field_string; [eapply Hf; [|exact E1]|exact R1]|eapply field_string; [eapply Hf; [|exact E2]|exact R2]
      |eapply field_string; [eapply Hf; [|exact E3]|exact R3]|eapply field_string; [eapply Hf; [|exact E4]|exact R4]
      |eapply field_strings; [eapply Hf; [|exact E5]|exact R5]|eapply field_int; [eapply Hf; [|exact E6]|exact R6]
      |eapply field_int; [eapply Hf; [|exact E7]|exact R7]|eapply field_int; [eapply Hf; [|exact E8]|exact R8]
      |rewrite (Hf "free_mem" _ x9 ltac:(repeat first [apply list_elem_of_here|apply list_elem_of_further]) E9); exact R9];
      repeat first [apply list_elem_of_here|apply list_elem_of_further].
Qed.

(** The document: one member [nodes], an array of nodes, and no errors. *)
Definition no_errors (top : list member) : Prop :=
  addressed "errors" top = [] ∨ addressed "errors" top = [JNull] ∨ addressed "errors" top = [JArr []].
Definition array_member (name : string) (top : list member) (js : list json) : Prop :=
  addressed name top = [JArr js] ∧ ∃ raw, shape_lookup name top = Some raw ∧ starts_array (trim_space raw) = true.
Definition nodes_document (rs : list node_report) (doc : string) : Prop :=
  ∃ top js, parse_document doc = Some (JObj top) ∧ array_member "nodes" top js ∧
    Forall2 (an_object says_node) rs js ∧ no_errors top ∧
    unread (struct_fields V0043OpenapiNodesResp) ["errors"; "nodes"] top.

Lemma shape_parsed doc top : parse_document doc = Some (JObj top) → unmarshal_shape doc = Some top.
Proof. unfold unmarshal_shape. generalize (parse_document doc). by intros ? ->. Qed.

(** A response: its array and its errors. *)
Lemma decode_response {A} t name elem (f : A → json → Prop) (R : A → goval → Prop) rs top js :
  t = TStruct (struct_fields t) → distinct t = true →
  (name, TSlice elem) ∈ struct_fields t → ("errors", TPtr V0043OpenapiErrors) ∈ struct_fields t → decodes elem f R →
  addressed name top = [JArr js] → Forall2 f rs js → no_errors top → unread (struct_fields t) ["errors"; name] top →
  ∃ resp, decode_into t (JObj top) (zero t) = (resp, true) ∧
    match opt_slice "errors" resp with Some (_ :: _) => false | _ => true end = true ∧ Forall2 R rs (slice_field name resp).
Proof.
  intros Ht Hd Hin Hine Hdec Hn Hrs Herr Hu. rewrite Ht in Hd |- *.
  destruct (decodes_list elem f R Hdec rs (JArr js) ltac:(by exists js)) as (_ & x & Hx & xs & -> & HR).
  assert (∃ v, decode_seq (decode_into (TPtr V0043OpenapiErrors)) (addressed "errors" top) (zero (TPtr V0043OpenapiErrors))
    = (VPtr v, true) ∧ (v = None ∨ v = Some (VSlice 0 []))) as (v & He & Hv).
  { destruct Herr as [-> |[-> | ->]]; rewrite ?decode_one; eexists; (split; [reflexivity|auto]). }
  destruct (decode_struct (struct_fields t) [("errors", TPtr V0043OpenapiErrors); (name, TSlice elem)] top Hd) as (resp & Hr & Hf).
  - intros p [->|[->|[]%elem_of_nil]%elem_of_cons]%elem_of_cons; done.
  - intros n t'. rewrite !elem_of_cons, elem_of_nil. intros [[= -> ->]|[[= -> ->]|[]]]; [by rewrite He|].
    by rewrite Hn, decode_one, Hx.
  - exact Hu.
  - exists resp. split; [exact Hr|]. split.
    + unfold opt_slice, deref. rewrite (Hf "errors" (TPtr V0043OpenapiErrors)), He by (by left). by destruct Hv as [-> | ->].
    + unfold slice_field. rewrite (Hf name (TSlice elem)), Hn, decode_one, Hx by (right; by left).
      cbn. by rewrite firstn_all.
Qed.

Lemma unmarshal_decoded t doc v x : parse_document doc = Some v → decode_into t v (zero t) = (x, true) → unmarshal t doc = Some x.
Proof. intros Hp Hd. rewrite unmarshal_parsed, Hp. by rewrite Hd. Qed.

Lemma listing_of rs doc exec now : nodes_document rs doc → exec scontrol_command = Ok doc →
  ListNodes exec now = Ok (imap (λ k r, node_of (now k) r) rs).
Proof.
  intros (top & js & Hp & [Hn (raw & Hraw & Harr)] & Hrs & Herr & Hu) Hexec.
  destruct (decode_response V0043OpenapiNodesResp "nodes" V0043Node (an_object says_node) is_node rs top js) as (resp & Hd & He & HR);
    [done|by vm_compute|repeat first [apply list_elem_of_here|apply list_elem_of_further]..
    |apply decodes_node|done|done|done|done|].
  unfold ListNodes. rewrite Hexec, (shape_parsed doc top Hp), Hraw, Harr. cbn [guard_err mbind result_bind].
  rewrite (unmarshal_decoded _ _ _ _ Hp Hd), He. cbn [guard_err mbind result_bind]. f_equal.
  clear -HR. revert now. induction HR as [|r x rs xs Hx _ IH]; intros now; [done|].
  rewrite !imap_cons. f_equal; [apply Hx|]. apply (IH (now ∘ S)).
Qed.

(** ** The users *)

(** What Slurm says of a user: the levels, the account of each association, and
    the accounts it coordinates. *)
Record user_report : Type := mkUserReport {
  ur_name : string;
  ur_levels : option (list string);
  ur_accounts : option (list (option string));
  ur_coordinators : option (list string);
}.

Definition says_assoc (account : option string) (ms : list member) : Prop :=
  optional a_string account (addressed "account" ms) ∧ unread (struct_fields V0043AssocShort) ["account"] ms.
Definition says_coord (name : string) (ms : list member) : Prop :=
  addressed "name" ms = [JStr name] ∧ unread (struct_fields V0043Coord) ["name"] ms.
Definition says_user (r : user_report) (ms : list member) : Prop :=
  addressed "name" ms = [JStr (ur_name r)] ∧
  optional (a_list a_string) (ur_levels r) (addressed "administrator_level" ms) ∧
  optional (a_list (an_object says_assoc)) (ur_accounts r) (addressed "associations" ms) ∧
  optional (a_list (an_object says_coord)) (ur_coordinators r) (addressed "coordinators" ms) ∧
  unread (struct_fields V0043User) ["name"; "administrator_level"; "associations"; "coordinators"] ms.
Definition users_document (rs : list user_report) (doc : string) : Prop :=
  ∃ top js, parse_document doc = Some (JObj top) ∧ array_member "users" top js ∧
    Forall2 (an_object says_user) rs js ∧ no_errors top ∧
    unread (struct_fields V0043OpenapiUsersResp) ["errors"; "users"] top.

(** The record of a user that the lookup makes of it. *)
Definition user_of (r : user_report) (su : SlurmUser) : Prop :=
  su_Username su = ur_name r ∧
  su_AdminLevel su = match ur_levels r with Some [level] => level | _ => "" end ∧
  increasing (su_Accounts su) ∧ (∀ a, a ∈ su_Accounts su ↔ a ≠ "" ∧ Some a ∈ default [] (ur_accounts r)) ∧
  increasing (su_CoordinatorAccounts su) ∧
  (∀ a, a ∈ su_CoordinatorAccounts su ↔ a ≠ "" ∧ a ∈ default [] (ur_coordinators r)).
Definition many_levels (r : user_report) : Prop := ∃ l1 l2 ls, ur_levels r = Some (l1 :: l2 :: ls).

Lemma decodes_assoc : decodes V0043AssocShort (an_object says_assoc) (λ a x, opt_string "account" x = a).
Proof.
  apply (decodes_struct _ [("account", TPtr TString)]); [by vm_compute|done|in_fields|]. intros a ms (H1 & Hu).
  split; [exact Hu|]. destruct (decode_optional _ _ _ _ _ decodes_string H1) as (x1 & E1 & R1). split.
  - intros n t [= -> ->]%list_elem_of_singleton. by rewrite E1.
  - intros x Hx. apply (field_string _ _ x1); [|done]. by rewrite (Hx "account" (TPtr TString)), E1 by (by left).
Qed.

Lemma decode_string_field s ws : ws = [JStr s] → decode_seq (decode_into TString) ws (zero TString) = (VString s, true).
Proof. intros ->. by rewrite decode_one. Qed.

Lemma decodes_coord : decodes V0043Coord (an_object says_coord) (λ c x, string_field "name" x = c).
Proof.
  apply (decodes_struct _ [("name", TString)]); [by vm_compute|done|in_fields|]. intros c ms (H1 & Hu).
  split; [exact Hu|]. apply decode_string_field in H1. split.
  - intros n t [= -> ->]%list_elem_of_singleton. by rewrite H1.
  - intros x Hx. unfold string_field. by rewrite (Hx "name" TString), H1 by (by left).
Qed.

Definition is_user (r : user_report) (x : goval) : Prop :=
  string_field "name" x = ur_name r ∧ strings_of <$> opt_slice "administrator_level" x = ur_levels r ∧
  Forall2 (λ a y, opt_string "account" y = a) (default [] (ur_accounts r)) (default [] (opt_slice "associations" x)) ∧
  Forall2 (λ c y, string_field "name" y = c) (default [] (ur_coordinators r)) (default [] (opt_slice "coordinators" x)).

Lemma default_Forall2 {A B} (R : A → B → Prop) l v : option_Forall2 (Forall2 R) l v → Forall2 R (default [] l) (default [] v).
Proof. by intros []. Qed.

Lemma decodes_user : decodes V0043User (an_object says_user) is_user.
Proof.
  apply (decodes_struct _ [("name", TString); ("administrator_level", TPtr (TSlice TString));
    ("associations", TPtr (TSlice V0043AssocShort)); ("coordinators", TPtr (TSlice V0043Coord))]);
    [by vm_compute|done|in_fields|].
  intros r ms (H1 & H2 & H3 & H4 & Hu). split; [exact Hu|]. apply decode_string_field in H1.
  destruct (decode_optional _ _ _ _ _ (decodes_list _ _ _ decodes_string) H2) as (x2 & E2 & R2).
  destruct (decode_optional _ _ _ _ _ (decodes_list _ _ _ decodes_assoc) H3) as (x3 & E3 & R3).
  destruct (decode_optional _ _ _ _ _ (decodes_list _ _ _ decodes_coord) H4) as (x4 & E4 & R4). split.
  - intros n t. rewrite !elem_of_cons, elem_of_nil. intros [[= -> ->]|[[= -> ->]|[[= -> ->]|[[= -> ->]|[]]]]];
      by rewrite ?H1, ?E2, ?E3, ?E4.
  - intros x Hx. split_and!.
    + unfold string_field. by rewrite (Hx "name" TString), H1 by (by left).
    + eapply field_strings; [|exact R2]. rewrite (Hx "administrator_level" (TPtr (TSlice TString))), E2; [done|by right; left].
    + eapply default_Forall2, field_slice; [|exact R3].
      rewrite (Hx "associations" (TPtr (TSlice V0043AssocShort))), E3; [done|by right; right; left].
    + eapply default_Forall2, field_slice; [|exact R4].
      rewrite (Hx "coordinators" (TPtr (TSlice V0043Coord))), E4; [done|by right; right; right; left].
Qed.

Lemma Forall2_reads {A} (f : goval → A) l xs a : Forall2 (λ a y, f y = a) l xs → (∃ v, v ∈ xs ∧ f v = a) ↔ a ∈ l.
Proof.
  intros H. assert (map f xs = l) as <- by (by induction H as [|b y l xs <- _ IH]; cbn; rewrite ?IH).
  rewrite list_elem_of_fmap. naive_solver.
Qed.

Lemma record_of_user r x : is_user r x → ¬ many_levels r → ∃ su, user_record x = Ok su ∧ user_of r su.
Proof.
  intros (Hn & Hl & Ha & Hc) Hm. assert (∃ su, user_record x = Ok su ∧
    su_AdminLevel su = match ur_levels r with Some [level] => level | _ => "" end) as (su & Hsu & Hlevel).
  { unfold user_record. rewrite Hl. destruct (ur_levels r) as [[|l1 [|l2 ls]]|] eqn:He; try (eexists; split; [reflexivity|done]).
    destruct Hm. by exists l1, l2, ls. }
  exists su. split; [done|]. destruct (user_record_spec x su Hsu) as (H1 & _ & H3 & H4 & H5 & H6).
  split_and!; [congruence|done|done| |done|].
  - intros a. by rewrite H4, (Forall2_reads (opt_string "account") _ _ (Some a) Ha).
  - intros a. by rewrite H6, (Forall2_reads (string_field "name") _ _ a Hc).
Qed.

Lemma many_levels_fail r x : is_user r x → many_levels r → user_record x = Err MultipleAdminLevels.
Proof. intros (_ & Hl & _) (l1 & l2 & ls & Hr). unfold user_record. by rewrite Hl, Hr. Qed.

(** The lookup of a user, over the users the document reports. *)
Definition lookup_answer (rs : list user_report) (username : string) (answer : result lookup_error (option SlurmUser)) : Prop :=
  match rs with
  | [] => answer = Ok None
  | [r] =>
      (ur_name r ≠ username → answer = Err UnexpectedUserRecord) ∧
      (ur_name r = username → many_levels r → answer = Err MultipleAdminLevels) ∧
      (ur_name r = username → ¬ many_levels r → ∃ su, answer = Ok (Some su) ∧ user_of r su)
  | _ => answer = Err UnexpectedUserRecord
  end.

Lemma parse_users rs doc username : users_document rs doc → lookup_answer rs username (parseSacctmgrUser doc username).
Proof.
  intros (top & js & Hp & [Hn (raw & Hraw & Harr)] & Hrs & Herr & Hu).
  destruct (decode_response V0043OpenapiUsersResp "users" V0043User (an_object says_user) is_user rs top js) as (resp & Hd & He & HR);
    [done|by vm_compute|repeat first [apply list_elem_of_here|apply list_elem_of_further]..
    |apply decodes_user|done|done|done|done|].
  unfold parseSacctmgrUser. rewrite (shape_parsed doc top Hp), Hraw, Harr, (unmarshal_decoded _ _ _ _ Hp Hd), He.
  cbn [guard_err mbind result_bind]. destruct HR as [|r x rs xs Hx [|r' x' rs' xs' _ _]]; [done| |done].
  cbn [lookup_answer]. pose proof (proj1 Hx) as Hname. rewrite Hname. split_and!.
  - intros Hne%streq_false. by rewrite Hne.
  - intros -> Hm. rewrite streq_refl. cbn [guard_err mbind result_bind]. by rewrite (many_levels_fail r x Hx Hm).
  - intros -> Hm. rewrite streq_refl. cbn [guard_err mbind result_bind].
    destruct (record_of_user r x Hx Hm) as (su & -> & Hsu). by exists su.
Qed.

(** C36. What Slurm reports arrives. For every document of [scontrol] that is an
    object with one array of nodes and no errors, in which each node says what it
    says in the members the daemon reads, in any order and case, with 64-bit
    memory sizes and 32-bit loads, absent or null members included, and whatever
    else it contains that has the generated types: the listing succeeds with
    exactly the nodes reported, in their order, every name, address, number,
    state and reason in its place. And for every such document of [sacctmgr]: the
    lookup finds no user, or the one user that was asked for with the level and
    with exactly the accounts and coordinated accounts reported, and refuses
    another user, several users and several levels. *)
Theorem reports_arrive :
  (∀ rs doc exec now, nodes_document rs doc → exec scontrol_command = Ok doc →
     ListNodes exec now = Ok (imap (λ k r, node_of (now k) r) rs)) ∧
  (∀ rs doc run username, users_document rs doc → validSlurmUsername username = true →
     run [sacctmgrPath; "--readonly"; "--json"; "show"; "user"; "where"; "name=" +:+ username; "withcoords"; "withassoc"] = Some doc →
     lookup_answer rs username (LookupUser (Some run) username)).
Proof.
  split; [intros rs doc exec now; apply listing_of|]. intros rs doc run username Hdoc Hv Hrun.
  unfold LookupUser. rewrite Hv, Hrun. by apply parse_users.
Qed.

(** ** Two documents *)

Lemma unread_check fs read ms :
  forallb (λ f, bool_decide (f.1 ∈ read) || (decode_seq (decode_into f.2) (addressed f.1 ms) (zero f.2)).2) fs = true →
  unread fs read ms.
Proof.
  rewrite forallb_forall. intros H n t Hin%list_elem_of_In%H Hn. cbn [fst snd] in Hin.
  by rewrite bool_decide_eq_false_2 in Hin by done.
Qed.

Definition example_nodes : string := sq
  "{'meta': {'command': ['show', 'nodes']}, 'last_update': {'set': true}, 'errors': [], 'nodes': [{'NAME': 'n1', 'cpus': 8, 'state': ['IDLE', 'DRAIN'], 'real_memory': 8589934592, 'free_mem': {'number': 4294967296, 'set': true, 'infinite': false}, 'reason': null}]}".
Definition example_report : node_report :=
  mkNodeReport (Some "n1") None None None (Some ["IDLE"; "DRAIN"]) None (Some 8589934592) None (Some (Some 4294967296, Some true)).
Definition example_users : string := sq
  "{'users': [{'name': 'alice', 'administrator_level': ['Administrator'], 'default': {'account': 'phys'}, 'associations': [{'account': 'phys', 'user': 'alice'}, {'user': 'alice'}], 'coordinators': [{'name': 'chem', 'direct': true}]}], 'errors': []}".
Definition example_user : user_report :=
  mkUserReport "alice" (Some ["Administrator"]) (Some [Some "phys"; None]) (Some ["chem"]).

Ltac parsed doc := let v := eval vm_compute in (parse_document doc) in
  match v with Some (JObj ?top) => exists top end.
Ltac array_of ms name := let v := eval vm_compute in (addressed name ms) in
  match v with [JArr ?js] => exists js end.
(** A member that is there, or not, or null. *)
Ltac value := hnf; first
  [left; vm_compute; reflexivity|right; vm_compute; reflexivity
  |match goal with |- ∃ j, ?ws = [j] ∧ _ => let v := eval vm_compute in ws in
     match v with [?w] => exists w; split; [vm_compute; reflexivity|] end end].
Ltac number := eexists; split; [reflexivity|by split; vm_compute].
Ltac rest := by apply unread_check; vm_compute.

Lemma example_nodes_document : nodes_document [example_report] example_nodes.
Proof.
  parsed example_nodes. match goal with |- context [array_member ?n ?top _] => array_of top n end.
  split; [vm_compute; reflexivity|].
  split; [split; [vm_compute; reflexivity|eexists; split; vm_compute; reflexivity]|].
  split; [|split; [right; right; vm_compute; reflexivity|rest]].
  constructor; [|constructor]. eexists. split; [reflexivity|].
  split; [value; reflexivity|]. split; [value|]. split; [value|]. split; [value|].
  split; [value; eexists; split; [reflexivity|by repeat constructor]|].
  split; [value|]. split; [value; number|]. split; [value|].
  split; [value; eexists; split; [reflexivity|split; [value; number|split; [value; reflexivity|rest]]]|rest].
Qed.

Lemma example_users_document : users_document [example_user] example_users.
Proof.
  parsed example_users. match goal with |- context [array_member ?n ?top _] => array_of top n end.
  split; [vm_compute; reflexivity|].
  split; [split; [vm_compute; reflexivity|eexists; split; vm_compute; reflexivity]|].
  split; [|split; [right; right; vm_compute; reflexivity|rest]].
  constructor; [|constructor]. eexists. split; [reflexivity|].
  split; [vm_compute; reflexivity|]. split; [value; eexists; split; [reflexivity|by repeat constructor]|].
  split; [value; eexists; split; [reflexivity|constructor; [|constructor; [|constructor]]]|].
  - eexists. split; [reflexivity|]. split; [value; reflexivity|rest].
  - eexists. split; [reflexivity|]. split; [value|rest].
  - split; [value; eexists; split; [reflexivity|constructor; [|constructor]]|rest].
    eexists. split; [reflexivity|]. split; [vm_compute; reflexivity|rest].
Qed.

Lemma reports_arrive_witness :
  (∀ now, ListNodes (λ _, Ok example_nodes) now = Ok [node_of (now 0%nat) example_report]) ∧
  (∃ su, LookupUser (Some (λ _, Some example_users)) "alice" = Ok (Some su) ∧ user_of example_user su) ∧
  LookupUser (Some (λ _, Some example_users)) "bob" = Err UnexpectedUserRecord.
Proof.
  split; [|split].
  - intros now. exact (proj1 reports_arrive [example_report] example_nodes (λ _, Ok example_nodes) now example_nodes_document eq_refl).
  - pose proof (proj2 reports_arrive [example_user] example_users (λ _, Some example_users) "alice" example_users_document
      ltac:(vm_compute; reflexivity) eq_refl) as (_ & _ & H).
    apply H; [reflexivity|]. intros (l1 & l2 & ls & [=]).
  - pose proof (proj2 reports_arrive [example_user] example_users (λ _, Some example_users) "bob" example_users_document
      ltac:(vm_compute; reflexivity) eq_refl) as (H & _). apply H. discriminate.
Defined.
