(* ===== verification/Stream.v ===== *)
(** * Stream: the change feed of every connection

    [internal/stream/node_registry.go] with the outbound queue of
    [internal/ipc/server.go] ([enqueue], [writeConnection]) it feeds: a stream is
    registered with an authoritative snapshot, every later commit publishes its
    batch to all streams, and a connection whose queue is full is closed. The
    registry is the publisher the synchronizer of NodeSource.v commits to. *)
From stdpp Require Import sorting.
From S2P Require Import Prelude Utf8 Json Message NodeCache NodeSource.
Open Scope Z_scope.

(** ** Payloads *)

(** A decimal integer; generations and memory sizes. *)
Definition print_int (z : Z) : string := pretty z.

Fixpoint join (sep : string) (l : list string) : string :=
  match l with [] => "" | [x] => x | x :: l' => x +:+ sep +:+ join sep l' end.
Definition print_array (l : list string) : string := "[" +:+ join "," l +:+ "]".

(** [time.Time.MarshalJSON] in UTC: RFC 3339 with the fraction of the second; a
    year outside [0, 9999] is an error. *)
Definition time_ok (t : Z * Z) : bool := in_range 0 9999 (civil (t.1 / 86400)).1.1.
Definition marshal_time (t : Z * Z) : option string :=
  if time_ok t then Some (quote (rfc3339nano t)) else None.

Definition int_field (k : string) (z : Z) : list (string * string) :=
  if z =? 0 then [] else [(k, print_int z)].
Definition string_omit (k v : string) : list (string * string) :=
  if streq v "" then [] else [(k, quote v)].

Definition marshal_metadata (m : NodeMetadata) : option string :=
  t ← marshal_time (m_ObservedAt m);
  Some (print_object [("name", quote (m_Name m)); ("kind", quote (m_Kind m));
    ("generation", print_int (m_Generation m)); ("observedAt", t); ("source", quote (m_Source m))]).
Definition marshal_spec (sp : NodeSpec) : string :=
  print_object ([("nodeName", quote (sp_NodeName sp))]
    ++ string_omit "address" (sp_Address sp) ++ string_omit "hostname" (sp_Hostname sp)
    ++ int_field "cpuLoad" (sp_CPULoad sp) ++ int_field "realMemory" (sp_RealMemory sp)
    ++ int_field "allocMemory" (sp_AllocMemory sp) ++ int_field "freeMemory" (sp_FreeMemory sp)).
Definition marshal_status (st : NodeStatus) : string :=
  print_object (string_omit "state" (st_State st)
    ++ match st_StateFlags st with [] => [] | l => [("stateFlags", print_array (map quote l))] end
    ++ string_omit "reason" (st_Reason st)).
Definition marshal_node (n : Node) : option string :=
  m ← marshal_metadata (n_Metadata n);
  Some (print_object [("metadata", m); ("spec", marshal_spec (n_Spec n)); ("status", marshal_status (n_Status n))]).

Definition kind_name (k : NodeChangeKind) : string :=
  match k with NodeAdded => "added" | NodeUpdated => "updated" | NodeRemoved => "removed" end.
Definition marshal_change (c : NodeChange) : option string :=
  n ← marshal_node (ch_Node c);
  Some (print_object [("kind", quote (kind_name (ch_Kind c))); ("node", n)]).

Definition marshal_snapshot (s : Snapshot) : option string :=
  l ← mapM marshal_node (s_Nodes s);
  Some (print_object [("resource", quote "node"); ("event", quote "snapshot");
    ("generation", print_int (s_Generation s)); ("nodes", print_array l)]).
Definition marshal_batch (b : NodeChangeBatch) : option string :=
  l ← mapM marshal_change (b_Changes b);
  Some (print_object [("resource", quote (b_Resource b)); ("event", quote (b_Event b));
    ("generation", print_int (b_Generation b)); ("changes", print_array l)]).

(** ** Connections and streams *)

Inductive stream_state : Type := NoStream | StreamOpen | StreamClosed.
#[export] Instance stream_state_eq_dec : EqDecision stream_state.
Proof. solve_decision. Defined.

(** A connection: whether its context is cancelled, its stream, the messages
    waiting for the writer, those the writer has sent, and whether the writer
    goroutine still runs. *)
Record conn : Type := mkConn {
  c_ctx : bool;
  c_stream : stream_state;
  c_queue : list Envelope;
  c_sent : list Envelope;
  c_writing : bool;
}.
Definition new_conn : conn := mkConn false NoStream [] [] true.
Definition cancel (c : conn) : conn := mkConn true (c_stream c) (c_queue c) (c_sent c) (c_writing c).
Definition set_stream (s : stream_state) (c : conn) : conn :=
  mkConn (c_ctx c) s (c_queue c) (c_sent c) (c_writing c).
Definition push (m : Envelope) (c : conn) : conn :=
  mkConn (c_ctx c) (c_stream c) (c_queue c ++ [m]) (c_sent c) (c_writing c).

(** The registry; [conns] are the connections its streams belong to, by number. *)
Record registry : Type := mkRegistry {
  queueSize : nat;
  streams : gset nat;
  messageSeq : Z;
  conns : gmap nat conn;
}.
Definition set_conns (f : gmap nat conn → gmap nat conn) (r : registry) : registry :=
  mkRegistry (queueSize r) (streams r) (messageSeq r) (f (conns r)).
Definition set_streams (f : gset nat → gset nat) (r : registry) : registry :=
  mkRegistry (queueSize r) (f (streams r)) (messageSeq r) (conns r).

Definition DefaultNodeStreamQueueSize : nat := 32.
Definition NewNodeStreamRegistry (cache : bool) (size : Z) : result string registry :=
  guard_err cache "node cache is required";;
  guard_err (0 <? size) "node stream queue size must be positive";;
  Ok (mkRegistry (Z.to_nat size) ∅ 0 ∅).

(** [enqueue] of [serveConnection]: when the context is cancelled and there is
    room, Go's [select] may take either case; [pick] says whether it gives up. *)
Definition server_enqueue (size : nat) (pick : bool) (m : Envelope) (c : conn) : bool * conn :=
  let room := (length (c_queue c) <? size)%nat in
  if c_ctx c && (pick || negb room) then (false, c)
  else if room then (true, push m c)
  else (false, c).

(** [NodeStream.enqueue]: nothing is enqueued once the stream is closed. *)
Definition stream_enqueue (size : nat) (pick : bool) (m : Envelope) (c : conn) : bool * conn :=
  match c_stream c with
  | StreamOpen => server_enqueue size pick m c
  | _ => (false, c)
  end.

Definition Unregister (id : nat) (r : registry) : registry := set_streams (.∖ {[id]}) r.

(** [NodeStream.Close] and [NodeStream.Unregister] share one [sync.Once]. *)
Definition once (id : nat) (f : conn → conn) (r : registry) : registry :=
  match conns r !! id with
  | Some c =>
      match c_stream c with
      | StreamOpen => Unregister id (set_conns <[id := f (set_stream StreamClosed c)]> r)
      | _ => r
      end
  | None => r
  end.
Definition stream_Close (id : nat) (r : registry) : registry := once id cancel r.
Definition stream_Unregister (id : nat) (r : registry) : registry := once id (λ c, c) r.

(** ** The registry *)

Definition nextMessageID (r : registry) : string * registry :=
  let n := uint64_wrap (messageSeq r + 1) in
  ("NODE-" +:+ fmt_0d 12 (Z.to_N n), mkRegistry (queueSize r) (streams r) n (conns r)).

Definition event_envelope (now : Z) (payload : option string) (r : registry) : option (Envelope * registry) :=
  p ← payload;
  let '(id, r') := nextMessageID r in
  Some (NewEnvelope now id MessageEvent p, r').
Definition snapshotEnvelope (now : Z) (s : Snapshot) (r : registry) : option (Envelope * registry) :=
  event_envelope now (marshal_snapshot s) r.
Definition eventEnvelope (now : Z) (b : NodeChangeBatch) (r : registry) : option (Envelope * registry) :=
  event_envelope now (marshal_batch b) r.

(** [Register], inside [WithSnapshotBoundary]: no commit can come between the
    snapshot and the registration. The result says whether there is a stream. *)
Definition Register (o : order) (now : Z) (id : nat) (pick : bool) (cache : NodeCache) (r : registry)
  : bool * registry :=
  match snapshotEnvelope now (cache_Snapshot o cache) r with
  | None => (false, set_conns (alter cancel id) r)
  | Some (env, r) =>
      match conns r !! id with
      | None => (false, r)
      | Some c =>
          let '(ok, c') := stream_enqueue (queueSize r) pick env (set_stream StreamOpen c) in
          let r := set_streams ({[id]} ∪.) (set_conns <[id := c']> r) in
          if (ok : bool) then (true, r) else (false, stream_Close id (Unregister id r))
      end
  end.

(** One turn of the loop of [Publish]. *)
Definition offer (pick : nat → bool) (env : Envelope) (st : registry * list nat) (id : nat) : registry * list nat :=
  let '(r, slow) := st in
  match conns r !! id with
  | None => (r, slow)
  | Some c =>
      let '(ok, c') := stream_enqueue (queueSize r) (pick id) env c in
      let r := set_conns <[id := c']> r in
      if (ok : bool) then (r, slow) else (Unregister id r, slow ++ [id])
  end.

(** [ids] is the order in which the loop visits the set of streams. *)
Definition Publish (now : Z) (ids : list nat) (pick : nat → bool) (b : NodeChangeBatch) (r : registry) : registry :=
  if negb (streq (b_Resource b) "node") || negb (streq (b_Event b) "changes")
     || (b_Generation b =? 0) || (length (b_Changes b) =? 0)%nat then r
  else
    match eventEnvelope now b r with
    | None => r
    | Some (env, r) =>
        let '(r, slow) := foldl (offer pick env) (r, []) ids in
        foldl (λ r id, stream_Close id r) r slow
    end.

Definition CloseAll (ids : list nat) (r : registry) : registry :=
  foldl (λ r id, stream_Close id r) (set_streams (λ _, ∅) r) ids.
Definition ActiveCount (r : registry) : nat := size (streams r).

(** [writeConnection]: the writer takes the oldest message and sends it; when a
    message cannot be written the connection is closed and the writer stops. *)
Definition write_next (written : bool) (c : conn) : conn :=
  if c_writing c then
    match c_queue c with
    | [] => c
    | m :: q => if (written : bool) then mkConn (c_ctx c) (c_stream c) q (c_sent c ++ [m]) true
                else mkConn true (c_stream c) q (c_sent c) false
    end
  else c.

(** ** What one publication does to each connection *)

Definition close_conn (c : conn) : conn := cancel (set_stream StreamClosed c).
Definition offered (r : registry) (pick : nat → bool) (env : Envelope) (id : nat) (c : conn) : bool * conn :=
  stream_enqueue (queueSize r) (pick id) env c.
Definition outcome (r : registry) (pick : nat → bool) (env : Envelope) (id : nat) (c : conn) : conn :=
  let '(ok, c') := offered r pick env id c in if (ok : bool) then c' else close_conn c'.

Lemma stream_enqueue_state size pick m c : c_stream (stream_enqueue size pick m c).2 = c_stream c.
Proof.
  unfold stream_enqueue, server_enqueue. destruct (c_stream c) eqn:Hs; try done.
  destruct (length (c_queue c) <? size)%nat, (c_ctx c), pick; done.
Qed.

Lemma offer_slow pick env r slow id :
  offer pick env (r, slow) id = ((offer pick env (r, []) id).1, slow ++ (offer pick env (r, []) id).2).
Proof.
  unfold offer. destruct (conns r !! id) as [c|]; cbn; [|by rewrite app_nil_r].
  destruct (stream_enqueue _ _ _ _) as [[] c']; cbn; [by rewrite app_nil_r|done].
Qed.

Lemma offers_size pick env ids st : queueSize (foldl (offer pick env) st ids).1 = queueSize st.1.
Proof.
  revert st. induction ids as [|id ids IH]; intros [r slow]; [done|]. cbn. rewrite IH. cbn.
  destruct (conns r !! id); [|done]. by destruct (stream_enqueue _ _ _ _) as [[] ?].
Qed.

(** The loop, for the connections: each visited one is offered the message once. *)
Lemma offers_conns pick env ids r slow :
  NoDup ids → ∀ id,
  conns (foldl (offer pick env) (r, slow) ids).1 !! id
  = if decide (id ∈ ids) then (λ c, (offered r pick env id c).2) <$> conns r !! id else conns r !! id.
Proof.
  revert r slow. induction ids as [|i ids IH]; intros r slow Hnd id.
  { by rewrite decide_False by apply not_elem_of_nil. }
  apply NoDup_cons in Hnd as [Hi Hnd]. cbn [foldl].
  destruct (offer pick env (r, slow) i) as [r' slow'] eqn:Ho. rewrite (IH r' slow' Hnd id). clear IH.
  assert (queueSize r' = queueSize r ∧ ∀ k, conns r' !! k = if decide (k = i) then
    (λ c, (offered r pick env i c).2) <$> conns r !! i else conns r !! k) as [Hq Hc].
  { revert Ho. unfold offer, offered. destruct (conns r !! i) as [c|] eqn:Hci; cbn.
    - destruct (stream_enqueue _ _ _ _) as [[] c']; intros [= <- <-]; cbn; (split; [done|]); intros k;
        case_decide as Hk; subst; by rewrite ?lookup_insert_eq, ?lookup_insert_ne by done.
    - intros [= <- <-]. split; [done|]. intros k. case_decide; by subst. }
  unfold offered at 1. rewrite Hq, Hc. fold (offered r pick env id).
  destruct (decide (id = i)) as [->|Hne].
  - rewrite decide_False by done. by rewrite decide_True by (by left).
  - destruct (decide (id ∈ ids)) as [Hin|Hin].
    + by rewrite decide_True by (by right).
    + rewrite decide_False; [done|]. by intros [?|?]%elem_of_cons.
Qed.

(** The loop, for the registry: the streams that refused leave it. *)
Definition refused (r : registry) (pick : nat → bool) (env : Envelope) (id : nat) : bool :=
  match conns r !! id with Some c => negb (offered r pick env id c).1 | None => false end.

Lemma offers_refused pick env ids r slow :
  NoDup ids →
  (foldl (offer pick env) (r, slow) ids).2 = slow ++ List.filter (refused r pick env) ids ∧
  streams (foldl (offer pick env) (r, slow) ids).1
  = streams r ∖ list_to_set (List.filter (refused r pick env) ids).
Proof.
  revert r slow. induction ids as [|i ids IH]; intros r slow Hnd.
  { cbn. rewrite app_nil_r. split; [done|]. by rewrite difference_empty_L. }
  apply NoDup_cons in Hnd as [Hi Hnd]. cbn [foldl]. rewrite offer_slow.
  destruct (offer pick env (r, []) i) as [r' slow'] eqn:Ho. cbn [fst snd].
  destruct (IH r' (slow ++ slow') Hnd) as [H1 H2]. rewrite H1, H2. clear IH H1 H2.
  assert (queueSize r' = queueSize r ∧ (∀ k, k ≠ i → conns r' !! k = conns r !! k) ∧
    slow' = (if refused r pick env i then [i] else []) ∧
    streams r' = streams r ∖ (if refused r pick env i then {[i]} else ∅)) as (Hq & Hc & Hs & Hst).
  { revert Ho. unfold offer, refused, offered. destruct (conns r !! i) as [c|] eqn:Hci; cbn.
    - destruct (stream_enqueue _ _ _ _) as [[] c']; intros [= <- <-]; cbn; (split; [done|]);
        (split; [intros k Hk; by rewrite lookup_insert_ne|]); (split; [done|]); [by rewrite difference_empty_L|done].
    - intros [= <- <-]. repeat (split; [done|]). by rewrite difference_empty_L. }
  assert (List.filter (refused r' pick env) ids = List.filter (refused r pick env) ids) as ->.
  { clear Hnd. induction ids as [|k ids IH]; [done|]. cbn. rewrite IH by (by intros ?; apply Hi; right).
    assert (refused r' pick env k = refused r pick env k) as ->; [|done].
    unfold refused, offered. rewrite Hq, (Hc k); [done|]. intros ->. apply Hi. by left. }
  rewrite Hs, Hst. cbn. destruct (refused r pick env i); cbn.
  - rewrite <-app_assoc. split; [done|]. by rewrite difference_difference_l_L.
  - rewrite app_nil_r. split; [done|]. by rewrite difference_empty_L.
Qed.

Definition closed_if_open (c : conn) : conn := if decide (c_stream c = StreamOpen) then close_conn c else c.

Lemma stream_Close_at i r :
  queueSize (stream_Close i r) = queueSize r ∧
  (∀ k, conns (stream_Close i r) !! k = if decide (k = i) then closed_if_open <$> conns r !! k else conns r !! k) ∧
  (i ∉ streams r → streams (stream_Close i r) = streams r).
Proof.
  unfold stream_Close, once, closed_if_open. destruct (conns r !! i) as [c|] eqn:Hi.
  - destruct (c_stream c) eqn:Hst; cbn.
    1, 3: split; [done|]; split; [|done]; intros k; case_decide as Hk; [subst|done]; rewrite Hi; cbn; by rewrite Hst.
    split; [done|]. split; [|intros Hn; set_solver].
    intros k. case_decide as Hk; [subst|by rewrite lookup_insert_ne].
    rewrite lookup_insert_eq, Hi. cbn. by rewrite Hst.
  - split; [done|]. split; [|done]. intros k. case_decide; [subst|done]. by rewrite Hi.
Qed.

Lemma closes_at ids r id :
  queueSize (foldl (λ r id, stream_Close id r) r ids) = queueSize r ∧
  (NoDup ids → conns (foldl (λ r id, stream_Close id r) r ids) !! id
   = if decide (id ∈ ids) then closed_if_open <$> conns r !! id else conns r !! id) ∧
  (list_to_set ids ## streams r → streams (foldl (λ r id, stream_Close id r) r ids) = streams r).
Proof.
  revert r. induction ids as [|i ids IH]; intros r.
  { cbn. split; [done|]. split; [|done]. intros _. by rewrite decide_False by apply not_elem_of_nil. }
  cbn [foldl]. destruct (IH (stream_Close i r)) as (H1 & H2 & H3).
  destruct (stream_Close_at i r) as (Hq & Hc & Hs).
  rewrite H1, Hq. split; [done|]. split.
  - intros [Hi Hnd]%NoDup_cons. rewrite (H2 Hnd), Hc.
    destruct (decide (id = i)) as [->|Hne].
    + rewrite decide_False by done. by rewrite decide_True by (by left).
    + destruct (decide (id ∈ ids)) as [Hin|Hin]; [by rewrite decide_True by (by right)|].
      rewrite decide_False; [done|]. by intros [?|?]%elem_of_cons.
  - cbn. intros Hd. assert (i ∉ streams r) as Hi by set_solver. rewrite H3; rewrite (Hs Hi); [done|set_solver].
Qed.

Definition valid_batch (b : NodeChangeBatch) : bool :=
  streq (b_Resource b) "node" && streq (b_Event b) "changes" && negb (b_Generation b =? 0)
  && negb (length (b_Changes b) =? 0)%nat.

(** The registry with its streams all known, each of them open. *)
Record registry_ok (r : registry) : Prop := {
  rk_open : ∀ id, id ∈ streams r → ∃ c, conns r !! id = Some c ∧ c_stream c = StreamOpen;
  rk_bound : ∀ id c, conns r !! id = Some c → (length (c_queue c) ≤ queueSize r)%nat;
}.

Lemma Publish_skip now ids pick b r :
  (valid_batch b = false ∨ eventEnvelope now b r = None) → Publish now ids pick b r = r.
Proof.
  unfold Publish, valid_batch. intros [Hv | He].
  - destruct (streq (b_Resource b) "node"), (streq (b_Event b) "changes"), (b_Generation b =? 0),
      (length (b_Changes b) =? 0)%nat; try done; discriminate Hv.
  - rewrite He. by destruct (_ || _ || _ || _).
Qed.

Lemma eventEnvelope_Some now b r env r' :
  eventEnvelope now b r = Some (env, r') →
  marshal_batch b = Some (Payload env) ∧ Type_ env = MessageEvent ∧
  queueSize r' = queueSize r ∧ streams r' = streams r ∧ conns r' = conns r.
Proof.
  unfold eventEnvelope, event_envelope. destruct (marshal_batch b) as [p|]; [|done]. cbn. by intros [= <- <-].
Qed.

(** A publication, connection by connection. *)
Lemma Publish_at now ids pick b r env r1 :
  valid_batch b = true → eventEnvelope now b r = Some (env, r1) → registry_ok r → ids ≡ₚ elements (streams r) →
  let r' := Publish now ids pick b r in
  queueSize r' = queueSize r ∧
  (∀ id, conns r' !! id = if decide (id ∈ streams r) then outcome r pick env id <$> conns r !! id else conns r !! id) ∧
  (∀ id, id ∈ streams r' ↔ id ∈ streams r ∧ refused r pick env id = false).
Proof.
  intros Hv He [Hopen _] Hids. apply eventEnvelope_Some in He as Hr1. destruct Hr1 as (_ & _ & Hq & Hst & Hcs).
  assert (NoDup ids) as Hnd by (rewrite Hids; apply NoDup_elements).
  assert (∀ id, id ∈ ids ↔ id ∈ streams r) as Hin by (intros id; by rewrite Hids, elem_of_elements).
  assert (∀ id, refused r1 pick env id = refused r pick env id) as Href
    by (intros id; unfold refused, offered; by rewrite Hcs, Hq).
  unfold Publish. destruct (_ || _ || _ || _) eqn:Hg.
  { exfalso. revert Hv Hg. unfold valid_batch. by destruct (streq (b_Resource b) "node"), (streq (b_Event b) "changes"),
      (b_Generation b =? 0), (length (b_Changes b) =? 0)%nat. }
  rewrite He. destruct (offers_refused pick env ids r1 [] Hnd) as [Hslow Hstr].
  pose proof (offers_conns pick env ids r1 [] Hnd) as Hconns. pose proof (offers_size pick env ids (r1, [])) as Hsize.
  destruct (foldl (offer pick env) (r1, []) ids) as [r2 slow]. cbn [fst snd] in *. cbn in Hslow. subst slow.
  set (slow := List.filter (refused r1 pick env) ids) in *.
  assert (∀ id, id ∈ slow ↔ id ∈ streams r ∧ refused r pick env id = true) as Hslow.
  { intros id. unfold slow. by rewrite elem_of_filterb, Hin, Href. }
  split; [|split]; [| |]; intros; [|destruct (closes_at slow r2 id) as (_ & H2 & H3)..].
  - destruct (closes_at slow r2 0%nat) as (H1 & _ & _). by rewrite H1, Hsize.
  - rewrite H2 by (by apply NoDup_ListNoDup, List.NoDup_filter, NoDup_ListNoDup). rewrite Hconns, Hcs.
    unfold outcome, offered. rewrite Hq. destruct (decide (id ∈ streams r)) as [Hs|Hs].
    + rewrite !(decide_True (P := id ∈ ids)) by (by apply Hin).
      destruct (Hopen id Hs) as (c & Hc & Hco). rewrite Hc. cbn.
      pose proof (stream_enqueue_state (queueSize r) (pick id) env c) as Hstate.
      assert (refused r pick env id = negb (stream_enqueue (queueSize r) (pick id) env c).1) as Hrf
        by (unfold refused, offered; by rewrite Hc).
      destruct (stream_enqueue (queueSize r) (pick id) env c) as [[] c']; cbn in *.
      * rewrite decide_False; [done|]. rewrite Hslow, Hrf. by intros [_ ?].
      * rewrite decide_True by (by rewrite Hslow, Hrf). cbn. unfold closed_if_open.
        by rewrite Hstate, decide_True.
    + rewrite !(decide_False (P := id ∈ ids)) by (by rewrite Hin).
      rewrite decide_False; [done|]. rewrite Hslow. by intros [? _].
  - rewrite H3.
    + rewrite Hstr, Hst, elem_of_difference, elem_of_list_to_set, Hslow.
      destruct (refused r pick env id); naive_solver.
    + rewrite Hstr. set_solver.
Qed.

Lemma offered_queue r pick env id c :
  (length (c_queue c) ≤ queueSize r)%nat →
  c_stream (outcome r pick env id c) = (if (offered r pick env id c).1 then c_stream c else StreamClosed) ∧
  c_sent (outcome r pick env id c) = c_sent c ∧
  c_queue (outcome r pick env id c) = (if (offered r pick env id c).1 then c_queue c ++ [env] else c_queue c) ∧
  (length (c_queue (outcome r pick env id c)) ≤ queueSize r)%nat.
Proof.
  intros Hl. unfold outcome, offered, stream_enqueue, server_enqueue.
  destruct (c_stream c) eqn:Hst; try done. destruct (length (c_queue c) <? queueSize r)%nat eqn:Hr.
  - apply Nat.ltb_lt in Hr. destruct (c_ctx c), (pick id); cbn; rewrite ?Hst;
      repeat (split; [done|]); rewrite ?length_app; cbn; lia.
  - destruct (c_ctx c); cbn; rewrite ?orb_true_r; cbn; by repeat (split; [done|]).
Qed.

Lemma Publish_registry_ok now ids pick b r :
  registry_ok r → ids ≡ₚ elements (streams r) → registry_ok (Publish now ids pick b r).
Proof.
  intros Hr Hids. destruct (valid_batch b) eqn:Hv; [|by rewrite Publish_skip by auto].
  destruct (eventEnvelope now b r) as [[env r1]|] eqn:He; [|by rewrite Publish_skip by auto].
  destruct (Publish_at now ids pick b r env r1 Hv He Hr Hids) as (Hq & Hc & Hs). destruct Hr as [Hopen Hbound].
  split.
  - intros id [Hin Href]%Hs. destruct (Hopen id Hin) as (c & Hco & Hst). rewrite Hc, decide_True, Hco by done.
    eexists. split; [done|]. destruct (offered_queue r pick env id c (Hbound id c Hco)) as (-> & _).
    unfold refused in Href. rewrite Hco in Href. apply negb_false_iff in Href. by rewrite Href.
  - intros id c. rewrite Hc, Hq. case_decide as Hin; [|apply Hbound].
    destruct (conns r !! id) as [c0|] eqn:Hco; [|done]. cbn. intros [= <-].
    by destruct (offered_queue r pick env id c0 (Hbound id c0 Hco)) as (_ & _ & _ & ?).
Qed.

(** Publication. For every registry whose streams are open and whose queues
    respect the capacity: publishing keeps this so, and does not touch a
    connection without a registered stream. A batch that is not a valid change
    batch, or that cannot be encoded, is dropped. Otherwise there is one event
    envelope with the encoded batch, such that every registered stream whose
    connection is alive and has room gets it at the end of its queue and
    stays registered, and every stream whose queue is full is closed: it leaves
    the registry, its connection is cancelled and its queue is as it was. *)
Theorem Publish_spec now ids pick b r :
  registry_ok r → ids ≡ₚ elements (streams r) →
  let r' := Publish now ids pick b r in
  registry_ok r' ∧ queueSize r' = queueSize r ∧
  (∀ id, id ∉ streams r → conns r' !! id = conns r !! id ∧ id ∉ streams r') ∧
  (valid_batch b = false ∨ marshal_batch b = None → r' = r) ∧
  (valid_batch b = true → ∀ p, marshal_batch b = Some p → ∃ env, Payload env = p ∧ Type_ env = MessageEvent ∧
    ∀ id c, id ∈ streams r → conns r !! id = Some c →
      ((length (c_queue c) < queueSize r)%nat ∧ c_ctx c = false →
        id ∈ streams r' ∧ conns r' !! id = Some (push env c)) ∧
      (length (c_queue c) = queueSize r →
        id ∉ streams r' ∧ conns r' !! id = Some (close_conn c))).
Proof.
  intros Hr Hids. cbn zeta. split; [by apply Publish_registry_ok|].
  assert (Hskip : valid_batch b = false ∨ marshal_batch b = None → Publish now ids pick b r = r).
  { intros [Hv|Hm]; apply Publish_skip; [auto|]. right. unfold eventEnvelope, event_envelope. by rewrite Hm. }
  destruct (eventEnvelope now b r) as [[env r1]|] eqn:He.
  2: { assert (marshal_batch b = None) as Hm by (revert He; unfold eventEnvelope, event_envelope; by destruct (marshal_batch b)).
       rewrite Hskip by auto. repeat split; try done. by rewrite Hm. }
  destruct (valid_batch b) eqn:Hv; [|by rewrite Hskip by auto].
  destruct (Publish_at now ids pick b r env r1 Hv He Hr Hids) as (Hq & Hc & Hs).
  split; [done|]. split; [|split; [done|]].
  { intros id Hid. rewrite Hc, decide_False by done. split; [done|]. rewrite Hs. tauto. }
  intros _ p Hp. exists env. destruct (eventEnvelope_Some _ _ _ _ _ He) as (Hpay & Hty & _).
  split; [congruence|]. split; [done|]. intros id c Hin Hco. destruct (rk_open _ Hr id Hin) as (c0 & Hc0 & Hst).
  rewrite Hco in Hc0. injection Hc0 as <-. rewrite Hc, decide_True, Hco, Hs by done. cbn.
  unfold refused, outcome, offered. rewrite Hco. unfold stream_enqueue, server_enqueue. rewrite Hst. split.
  - intros [Hl%Nat.ltb_lt Hctx]. rewrite Hl, Hctx. cbn. auto.
  - intros Hl. rewrite (proj2 (Nat.ltb_ge _ _)) by lia.
    assert ((if c_ctx c && (pick id || negb false) then (false, c) else (false, c)) = (false, c)) as -> by (by destruct (_ && _)).
    cbn. split; [by intros [_ ?]|done].
Qed.

Definition example_batch : NodeChangeBatch := mkBatch "node" "changes" 3 [mkChange NodeAdded (example_node "n7" "IDLE")].
Definition example_registry : registry :=
  mkRegistry 1 {[1%nat; 2%nat]} 0 {[1%nat := mkConn false StreamOpen [] [] true; 2%nat := mkConn false StreamOpen [empty_envelope] [] true]}.

Lemma Publish_spec_witness :
  let r' := Publish 1753920000 [2%nat; 1%nat] (λ _, false) example_batch example_registry in
  streams r' = {[1%nat]} ∧ (c_queue <$> conns r' !! 2%nat) = Some [empty_envelope] ∧
  (length ∘ c_queue <$> conns r' !! 1%nat) = Some 1%nat ∧ queueSize r' = 1%nat.
Proof.
  assert (registry_ok example_registry) as Hr.
  { split.
    - intros id Hin. assert (id = 1%nat ∨ id = 2%nat) as [-> | ->] by (revert Hin; unfold example_registry; cbn; set_solver);
        eexists; by split.
    - intros id c. unfold example_registry. cbn. intros [[<- <-] | [_ [<- <-]%lookup_singleton_Some]]%lookup_insert_Some; cbn; lia. }
  destruct (Publish_spec 1753920000 [2%nat; 1%nat] (λ _, false) example_batch example_registry Hr) as (_ & Hq & _).
  { apply NoDup_Permutation; [by apply (bool_decide_unpack _)|apply NoDup_elements|]. intros x. unfold example_registry. cbn. set_solver. }
  cbn zeta. repeat (split; [by vm_compute|]). exact Hq.
Defined.

(** The one commit that is dropped: when the generation wraps to zero, the batch
    is taken for an invalid one and the open streams stay open without it. *)
Theorem wrapped_generation_dropped o1 o2 o3 ns c batch c' now ids pick r :
  fair o1 → fair o2 → fair o3 → cache_ok c → generation c = 2 ^ 64 - 1 →
  replaceSnapshot o1 o2 o3 ns c = (batch, true, c') →
  generation c' = 0 ∧ Publish now ids pick batch r = r.
Proof.
  intros H1 H2 H3 Hc Hg Hr. destruct (replaceSnapshot_commit _ _ _ _ _ _ _ H1 H2 H3 Hc Hr) as (Hg' & _ & _ & Hb & _).
  rewrite Hg in Hg'. assert (generation c' = 0) as H0 by (by rewrite Hg').
  split; [done|]. apply Publish_skip. left. unfold valid_batch. rewrite Hb, H0. cbn. by rewrite !andb_false_r.
Qed.
