(* ===== verification/StreamHistory.v ===== *)
(** * StreamHistory: what the readers of the feed see

    Refreshes, registrations, connections that come, go, write and fail, in any
    order, as a step relation over the cache and the registry; a reader that
    replays its events; and the continuity of every feed. *)
From stdpp Require Import sorting relations.
From S2P Require Import Prelude Utf8 Json Message NodeCache NodeSource Stream.
Open Scope Z_scope.

(** ** A reader *)

Inductive event : Type := ESnapshot (s : Snapshot) | EChanges (b : NodeChangeBatch).

Definition event_payload (e : event) : option string :=
  match e with ESnapshot s => marshal_snapshot s | EChanges b => marshal_batch b end.

Definition carries (e : event) (m : Envelope) : Prop :=
  Type_ m = MessageEvent ∧ event_payload e = Some (Payload m).

(** What a reader knows after an event: it starts with a snapshot, and accepts
    a batch only for the generation after its own. *)
Definition read_event (v : option (Z * gmap string Node)) (e : event) : option (Z * gmap string Node) :=
  match v, e with
  | Some (g, m), EChanges b =>
      if b_Generation b =? g + 1 then Some (b_Generation b, apply_changes m (b_Changes b)) else None
  | _, _ => None
  end.
Definition reader (evs : list event) : option (Z * gmap string Node) :=
  match evs with
  | ESnapshot s :: rest => foldl read_event (Some (s_Generation s, keyed (s_Nodes s))) rest
  | _ => None
  end.

Definition events_of (l : list Envelope) : list Envelope := filter (λ m, Type_ m = MessageEvent) l.

(** The messages [es] are the events of a reader that is at [v]. *)
Definition feed (es : list Envelope) (v : Z * gmap string Node) : Prop :=
  ∃ evs, Forall2 carries evs es ∧ reader evs = Some v.

(** The messages [es] are a feed so far: nothing yet, or a reader is somewhere. *)
Definition feed_prefix (es : list Envelope) : Prop := es = [] ∨ ∃ v, feed es v.

Lemma read_None evs : foldl read_event None evs = None.
Proof. by induction evs. Qed.

Lemma reader_app evs1 evs2 v : reader (evs1 ++ evs2) = Some v → evs1 = [] ∨ ∃ v', reader evs1 = Some v'.
Proof.
  destruct evs1 as [|[s|b] evs1]; [auto| |done]. cbn. rewrite foldl_app. intros H. right.
  destruct (foldl read_event _ evs1) as [v'|]; [by exists v'|]. by rewrite read_None in H.
Qed.

Lemma feed_prefix_app es1 es2 : feed_prefix (es1 ++ es2) → feed_prefix es1.
Proof.
  intros [[-> ->]%app_nil | (v & evs & Hc & Hr)]; [by left|].
  apply Forall2_app_inv_r in Hc as (evs1 & evs2 & H1 & H2 & ->).
  apply reader_app in Hr as [-> | (v' & Hv')]; [left; by apply Forall2_nil_inv_l in H1|].
  right. exists v', evs1. auto.
Qed.

Lemma feed_snapshot o c m :
  fair o → cache_ok c → Type_ m = MessageEvent → marshal_snapshot (cache_Snapshot o c) = Some (Payload m) →
  feed [m] (generation c, nodes c).
Proof.
  intros Ho [Hid _] Ht Hp. exists [ESnapshot (cache_Snapshot o c)]. split; [by repeat constructor|].
  cbn. f_equal. f_equal. apply map_eq. intros id.
  assert (∀ n, n ∈ map snd (o (nodes c)) ↔ nodes c !! Identity n = Some n) as Hin.
  { intros n. rewrite list_elem_of_fmap. split.
    - intros ([k n'] & -> & Hn). apply fair_elem in Hn; [|done]. cbn. by rewrite (Hid k n' Hn).
    - intros Hn. exists (Identity n, n). split; [done|]. by apply fair_elem. }
  destruct (nodes c !! id) as [n|] eqn:Hn.
  - pose proof (Hid id n Hn) as <-. apply keyed_NoDup; [|by apply Hin].
    rewrite map_map. rewrite (map_ext_in _ fst).
    + by apply fair_keys.
    + intros [k x] Hx%list_elem_of_In. apply fair_elem in Hx; [|done]. cbn. apply (Hid k x Hx).
  - destruct (keyed (map snd (o (nodes c))) !! id) as [n|] eqn:Hk; [|done].
    apply keyed_lookup in Hk as [Hk%Hin <-]. congruence.
Qed.

Lemma feed_changes es g m b env :
  feed es (g, m) → b_Generation b = g + 1 → Type_ env = MessageEvent → marshal_batch b = Some (Payload env) →
  feed (es ++ [env]) (b_Generation b, apply_changes m (b_Changes b)).
Proof.
  intros (evs & Hc & Hr) Hg Ht Hp. exists (evs ++ [EChanges b]). split; [by apply Forall2_app; repeat constructor|].
  destruct evs as [|[s|b'] evs]; [done| |done]. cbn in *. rewrite foldl_app, Hr. cbn. by rewrite Hg, Z.eqb_refl.
Qed.

(** ** The system *)

Record sys : Type := mkSys { y_cache : NodeCache; y_registry : registry }.

(** Nodes the clock of which can be encoded. *)
Definition node_time_ok (n : Node) : Prop := time_ok (m_ObservedAt (n_Metadata n)) = true.

(** The registry as the publisher of the synchronizer. *)
#[local] Instance stream_publisher (now : Z) (ids : list nat) (pick : nat → bool) : NodeChangePublisher registry :=
  λ b r, Publish now ids pick b r.

Definition refresh_with (o1 o2 o3 : order) (now : Z) (ids : list nat) (pick : nat → bool)
  (listing : result list_error (list Node)) (ctx_ended : bool) (y : sys) : sys :=
  let st := (@Refresh registry (stream_publisher now ids pick) o1 o2 o3 listing ctx_ended
               (y_cache y, Some (y_registry y))).2 in
  mkSys st.1 (default (y_registry y) st.2).

Definition update_conn (id : nat) (f : conn → conn) (y : sys) : sys :=
  mkSys (y_cache y) (set_conns (alter f id) (y_registry y)).

(** A refresh is a step only while the generation does not wrap around and the
    clock of the nodes is within the years 0 to 9999: otherwise [Publish] drops
    the batch and the feeds miss a generation. *)
Inductive step : sys → sys → Prop :=
| step_accept id c r :
    conns r !! id = None → step (mkSys c r) (mkSys c (set_conns <[id := new_conn]> r))
| step_register o now id pick c r k :
    fair o → conns r !! id = Some k → c_stream k = NoStream →
    step (mkSys c r) (mkSys c (Register o now id pick c r).2)
| step_refresh o1 o2 o3 now ids pick listing ctx_ended c r :
    fair o1 → fair o2 → fair o3 → ids ≡ₚ elements (streams r) →
    generation c < 2 ^ 64 - 1 → (∀ ns, listing = Ok ns → Forall node_time_ok ns) →
    step (mkSys c r) (refresh_with o1 o2 o3 now ids pick listing ctx_ended (mkSys c r))
| step_respond id m pick c r :
    Type_ m ≠ MessageEvent →
    step (mkSys c r) (update_conn id (λ k, (server_enqueue (queueSize r) pick m k).2) (mkSys c r))
| step_write id written c r : step (mkSys c r) (update_conn id (write_next written) (mkSys c r))
| step_cancel id c r : step (mkSys c r) (update_conn id cancel (mkSys c r))
| step_close_stream id c r : step (mkSys c r) (mkSys c (stream_Close id r))
| step_unregister id c r : step (mkSys c r) (mkSys c (stream_Unregister id r))
| step_close_all ids c r : ids ≡ₚ elements (streams r) → step (mkSys c r) (mkSys c (CloseAll ids r)).

Definition start (size : nat) : sys := mkSys NewNodeCache (mkRegistry size ∅ 0 ∅).
Definition reachable (size : nat) (y : sys) : Prop := rtc step (start size) y.

(** ** The invariant *)

(** The events a connection was given; after the writer failed, those it sent. *)
Definition enqueued (k : conn) : list Envelope :=
  events_of (c_sent k ++ if c_writing k then c_queue k else []).

Record feeds_ok (y : sys) : Prop := {
  fk_cache : cache_ok (y_cache y);
  fk_times : map_Forall (λ _ n, node_time_ok n) (nodes (y_cache y));
  fk_registry : registry_ok (y_registry y);
  fk_live : ∀ id k, id ∈ streams (y_registry y) → conns (y_registry y) !! id = Some k → c_writing k = true →
    feed (enqueued k) (generation (y_cache y), nodes (y_cache y));
  fk_none : ∀ id k, conns (y_registry y) !! id = Some k → c_stream k = NoStream → enqueued k = [];
  fk_past : ∀ id k, conns (y_registry y) !! id = Some k → feed_prefix (enqueued k);
}.

(** A connection that was given no further event. *)
Record quiet (size : nat) (k k' : conn) : Prop := {
  q_prefix : enqueued k' `prefix_of` enqueued k;
  q_writing : c_writing k' = true → c_writing k = true ∧ enqueued k' = enqueued k;
  q_bound : (length (c_queue k) ≤ size → length (c_queue k') ≤ size)%nat;
}.

Lemma quiet_refl size k : quiet size k k.
Proof. by split. Qed.
Lemma quiet_close size k : quiet size k (close_conn k).
Proof. by split. Qed.
Lemma quiet_cancel size k : quiet size k (cancel k).
Proof. by split. Qed.

(** A step after which every connection is quiet, and at most some streams were
    closed, keeps the invariant. *)
Lemma feeds_frame c r r' :
  feeds_ok (mkSys c r) → queueSize r' = queueSize r →
  (∀ id, id ∈ streams r' → id ∈ streams r) →
  (∀ id k', conns r' !! id = Some k' → ∃ k, conns r !! id = Some k ∧ quiet (queueSize r) k k' ∧
     (c_stream k' = c_stream k ∨ c_stream k' = StreamClosed ∧ id ∉ streams r')) →
  (∀ id, is_Some (conns r !! id) → is_Some (conns r' !! id)) →
  feeds_ok (mkSys c r').
Proof.
  intros [Hc Ht [Ho Hb] Hl Hn Hp] Hq Hs Hk Hsome. cbn in *. split; cbn; try done.
  - split.
    + intros id Hid. destruct (Ho id (Hs id Hid)) as (k & Hk0 & Hst).
      destruct (Hsome id) as [k' Hk']; [by eexists|]. exists k'. split; [done|].
      destruct (Hk id k' Hk') as (k1 & Hk1 & _ & [H | [_ ?]]); [|done]. congruence.
    + intros id k' Hk'. destruct (Hk id k' Hk') as (k & Hk0 & Hqu & _). rewrite Hq. by eapply q_bound, Hb.
  - intros id k' Hid Hk' Hw. destruct (Hk id k' Hk') as (k & Hk0 & Hqu & _).
    destruct (q_writing _ _ _ Hqu Hw) as [Hw0 ->]. by apply (Hl id k (Hs id Hid)).
  - intros id k' Hk' Hst. destruct (Hk id k' Hk') as (k & Hk0 & Hqu & [H | [H _]]); [|congruence].
    pose proof (q_prefix _ _ _ Hqu) as Hpre. rewrite (Hn id k Hk0) in Hpre by congruence.
    by apply prefix_nil_inv in Hpre.
  - intros id k' Hk'. destruct (Hk id k' Hk') as (k & Hk0 & Hqu & _).
    destruct (q_prefix _ _ _ Hqu) as [es He]. specialize (Hp id k Hk0). rewrite He in Hp. by apply feed_prefix_app in Hp.
Qed.

(** One connection changes quietly. *)
Lemma feeds_update c r id f :
  feeds_ok (mkSys c r) → (∀ k, quiet (queueSize r) k (f k) ∧ c_stream (f k) = c_stream k) →
  feeds_ok (update_conn id f (mkSys c r)).
Proof.
  intros Hy Hf. apply (feeds_frame c r); cbn; try done.
  - intros i k'. destruct (decide (i = id)) as [->|Hne].
    + rewrite lookup_alter_eq. destruct (conns r !! id) as [k|]; [|done]. intros [= <-].
      exists k. destruct (Hf k). auto.
    + rewrite lookup_alter_ne by done. intros Hk. exists k'. split; [done|]. split; [apply quiet_refl|by left].
  - intros i [k Hk]. destruct (decide (i = id)) as [->|Hne].
    + rewrite lookup_alter_eq, Hk. by eexists.
    + rewrite lookup_alter_ne by done. by eexists.
Qed.

(** A stream is closed. *)
Lemma feeds_once c r id f :
  feeds_ok (mkSys c r) → (∀ k, quiet (queueSize r) k (f (set_stream StreamClosed k)) ∧
    c_stream (f (set_stream StreamClosed k)) = StreamClosed) →
  feeds_ok (mkSys c (once id f r)).
Proof.
  intros Hy Hf. unfold once. destruct (conns r !! id) as [k|] eqn:Hk; [|done].
  destruct (c_stream k) eqn:Hst; try done. apply (feeds_frame c r); cbn; try done.
  - by intros i [? _]%elem_of_difference.
  - intros i k'. destruct (decide (i = id)) as [->|Hne].
    + rewrite lookup_insert_eq. intros [= <-]. exists k. destruct (Hf k) as [H1 H2]. split; [done|].
      split; [done|]. right. split; [done|]. intros [_ Hx]%elem_of_difference. by apply Hx, elem_of_singleton.
    + rewrite lookup_insert_ne by done. intros Hi. exists k'. split; [done|]. split; [apply quiet_refl|by left].
  - intros i Hi. destruct (decide (i = id)) as [->|Hne].
    + rewrite lookup_insert_eq. by eexists.
    + by rewrite lookup_insert_ne.
Qed.

Lemma feeds_no_streams c r : feeds_ok (mkSys c r) → feeds_ok (mkSys c (set_streams (λ _, ∅) r)).
Proof.
  intros Hy. apply (feeds_frame c r); cbn; try done.
  - intros id k Hk. exists k. split; [done|]. split; [apply quiet_refl|by left].
Qed.

Lemma quiet_enqueue size pick m k :
  Type_ m ≠ MessageEvent →
  quiet size k (server_enqueue size pick m k).2 ∧ c_stream (server_enqueue size pick m k).2 = c_stream k.
Proof.
  intros Hm. unfold server_enqueue. destruct (length (c_queue k) <? size)%nat eqn:Hr.
  2: { destruct (c_ctx k && _); split; try done; apply quiet_refl. }
  destruct (c_ctx k && _); [split; [apply quiet_refl|done]|]. split; [|done].
  assert (enqueued (push m k) = enqueued k) as He.
  { unfold enqueued, push, events_of. cbn. destruct (c_writing k); [|done].
    rewrite app_assoc, filter_app, filter_cons, decide_False by done. cbn. by rewrite app_nil_r. }
  cbn [snd]. split; [by rewrite He|intros Hw; by split|]. intros _. cbn. rewrite length_app. cbn. apply Nat.ltb_lt in Hr. lia.
Qed.

Lemma quiet_write size written k : quiet size k (write_next written k) ∧ c_stream (write_next written k) = c_stream k.
Proof.
  unfold write_next. destruct (c_writing k) eqn:Hw; [|split; [apply quiet_refl|done]].
  destruct (c_queue k) as [|m q] eqn:Hq; [split; [apply quiet_refl|done]|]. destruct written; (split; [|done]).
  - assert (enqueued (mkConn (c_ctx k) (c_stream k) q (c_sent k ++ [m]) true) = enqueued k) as He.
    { unfold enqueued. cbn. rewrite Hw, Hq. by rewrite <-app_assoc. }
    split; [by rewrite He|intros _; by split|]. rewrite Hq. cbn. lia.
  - split; [|done|rewrite Hq; cbn; lia]. unfold enqueued, events_of. cbn. rewrite Hw, app_nil_r, filter_app.
    by apply prefix_app_r.
Qed.

(** One connection is new, or got its first event. *)
Lemma feeds_insert c r r' id k' :
  feeds_ok (mkSys c r) → id ∉ streams r → queueSize r' = queueSize r → conns r' = <[id := k']> (conns r) →
  (∀ i, i ≠ id → i ∈ streams r' → i ∈ streams r) →
  (id ∈ streams r' → c_stream k' = StreamOpen ∧
     (c_writing k' = true → feed (enqueued k') (generation c, nodes c))) →
  (c_stream k' = NoStream → enqueued k' = []) → feed_prefix (enqueued k') →
  (length (c_queue k') ≤ queueSize r)%nat → feeds_ok (mkSys c r').
Proof.
  intros [Hc Ht [Ho Hb] Hl Hn Hp] Hid Hq Hcs Hs Hlive Hnone Hpast Hlen. cbn in *.
  assert (∀ i k, conns r' !! i = Some k → i = id ∧ k = k' ∨ i ≠ id ∧ conns r !! i = Some k) as Hcase.
  { intros i k. rewrite Hcs, lookup_insert_Some. naive_solver. }
  split; cbn; try done.
  - split.
    + intros i Hi. rewrite Hcs. destruct (decide (i = id)) as [->|Hne].
      * exists k'. rewrite lookup_insert_eq. split; [done|]. by apply Hlive.
      * rewrite lookup_insert_ne by done. by apply Ho, Hs.
    + intros i k Hk. rewrite Hq. destruct (Hcase i k Hk) as [[-> ->] | [_ H]]; [done|by apply (Hb i)].
  - intros i k Hi Hk Hw. destruct (Hcase i k Hk) as [[-> ->] | [Hne H]]; [by apply Hlive|].
    by apply (Hl i k (Hs i Hne Hi)).
  - intros i k Hk. destruct (Hcase i k Hk) as [[-> ->] | [_ H]]; [done|by apply (Hn i)].
  - intros i k Hk. destruct (Hcase i k Hk) as [[-> ->] | [_ H]]; [done|by apply (Hp i)].
Qed.

Lemma enqueued_push m k : Type_ m = MessageEvent → c_writing k = true → enqueued (push m k) = enqueued k ++ [m].
Proof.
  intros Hm Hw. unfold enqueued, push, events_of. cbn. rewrite Hw, app_assoc, filter_app, filter_cons.
  by rewrite decide_True.
Qed.
Lemma enqueued_dead m k : c_writing k = false → enqueued (push m k) = enqueued k.
Proof. intros Hw. unfold enqueued, push. cbn. by rewrite Hw. Qed.

Lemma feeds_accept c r id :
  feeds_ok (mkSys c r) → conns r !! id = None → feeds_ok (mkSys c (set_conns <[id := new_conn]> r)).
Proof.
  intros Hy Hid. assert (id ∉ streams r) as Hs.
  { intros Hs. destruct (rk_open _ (fk_registry _ Hy) id Hs) as (k & Hk & _). cbn in Hk. congruence. }
  apply (feeds_insert c r _ id new_conn Hy Hs); try done; cbn; [by left|lia].
Qed.

Lemma feeds_register o now id pick c r k :
  feeds_ok (mkSys c r) → fair o → conns r !! id = Some k → c_stream k = NoStream →
  feeds_ok (mkSys c (Register o now id pick c r).2).
Proof.
  intros Hy Ho Hk Hst. pose proof Hy as [Hc Ht [Hopen Hb] Hl Hn Hp]. cbn in *.
  assert (id ∉ streams r) as Hs by (intros Hs; destruct (Hopen id Hs) as (k' & Hk' & ?); congruence).
  pose proof (Hn id k Hk Hst) as Hnil. pose proof (Hb id k Hk) as Hlen.
  unfold Register, snapshotEnvelope, event_envelope.
  destruct (marshal_snapshot (cache_Snapshot o c)) as [p|] eqn:Hm; cbn.
  2: { apply (feeds_update c r id cancel Hy). intros k0. split; [apply quiet_cancel|done]. }
  rewrite Hk. unfold stream_enqueue. cbn [c_stream set_stream].
  set (env := NewEnvelope now _ MessageEvent p). unfold server_enqueue.
  change (c_queue (set_stream StreamOpen k)) with (c_queue k). cbn [queueSize].
  destruct (length (c_queue k) <? queueSize r)%nat eqn:Hroom; [apply Nat.ltb_lt in Hroom|];
    (destruct (c_ctx (set_stream StreamOpen k) && _); cbn [fst snd]).
  2: { assert (enqueued (set_stream StreamOpen k) = []) as He by done.
       apply (feeds_insert c r _ id (push env (set_stream StreamOpen k)) Hy Hs); cbn -[push enqueued]; try done.
       - intros i Hi [? %elem_of_singleton | ?]%elem_of_union; done.
       - intros _. split; [done|]. intros Hw. rewrite enqueued_push, He by done. by apply (feed_snapshot o).
       - destruct (c_writing k) eqn:Hw.
         + rewrite enqueued_push, He by done. right. eexists. by apply (feed_snapshot o).
         + rewrite enqueued_dead, He by done. by left.
       - cbn. rewrite length_app. cbn. lia. }
  all: unfold stream_Close, once, Unregister; cbn; rewrite lookup_insert_eq; cbn;
    apply (feeds_insert c r _ id (close_conn k) Hy Hs); cbn; try done.
  all: try (by rewrite insert_insert_eq).
  all: try (intros i Hi Hx; set_solver).
  all: try (intros Hx; set_solver).
  all: left; exact Hnil.
Qed.

(** ** The refresh *)

Lemma mapM_some {A B} (f : A → option B) l : Forall (λ x, is_Some (f x)) l → is_Some (mapM f l).
Proof. apply mapM_is_Some_2. Qed.

Lemma marshal_node_some n : node_time_ok n → is_Some (marshal_node n).
Proof. unfold marshal_node, marshal_metadata, marshal_time, node_time_ok. intros ->. by eexists. Qed.

Lemma marshal_batch_some b :
  Forall (λ c, node_time_ok (ch_Node c)) (b_Changes b) → is_Some (marshal_batch b).
Proof.
  intros H. unfold marshal_batch. destruct (mapM_some marshal_change (b_Changes b)) as [l Hl].
  - eapply Forall_impl; [exact H|]. intros c Hc. unfold marshal_change.
    destruct (marshal_node_some _ Hc) as [n ->]. by eexists.
  - rewrite Hl. by eexists.
Qed.

Lemma commit_valid o1 o2 o3 ns c batch c' :
  fair o1 → fair o2 → fair o3 → cache_ok c → generation c < 2 ^ 64 - 1 →
  replaceSnapshot o1 o2 o3 ns c = (batch, true, c') →
  valid_batch batch = true ∧ generation c' = generation c + 1.
Proof.
  intros H1 H2 H3 Hc Hg Hr. destruct (ck_generation c Hc) as [Hg0 _].
  destruct (replaceSnapshot_commit o1 o2 o3 ns c batch c' H1 H2 H3 Hc Hr) as (Hgen & Hres & Hev & Hbg & Hne & _).
  rewrite uint64_wrap_small in Hgen by lia. split; [|done].
  unfold valid_batch. rewrite Hres, Hev, Hbg, Hgen, !streq_refl.
  destruct (b_Changes batch); [done|]. rewrite (proj2 (Z.eqb_neq _ _)) by lia. done.
Qed.

(** What holds of all nodes and survives the stamp holds of the new cache and of
    the batch. *)
Lemma commit_forall (P : Node → Prop) o1 o2 o3 ns c batch changed c' :
  fair o1 → fair o2 → fair o3 → cache_ok c →
  (∀ n, P n → P (set_generation (uint64_wrap (generation c + 1)) n)) → Forall P ns →
  map_Forall (λ _, P) (nodes c) → replaceSnapshot o1 o2 o3 ns c = (batch, changed, c') →
  map_Forall (λ _, P) (nodes c') ∧ Forall (λ ch, P (ch_Node ch)) (b_Changes batch).
Proof.
  intros H1 H2 H3 Hc HP Hns Ht Hr.
  pose proof (replaceSnapshot_forall P o1 o2 o3 ns c H3 HP Hns Ht) as Ht'. rewrite Hr in Ht'. split; [exact Ht'|].
  apply Forall_forall. intros ch Hch. pose proof (published_sound o1 o2 o3 ns c ch H1 H2 H3 Hc) as Hs.
  rewrite Hr in Hs. specialize (Hs Hch). unfold sound_change in Hs. cbn [snd] in *.
  destruct (ch_Kind ch); [destruct Hs as [_ H]|destruct Hs as [H _]..]; revert H; apply Ht || apply Ht'.
Qed.

Lemma commit_times o1 o2 o3 ns c batch changed c' :
  fair o1 → fair o2 → fair o3 → cache_ok c → Forall node_time_ok ns →
  map_Forall (λ _ n, node_time_ok n) (nodes c) → replaceSnapshot o1 o2 o3 ns c = (batch, changed, c') →
  map_Forall (λ _ n, node_time_ok n) (nodes c') ∧ Forall (λ ch, node_time_ok (ch_Node ch)) (b_Changes batch).
Proof. intros H1 H2 H3 Hc. by apply (commit_forall node_time_ok o1 o2 o3 ns c batch changed c' H1 H2 H3 Hc). Qed.

Lemma feeds_publish now ids pick c c' r batch env r1 :
  feeds_ok (mkSys c r) → cache_ok c' → map_Forall (λ _ n, node_time_ok n) (nodes c') →
  ids ≡ₚ elements (streams r) → valid_batch batch = true → eventEnvelope now batch r = Some (env, r1) →
  b_Generation batch = generation c' → generation c' = generation c + 1 →
  apply_changes (nodes c) (b_Changes batch) = nodes c' →
  feeds_ok (mkSys c' (Publish now ids pick batch r)).
Proof.
  intros [Hc Ht Hr Hl Hn Hp] Hc' Ht' Hids Hv He Hbg Hg Ha. cbn in *.
  destruct (Publish_at now ids pick batch r env r1 Hv He Hr Hids) as (Hq & Hcs & Hs).
  destruct (eventEnvelope_Some _ _ _ _ _ He) as (Hpay & Hty & _).
  assert (∀ id k, id ∈ streams r → conns r !! id = Some k →
    enqueued (outcome r pick env id k) = (if (offered r pick env id k).1 && c_writing k then enqueued k ++ [env] else enqueued k)
    ∧ c_writing (outcome r pick env id k) = c_writing k
    ∧ c_stream (outcome r pick env id k) ≠ NoStream) as Hout.
  { intros id k Hid Hk. destruct (rk_open _ Hr id Hid) as (k0 & Hk0 & Hst). rewrite Hk in Hk0. injection Hk0 as <-.
    unfold outcome, offered, stream_enqueue, server_enqueue. rewrite Hst.
    destruct (length (c_queue k) <? queueSize r)%nat, (c_ctx k && _); try (cbn; by rewrite ?Hst).
    cbn [fst snd andb]. split; [|cbn; by rewrite Hst].
    destruct (c_writing k) eqn:Hw; [by apply enqueued_push|by apply enqueued_dead]. }
  assert (∀ id k, id ∈ streams r → conns r !! id = Some k → c_writing k = true →
    feed (enqueued k ++ [env]) (generation c', nodes c')) as Hfeed.
  { intros id k Hid Hk Hw. rewrite <-Hbg, <-Ha. eapply feed_changes; [by apply (Hl id k)|lia|done|done]. }
  split; cbn; try done.
  - by apply Publish_registry_ok.
  - intros id k' [Hid Href]%Hs Hk' Hw. rewrite Hcs, decide_True in Hk' by done.
    destruct (conns r !! id) as [k|] eqn:Hk; [|done]. injection Hk' as <-.
    unfold refused in Href. rewrite Hk in Href. apply negb_false_iff in Href.
    destruct (Hout id k Hid Hk) as (-> & Hw' & _). rewrite Hw' in Hw. rewrite Href, Hw. by apply (Hfeed id k).
  - intros id k'. rewrite Hcs. case_decide as Hid; [|apply Hn].
    destruct (conns r !! id) as [k|] eqn:Hk; [|done]. intros [= <-] Hst.
    by destruct (Hout id k Hid Hk) as (_ & _ & ?).
  - intros id k'. rewrite Hcs. case_decide as Hid; [|apply Hp].
    destruct (conns r !! id) as [k|] eqn:Hk; [|done]. intros [= <-].
    destruct (Hout id k Hid Hk) as (-> & _ & _). destruct (_ && _) eqn:Hw; [|by apply (Hp id)].
    apply andb_true_iff in Hw as [_ Hw]. right. eexists. by apply (Hfeed id k).
Qed.

Lemma feeds_refresh o1 o2 o3 now ids pick listing ctx_ended c r :
  feeds_ok (mkSys c r) → fair o1 → fair o2 → fair o3 → ids ≡ₚ elements (streams r) →
  generation c < 2 ^ 64 - 1 → (∀ ns, listing = Ok ns → Forall node_time_ok ns) →
  feeds_ok (refresh_with o1 o2 o3 now ids pick listing ctx_ended (mkSys c r)).
Proof.
  intros Hy H1 H2 H3 Hids Hg Hns. unfold refresh_with, Refresh. cbn [y_cache y_registry].
  destruct listing as [ns|e]; [|exact Hy]. destruct ctx_ended; [exact Hy|].
  destruct (validateNodeSnapshot ns); [|exact Hy]. unfold ReplaceSnapshotAndPublish. cbn [fst].
  pose proof (fk_cache _ Hy) as Hc. cbn in Hc.
  destruct (replaceSnapshot o1 o2 o3 ns c) as [[batch changed] c'] eqn:Hr. cbn.
  pose proof (replaceSnapshot_ok o1 o2 o3 ns c H1 H2 H3 Hc) as Hc'. rewrite Hr in Hc'. cbn in Hc'.
  destruct (commit_times o1 o2 o3 ns c batch changed c' H1 H2 H3 Hc (Hns ns eq_refl) (fk_times _ Hy) Hr) as [Ht' Htb].
  destruct changed; cbn.
  - destruct (commit_valid o1 o2 o3 ns c batch c' H1 H2 H3 Hc Hg Hr) as [Hv Hg'].
    destruct (replaceSnapshot_commit o1 o2 o3 ns c batch c' H1 H2 H3 Hc Hr) as (_ & _ & _ & Hbg & _ & _ & _ & Ha).
    destruct (marshal_batch_some batch Htb) as [p Hp].
    assert (∃ env r1, eventEnvelope now batch r = Some (env, r1)) as (env & r1 & He).
    { unfold eventEnvelope, event_envelope. rewrite Hp. cbn. by eexists _, _. }
    by apply (feeds_publish now ids pick c c' r batch env r1).
  - revert Hr. unfold replaceSnapshot. case_bool_decide; intros [= _ <-]. exact Hy.
Qed.

Lemma feeds_close_all ids c r : feeds_ok (mkSys c r) → feeds_ok (mkSys c (CloseAll ids r)).
Proof.
  intros Hy. unfold CloseAll. apply feeds_no_streams in Hy. revert Hy. generalize (set_streams (λ _, ∅) r) as r'.
  induction ids as [|id ids IH]; intros r' Hy; [done|]. cbn. apply IH. by apply feeds_once.
Qed.

Lemma step_feeds y y' : step y y' → feeds_ok y → feeds_ok y'.
Proof.
  intros Hs Hy. destruct Hs.
  - by apply feeds_accept.
  - by apply (feeds_register _ _ _ _ _ _ k).
  - by apply feeds_refresh.
  - apply feeds_update; [done|]. intros k. by apply quiet_enqueue.
  - apply feeds_update; [done|]. intros k. apply quiet_write.
  - apply feeds_update; [done|]. intros k. by split; [apply quiet_cancel|].
  - by apply feeds_once.
  - by apply feeds_once.
  - by apply feeds_close_all.
Qed.

Lemma start_feeds size : feeds_ok (start size).
Proof.
  split; cbn.
  - apply NewNodeCache_ok.
  - apply map_Forall_empty.
  - split; [by intros id ?%elem_of_empty|done].
  - by intros id k ?%elem_of_empty.
  - done.
  - done.
Qed.

Lemma reachable_feeds size y : reachable size y → feeds_ok y.
Proof.
  intros Hy. apply (rtc_invariant _ _ _ _ step_feeds Hy), start_feeds.
Qed.

Lemma sent_enqueued k : events_of (c_sent k) `prefix_of` enqueued k.
Proof. unfold enqueued, events_of. rewrite filter_app. by apply prefix_app_r. Qed.

(** The continuity of the feeds. In every reachable state of the cache and
    the registry, whatever the order of refreshes, registrations, closures,
    writes and failures: the events written to a connection are a snapshot
    followed by change batches of consecutive generations, each of which a
    reader can apply; and a reader that gets all events enqueued for a stream
    that is still registered holds exactly the generation and the nodes of the
    cache. No queue ever exceeds the capacity. *)
Theorem feed_continuity size y :
  reachable size y →
  (∀ id k, conns (y_registry y) !! id = Some k → feed_prefix (events_of (c_sent k))) ∧
  (∀ id k, id ∈ streams (y_registry y) → conns (y_registry y) !! id = Some k → c_writing k = true →
     feed (events_of (c_sent k ++ c_queue k)) (generation (y_cache y), nodes (y_cache y))) ∧
  (∀ id k, conns (y_registry y) !! id = Some k → (length (c_queue k) ≤ queueSize (y_registry y))%nat).
Proof.
  intros [Hc Ht Hr Hl Hn Hp]%reachable_feeds. split; [|split].
  - intros id k Hk. specialize (Hp id k Hk). destruct (sent_enqueued k) as [es He]. rewrite He in Hp.
    by apply feed_prefix_app in Hp.
  - intros id k Hid Hk Hw. specialize (Hl id k Hid Hk Hw). unfold enqueued in Hl. by rewrite Hw in Hl.
  - apply (rk_bound _ Hr).
Qed.

(** A run: a connection registers with an empty cache, a refresh publishes. *)
Definition example_sys : sys :=
  let y1 := mkSys NewNodeCache (set_conns <[0%nat := new_conn]> (y_registry (start 2))) in
  let y2 := mkSys (y_cache y1) (Register map_to_list 1753920000 0 false (y_cache y1) (y_registry y1)).2 in
  let y3 := update_conn 0 (write_next true) y2 in
  refresh_with map_to_list map_to_list map_to_list 1753920005 [0%nat] (λ _, false)
    (Ok [example_node "n1" "IDLE"]) false y3.

Lemma example_sys_reachable : reachable 2 example_sys.
Proof.
  assert (∀ o : order, o = map_to_list → fair o) as Hf by (intros o ->; apply fair_map_to_list).
  unfold reachable, example_sys. cbv zeta.
  eapply rtc_r; [eapply rtc_r; [eapply rtc_r; [eapply rtc_once|]|]|].
  - by apply (step_accept 0 NewNodeCache (y_registry (start 2))).
  - eapply (step_register map_to_list 1753920000 0 false); [by apply Hf|cbn; apply lookup_insert_eq|done].
  - apply (step_write 0 true).
  - apply step_refresh; try by apply Hf.
    + by vm_compute.
    + by vm_compute.
    + intros ns [= <-]. by repeat constructor.
Qed.

Lemma feed_continuity_witness :
  ∃ k, conns (y_registry example_sys) !! 0%nat = Some k ∧ (length (c_sent k) = 1%nat) ∧ (length (c_queue k) = 1%nat) ∧
    feed_prefix (events_of (c_sent k)) ∧ feed (events_of (c_sent k ++ c_queue k)) (1, nodes (y_cache example_sys)).
Proof.
  destruct (feed_continuity 2 example_sys example_sys_reachable) as (H1 & H2 & _).
  assert ((λ k, (c_writing k, length (c_sent k), length (c_queue k))) <$> conns (y_registry example_sys) !! 0%nat
    = Some (true, 1%nat, 1%nat)) as He by (by vm_compute).
  destruct (conns (y_registry example_sys) !! 0%nat) as [k|] eqn:Hk; [|done].
  exists k. split; [done|].
  assert (generation (y_cache example_sys) = 1) as Hg by (by vm_compute).
  assert (0%nat ∈ streams (y_registry example_sys)) as Hs by (apply (bool_decide_unpack _); by vm_compute).
  injection He as Hw Ha Hb.
  split; [done|]. split; [done|]. split; [by apply (H1 0%nat)|]. rewrite <-Hg. by apply (H2 0%nat).
Defined.
