(* ===== verification/Dispatcher.v ===== *)
(** * Dispatcher: routing a message to its handler

    [internal/dispatcher/dispatcher.go] and the handlers it owns: hello, ping,
    the node query ([internal/service/query.go]) and the capabilities of the
    requester ([internal/service/capabilities.go]). A handler is a function that
    passes the state [W] of the daemon; the command handler is a parameter. *)
From S2P Require Import Prelude Utf8 Json Message CommandPayload Connection Authorization NodeCache NodeSource Stream.
Open Scope Z_scope.

(** ** Node queries *)

Inductive query_error : Type := QueryNotInitialized | ResourceRequired | UnsupportedResource (name : string).

(** [NodeQueryService.Query]; [None] is a service without a cache. [o] is the
    order in which the cache lists its nodes. *)
Definition Query (o : order) (cache : option NodeCache) (resourceName : string) : result query_error Snapshot :=
  match cache with
  | None => Err QueryNotInitialized
  | Some c =>
      guard_err (negb (streq resourceName "")) ResourceRequired;;
      guard_err (streq resourceName "nodes") (UnsupportedResource resourceName);;
      Ok (cache_Snapshot o c)
  end.

Section quoting.
(** [strconv.IsPrint] beyond ASCII: a table of the standard library. *)
Context (printable : Z → bool).

Definition hex2 (z : Z) : string := String (hex_digit (z / 16)) (String (hex_digit (z mod 16)) "").
Definition hex4_text (z : Z) : string := hex2 (z / 256) +:+ hex2 (z mod 256).
Definition bs (s : string) : string := String bslash s.

(** One rune of [strconv.Quote], which is [fmt]'s verb [%q]. *)
Definition quote_rune (r : Z) (bytes : string) : string :=
  if (r =? rune_error) && (slen bytes =? 1)%nat
  then bs "x" +:+ match bytes with String c _ => hex2 (code c) | EmptyString => "" end
  else if (r =? 34) || (r =? 92) then bs bytes
  else if r <? 128 then
    if (32 <=? r) && (r <? 127) then bytes
    else if r =? 7 then bs "a" else if r =? 8 then bs "b" else if r =? 12 then bs "f"
    else if r =? 10 then bs "n" else if r =? 13 then bs "r" else if r =? 9 then bs "t"
    else if r =? 11 then bs "v" else bs "x" +:+ hex2 r
  else if printable r then bytes
  else if r <? 65536 then bs "u" +:+ hex4_text r
  else bs "U" +:+ hex4_text (r / 65536) +:+ hex4_text (r mod 65536).
Definition strconv_Quote (s : string) : string :=
  String dquote (sconcat (map (λ x, quote_rune x.1 x.2) (segs s)) +:+ String dquote "").

Definition query_error_text (e : query_error) : string :=
  match e with
  | QueryNotInitialized => "node query service is not initialized"
  | ResourceRequired => "resource name is required"
  | UnsupportedResource name => "unsupported resource " +:+ strconv_Quote name
  end.

Definition invalid_query (detail : string) : string :=
  print_object [("code", quote "INVALID_MESSAGE"); ("message", quote detail)].

(** The request has one field; [json.Unmarshal] ignores the others. *)
Definition decode_query (payload : string) : option string :=
  v ← parse_document payload;
  let '(r, ok) := decode_struct false ["resource"] (λ _ _ w old, decode_string w old) v "" in
  if (ok : bool) then Some r else None.

(** [QueryHandler.Handle]. The keys of a Go map are printed in order. *)
Definition QueryHandler_Handle (o : order) (now : Z) (cache : option NodeCache) (msg : Envelope) : Envelope :=
  match decode_query (Payload msg) with
  | None => NewEnvelope now (MessageID msg) MessageError (invalid_query "invalid query payload")
  | Some r =>
      if streq r "" then NewEnvelope now (MessageID msg) MessageError (invalid_query "missing resource")
      else match Query o cache r with
           | Err e => NewEnvelope now (MessageID msg) MessageError
                        (print_object [("code", quote "NOT_FOUND"); ("message", strconv_Quote (query_error_text e))])
           | Ok snapshot =>
               match mapM marshal_node (s_Nodes snapshot) with
               | None => NewEnvelope now (MessageID msg) MessageError
                           (print_object [("code", quote "INTERNAL_ERROR"); ("message", quote "failed to encode snapshot")])
               | Some nodes =>
                   NewEnvelope now (MessageID msg) MessageQueryResponse
                     (print_object [("generation", print_int (s_Generation snapshot));
                        ("nodes", print_array nodes); ("resource", quote (s_Resource snapshot))])
               end
           end
  end.
End quoting.

(** ** Capabilities *)

Definition CapabilityContextResolver : Type := UserContext → result ierror UserContext.

Definition plain_error (code category detail : string) (retryable : bool) : ErrorPayload :=
  mkErrorPayload code category detail retryable "" "" None.

Definition capabilityUnavailable (now : Z) (messageID : string) : Envelope :=
  NewErrorEnvelope now messageID
    (plain_error ErrorCodeCapabilityUnavailable ErrorCategoryInternal "Capabilities are temporarily unavailable" true).

Definition identity_unavailable : ErrorPayload :=
  plain_error ErrorCodeIdentityUnavailable ErrorCategoryAuthentication
    "Unable to determine the authenticated user" false.

Definition CapabilitiesHandler_Handle (now : Z) (resolver : option CapabilityContextResolver)
  (requester : UserContext) (message : Envelope) : Envelope :=
  let id := MessageID message in
  match DecodeCapabilitiesRequestPayload (Payload message) with
  | Err _ => NewErrorEnvelope now id
               (plain_error ErrorCodeInvalidPayload ErrorCategoryValidation "Invalid capabilities request" false)
  | Ok _ =>
      if streq (Username requester) "" then NewErrorEnvelope now id identity_unavailable
      else match resolver with
           | None => capabilityUnavailable now id
           | Some resolve =>
               match resolve requester with
               | Err ErrIdentityUnavailable => NewErrorEnvelope now id identity_unavailable
               | Err _ => capabilityUnavailable now id
               | Ok resolved =>
                   if negb (streq (Username resolved) (Username requester)) || negb (UID resolved =? UID requester)
                      || negb (GID resolved =? GID requester)
                   then capabilityUnavailable now id
                   else match Capabilities resolved !! CapabilityNodeDrain, Capabilities resolved !! CapabilityNodeResume with
                        | Some drain, Some resume =>
                            NewEnvelope now id MessageCapabilitiesResponse
                              (marshal_capabilities (mkCapabilities drain resume))
                        | _, _ => capabilityUnavailable now id
                        end
               end
           end
  end.

(** ** The dispatcher *)

Section dispatcher.
Context {W : Type}.

(** Handlers read the clock and pass the state of the daemon. *)
Definition Handler : Type := Z → Envelope → W → Envelope * W.
Definition AuthenticatedHandler : Type := Z → UserContext → Envelope → W → Envelope * W.

Record MessageDispatcher : Type := mkDispatcher {
  handlers : gmap string Handler;
  authenticatedHandlers : gmap string AuthenticatedHandler;
  counter : Z;
}.

Definition register (t : string) (h : Handler) (d : MessageDispatcher) : MessageDispatcher :=
  mkDispatcher (<[t := h]> (handlers d)) (authenticatedHandlers d) (counter d).
Definition RegisterHandler (t : string) (h : option Handler) (d : MessageDispatcher) : result string MessageDispatcher :=
  match h with None => Err "handler is nil" | Some h => Ok (register t h d) end.
Definition RegisterAuthenticated (t : string) (h : option AuthenticatedHandler) (d : MessageDispatcher)
  : result string MessageDispatcher :=
  match h with
  | None => Err "authenticated handler is nil"
  | Some h => Ok (mkDispatcher (handlers d) (<[t := h]> (authenticatedHandlers d)) (counter d))
  end.

Definition next_message_id (d : MessageDispatcher) : string * MessageDispatcher :=
  let n := uint64_wrap (counter d + 1) in
  ("MSG" +:+ fmt_0d 6 (Z.to_N n), mkDispatcher (handlers d) (authenticatedHandlers d) n).

Definition dispatcher_error (now : Z) (messageID code category message : string) (retryable : bool)
  (d : MessageDispatcher) : Envelope * MessageDispatcher :=
  let '(id, d) := if streq messageID "" then next_message_id d else (messageID, d) in
  (NewErrorEnvelope now id (plain_error code category message retryable), d).

Definition helloHandler : Handler := λ now msg w,
  (NewEnvelope now (MessageID msg) MessageHelloResponse
     (print_object [("server", quote "cockpit-slurm"); ("serverVersion", quote "0.1.0")]), w).
Definition pingHandler : Handler := λ now msg w,
  (NewEnvelope now (MessageID msg) MessagePong (print_object [("status", quote "ok")]), w).

(** [read] is how the state shows the cache to the query handler. *)
Definition NewDispatcherWithCacheAndCapabilities (printable : Z → bool) (o : order) (read : W → NodeCache)
  (resolver : option CapabilityContextResolver) : MessageDispatcher :=
  let query : Handler := λ now msg w, (QueryHandler_Handle printable o now (Some (read w)) msg, w) in
  let capabilities : AuthenticatedHandler := λ now user msg w, (CapabilitiesHandler_Handle now resolver user msg, w) in
  let d := mkDispatcher ∅ ∅ 0 in
  let d := register MessageHello helloHandler d in
  let d := register MessagePing pingHandler d in
  let d := register MessageQuery query d in
  match RegisterAuthenticated MessageCapabilitiesRequest (Some capabilities) d with Ok d => d | Err _ => d end.

(** Without capabilities; [NewDispatcher] has an empty cache of its own. *)
Definition NewDispatcherWithCache (printable : Z → bool) (o : order) (read : W → NodeCache) : MessageDispatcher :=
  NewDispatcherWithCacheAndCapabilities printable o read None.
Definition NewDispatcher (printable : Z → bool) (o : order) : MessageDispatcher :=
  NewDispatcherWithCache printable o (λ _, NewNodeCache).

Definition dispatch (now : Z) (user : option UserContext) (msg : Envelope) (d : MessageDispatcher) (w : W)
  : Envelope * (MessageDispatcher * W) :=
  let fail code category message :=
    let '(r, d) := dispatcher_error now (MessageID msg) code category message false d in (r, (d, w)) in
  let invalid := fail ErrorCodeInvalidPayload ErrorCategoryValidation "Invalid protocol envelope" in
  if negb (streq (Protocol msg) ProtocolName) || negb (streq (Version msg) ProtocolVersion) then invalid
  else if streq (MessageID msg) "" || streq (Type_ msg) "" || (slen (Payload msg) =? 0)%nat then invalid
  else match authenticatedHandlers d !! Type_ msg with
       | Some h =>
           match user with
           | Some u =>
               if streq (Username u) ""
               then fail ErrorCodeIdentityUnavailable ErrorCategoryAuthentication "Unable to determine the authenticated user"
               else let '(r, w) := h now u msg w in (r, (d, w))
           | None => fail ErrorCodeIdentityUnavailable ErrorCategoryAuthentication "Unable to determine the authenticated user"
           end
       | None =>
           match handlers d !! Type_ msg with
           | None => fail ErrorCodeUnsupportedMessageType ErrorCategoryProtocol "Message type is not supported"
           | Some h => let '(r, w) := h now msg w in (r, (d, w))
           end
       end.

Definition Dispatch (now : Z) (msg : Envelope) := dispatch now None msg.
Definition DispatchWithUser (now : Z) (user : UserContext) (msg : Envelope) := dispatch now (Some user) msg.

(** The dispatcher of the daemon: [main] adds the command handler. *)
Definition daemon_dispatcher (printable : Z → bool) (o : order) (read : W → NodeCache)
  (resolver : option CapabilityContextResolver) (command : AuthenticatedHandler) : result string MessageDispatcher :=
  RegisterAuthenticated MessageCommand (Some command)
    (NewDispatcherWithCacheAndCapabilities printable o read resolver).
End dispatcher.

(** ** Routing *)

(** What [dispatch] asks of an envelope: the known types are not checked. *)
Definition enveloped (msg : Envelope) : bool :=
  streq (Protocol msg) ProtocolName && streq (Version msg) ProtocolVersion
  && negb (streq (MessageID msg) "") && negb (streq (Type_ msg) "") && negb (slen (Payload msg) =? 0)%nat.

Lemma enveloped_well_formed msg : well_formed msg → enveloped msg = true.
Proof.
  unfold enveloped. intros (-> & -> & Hm & Ht & Hp). rewrite !streq_refl.
  apply known_types_nonempty in Ht. apply streq_false in Hm, Ht. rewrite Hm, Ht.
  destruct (Payload msg); [done|]. done.
Qed.

Section routing.
Context {W : Type} (printable : Z → bool) (o : order) (read : W → NodeCache)
  (resolver : option CapabilityContextResolver) (command : AuthenticatedHandler (W := W)).

Notation daemon := (daemon_dispatcher printable o read resolver command).

Definition authenticated_types : list string := [MessageCommand; MessageCapabilitiesRequest].
Definition open_types : list string := [MessageHello; MessagePing; MessageQuery].

(** The reply of a route that is neither the command route nor authenticated. *)
Definition open_reply (now : Z) (msg : Envelope) (w : W) : Envelope :=
  if streq (Type_ msg) MessageHello then (helloHandler now msg w).1
  else if streq (Type_ msg) MessagePing then (pingHandler now msg w).1
  else QueryHandler_Handle printable o now (Some (read w)) msg.

Lemma dispatch_enveloped now user msg (d : MessageDispatcher (W := W)) w : enveloped msg = true →
  dispatch now user msg d w =
  let fail code category message :=
    (NewErrorEnvelope now (MessageID msg) (plain_error code category message false), (d, w)) in
  match authenticatedHandlers d !! Type_ msg, user with
  | Some h, Some u =>
      if streq (Username u) "" then (NewErrorEnvelope now (MessageID msg) identity_unavailable, (d, w))
      else ((h now u msg w).1, (d, (h now u msg w).2))
  | Some _, None => (NewErrorEnvelope now (MessageID msg) identity_unavailable, (d, w))
  | None, _ =>
      match handlers d !! Type_ msg with
      | None => fail ErrorCodeUnsupportedMessageType ErrorCategoryProtocol "Message type is not supported"
      | Some h => ((h now msg w).1, (d, (h now msg w).2))
      end
  end.
Proof.
  unfold enveloped. intros H. repeat apply andb_true_iff in H as [H ?].
  repeat match goal with H : negb _ = true |- _ => apply negb_true_iff in H end.
  unfold dispatch, dispatcher_error. rewrite H, H3, H2, H1, H0. cbn [negb orb].
  destruct (authenticatedHandlers d !! Type_ msg) as [h|].
  - destruct user as [u|]; [|done]. destruct (streq (Username u) ""); [done|]. by destruct (h now u msg w).
  - destruct (handlers d !! Type_ msg) as [h|]; [|done]. by destruct (h now msg w).
Qed.

Lemma daemon_routes : ∃ d, daemon = Ok d ∧ counter d = 0 ∧
  (∀ t, authenticatedHandlers d !! t =
     if streq t MessageCommand then Some command
     else if streq t MessageCapabilitiesRequest
     then Some (λ now user msg w, (CapabilitiesHandler_Handle now resolver user msg, w)) else None) ∧
  (∀ t, handlers d !! t =
     if streq t MessageQuery then Some (λ now msg w, (QueryHandler_Handle printable o now (Some (read w)) msg, w))
     else if streq t MessagePing then Some pingHandler
     else if streq t MessageHello then Some helloHandler else None).
Proof.
  exists (mkDispatcher
    (<[MessageQuery := λ now msg w, (QueryHandler_Handle printable o now (Some (read w)) msg, w)]>
      (<[MessagePing := pingHandler]> (<[MessageHello := helloHandler]> ∅)))
    (<[MessageCommand := command]>
      (<[MessageCapabilitiesRequest := λ now user msg w, (CapabilitiesHandler_Handle now resolver user msg, w)]> ∅)) 0).
  split; [reflexivity|]. split; [done|].
  assert (∀ {A} (m : gmap string A) k v t, <[k := v]> m !! t = if streq t k then Some v else m !! t) as Hins.
  { intros A m k v t. destruct (streq t k) eqn:Ht.
    - apply streq_true in Ht as ->. by rewrite lookup_insert_eq.
    - apply streq_false in Ht. by rewrite lookup_insert_ne. }
  split; intros t; cbn [authenticatedHandlers handlers]; by rewrite !Hins, lookup_empty.
Qed.

(** A server without a dispatcher of its own serves no commands. *)
Lemma NewDispatcher_no_commands now user msg w : enveloped msg = true → Type_ msg = MessageCommand →
  let d := NewDispatcher (W := W) printable o in
  dispatch now user msg d w =
  (NewErrorEnvelope now (MessageID msg)
     (plain_error ErrorCodeUnsupportedMessageType ErrorCategoryProtocol "Message type is not supported" false), (d, w)).
Proof. intros Hm Ht. cbn zeta. rewrite dispatch_enveloped by done. rewrite Ht. reflexivity. Qed.

Lemma dispatch_bad now user msg (d : MessageDispatcher (W := W)) w : enveloped msg = false →
  ∃ id d', dispatch now user msg d w =
    (NewErrorEnvelope now id (plain_error ErrorCodeInvalidPayload ErrorCategoryValidation "Invalid protocol envelope" false),
     (d', w)) ∧ id ≠ "" ∧ (MessageID msg ≠ "" → id = MessageID msg ∧ d' = d).
Proof.
  intros He. set (bad := plain_error ErrorCodeInvalidPayload ErrorCategoryValidation "Invalid protocol envelope" false).
  assert (dispatch now user msg d w =
    let '(id, d1) := if streq (MessageID msg) "" then next_message_id d else (MessageID msg, d) in
    (NewErrorEnvelope now id bad, (d1, w))) as ->.
  { unfold dispatch, dispatcher_error, enveloped in *.
    destruct (streq (Protocol msg) ProtocolName), (streq (Version msg) ProtocolVersion); cbn [negb orb andb] in *;
      destruct (streq (MessageID msg) ""); cbn [negb orb andb] in *; try done.
    destruct (streq (Type_ msg) ""); cbn [negb orb andb] in *; [done|].
    by destruct (slen (Payload msg) =? 0)%nat. }
  destruct (streq (MessageID msg) "") eqn:Hm.
  - apply streq_true in Hm. unfold next_message_id. eexists _, _. split; [done|]. split; [done|]. by rewrite Hm.
  - apply streq_false in Hm. by exists (MessageID msg), d.
Qed.

Lemma elem_of_open t : t ∈ open_types ↔ t = MessageHello ∨ t = MessagePing ∨ t = MessageQuery.
Proof. unfold open_types. rewrite !elem_of_cons, elem_of_nil. tauto. Qed.

(** The routes of the daemon for an enveloped message. *)
Definition as_named (now : Z) (user : option UserContext) (msg : Envelope) (w : W)
  (h : UserContext → Envelope * W) : Envelope * W :=
  match user with
  | Some u => if streq (Username u) "" then (NewErrorEnvelope now (MessageID msg) identity_unavailable, w) else h u
  | None => (NewErrorEnvelope now (MessageID msg) identity_unavailable, w)
  end.
Definition unsupported : ErrorPayload :=
  plain_error ErrorCodeUnsupportedMessageType ErrorCategoryProtocol "Message type is not supported" false.
Definition route (now : Z) (user : option UserContext) (msg : Envelope) (w : W) : Envelope * W :=
  let t := Type_ msg in
  if streq t MessageCommand then as_named now user msg w (λ u, command now u msg w)
  else if streq t MessageCapabilitiesRequest
  then as_named now user msg w (λ u, (CapabilitiesHandler_Handle now resolver u msg, w))
  else if bool_decide (t ∈ open_types) then (open_reply now msg w, w)
  else (NewErrorEnvelope now (MessageID msg) unsupported, w).

Lemma dispatch_route d now user msg w : daemon = Ok d → enveloped msg = true →
  dispatch now user msg d w = ((route now user msg w).1, (d, (route now user msg w).2)).
Proof.
  intros Hd He. destruct daemon_routes as (d0 & Hd0 & _ & Ha & Ho). rewrite Hd in Hd0. injection Hd0 as <-.
  rewrite (dispatch_enveloped _ _ _ _ _ He), Ha, Ho. cbn zeta. unfold route, as_named, open_reply.
  destruct (streq (Type_ msg) MessageCommand); [by destruct user as [u|]; [destruct (streq (Username u) "")|]|].
  destruct (streq (Type_ msg) MessageCapabilitiesRequest);
    [by destruct user as [u|]; [destruct (streq (Username u) "")|]|].
  generalize (Type_ msg). intros t.
  assert (bool_decide (t ∈ open_types) = streq t MessageHello || streq t MessagePing || streq t MessageQuery) as ->.
  { apply eq_bool_prop_intro. rewrite bool_decide_spec, elem_of_open, !orb_True, !Is_true_true, !streq_true. tauto. }
  destruct (streq t MessageQuery) eqn:H1.
  - apply streq_true in H1 as ->. change (streq MessageQuery MessageHello) with false.
    change (streq MessageQuery MessagePing) with false. reflexivity.
  - destruct (streq t MessagePing) eqn:H2; [|by destruct (streq t MessageHello)].
    apply streq_true in H2 as ->. change (streq MessagePing MessageHello) with false. reflexivity.
Qed.

Lemma as_named_some now user msg w h u : user = Some u ∧ Username u ≠ "" → as_named now user msg w h = h u.
Proof. intros [-> Hu%streq_false]. unfold as_named. by rewrite Hu. Qed.
Lemma as_named_none now user msg w h : (∀ u, ¬ (user = Some u ∧ Username u ≠ "")) →
  as_named now user msg w h = (NewErrorEnvelope now (MessageID msg) identity_unavailable, w).
Proof.
  intros Hno. destruct user as [u|]; [|done]. unfold as_named. destruct (streq (Username u) "") eqn:Hu; [done|].
  apply streq_false in Hu. by destruct (Hno u).
Qed.

(** C21. Routing. Whatever message reaches the dispatcher of the daemon: the
    command handler runs only for an enveloped command message of a named user,
    gets that user and that message, and its reply is the reply; nothing else
    changes the state of the daemon. The capabilities handler, too, runs only
    for a named user. Hello, ping and query are answered for everybody; every
    other type is refused as unsupported, and a message without a proper
    envelope as invalid, under its own ID when it has one. *)
Theorem dispatch_contract d now user msg w :
  daemon = Ok d →
  let '(reply, (d', w')) := dispatch now user msg d w in
  let named u := user = Some u ∧ Username u ≠ "" in
  (enveloped msg = false →
     w' = w ∧ MessageID reply ≠ "" ∧
     reply = NewErrorEnvelope now (MessageID reply)
       (plain_error ErrorCodeInvalidPayload ErrorCategoryValidation "Invalid protocol envelope" false) ∧
     (MessageID msg ≠ "" → MessageID reply = MessageID msg ∧ d' = d)) ∧
  (enveloped msg = true → d' = d ∧
     (∀ u, named u → Type_ msg = MessageCommand → (reply, w') = command now u msg w) ∧
     (∀ u, named u → Type_ msg = MessageCapabilitiesRequest →
        reply = CapabilitiesHandler_Handle now resolver u msg ∧ w' = w) ∧
     ((∀ u, ¬ named u) → Type_ msg ∈ authenticated_types →
        reply = NewErrorEnvelope now (MessageID msg) identity_unavailable ∧ w' = w) ∧
     (Type_ msg ∈ open_types → reply = open_reply now msg w ∧ w' = w) ∧
     (Type_ msg ∉ authenticated_types → Type_ msg ∉ open_types →
        reply = NewErrorEnvelope now (MessageID msg) unsupported ∧ w' = w)).
Proof.
  intros Hd. destruct (enveloped msg) eqn:He.
  - rewrite (dispatch_route d now user msg w Hd He).
    split; [done|]. intros _. split; [done|]. unfold route. split_and!.
    + intros u Hu ->. rewrite streq_refl, (as_named_some _ _ _ _ _ u Hu). symmetry. apply surjective_pairing.
    + intros u Hu ->. change (streq MessageCapabilitiesRequest MessageCommand) with false.
      by rewrite streq_refl, (as_named_some _ _ _ _ _ u Hu).
    + intros Hno Ht. unfold authenticated_types in Ht. rewrite !as_named_none by done.
      apply elem_of_cons in Ht as [-> | ->%list_elem_of_singleton]; done.
    + intros Ht. rewrite (bool_decide_eq_true_2 _ Ht).
      assert (Type_ msg ≠ MessageCommand ∧ Type_ msg ≠ MessageCapabilitiesRequest) as [H1%streq_false H2%streq_false]
        by (apply elem_of_open in Ht as [-> | [-> | ->]]; done).
      by rewrite H1, H2.
    + unfold authenticated_types. rewrite !elem_of_cons, elem_of_nil. intros Ha Ho.
      rewrite !(proj2 (streq_false _ _)) by tauto. by rewrite bool_decide_eq_false_2.
  - destruct (dispatch_bad now user msg d w He) as (id & d' & -> & Hid & Hm).
    split; [|done]. intros _. done.
Qed.
End routing.

Definition counting_command : AuthenticatedHandler (W := nat) := λ now _ msg w,
  (NewEnvelope now (MessageID msg) MessageCommandResponse "{}", S w).
Definition example_message (t : string) : Envelope := NewEnvelope 1753920000 "m-1" t "{}".

Lemma dispatch_contract_witness :
  ∃ d, daemon_dispatcher (λ _, true) map_to_list (λ _ : nat, NewNodeCache) None counting_command = Ok d ∧
  (dispatch 7 (Some alice) (example_message MessageCommand) d 0%nat).2.2 = 1%nat ∧
  (dispatch 7 None (example_message MessageCommand) d 0%nat).2.2 = 0%nat.
Proof.
  destruct (daemon_routes (λ _, true) map_to_list (λ _ : nat, NewNodeCache) None counting_command) as (d & Hd & _).
  exists d. split; [exact Hd|].
  pose proof (dispatch_contract _ _ _ _ _ d 7 (Some alice) (example_message MessageCommand) 0%nat Hd) as H1.
  pose proof (dispatch_contract _ _ _ _ _ d 7 None (example_message MessageCommand) 0%nat Hd) as H2.
  destruct (dispatch 7 (Some alice) (example_message MessageCommand) d 0%nat) as [r1 [d1 w1]].
  destruct (dispatch 7 None (example_message MessageCommand) d 0%nat) as [r2 [d2 w2]].
  split.
  - destruct H1 as [_ [_ [H1 _]]]; [reflexivity|]. specialize (H1 alice). cbn.
    assert (Some alice = Some alice ∧ Username alice ≠ "") as Hn by (split; [done|by vm_compute]).
    specialize (H1 Hn eq_refl). by injection H1.
  - destruct H2 as [_ [_ [_ [_ [H2 _]]]]]; [reflexivity|]. cbn.
    apply H2; [naive_solver|]. by left.
Defined.

(** ** Capabilities *)

Lemma Resolve_capabilities users requester u : Resolve users requester = Ok u →
  Capabilities u !! CapabilityNodeDrain = Some (streq (AdminLevel u) "admin")
  ∧ Capabilities u !! CapabilityNodeResume = Some (streq (AdminLevel u) "admin").
Proof.
  unfold Resolve. intros H. inv_ok. destruct users as [lookup|]; [|done].
  destruct (lookup (Username requester)) as [[su|]|]; [|done..]. inv_ok. subst u.
  cbn [Capabilities AdminLevel]. by rewrite lookup_insert_eq, lookup_insert_ne, lookup_singleton_eq.
Qed.

Lemma Authorize_resolved r users requester op entry u :
  r !! op = Some entry → Resolve users requester = Ok u →
  Authorize (Some r) (Some (Resolve users)) requester op
  = Ok (mkDecision (capability u (RequiredCapability entry)) (RequiredCapability entry) u).
Proof.
  intros He Hu. pose proof (Resolve_Ok _ _ _ Hu) as (Hne & H1 & H2 & H3 & _).
  apply streq_false in Hne. unfold Authorize. rewrite registry_Lookup_some, He, Hu, H1, H2, H3, Hne.
  by rewrite streq_refl, !Z.eqb_refl.
Qed.

(** What the user sees is what he may do. Over the daemon's resolver the
    capabilities handler answers with capabilities exactly when the request is
    valid and the user can be resolved; both capabilities are then whether
    Slurm's record of him has the administrator level, and each of them is the
    decision the authorizer of the daemon takes on its operation. *)
Theorem capabilities_agree users requester now msg :
  let reply := CapabilitiesHandler_Handle now (Some (Resolve users)) requester msg in
  MessageID reply = MessageID msg ∧
  match DecodeCapabilitiesRequestPayload (Payload msg), Resolve users requester with
  | Ok _, Ok u =>
      let admin := streq (AdminLevel u) "admin" in
      reply = NewEnvelope now (MessageID msg) MessageCapabilitiesResponse
        (marshal_capabilities (mkCapabilities admin admin)) ∧
      ∀ r, node_registry = Some r → ∀ op, op ∈ [OperationNodeDrain; OperationNodeResume] →
        ∃ d, Authorize (Some r) (Some (Resolve users)) requester op = Ok d ∧ Allowed d = admin
  | _, _ => Type_ reply = MessageError
  end.
Proof.
  cbn zeta. unfold CapabilitiesHandler_Handle.
  destruct (DecodeCapabilitiesRequestPayload (Payload msg)) as [[]|e]; [|done].
  destruct (Resolve users requester) as [u|e] eqn:Hu.
  - pose proof (Resolve_Ok _ _ _ Hu) as (Hne & H1 & H2 & H3 & _ & Hc). apply streq_false in Hne.
    destruct (Resolve_capabilities _ _ _ Hu) as [Hd Hr].
    rewrite Hne, H1, H2, H3, streq_refl, !Z.eqb_refl, Hd, Hr. cbn [negb orb].
    split; [done|]. split; [done|]. intros r Hreg op Hop.
    assert (∃ entry, r !! op = Some entry ∧
              Capabilities u !! RequiredCapability entry = Some (streq (AdminLevel u) "admin")) as (entry & He & Hent).
    { unfold node_registry in Hreg. rewrite NewNodeRegistry_Ok in Hreg. injection Hreg as <-.
      apply elem_of_cons in Hop as [-> | ->%list_elem_of_singleton]; [exists drain_entry|exists resume_entry];
        (split; [reflexivity|done]). }
    eexists. split; [by apply Authorize_resolved|]. cbn [Allowed]. unfold capability. by rewrite Hent.
  - destruct (streq (Username requester) ""); [done|]. by destruct e.
Qed.
