(* ===== verification/Printing.v ===== *)
(** * Printing: what the daemon marshals is JSON

    Closure lemmas for [printable]: whatever texts, numbers and records of the
    program are marshalled, a JSON parser reads the result back and compaction
    leaves it alone. Invalid UTF-8 is included: it is printed as an escape. The
    lemmas are collected in the database [printing]. *)
From S2P Require Import Prelude Utf8 Json Message JsonValidation Codec CommandPayload NodeCache Stream.
Open Scope Z_scope.

(** [p] is one compact JSON value at most [d] containers deep, without repeated
    keys and with numbers in range. *)
Definition printable (d : nat) (p : string) : Prop :=
  ∃ j, prints d p j ∧ stable p ∧ good j = true.

Create HintDb printing.

Lemma printable_mono d d' p : (d ≤ d')%nat → printable d p → printable d' p.
Proof. intros Hd (j & Hp & Hs & Hg). exists j. eauto using prints_mono. Qed.

Lemma printable_canonical d p : (d ≤ inner_depth)%nat → printable d p → canonical p.
Proof.
  intros Hd Hp. by apply (printable_mono d inner_depth).
Qed.

(** ** Texts *)

(** A rune of any text is either an invalid byte or the encoding of a rune. *)
Lemma seg_cases s : s ≠ "" →
  quote_seg (decode_rune s).1 (stake (decode_rune s).2 s) = "\ufffd"
  ∨ ∃ r, valid_rune r = true ∧
      quote_seg (decode_rune s).1 (stake (decode_rune s).2 s) = quote_seg r (encode_valid r).
Proof.
  intros Hs. destruct (decode_rune s) as [r n] eqn:Hd. cbn [fst snd].
  destruct (seg_valid (r, stake n s)) eqn:Hv.
  - right. exists r. destruct (decode_rune_canonical s r n Hs Hd Hv) as [Hr ->]. done.
  - left. unfold seg_valid in Hv. apply negb_false_iff in Hv. cbn [fst snd] in Hv. unfold quote_seg. by rewrite Hv.
Qed.

Lemma quote_body_cons s : s ≠ "" →
  quote_body s = quote_seg (decode_rune s).1 (stake (decode_rune s).2 s)
                 +:+ quote_body (sdrop (decode_rune s).2 s).
Proof. intros Hs. unfold quote_body. by rewrite (segs_cons s Hs). Qed.

Lemma scan_replacement t : scan_string ("\ufffd" +:+ t) = prepend "\ufffd" (scan_string t).
Proof. done. Qed.

Lemma compact_replacement t : compact_from CIn 0 ("\ufffd" +:+ t) = "\ufffd" +:+ compact_from CIn 0 t.
Proof. done. Qed.

Lemma scan_quote_text s rest :
  scan_string (quote_body s +:+ String dquote rest) = Some (quote_body s, rest).
Proof.
  induction s as [|s Hs IH] using rune_ind; [done|]. rewrite quote_body_cons, sapp_assoc by done.
  destruct (seg_cases s Hs) as [->|(r & Hr & ->)].
  - rewrite scan_replacement. by rewrite IH.
  - by rewrite scan_quote_seg, IH.
Qed.

Lemma prints_quote_text d s : prints d (quote s) (JStr (unquote (quote_body s))).
Proof.
  split; [done|]. intros t _. rewrite quote_app, parse_value_scalar by done.
  cbn [scan_scalar]. replace (dquote =a dquote) with true by done. by rewrite scan_quote_text.
Qed.

Lemma compact_quote_seg r t : valid_rune r = true →
  compact_from CIn 0 (quote_seg r (encode_valid r) +:+ t)
  = quote_seg r (encode_valid r) +:+ compact_from CIn 0 t.
Proof.
  intros Hr. pose proof Hr as [Hb _]%valid_rune_true. destruct (Z.ltb_spec r 128) as [Hlt|Hge].
  - destruct (quote_seg_ascii r ltac:(lia)) as [-> Hc]. by apply compact_in_quote_byte.
  - rewrite quote_seg_high by done. destruct (Z.eqb_spec r 8232) as [->|H1]; [done|].
    destruct (Z.eqb_spec r 8233) as [->|H2]; [done|]. by apply compact_in_encode.
Qed.

Lemma stable_quote_text s : stable (quote s).
Proof.
  intros t. rewrite !quote_app.
  change (compact_from COut 0 (String dquote (quote_body s +:+ String dquote t)))
    with (String dquote (compact_from CIn 0 (quote_body s +:+ String dquote t))).
  f_equal. induction s as [|s Hs IH] using rune_ind; [done|].
  rewrite quote_body_cons, !sapp_assoc by done. destruct (seg_cases s Hs) as [->|(r & Hr & ->)].
  - rewrite compact_replacement. by rewrite IH.
  - by rewrite compact_quote_seg, IH.
Qed.

Lemma printable_quote d s : printable d (quote s).
Proof. eexists. split; [apply prints_quote_text|]. split; [apply stable_quote_text|done]. Qed.

Lemma printable_bool d b : printable d (print_bool b).
Proof. exists (JBool b). split; [apply prints_bool|]. split; [apply stable_bool|done]. Qed.

Lemma printable_null d : printable d "null".
Proof. exists JNull. split; [apply prints_null|done]. Qed.

(** ** Numbers *)

Definition number_char (c : ascii) : bool := is_digit c || (c =a "-")%char.

Lemma stable_number s : sforallb number_char s = true → stable s.
Proof.
  intros Hs t. induction s as [|c s IH]; [done|]. cbn [sforallb] in Hs.
  apply andb_true_iff in Hs as [Hc Hs]. rewrite !sapp_cons, <-(IH Hs).
  generalize (s +:+ t). intros u. clear -Hc. by byte_cases c.
Qed.

Lemma pretty_char_digit x : (x < 10)%N →
  is_digit (pretty_N_char x) = true ∧ code (pretty_N_char x) - 48 = Z.of_N x.
Proof.
  intros Hx. assert (x = 0 ∨ x = 1 ∨ x = 2 ∨ x = 3 ∨ x = 4 ∨ x = 5 ∨ x = 6 ∨ x = 7 ∨ x = 8 ∨ x = 9)%N as H by lia.
  by repeat destruct H as [->|H]; subst.
Qed.

(** The digits of a number: they are digits, they are worth the number, and the
    first one is not zero. *)
Lemma pretty_go_spec x s : (0 < x)%N →
  (sforallb is_digit s = true → sforallb is_digit (pretty_N_go x s) = true)
  ∧ digits_value 0 (pretty_N_go x s) = digits_value (Z.of_N x) s
  ∧ ∃ c u, pretty_N_go x s = String c u ∧ (c =a "0")%char = false ∧ is_digit c = true.
Proof.
  revert s. induction x as [x IH] using (well_founded_induction N.lt_wf_0). intros s Hx.
  rewrite pretty_N_go_step by done.
  destruct (pretty_char_digit (x mod 10)) as [Hd Hc]; [by apply N.mod_lt|].
  pose proof (N.div_mod' x 10) as Hdm.
  assert (digits_value (Z.of_N (x / 10)) (String (pretty_N_char (x mod 10)) s) = digits_value (Z.of_N x) s) as Hval.
  { unfold digits_value. cbn [String.list_ascii_of_string foldl]. f_equal.
    lia. }
  assert (sforallb is_digit s = true → sforallb is_digit (String (pretty_N_char (x mod 10)) s) = true) as Hdig.
  { intros Hs. cbn [sforallb]. by rewrite Hd. }
  destruct (N.eq_0_gt_0_cases (x / 10)) as [H0|H0].
  - rewrite H0 in *. rewrite pretty_N_go_0. split; [done|]. split; [exact Hval|].
    eexists _, _. split; [done|]. split; [|done].
    destruct (pretty_N_char (x mod 10) =a "0")%char eqn:Hz; [|done].
    apply Ascii.eqb_eq in Hz. rewrite Hz in Hc. change (code "0") with 48 in Hc. lia.
  - destruct (IH (x / 10)%N ltac:(by apply N.div_lt) (String (pretty_N_char (x mod 10)) s) H0) as (H1 & H2 & H3).
    split; [auto|]. split; [by rewrite H2|done].
Qed.

Lemma pretty_digits (n : N) :
  sforallb is_digit (pretty n) = true ∧ digits_value 0 (pretty n) = Z.of_N n
  ∧ ∃ c u, pretty n = String c u ∧ is_digit c = true ∧ ((c =a "0")%char = true → u = "").
Proof.
  unfold pretty, pretty_N. case_decide as Hn.
  - subst. split; [done|]. split; [done|]. by exists "0"%char, "".
  - destruct (pretty_go_spec n "" ltac:(lia)) as (H1 & H2 & c & u & H3 & H4 & H5).
    split; [auto|]. split; [done|]. exists c, u. split; [done|]. split; [done|]. by rewrite H4.
Qed.

Lemma span_digits_app p t : sforallb is_digit p = true →
  (∀ c u, t = String c u → is_digit c = false) → span_digits (p +:+ t) = (p, t).
Proof.
  intros Hp Ht. induction p as [|c p IH].
  - rewrite sapp_nil_l. destruct t as [|c u]; [done|]. cbn [span_digits]. by rewrite (Ht c u).
  - cbn [sforallb] in Hp. apply andb_true_iff in Hp as [Hc Hp]. rewrite sapp_cons. cbn [span_digits].
    by rewrite Hc, IH.
Qed.

Lemma delimited_char c u : delimited (String c u) = true →
  is_digit c = false ∧ (c =a ".")%char = false ∧ (c =a "e")%char = false ∧ (c =a "E")%char = false.
Proof.
  intros Hc. cbn [delimited] in Hc.
  destruct c as [[] [] [] [] [] [] [] []]; first [discriminate Hc | done].
Qed.

Lemma scan_rest t : delimited t = true → scan_frac t = Some ("", t) ∧ scan_exp t = Some ("", t).
Proof.
  destruct t as [|c u]; [done|]. intros (_ & H1 & H2 & H3)%delimited_char.
  unfold scan_frac, scan_exp. by rewrite H1, H2, H3.
Qed.

Lemma scan_int_pretty (n : N) t : delimited t = true → scan_int (pretty n +:+ t) = Some (pretty n, t).
Proof.
  intros Ht. destruct (pretty_digits n) as (Hd & _ & c & u & Hp & Hc & Hz).
  pose proof (span_digits_app (pretty n) t Hd) as Hs. rewrite Hp in *.
  rewrite sapp_cons in *. unfold scan_int. destruct (c =a "0")%char eqn:H0.
  - apply Ascii.eqb_eq in H0 as ->. by rewrite Hz.
  - rewrite Hc. rewrite Hs; [done|]. intros c' u' ->. by apply delimited_char in Ht as [? _].
Qed.

Lemma number_overflows_pretty (n : N) : Z.of_N n < 2 ^ 1023 → number_overflows (pretty n) = false.
Proof.
  intros Hn. destruct (pretty_digits n) as (Hd & Hv & c & u & Hp & Hc & _).
  pose proof (span_digits_app (pretty n) "" Hd ltac:(done)) as Hs. rewrite sapp_nil_r in Hs.
  unfold number_overflows, number_parts.
  assert (strip_sign (pretty n) = (false, pretty n)) as ->.
  { rewrite Hp. clear -Hc. by byte_cases c. }
  rewrite Hs, Hv. cbn [digits_value String.list_ascii_of_string foldl slen].
  change (0 - Z.of_nat 0) with 0. destruct (Z.of_N n =? 0); [done|].
  change (0 <=? 0) with true. change (310 <=? 0) with false. cbn [orb].
  apply Z.leb_gt. unfold float64_limit. rewrite Z.mul_1_r.
  replace (2 ^ 1024) with (2 * 2 ^ 1023) by done.
  assert (2 ^ 970 < 2 ^ 1023) by (apply Z.pow_lt_mono_r; lia). lia.
Qed.

Lemma strip_sign_pretty (n : N) : strip_sign (pretty n) = (false, pretty n).
Proof. destruct (pretty_digits n) as (_ & _ & c & u & -> & Hc & _). by byte_cases c. Qed.

Lemma scan_number_pretty (n : N) (neg : bool) t : delimited t = true →
  scan_number ((if neg then "-" else "") +:+ pretty n +:+ t)
  = Some ((if neg then "-" else "") +:+ pretty n, t).
Proof.
  intros Ht. unfold scan_number. destruct (scan_rest t Ht) as [Hf He]. destruct neg.
  - rewrite sapp_cons, sapp_nil_l. change ("-" =a "-")%char with true. cbn iota beta.
    rewrite scan_int_pretty by done. cbn [mbind option_bind]. rewrite Hf. cbn [mbind option_bind].
    rewrite He. cbn [mbind option_bind]. by rewrite !sapp_nil_r.
  - rewrite !sapp_nil_l. pose proof (scan_int_pretty n t Ht) as Hi.
    destruct (pretty_digits n) as (_ & _ & c & u & Hp & Hc & _). rewrite Hp in *. rewrite sapp_cons in *.
    replace (c =a "-")%char with false by (clear -Hc; by byte_cases c). rewrite Hi.
    cbn [mbind option_bind]. rewrite Hf. cbn [mbind option_bind]. rewrite He. cbn [mbind option_bind].
    by rewrite sapp_nil_l, !sapp_nil_r.
Qed.

Lemma print_int_text z :
  print_int z = (if z <? 0 then "-" else "") +:+ pretty (Z.to_N (Z.abs z)).
Proof. by destruct z. Qed.

Lemma number_char_digits s : sforallb is_digit s = true → sforallb number_char s = true.
Proof. apply sforallb_impl. intros c Hc. unfold number_char. by rewrite Hc. Qed.

Lemma scan_scalar_number s lit t : scan_number s = Some (lit, t) →
  (∃ c u, s = String c u ∧ (is_digit c = true ∨ (c =a "-")%char = true)) →
  ∀ d, skip_ws s = s ∧ parse_value d s = Some (JNum lit, t).
Proof.
  intros Hs (c & u & -> & Hc) d.
  assert (is_space c = false ∧ (c =a "{")%char = false ∧ (c =a "[")%char = false ∧ (c =a dquote) = false
    ∧ (c =a "t")%char = false ∧ (c =a "f")%char = false ∧ (c =a "n")%char = false) as (H1 & H2 & H3 & H4 & H5 & H6 & H7).
  { clear -Hc. destruct c as [[] [] [] [] [] [] [] []];
      first [by destruct Hc as [Hc|Hc]; discriminate Hc | done]. }
  split; [cbn [skip_ws]; by rewrite H1|].
  rewrite parse_value_scalar by done. unfold scan_scalar. by rewrite H4, H5, H6, H7, Hs.
Qed.

Lemma printable_int d z : Z.abs z < 2 ^ 1023 → printable d (print_int z).
Proof.
  intros Hz. rewrite print_int_text. set (n := Z.to_N (Z.abs z)).
  set (sign := if z <? 0 then "-" else "").
  exists (JNum (sign +:+ pretty n)). destruct (pretty_digits n) as (Hd & _ & c & u & Hp & Hc & _).
  assert (∃ c' u', sign +:+ pretty n = String c' u' ∧ (is_digit c' = true ∨ (c' =a "-")%char = true)) as Hhead.
  { unfold sign. destruct (z <? 0); rewrite ?sapp_cons, ?sapp_nil_l; [|rewrite Hp]; eauto. }
  split; [split|split].
  - intros t. destruct Hhead as (c' & u' & -> & Hc'). rewrite sapp_cons. cbn [skip_ws].
    replace (is_space c') with false; [done|].
    clear -Hc'. destruct c' as [[] [] [] [] [] [] [] []]; first [by destruct Hc' as [Hc|Hc]; discriminate Hc | done].
  - intros t Ht. apply scan_scalar_number.
    + rewrite sapp_assoc. by apply (scan_number_pretty n (z <? 0)).
    + destruct Hhead as (c' & u' & -> & Hc'). rewrite sapp_cons. eauto.
  - apply stable_number. rewrite sforallb_app, (number_char_digits _ Hd). unfold sign. by destruct (z <? 0).
  - unfold good. cbn [unique_keys numbers_in_range andb].
    replace (number_overflows (sign +:+ pretty n)) with (number_overflows (pretty n)).
    { rewrite number_overflows_pretty; [done|]. unfold n. lia. }
    unfold sign. destruct (z <? 0); [|by rewrite sapp_nil_l].
    unfold number_overflows, number_parts. rewrite sapp_cons, sapp_nil_l, strip_sign_pretty. done.
Qed.

(** ** Arrays and objects *)

Lemma printable_nonempty d p : printable d p → p ≠ "".
Proof. intros (j & [_ Hp] & _) ->. specialize (Hp "" eq_refl). by destruct d. Qed.

Lemma prints_not_close d p j t : prints d p j → expect "]" (p +:+ t) = None.
Proof.
  intros [Hw Hp]. unfold expect. rewrite Hw.
  destruct p as [|c p]; [specialize (Hp "" eq_refl); by destruct d|].
  specialize (Hp "" eq_refl). specialize (Hw ""). rewrite !sapp_cons in *.
  destruct (c =a "]")%char eqn:Hc; [|done]. apply Ascii.eqb_eq in Hc as ->.
  by destruct d.
Qed.

Lemma parse_print_elems d l js first fuel t :
  Forall2 (prints d) l js → l ≠ [] → (length l < fuel)%nat →
  parse_elems (parse_value d) fuel first ((if first then "" else ",") +:+ join "," l +:+ String "]" t)
  = Some (js, t).
Proof.
  intros Hf. revert first fuel. induction Hf as [|p j l js Hp Hf IH]; intros first fuel Hne Hfuel; [done|].
  destruct fuel as [|fuel]; [simpl in Hfuel; lia|]. cbn [parse_elems].
  set (u := match l with [] => String "]" t | _ => "," +:+ join "," l +:+ String "]" t end).
  assert (join "," (p :: l) +:+ String "]" t = p +:+ u) as ->.
  { unfold u. destruct l; cbn [join]; by rewrite ?sapp_assoc. }
  assert (expect "]" ((if first then "" else ",") +:+ p +:+ u) = None) as ->.
  { destruct first; [by rewrite sapp_nil_l, (prints_not_close d p j)|].
    rewrite sapp_cons, expect_other; done. }
  assert (next_item first ((if first then "" else ",") +:+ p +:+ u) = Some (p +:+ u)) as ->.
  { destruct first; [by rewrite sapp_nil_l|]. unfold next_item. by rewrite sapp_cons, expect_here. }
  cbn [mbind option_bind]. rewrite (proj2 Hp u) by (unfold u; by destruct l). cbn [mbind option_bind].
  unfold u. destruct l as [|q l].
  - inversion Hf; subst. destruct fuel as [|fuel]; [simpl in Hfuel; lia|].
    cbn [parse_elems]. by rewrite expect_here.
  - rewrite (IH false fuel) by (done || (simpl in *; lia)). done.
Qed.

Lemma length_join l : Forall (λ p, p ≠ "") l → (length l ≤ slen (join "," l))%nat.
Proof.
  induction 1 as [|p l Hp Hl IH]; [done|]. assert (1 ≤ slen p)%nat by (destruct p; [done|simpl; lia]).
  destruct l as [|q l]; cbn [join length] in *; [lia|]. rewrite !slen_app. simpl in *. lia.
Qed.

Lemma prints_nonempty d l js : Forall2 (prints d) l js → Forall (λ p, p ≠ "") l.
Proof.
  induction 1 as [|q j l js [_ Hq] _ IH]; constructor; [|done].
  intros ->. specialize (Hq "" eq_refl). by destruct d.
Qed.

Lemma prints_array d l js : Forall2 (prints d) l js → prints (S d) (print_array l) (JArr js).
Proof.
  intros Hf. split; [done|]. intros t _. unfold print_array.
  rewrite !sapp_assoc, sapp_cons, sapp_nil_l. change ("]" +:+ t) with (String "]" t).
  cbn [parse_value skip_ws]. change (is_space "[") with false.
  change ("[" =a "{")%char with false. change ("[" =a "[")%char with true. cbn match.
  destruct l as [|p l].
  - inversion Hf; subst. cbn [join]. rewrite sapp_nil_l. cbn [parse_elems]. by rewrite expect_here.
  - pose proof (parse_print_elems d (p :: l) js true (S (slen (join "," (p :: l) +:+ String "]" t))) t Hf) as Hp.
    rewrite sapp_nil_l in Hp. rewrite Hp; [done|done|]. rewrite slen_app.
    pose proof (length_join (p :: l) (prints_nonempty d _ _ Hf)). simpl in *; lia.
Qed.

Lemma stable_array l : Forall stable l → stable (print_array l).
Proof.
  intros Hl. unfold print_array. apply stable_app; [done|]. apply stable_app; [|done].
  induction Hl as [|p l Hp Hl IH]; [done|]. cbn [join]. destruct l; [done|].
  apply stable_app; [done|]. by apply stable_app.
Qed.

Lemma printable_array d l : Forall (printable d) l → printable (S d) (print_array l).
Proof.
  intros Hl. assert (∃ js, Forall2 (λ p j, prints d p j ∧ stable p ∧ good j = true) l js) as (js & Hjs).
  { induction Hl as [|p l (j & Hj) Hl (js & Hjs)]; [by exists []|]. exists (j :: js). by constructor. }
  exists (JArr js). split; [|split].
  - apply prints_array. eapply Forall2_impl; [exact Hjs|]. naive_solver.
  - apply stable_array. clear -Hjs. induction Hjs; constructor; naive_solver.
  - rewrite good_arr. clear -Hjs. induction Hjs as [|p j l js (_ & _ & Hg)]; [done|]. cbn [forallb]. by rewrite Hg.
Qed.

Definition object_ok (d : nat) (fields : list (string * string)) : Prop :=
  NoDup fields.*1 ∧ Forall (λ f, valid_utf8 f.1 = true ∧ printable d f.2) fields.

Lemma printable_object d fields : object_ok d fields → printable (S d) (print_object fields).
Proof.
  intros [Hnd Hl].
  assert (∃ js, Forall2 (λ f j, valid_utf8 f.1 = true ∧ prints d f.2 j ∧ stable f.2 ∧ good j = true) fields js) as (js & Hjs).
  { clear Hnd. induction Hl as [|[k v] l [Hk (j & Hj)] Hl (js & Hjs)]; [by exists []|]. exists (j :: js). by constructor. }
  exists (JObj (printed_members fields js)). split; [|split].
  - apply prints_object. eapply Forall2_impl; [exact Hjs|]. naive_solver.
  - apply stable_print_object. clear -Hjs. induction Hjs; constructor; naive_solver.
  - rewrite good_obj. apply andb_true_iff. split.
    + apply bool_decide_eq_true. replace (mkey <$> printed_members fields js) with fields.*1; [done|].
      clear -Hjs. induction Hjs as [|f j l js _ _ IH]; [done|]. cbn. by rewrite IH.
    + clear -Hjs. unfold printed_members. induction Hjs as [|p j l js (_ & _ & _ & Hg) _ IH]; [done|].
      cbn [zip_with forallb mval fst snd]. by rewrite Hg, IH.
Qed.

(** Objects whose keys are given: the side conditions on the keys compute. *)
Lemma object_ok_intro d fields :
  bool_decide (NoDup fields.*1) = true → forallb valid_utf8 fields.*1 = true →
  Forall (printable d) fields.*2 → object_ok d fields.
Proof.
  intros Hn%bool_decide_eq_true Hk Hv. split; [done|]. clear Hn.
  induction fields as [|[k v] l IH]; [constructor|]. cbn in *. apply andb_true_iff in Hk as [Hk Hl].
  inversion Hv; subst. constructor; auto.
Qed.

#[export] Hint Resolve printable_quote printable_bool printable_null printable_array : printing.

(** ** Payloads *)

(** The object of the listed fields, after the optional ones were decided. *)
Ltac print_fields_tac :=
  apply printable_object; repeat case_match;
  (apply object_ok_intro;
   [ vm_compute; reflexivity | vm_compute; reflexivity
   | cbn [fmap list_fmap app snd]; repeat constructor; eauto with printing ]).

Lemma printable_target d t : printable (S d) (marshal_target t).
Proof. unfold marshal_target. print_fields_tac. Qed.

Lemma printable_parameters d p : printable (S d) (marshal_parameters p).
Proof. unfold marshal_parameters. print_fields_tac. Qed.
#[export] Hint Resolve printable_target printable_parameters : printing.

Lemma printable_error d p : printable (S (S d)) (marshal_error p).
Proof. unfold marshal_error, error_fields, omit_empty. print_fields_tac. Qed.

Lemma printable_capabilities d c : printable (S (S d)) (marshal_capabilities c).
Proof. unfold marshal_capabilities. print_fields_tac. print_fields_tac. Qed.

Lemma printable_response d r : printable (S (S d)) (marshal_response r).
Proof. unfold marshal_response. print_fields_tac. Qed.
#[export] Hint Resolve printable_error printable_capabilities printable_response : printing.

(** ** Nodes, snapshots and batches *)

Definition machine_int (z : Z) : Prop := Z.abs z < 2 ^ 64.

Lemma printable_machine_int d z : machine_int z → printable d (print_int z).
Proof.
  unfold machine_int. intros Hz. apply printable_int.
  assert (2 ^ 64 < 2 ^ 1023) by (apply Z.pow_lt_mono_r; lia). lia.
Qed.
#[export] Hint Resolve printable_machine_int : printing.

Definition node_numbers (n : Node) : Prop :=
  machine_int (m_Generation (n_Metadata n)) ∧ machine_int (sp_CPULoad (n_Spec n))
  ∧ machine_int (sp_RealMemory (n_Spec n)) ∧ machine_int (sp_AllocMemory (n_Spec n))
  ∧ machine_int (sp_FreeMemory (n_Spec n)).

Lemma printable_time d t text : marshal_time t = Some text → printable d text.
Proof. unfold marshal_time. case_match; [|done]. intros [= <-]. eauto with printing. Qed.

Lemma printable_metadata d m text :
  machine_int (m_Generation m) → marshal_metadata m = Some text → printable (S d) text.
Proof.
  unfold marshal_metadata. intros Hg (t & Ht & [= <-])%bind_Some. pose proof (printable_time d _ _ Ht).
  print_fields_tac.
Qed.

Lemma printable_strings d l : printable (S d) (print_array (map quote l)).
Proof. apply printable_array. induction l; cbn; constructor; auto with printing. Qed.
#[export] Hint Resolve printable_strings : printing.

Lemma printable_node d n text : node_numbers n → marshal_node n = Some text → printable (S (S (S d))) text.
Proof.
  intros (H1 & H2 & H3 & H4 & H5) (m & Hm & [= <-])%bind_Some.
  pose proof (printable_metadata (S d) _ _ H1 Hm).
  assert (printable (S (S d)) (marshal_spec (n_Spec n))).
  { unfold marshal_spec, string_omit, int_field. print_fields_tac. }
  assert (printable (S (S d)) (marshal_status (n_Status n))).
  { unfold marshal_status, string_omit. print_fields_tac. }
  print_fields_tac.
Qed.

Lemma printable_mapM {A} (marshal : A → option string) (P : A → Prop) d l texts :
  (∀ x t, P x → marshal x = Some t → printable d t) → Forall P l → mapM marshal l = Some texts →
  printable (S d) (print_array texts).
Proof.
  intros Hm Hl Ht%mapM_Some. apply printable_array.
  induction Ht as [|x t l ts Hx _ IH]; [constructor|]. inversion Hl; subst. constructor; eauto.
Qed.

Lemma printable_change d c text :
  node_numbers (ch_Node c) → marshal_change c = Some text → printable (S (S (S (S d)))) text.
Proof.
  intros Hn (t & Ht & [= <-])%bind_Some. pose proof (printable_node d _ _ Hn Ht). print_fields_tac.
Qed.

(** What a connection is told about the nodes. *)
Lemma printable_snapshot s text :
  machine_int (s_Generation s) → Forall node_numbers (s_Nodes s) → marshal_snapshot s = Some text →
  printable 5 text.
Proof.
  intros Hg Hn (l & Hl & [= <-])%bind_Some.
  pose proof (printable_mapM _ _ 3 _ _ (printable_node 0) Hn Hl). print_fields_tac.
Qed.

Lemma printable_batch b text :
  machine_int (b_Generation b) → Forall (λ c, node_numbers (ch_Node c)) (b_Changes b) →
  marshal_batch b = Some text → printable 6 text.
Proof.
  intros Hg Hn (l & Hl & [= <-])%bind_Some.
  pose proof (printable_mapM _ _ 4 _ _ (printable_change 0) Hn Hl). print_fields_tac.
Qed.

(** ** Envelopes *)

Lemma valid_utf8_digits s : sforallb is_ascii s = true → valid_utf8 s = true.
Proof.
  intros Hs. unfold valid_utf8. induction s as [|c s IH]; [done|]. cbn [sforallb] in Hs.
  apply andb_true_iff in Hs as [Hc Hs]. rewrite segs_ascii by done. cbn [forallb]. rewrite IH by done.
  unfold seg_valid, rune_error, is_ascii in *. cbn [fst snd slen]. apply Z.ltb_lt in Hc.
  replace (code c =? 65533) with false by (symmetry; apply Z.eqb_neq; lia). done.
Qed.

Lemma ascii_pretty (n : N) : sforallb is_ascii (pretty n) = true.
Proof.
  destruct (pretty_digits n) as [Hd _]. eapply sforallb_impl; [|exact Hd].
  intros c Hc. by byte_cases c.
Qed.

Lemma ascii_fmt_0d w (n : N) : sforallb is_ascii (fmt_0d w n) = true.
Proof.
  unfold fmt_0d, pad_left, zeros. rewrite sforallb_app, ascii_pretty, andb_true_r.
  induction (w - _)%nat as [|k IH]; [done|]. exact IH.
Qed.

Lemma ascii_rfc3339 t : sforallb is_ascii (rfc3339 t) = true.
Proof.
  unfold rfc3339, two. destruct (civil (t / 86400)) as [[y m] d].
  by rewrite !sforallb_app, !ascii_fmt_0d.
Qed.

(** An envelope of the daemon can be sent when its payload is printable and the
    frame is small enough. *)
Lemma NewEnvelope_sendable now id type payload d :
  id ≠ "" → valid_utf8 id = true → type ∈ known_types → (d ≤ inner_depth)%nat → printable d payload →
  Z.of_nat (slen (frame_body (NewEnvelope now id type payload))) ≤ MaxPayloadSize →
  sendable (NewEnvelope now id type payload).
Proof.
  intros Hid Hv Ht Hd Hp Hsz. split; [|done|apply valid_utf8_digits, ascii_rfc3339|by apply (printable_canonical d)|done].
  repeat split; [done|done|]. by eapply printable_nonempty.
Qed.
