(* ===== verification/Session.v ===== *)
(** * Session: serving one connection

    The part of [internal/ipc/server.go] that reads the requests of a
    connection: the fingerprint of a request, the cache that answers repeated
    requests, and the loop of [serveConnection] over the decoder of Codec.v and
    the dispatcher of Dispatcher.v. The outbound queue of the connection is in
    Stream.v. *)
From stdpp Require Import sorting.
From S2P Require Import Prelude Utf8 Json Message JsonValidation Codec CommandPayload Connection Authorization NodeCache NodeSource Stream Sha256 Dispatcher Sacctmgr.
Open Scope Z_scope.

(** ** Fingerprints *)

(** [json.Marshal] of a value decoded into [any] with [UseNumber]: objects are
    maps, in which the last of equal keys counts, printed in the order of the
    keys; numbers keep their text. *)
Definition print_map (members : list (string * string)) : string :=
  let m : gmap string string := list_to_map (reverse members) in
  print_object (map (λ k, (k, default "" (m !! k))) (sort_strings (elements (dom m)))).
Fixpoint marshal_any (v : json) : string :=
  match v with
  | JNull => "null"
  | JBool b => print_bool b
  | JNum lit => lit
  | JStr s => quote s
  | JArr l => print_array (map marshal_any l)
  | JObj ms => print_map (map (λ m, (mkey m, marshal_any (mval m))) ms)
  end.

(** [decoder.Decode] reads the first value of the payload. *)
Definition requestFingerprint (message : Envelope) : option string :=
  '(payload, _) ← parse_value max_depth (Payload message);
  Some (Sum256 (print_object
    [("protocol", quote (Protocol message)); ("version", quote (Version message));
     ("type", quote (Type_ message)); ("payload", marshal_any payload)])).

#[global] Arguments requestFingerprint : simpl never.

(** ** The replay cache *)

Definition maxCachedRequestsPerConnection : Z := 4096.

Record cachedRequest : Type := mkCached { fingerprint : string; response : Envelope }.
Notation requestReplayCache := (gmap string cachedRequest).

Definition invalid_message : ErrorPayload :=
  plain_error ErrorCodeInvalidPayload ErrorCategoryValidation "Invalid protocol message" false.
Definition message_conflict : ErrorPayload :=
  plain_error ErrorCodeMessageIDConflict ErrorCategoryConflict
    "Message ID was already used for a different request" false.
Definition request_limit : ErrorPayload :=
  plain_error ErrorCodeInternal ErrorCategoryInternal "Connection request limit reached" false.

(** [requestReplayCache.Dispatch]: the answer to a message, whether it was
    dispatched, and whether the connection is to be closed after it. [fp] is
    [requestFingerprint]. *)
Record answered : Type := mkAnswered { a_reply : Envelope; a_fresh : bool; a_close : bool }.

Definition cache_Dispatch {S} (fp : Envelope → option string) (now : Z) (message : Envelope) (dispatch : S → Envelope * S)
  (c : requestReplayCache) (s : S) : answered * (requestReplayCache * S) :=
  let id := MessageID message in
  match fp message with
  | None => (mkAnswered (NewErrorEnvelope now id invalid_message) false false, (c, s))
  | Some f =>
      match c !! id with
      | Some previous =>
          if streq (fingerprint previous) f then (mkAnswered (response previous) false false, (c, s))
          else (mkAnswered (NewErrorEnvelope now id message_conflict) false false, (c, s))
      | None =>
          if maxCachedRequestsPerConnection <=? Z.of_nat (size c)
          then (mkAnswered (NewErrorEnvelope now id request_limit) false true, (c, s))
          else let '(r, s) := dispatch s in
               (mkAnswered r true false, (<[id := mkCached f r]> c, s))
      end
  end.

(** ** The loop *)

Definition decodeErrorEnvelope (now : Z) (messageID : string) (err : perror) : Envelope :=
  let id := if streq messageID "" then "ERR" else messageID in
  if is_ErrUnknownMessage err then NewErrorEnvelope now id unsupported
  else NewErrorEnvelope now id invalid_message.

(** What the environment does to one turn of the loop: whether the context of
    the connection is cancelled, the clock, and whether the outbound queue takes
    the reply. *)
Record turn : Type := mkTurn { t_done : bool; t_now : Z; t_accepts : bool }.

(** Why the loop ended; [Running] when the turns ran out before it did. *)
Inductive stop : Type :=
| Running
| Cancelled
| EndOfInput
| BadMessage (last : Envelope)
| QueueFull
| LimitReached.

(** A request, the clock when it was answered, and its answer. *)
Record exchange : Type := mkExchange { x_message : Envelope; x_now : Z; x_reply : Envelope; x_fresh : bool }.

Section serve.
Context {W : Type} (user : UserContext).

Definition state : Type := (requestReplayCache * (MessageDispatcher (W := W) * W)).

Definition answer (now : Z) (message : Envelope) (s : state) : answered * state :=
  cache_Dispatch requestFingerprint now message
    (λ '(d, w), DispatchWithUser now user message d w) s.1 s.2.

(** [serveConnection] from the point where the decoder is made; the result is
    what was answered, in order, the reason to stop and the last state. *)
Fixpoint serve (turns : list turn) (r : reader) (s : state) : list exchange * stop * state :=
  match turns with
  | [] => ([], Running, s)
  | t :: turns' =>
      if t_done t then ([], Cancelled, s)
      else match Decode r with
           | ((message, Some err), _) =>
               match err with
               | EEOF | EUnexpectedEOF => ([], EndOfInput, s)
               | _ => ([], BadMessage (decodeErrorEnvelope (t_now t) (MessageID message) err), s)
               end
           | ((message, None), r') =>
               let '(a, s') := answer (t_now t) message s in
               let x := mkExchange message (t_now t) (a_reply a) (a_fresh a) in
               if negb (t_accepts t) then ([x], QueueFull, s')
               else if a_close a then ([x], LimitReached, s')
               else let '(xs, why, s'') := serve turns' r' s' in (x :: xs, why, s'')
           end
  end.
End serve.

(** ** What the cache promises *)

Definition fresh_of (xs : list exchange) : list exchange := List.filter x_fresh xs.
Definition x_id (x : exchange) : string := MessageID (x_message x).

(** The dispatched exchange of an ID, if there was one. *)
Definition recorded (id : string) (xs : list exchange) : option exchange :=
  List.find (λ y, streq (x_id y) id) (fresh_of xs).

Section cache.
Context (fp : Envelope → option string).

(** The answer to [x] as a function of the exchanges [pre] before it: the first
    request with an ID is dispatched, unless the limit is reached; a repetition
    gets the recorded answer, another request with the ID a conflict. *)
Definition answer_spec (pre : list exchange) (x : exchange) : Prop :=
  let error e := x_fresh x = false ∧ x_reply x = NewErrorEnvelope (x_now x) (x_id x) e in
  match fp (x_message x), recorded (x_id x) pre with
  | None, _ => error invalid_message
  | Some f, Some y =>
      if bool_decide (fp (x_message y) = Some f)
      then x_fresh x = false ∧ x_reply x = x_reply y
      else error message_conflict
  | Some f, None =>
      if bool_decide (Z.of_nat (length (fresh_of pre)) < maxCachedRequestsPerConnection)
      then x_fresh x = true else error request_limit
  end.

Record cache_ok (c : requestReplayCache) (xs : list exchange) : Prop := {
  cache_recorded id : c !! id = recorded id xs ≫= λ y,
    f ← fp (x_message y); Some (mkCached f (x_reply y));
  cache_known : Forall (λ y, is_Some (fp (x_message y))) (fresh_of xs);
  cache_unique : NoDup (map x_id (fresh_of xs));
  cache_small : Z.of_nat (length (fresh_of xs)) ≤ maxCachedRequestsPerConnection;
}.

Lemma fresh_of_snoc xs x : fresh_of (xs ++ [x]) = fresh_of xs ++ (if x_fresh x then [x] else []).
Proof. unfold fresh_of. rewrite List.filter_app. cbn. by destruct (x_fresh x). Qed.

Lemma find_snoc {A} (p : A → bool) l k :
  List.find p (l ++ k) = match List.find p l with Some y => Some y | None => List.find p k end.
Proof. induction l as [|a l IH]; [done|]. cbn. by destruct (p a). Qed.

Lemma recorded_snoc id xs x : recorded id (xs ++ [x]) =
  match recorded id xs with
  | Some y => Some y
  | None => if x_fresh x && streq (x_id x) id then Some x else None
  end.
Proof.
  unfold recorded. rewrite fresh_of_snoc, find_snoc. destruct (List.find _ (fresh_of xs)); [done|].
  destruct (x_fresh x); cbn; [by destruct (streq (x_id x) id)|done].
Qed.

Lemma recorded_Some id xs y : recorded id xs = Some y → y ∈ fresh_of xs ∧ x_id y = id.
Proof. intros [H1 H2%streq_true]%find_some. split; [by apply list_elem_of_In|done]. Qed.

Lemma recorded_None id xs : recorded id xs = None → id ∉ map x_id (fresh_of xs).
Proof.
  intros H (y & -> & Hin)%list_elem_of_fmap.
  apply list_elem_of_In in Hin. pose proof (find_none _ _ H y Hin) as Hn. cbv beta in Hn.
  by apply streq_false in Hn.
Qed.

Lemma cache_ok_skip c xs x : cache_ok c xs → x_fresh x = false → cache_ok c (xs ++ [x]).
Proof.
  intros [H1 H2 H3 H4] Hx. split; rewrite ?fresh_of_snoc, ?Hx, ?app_nil_r; try done.
  intros id. rewrite recorded_snoc, Hx. cbn [andb]. rewrite H1. by destruct (recorded id xs).
Qed.

Lemma cache_size c xs : cache_ok c xs → size c = length (fresh_of xs).
Proof.
  intros [H1 H2 H3 _]. rewrite <-size_dom. 
  assert (dom c = list_to_set (map x_id (fresh_of xs)) :> gset string) as ->.
  { apply set_eq. intros id. rewrite elem_of_dom, elem_of_list_to_set, H1. split.
    - destruct (recorded id xs) as [y|] eqn:Hr; [|by intros [? [=]]]. intros _.
      destruct (recorded_Some _ _ _ Hr) as [Hy <-]. by apply list_elem_of_fmap_2.
    - intros Hin. destruct (recorded id xs) as [y|] eqn:Hr; [|by apply recorded_None in Hr].
      destruct (recorded_Some _ _ _ Hr) as [Hy _]. rewrite Forall_forall in H2.
      destruct (H2 y Hy) as [f Hf]. eexists. apply bind_Some. exists y. split; [done|].
      apply bind_Some. by exists f. }
  rewrite size_list_to_set by done. by rewrite length_map.
Qed.

Lemma cache_ok_insert c xs x f : cache_ok c xs → x_fresh x = true → recorded (x_id x) xs = None →
  fp (x_message x) = Some f → Z.of_nat (length (fresh_of xs)) < maxCachedRequestsPerConnection →
  cache_ok (<[x_id x := mkCached f (x_reply x)]> c) (xs ++ [x]).
Proof.
  intros [H1 H2 H3 H4] Hx Hr Hf Hl. split.
  - intros id. rewrite recorded_snoc, Hx. cbn [andb]. destruct (streq (x_id x) id) eqn:Hid.
    + apply streq_true in Hid as <-. rewrite lookup_insert_eq, Hr. symmetry. apply bind_Some. exists x. split; [done|].
      apply bind_Some. by exists f.
    + apply streq_false in Hid. rewrite lookup_insert_ne, H1 by done. by destruct (recorded id xs).
  - rewrite fresh_of_snoc, Hx. apply Forall_app_2; [done|]. constructor; [by rewrite Hf|done].
  - rewrite fresh_of_snoc, Hx, map_app. apply NoDup_app. split; [done|]. split; [|by apply NoDup_singleton].
    intros id Hin ->%list_elem_of_singleton. by apply recorded_None in Hr.
  - rewrite fresh_of_snoc, Hx, length_app. cbn. lia.
Qed.

(** One message: the answer follows the specification and the cache stays in
    step with the exchanges; only a fresh answer comes from the dispatcher. *)
Lemma cache_Dispatch_ok {S} now message (dispatch : S → Envelope * S) c s pre a c' s' :
  cache_ok c pre → cache_Dispatch fp now message dispatch c s = (a, (c', s')) →
  let x := mkExchange message now (a_reply a) (a_fresh a) in
  answer_spec pre x ∧ cache_ok c' (pre ++ [x]) ∧
  (if a_fresh a then (a_reply a, s') = dispatch s else s' = s).
Proof.
  intros Hc. unfold cache_Dispatch, answer_spec. cbn [x_id x_message x_now].
  destruct (fp message) as [f|] eqn:Hf;
    [|intros [= <- <- <-]; split; [done|]; split; [by apply cache_ok_skip|done]].
  rewrite (cache_recorded _ _ Hc). change (x_id (mkExchange message now (a_reply a) (a_fresh a))) with (MessageID message).
  destruct (recorded (MessageID message) pre) as [y|] eqn:Hr; cbn [mbind option_bind].
  - destruct (recorded_Some _ _ _ Hr) as [Hy _].
    destruct (proj1 (Forall_forall _ _) (cache_known _ _ Hc) y Hy) as [g Hg]. rewrite Hg. cbn [mbind option_bind].
    destruct (streq g f) eqn:Hgf; cbn [fingerprint]; rewrite Hgf; intros [= <- <- <-].
    + apply streq_true in Hgf as ->. rewrite bool_decide_eq_true_2 by done.
      split; [done|]. split; [by apply cache_ok_skip|done].
    + apply streq_false in Hgf. rewrite bool_decide_eq_false_2 by congruence.
      split; [done|]. split; [by apply cache_ok_skip|done].
  - rewrite (cache_size _ _ Hc). destruct (Z.leb_spec maxCachedRequestsPerConnection (Z.of_nat (length (fresh_of pre)))).
    + intros [= <- <- <-]. rewrite bool_decide_eq_false_2 by lia.
      split; [done|]. split; [by apply cache_ok_skip|done].
    + destruct (dispatch s) as [r s1]. intros [= <- <- <-]. rewrite bool_decide_eq_true_2 by lia.
      split; [done|]. split; [|done].
      by apply (cache_ok_insert c pre (mkExchange message now r true) f).
Qed.
End cache.

(** ** The session *)

Section session.
Context {W : Type} (printable : Z → bool) (o : order) (read : W → NodeCache)
  (resolver : option CapabilityContextResolver) (command : AuthenticatedHandler (W := W)) (user : UserContext).

Notation daemon := (daemon_dispatcher printable o read resolver command).
Notation reaction := (route printable o read resolver command).

(** The dispatched exchanges of [xs], in order, are the routes of the daemon for
    the user of the connection, and lead from [w] to [w']. *)
Fixpoint routed (w : W) (xs : list exchange) (w' : W) : Prop :=
  match xs with
  | [] => w' = w
  | x :: xs' =>
      if x_fresh x then
        let '(reply, w1) := reaction (x_now x) (Some user) (x_message x) w in
        x_reply x = reply ∧ routed w1 xs' w'
      else routed w xs' w'
  end.

Lemma answer_ok d now message c w pre a c' d' w' :
  daemon = Ok d → well_formed message → cache_ok requestFingerprint c pre →
  answer user now message (c, (d, w)) = (a, (c', (d', w'))) →
  let x := mkExchange message now (a_reply a) (a_fresh a) in
  answer_spec requestFingerprint pre x ∧ cache_ok requestFingerprint c' (pre ++ [x]) ∧ d' = d ∧ routed w [x] w'.
Proof.
  unfold answer. generalize requestFingerprint. cbn [fst snd]. intros fp Hd Hwf Hc Ha.
  destruct (cache_Dispatch_ok _ _ _ _ _ _ _ _ _ _ Hc Ha) as (Hs & Hc' & Hr).
  split; [done|]. split; [done|]. cbn [routed x_fresh x_now x_message x_reply].
  destruct (a_fresh a); [|by injection Hr].
  change ((a_reply a, (d', w')) = dispatch now (Some user) message d w) in Hr.
  rewrite (dispatch_route _ _ _ _ _ d now (Some user) message w Hd) in Hr by (by apply enveloped_well_formed).
  destruct (reaction now (Some user) message w). by injection Hr as -> -> ->.
Qed.

Lemma routed_app w xs w1 ys w2 : routed w xs w1 → routed w1 ys w2 → routed w (xs ++ ys) w2.
Proof.
  revert w. induction xs as [|x xs IH]; intros w; cbn [app routed]; [by intros <-|].
  destruct (x_fresh x); [|apply IH]. destruct (reaction _ _ _ w) as [reply w']. intros [? ?] ?. eauto.
Qed.

Lemma serve_ok d turns r c w pre xs why c' d' w' :
  daemon = Ok d → cache_ok requestFingerprint c pre →
  serve user turns r (c, (d, w)) = (xs, why, (c', (d', w'))) →
  (∀ p x q, xs = p ++ x :: q → answer_spec requestFingerprint (pre ++ p) x) ∧
  cache_ok requestFingerprint c' (pre ++ xs) ∧ d' = d ∧ routed w xs w' ∧
  Forall (λ x, well_formed (x_message x)) xs.
Proof.
  intros Hd. revert r c w pre xs why c' d' w'.
  induction turns as [|t turns IH]; intros r c w pre xs why c' d' w' Hc; cbn [serve].
  { intros [= <- <- <- <- <-]. rewrite app_nil_r. split; [by intros [] ? ? [=]|]. done. }
  assert (([], c, d, w) = (xs, c', d', w') →
    (∀ p x q, xs = p ++ x :: q → answer_spec requestFingerprint (pre ++ p) x) ∧
    cache_ok requestFingerprint c' (pre ++ xs) ∧ d' = d ∧ routed w xs w' ∧
    Forall (λ x, well_formed (x_message x)) xs) as Hnil.
  { intros [= <- <- <- <-]. rewrite app_nil_r. split; [by intros [] ? ? [=]|]. done. }
  destruct (t_done t); [intros [= <- <- <- <- <-]; by apply Hnil|].
  destruct (Decode r) as [[message [err|]] r'] eqn:Hdec.
  { destruct err; intros [= <- <- <- <- <-]; by apply Hnil. }
  apply Decode_well_formed in Hdec.
  destruct (answer user (t_now t) message (c, (d, w))) as [a [c1 [d1 w1]]] eqn:Ha.
  destruct (answer_ok _ _ _ _ _ _ _ _ _ _ Hd Hdec Hc Ha) as (Hs & Hc1 & -> & Hr).
  set (x := mkExchange message (t_now t) (a_reply a) (a_fresh a)) in *.
  assert (∀ xs', (∀ p y q, xs' = p ++ y :: q → answer_spec requestFingerprint ((pre ++ [x]) ++ p) y) →
    ∀ p y q, x :: xs' = p ++ y :: q → answer_spec requestFingerprint (pre ++ p) y) as Hcons.
  { intros xs' Hxs p y q. destruct p as [|x' p]; intros [= <- He]; [by rewrite app_nil_r|].
    specialize (Hxs p y q He). by rewrite <-app_assoc in Hxs. }
  assert ((x :: [], c1, w1) = (xs, c', w') → d' = d →
    (∀ p x q, xs = p ++ x :: q → answer_spec requestFingerprint (pre ++ p) x) ∧
    cache_ok requestFingerprint c' (pre ++ xs) ∧ d' = d ∧ routed w xs w' ∧
    Forall (λ x, well_formed (x_message x)) xs) as Hlast.
  { intros [= <- <- <-] ->. split; [apply Hcons; by intros [] ? ? [=]|]. split_and!; [done..|by constructor]. }
  destruct (negb (t_accepts t)); [intros [= <- <- <- <- <-]; by apply Hlast|].
  destruct (a_close a); [intros [= <- <- <- <- <-]; by apply Hlast|].
  destruct (serve user turns r' (c1, (d, w1))) as [[xs1 why1] [c2 [d2 w2]]] eqn:Hrest.
  intros [= <- <- <- <- <-].
  destruct (IH _ _ _ (pre ++ [x]) _ _ _ _ _ Hc1 Hrest) as (H1 & H2 & H3 & H4 & H5).
  split; [by apply Hcons|]. rewrite <-app_assoc in H2. split; [done|]. split; [done|].
  split; [by apply (routed_app w [x] w1 xs1 w2)|by constructor].
Qed.
Lemma cache_ok_empty fp : cache_ok fp ∅ [].
Proof. split; [intros id; by rewrite lookup_empty|constructor..|done]. Qed.

(** C8. A session. On one connection, whatever bytes arrive in whatever pieces:
    the first request with a message ID is dispatched, with the user of the
    connection, and its reply recorded; a later one with this ID is answered
    with the recorded reply if it is the same request and with a conflict
    otherwise, and never dispatched; after 4096 dispatched requests a new ID is
    answered with the limit error. The daemon changes only by the dispatched
    requests, in their order, each answered by its route. *)
Theorem session_contract d turns r w :
  daemon = Ok d →
  let '(xs, _, (_, (d', w'))) := serve user turns r (∅, (d, w)) in
  (∀ p x q, xs = p ++ x :: q → answer_spec requestFingerprint p x) ∧
  NoDup (map x_id (fresh_of xs)) ∧
  Z.of_nat (length (fresh_of xs)) ≤ maxCachedRequestsPerConnection ∧
  Forall (λ x, well_formed (x_message x)) xs ∧ d' = d ∧ routed w xs w'.
Proof.
  intros Hd. destruct (serve user turns r (∅, (d, w))) as [[xs why] [c' [d' w']]] eqn:Hs.
  destruct (serve_ok d turns r ∅ w [] xs why c' d' w' Hd (cache_ok_empty _) Hs) as (H1 & H2 & -> & H4 & H5).
  split; [exact H1|]. split; [exact (cache_unique _ _ _ H2)|]. split; [exact (cache_small _ _ _ H2)|]. done.
Qed.
End session.

(** Every session ends. A decoded request takes at least five bytes, so the
    loop answers at most a fifth as many requests as there are bytes, and has
    ended before as many turns, however the connection behaves. *)
Theorem serve_terminates {W} (user : UserContext) turns r (s : state (W := W)) :
  let '(xs, why, _) := serve user turns r s in
  let bytes := slen (sconcat (chunks r)) in
  (5 * length xs ≤ bytes)%nat ∧ (bytes < 5 * length turns → why ≠ Running)%nat.
Proof.
  revert r s. induction turns as [|t turns IH]; intros r s; cbn [serve length]; [split; [lia|intros; lia]|].
  destruct (t_done t); [split; [cbn; lia|done]|].
  destruct (Decode r) as [[message [err|]] r'] eqn:Hdec; [by destruct err; split; cbn; (lia || done)|].
  apply Decode_consumes in Hdec. destruct (answer user (t_now t) message s) as [a s'].
  destruct (negb (t_accepts t)); [split; [cbn; lia|done]|].
  destruct (a_close a); [split; [cbn; lia|done]|].
  specialize (IH r' s'). destruct (serve user turns r' s') as [[xs why] s'']. destruct IH as [H1 H2].
  split; [cbn; lia|]. intros Hb. apply H2. lia.
Qed.

(** ** Fingerprints ignore the form of a request *)

(** The same JSON value: the members of objects may come in another order. *)
Inductive same_value : json → json → Prop :=
| same_refl v : same_value v v
| same_arr l k : Forall2 same_value l k → same_value (JArr l) (JArr k)
| same_obj ms ps ns : NoDup (map mkey ms) → ms ≡ₚ ps →
    Forall2 (λ m n, mkey m = mkey n ∧ same_value (mval m) (mval n)) ps ns → same_value (JObj ms) (JObj ns).

Lemma print_map_perm l k : NoDup l.*1 → l ≡ₚ k → print_map l = print_map k.
Proof.
  intros Hnd Hp. unfold print_map.
  assert (list_to_map (reverse l) = list_to_map (reverse k) :> gmap string string) as ->; [|done].
  apply list_to_map_proper; [by rewrite fmap_reverse, reverse_Permutation|]. by rewrite !reverse_Permutation.
Qed.

Lemma marshal_any_same v u : same_value v u → marshal_any v = marshal_any u.
Proof.
  revert v u. fix IH 3. intros v u [w|l k Hf|ms ps ns Hnd Hp Hf]; [done|..].
  - cbn [marshal_any]. f_equal. induction Hf as [|x y l k Hxy _ IHf]; [done|]. cbn [map].
    by rewrite (IH _ _ Hxy), IHf.
  - cbn [marshal_any]. set (f := λ m, (mkey m, marshal_any (mval m))).
    rewrite (print_map_perm (map f ms) (map f ps)).
    + f_equal. clear Hp Hnd. induction Hf as [|x y l k [Hk Hxy] _ IHf]; [done|]. cbn [map]. unfold f at 1 3.
      by rewrite Hk, (IH _ _ Hxy), IHf.
    + change (NoDup (map fst (map f ms))). rewrite map_map. exact Hnd.
    + by apply fmap_Permutation.
Qed.
#[export] Instance marshal_any_proper : Proper (same_value ==> eq) marshal_any.
Proof. exact marshal_any_same. Qed.

(** C27. The fingerprint is about the request, not its text: two messages of the
    same type whose payloads are the same JSON value, up to white space and the
    order of the members of objects, have the same fingerprint, whatever their
    IDs and time stamps. So a retransmission is recognized when it was encoded
    again. *)
Theorem fingerprint_stable m1 m2 v1 v2 rest1 rest2 :
  Protocol m1 = Protocol m2 → Version m1 = Version m2 → Type_ m1 = Type_ m2 →
  parse_value max_depth (Payload m1) = Some (v1, rest1) →
  parse_value max_depth (Payload m2) = Some (v2, rest2) →
  same_value v1 v2 → requestFingerprint m1 = requestFingerprint m2.
Proof.
  intros Hp Hv Ht H1 H2 Hs. unfold requestFingerprint. rewrite H1, H2, Hp, Hv, Ht.
  cbn [mbind option_bind]. by rewrite Hs.
Qed.

Definition query_one : Envelope := NewEnvelope 0 "m-1" MessageQuery (sq "{'resource':'nodes','depth':2}").
Definition query_two : Envelope := NewEnvelope 9 "m-2" MessageQuery (sq " {'depth' : 2, 'resource' : 'nodes'}").

Lemma fingerprint_stable_witness : requestFingerprint query_one = requestFingerprint query_two.
Proof.
  pose (ms := [("resource", (sq "'nodes'", JStr "nodes")); ("depth", ("2", JNum "2"))]).
  apply (fingerprint_stable query_one query_two (JObj ms) (JObj (reverse ms)) "" "");
    [done|done|done|by vm_compute|by vm_compute|].
  apply (same_obj ms (reverse ms)).
  - by apply (bool_decide_eq_true_1 (NoDup (map mkey ms))); vm_compute.
  - by rewrite reverse_Permutation.
  - repeat constructor.
Defined.

(** A connection that sends a command, sends it again, and then another request
    under the same ID. *)
Definition three_requests : reader :=
  mkReader [frame (example_message MessageCommand); frame (example_message MessageCommand);
            frame (example_message MessagePing)] EEOF.
Definition calm : list turn := replicate 4 (mkTurn false 5 true).

Definition counting_daemon : MessageDispatcher (W := nat) :=
  match daemon_dispatcher (λ _, true) map_to_list (λ _ : nat, NewNodeCache) None counting_command with
  | Ok d => d
  | Err _ => mkDispatcher ∅ ∅ 0
  end.
Definition example_session : list exchange * stop * state :=
  serve alice calm three_requests (∅, (counting_daemon, 0%nat)).

Lemma session_contract_witness :
  (map x_fresh example_session.1.1, example_session.1.2, example_session.2.2.2)
    = ([true; false; false], EndOfInput, 1%nat) ∧
  NoDup (map x_id (fresh_of example_session.1.1)).
Proof.
  split; [vm_compute; reflexivity|].
  pose proof (session_contract (λ _, true) map_to_list (λ _, NewNodeCache) None counting_command alice
    counting_daemon calm three_requests 0%nat eq_refl) as H.
  change (serve alice calm three_requests (∅, (counting_daemon, 0%nat))) with example_session in H.
  destruct example_session as [[xs why] [c [d' w]]]. apply H.
Defined.
