(* ===== verification/Server.v ===== *)
(** * Server: the listening socket and the life of its connections

    The other half of [internal/ipc/server.go]: taking over the socket path,
    accepting and tracking connections, and shutting down, with the interleavings
    of the accept loop, the connection goroutines and the callers of [Close]. *)
From S2P Require Import Prelude.
Open Scope Z_scope.

(** ** Taking over the socket path *)

Definition DefaultSocketPath : string := "/run/cockpit-slurm/cockpit-slurm.sock".
Definition socketFileMode : Z := 432. (* 0660 *)

Definition socketPathFromEnv (env : string) : string := if negb (streq env "") then env else DefaultSocketPath.

(** What the operating system answers to the calls of [Listen]. *)
Inductive lstat_answer : Type := LNotExist | LError | LSocket | LOther.
Inductive dial_answer : Type := DConnected | DTimeout | DRefused | DFailed.
Record os : Type := mkOs {
  os_mkdir : bool;
  os_lstat : lstat_answer;
  os_dial : dial_answer;
  os_remove : bool;
  os_bind : bool;
  os_chmod : bool;
}.

(** The calls that change the file system or a socket, and the probes. *)
Inductive os_call : Type :=
| CMkdirAll (path : string)
| CLstat (path : string)
| CDial (path : string)
| CHangUp
| CRemove (path : string)
| CBind (path : string)
| CChmod (path : string) (mode : Z)
| CCloseListener.
#[export] Instance os_call_eq_dec : EqDecision os_call.
Proof. solve_decision. Defined.

Inductive serror : Type :=
| EAlreadyListening
| ECreateDirectory
| EInspect
| ENotSocket
| ErrSocketInUse
| EUndetermined
| ERemoveStale
| EListen
| EPermissions.

Definition removeStaleSocket (sys : os) (path : string) : result serror unit * list os_call :=
  let calls := [CLstat path] in
  match os_lstat sys with
  | LNotExist => (Ok tt, calls)
  | LError => (Err EInspect, calls)
  | LOther => (Err ENotSocket, calls)
  | LSocket =>
      let calls := calls ++ [CDial path] in
      match os_dial sys with
      | DConnected => (Err ErrSocketInUse, calls ++ [CHangUp])
      | DTimeout | DFailed => (Err EUndetermined, calls)
      | DRefused => (if os_remove sys then Ok tt else Err ERemoveStale, calls ++ [CRemove path])
      end
  end.

(** The fields of [Server] that [Listen], [Serve] and [Close] work on; a
    connection is a number. *)
Record Server : Type := mkServer {
  socketPath : string;
  listener : bool;
  closed : bool;
  active : gset nat;
}.

(** [NewServerWithDispatcher]; [env] is [COCKPIT_SLURM_SOCKET_PATH]. *)
Definition NewServer (path env : string) : Server :=
  mkServer (if streq path "" then socketPathFromEnv env else path) false false ∅.

(** [filepath.Dir] of an absolute path is a parameter. *)
Definition Listen (dir : string → string) (sys : os) (s : Server) : result serror unit * Server * list os_call :=
  let path := socketPath s in
  if listener s then (Err EAlreadyListening, s, [])
  else if negb (os_mkdir sys) then (Err ECreateDirectory, s, [CMkdirAll (dir path)])
  else
    let '(r, calls) := removeStaleSocket sys path in
    let calls := CMkdirAll (dir path) :: calls in
    match r with
    | Err e => (Err e, s, calls)
    | Ok _ =>
        if negb (os_bind sys) then (Err EListen, s, calls ++ [CBind path])
        else if negb (os_chmod sys)
        then (Err EPermissions, s, calls ++ [CBind path; CChmod path socketFileMode; CCloseListener; CRemove path])
        else (Ok tt, mkServer path true false ∅, calls ++ [CBind path; CChmod path socketFileMode])
    end.

(** The socket at the path is stale: nobody answers behind it. *)
Definition stale (sys : os) : Prop := os_lstat sys = LSocket ∧ os_dial sys = DRefused.

(** The path is free, or was freed. *)
Definition freed (sys : os) : Prop := os_lstat sys = LNotExist ∨ stale sys ∧ os_remove sys = true.

(** A call that leaves what is at the path alone, or removes a stale socket. *)
Definition harmless (dir : string → string) (sys : os) (path : string) (c : os_call) : Prop :=
  c ∈ [CMkdirAll (dir path); CLstat path; CDial path; CHangUp] ∨ (c = CRemove path ∧ stale sys).

(** What each error means. *)
Definition cause (sys : os) (s : Server) (e : serror) : Prop :=
  match e with
  | EAlreadyListening => listener s = true
  | ECreateDirectory => os_mkdir sys = false
  | EInspect => os_lstat sys = LError
  | ENotSocket => os_lstat sys = LOther
  | ErrSocketInUse => os_lstat sys = LSocket ∧ os_dial sys = DConnected
  | EUndetermined => os_lstat sys = LSocket ∧ (os_dial sys = DTimeout ∨ os_dial sys = DFailed)
  | ERemoveStale => stale sys ∧ os_remove sys = false
  | EListen => freed sys ∧ os_bind sys = false
  | EPermissions => freed sys ∧ os_bind sys = true ∧ os_chmod sys = false
  end.

(** The calls from the bind on. *)
Definition taking_over (path : string) (r : result serror unit) : list os_call :=
  match r with
  | Ok _ => [CBind path; CChmod path socketFileMode]
  | Err EListen => [CBind path]
  | Err EPermissions => [CBind path; CChmod path socketFileMode; CCloseListener; CRemove path]
  | Err _ => []
  end.

Lemma removeStaleSocket_spec dir sys s path :
  let '(r, calls) := removeStaleSocket sys path in
  (r = Ok tt ↔ freed sys) ∧ (∀ c, c ∈ calls → harmless dir sys path c) ∧
  (∀ e, r = Err e → cause sys s e ∧ taking_over path r = []).
Proof.
  unfold removeStaleSocket, freed, harmless, stale. destruct sys as [mk ls di rm bi ch]. cbn [os_lstat os_dial os_remove].
  destruct ls; cbn [app]; [| |destruct di; cbn [app]; [| |destruct rm|]|]; (split; [split; naive_solver|]);
    (split; [intros c; rewrite ?elem_of_cons, ?elem_of_nil; naive_solver|]); intros e [= <-]; cbn; unfold stale; cbn; auto.
Qed.

Lemma Listen_shape dir sys s :
  let '(r, s', calls) := Listen dir sys s in
  let path := socketPath s in
  (∃ before, calls = before ++ taking_over path r ∧ ∀ c, c ∈ before → harmless dir sys path c) ∧
  (r = Ok tt ↔ listener s = false ∧ os_mkdir sys = true ∧ freed sys ∧ os_bind sys = true ∧ os_chmod sys = true) ∧
  (∀ e, r = Err e → cause sys s e) ∧
  (r = Ok tt → s' = mkServer path true false ∅) ∧
  (r ≠ Ok tt → s' = s).
Proof.
  unfold Listen. cbn zeta. pose proof (removeStaleSocket_spec dir sys s (socketPath s)) as H.
  destruct (listener s) eqn:Hli; [|destruct (os_mkdir sys) eqn:Hmk; cbn [negb]].
  - split; [exists []; split; [done|by intros ? ?%elem_of_nil]|]. split; [naive_solver|]. split; [by intros e [= <-]|done].
  - destruct (removeStaleSocket sys (socketPath s)) as [r calls]. destruct H as (Hr & Hh & He).
    assert (∀ c, c ∈ CMkdirAll (dir (socketPath s)) :: calls → harmless dir sys (socketPath s) c) as Hb.
    { intros c [->|?]%elem_of_cons; [left; by left|auto]. }
    destruct r as [[]|e].
    + assert (freed sys) as Hf by (by apply Hr).
      destruct (os_bind sys) eqn:Hbi; cbn [negb]; [destruct (os_chmod sys) eqn:Hch; cbn [negb]|];
        (split; [by eexists|]); (split; [naive_solver|]); (split; [|done]); intros e [= <-]; done.
    + destruct (He e eq_refl) as [Hc Ht]. split; [exists (CMkdirAll (dir (socketPath s)) :: calls); by rewrite Ht, app_nil_r|].
      split; [naive_solver|]. split; [by intros ? [= <-]|done].
  - split; [exists [CMkdirAll (dir (socketPath s))]; split; [done|]|].
    { intros c ->%list_elem_of_singleton. left. by left. }
    split; [naive_solver|]. split; [by intros e [= <-]|done].
Qed.

(** C28. The socket path. Whatever the operating system answers: up to the bind,
    [Listen] only creates the directory, looks at the path and removes the file
    there when it is a socket that refused a connection; it binds the path only
    when that left it free, then sets the permissions of what it has bound, before
    anything is accepted, and removes it again when it cannot. So a file of
    another kind, a live server or an unclear answer is an error, one for each
    cause, that changes nothing on disk but the directory. It succeeds exactly
    when the path is free or freed, the bind and the permissions succeed and the
    server was not listening; a failure leaves the server as it was. *)
Theorem Listen_spec dir sys s :
  let '(r, s', calls) := Listen dir sys s in
  let path := socketPath s in
  (∃ before, calls = before ++ taking_over path r ∧ ∀ c, c ∈ before → harmless dir sys path c) ∧
  (∀ p m, CBind p ∈ calls ∨ CChmod p m ∈ calls → freed sys ∧ (r = Ok tt ∨ r = Err EListen ∨ r = Err EPermissions)) ∧
  (∀ p, CRemove p ∈ calls → p = path ∧ (stale sys ∨ r = Err EPermissions)) ∧
  (r = Ok tt ↔ listener s = false ∧ os_mkdir sys = true ∧ freed sys ∧ os_bind sys = true ∧ os_chmod sys = true) ∧
  (∀ e, r = Err e → cause sys s e) ∧
  (r = Ok tt → s' = mkServer path true false ∅) ∧
  (r ≠ Ok tt → s' = s).
Proof.
  pose proof (Listen_shape dir sys s) as H. destruct (Listen dir sys s) as [[r s'] calls]. cbn zeta in *.
  destruct H as (Hcalls & Hok & Hc & Hs). split; [done|]. destruct Hcalls as (before & -> & Hb).
  assert (∀ c, c ∈ before → c ∈ [CMkdirAll (dir (socketPath s)); CLstat (socketPath s); CDial (socketPath s); CHangUp;
    CRemove (socketPath s)]) as Hin.
  { intros c [Hc'|[-> _]]%Hb; rewrite !elem_of_cons in *; tauto. }
  split_and!; try done; try apply Hs.
  - intros p m Hk. assert (CBind p ∈ taking_over (socketPath s) r ∨ CChmod p m ∈ taking_over (socketPath s) r) as Ht.
    { rewrite !elem_of_app in Hk. destruct Hk as [[Hk%Hin|?]|[Hk%Hin|?]]; auto;
        rewrite !elem_of_cons, elem_of_nil in Hk; naive_solver. }
    destruct r as [[]|[]]; cbn in Ht; rewrite ?elem_of_nil in Ht; try tauto; (split; [|by eauto]);
      [apply (Hc EListen eq_refl)|apply (Hc EPermissions eq_refl)].
  - intros p [Hp|Hp]%elem_of_app.
    + destruct (Hb _ Hp) as [Hx|[[= ->] ?]]; [|by auto]. rewrite !elem_of_cons, elem_of_nil in Hx. naive_solver.
    + destruct r as [[]|[]]; cbn in Hp; rewrite ?elem_of_cons, ?elem_of_nil in Hp; naive_solver.
Qed.

(** ** Connections and shutdown *)

(** A connection goroutine: [serveConnection] runs; the socket is closed; the
    connection is untracked. Then [wg.Done] ends it. *)
Inductive handler : Type := Serving | SocketClosed | Untracked.

(** The accept loop of [Serve]: waiting, holding a connection it has accepted but
    not yet tracked, or returned. *)
Inductive accept_loop : Type := Accepting | Holding (c : nat) | Returned.

(** A caller of [Close] after its critical section: about to close the listener,
    with the connections it has still to close, waiting for the goroutines (after
    [CloseAll] of the streams and of the connections, which cancels what the
    handlers wait for and is no state of this model), returned with a result; or
    it found the server closed and returned [nil]. *)
Inductive closer : Type :=
| Unlinking (rest : list nat)
| Hanging (rest : list nat)
| Waiting
| Finished (r : result string unit)
| AlreadyClosed.

(** The file at the socket path: the one this server has bound, none, or one that
    another process has bound since. *)
Inductive socket_file : Type := Mine | Absent | Theirs.
#[export] Instance socket_file_eq_dec : EqDecision socket_file.
Proof. solve_decision. Defined.

(** [open] are the accepted connections whose sockets are not closed; [handlers]
    is what the wait group counts; [bound] says that the listening socket, which
    outlives the field [listener], is open. *)
Record life : Type := mkLife {
  server : Server;
  accepting : accept_loop;
  open : gset nat;
  handlers : gmap nat handler;
  closers : gmap nat closer;
  accepted : gset nat;
  bound : bool;
  file : socket_file;
}.

Definition set_server (f : Server → Server) (l : life) : life :=
  mkLife (f (server l)) (accepting l) (open l) (handlers l) (closers l) (accepted l) (bound l) (file l).
Definition set_accepting (a : accept_loop) (l : life) : life :=
  mkLife (server l) a (open l) (handlers l) (closers l) (accepted l) (bound l) (file l).
Definition close_socket (c : nat) (l : life) : life :=
  mkLife (server l) (accepting l) (open l ∖ {[c]}) (handlers l) (closers l) (accepted l) (bound l) (file l).
Definition set_handlers (f : gmap nat handler → gmap nat handler) (l : life) : life :=
  mkLife (server l) (accepting l) (open l) (f (handlers l)) (closers l) (accepted l) (bound l) (file l).
Definition set_closer (t : nat) (x : closer) (l : life) : life :=
  mkLife (server l) (accepting l) (open l) (handlers l) (<[t := x]> (closers l)) (accepted l) (bound l) (file l).
Definition set_active (f : gset nat → gset nat) (s : Server) : Server :=
  mkServer (socketPath s) (listener s) (closed s) (f (active s)).

(** [listener.Accept] returns a new connection. *)
Definition accept (c : nat) (l : life) : life :=
  mkLife (server l) (Holding c) ({[c]} ∪ open l) (handlers l) (closers l) ({[c]} ∪ accepted l) (bound l) (file l).

(** The critical section of [Serve] after an accept. *)
Definition track (c : nat) (l : life) : life :=
  if closed (server l) then set_accepting Returned (close_socket c l)
  else set_accepting Accepting (set_handlers <[c := Serving]> (set_server (set_active ({[c]} ∪.)) l)).

Definition untrackConn (c : nat) (l : life) : life := set_server (set_active (.∖ {[c]})) l.

(** The critical section of [Close]: only the first caller has anything to do. *)
Definition close_server (s : Server) : Server := mkServer (socketPath s) false true (active s).
Definition close_begins (t : nat) (l : life) : life :=
  if closed (server l) then set_closer t AlreadyClosed l
  else set_closer t (Unlinking (elements (active (server l)))) (set_server close_server l).

(** [listener.Close()]: a listener that [net.Listen] has made unlinks its socket
    file first, and ignores a failure to do so; then nothing is accepted. *)
Definition set_file (f : socket_file) (l : life) : life :=
  mkLife (server l) (accepting l) (open l) (handlers l) (closers l) (accepted l) (bound l) f.
Definition unbind (l : life) : life :=
  mkLife (server l) (accepting l) (open l) (handlers l) (closers l) (accepted l) false (file l).
Definition close_listener (unlinked : bool) (l : life) : life :=
  unbind (if unlinked then set_file Absent l else l).

(** The critical section [Serve] begins with: the result it returns at once, if it
    does; else it goes on to accept from the listener. *)
Definition isClosed (s : Server) : bool := closed s.
Definition Serve_begins (s : Server) : option (result string unit) :=
  if isClosed s then Some (Ok tt)
  else if negb (listener s) then Some (Err "IPC server is not listening") else None.

(** [trackConn]: what the accept loop does itself; a closed server hangs up. *)
Definition trackConn (c : nat) (s : Server) : Server * bool :=
  if closed s then (s, true) else (set_active ({[c]} ∪.) s, false).

(** What [os.Remove] answers, about whichever file is at the path. *)
Inductive remove_answer : Type := Removed | NotExist | RemoveFails (msg : string).
Definition remove_answers (f : socket_file) (a : remove_answer) : Prop :=
  match a with Removed => f ≠ Absent | NotExist => f = Absent | RemoveFails _ => True end.

(** [Close] after the wait: a file at the path is removed; that there is none is
    no error. *)
Definition remove_result (a : remove_answer) : result string unit :=
  match a with RemoveFails msg => Err ("remove socket: " +:+ msg) | _ => Ok tt end.
Definition close_returns (t : nat) (a : remove_answer) (l : life) : life :=
  set_closer t (Finished (remove_result a)) (match a with Removed => set_file Absent l | _ => l end).

Inductive life_step (l : life) : life → Prop :=
| step_accept c : accepting l = Accepting → bound l = true → c ∉ accepted l → life_step l (accept c l)
| step_accept_fails : accepting l = Accepting → life_step l (set_accepting Returned l)
| step_track c : accepting l = Holding c → life_step l (track c l)
| step_served c : handlers l !! c = Some Serving →
    life_step l (set_handlers <[c := SocketClosed]> (close_socket c l))
| step_drop c : handlers l !! c = Some Serving → life_step l (close_socket c l)
| step_untrack c : handlers l !! c = Some SocketClosed →
    life_step l (set_handlers <[c := Untracked]> (untrackConn c l))
| step_done c : handlers l !! c = Some Untracked → life_step l (set_handlers (delete c) l)
| step_close t : closers l !! t = None → life_step l (close_begins t l)
| step_close_listener t rest unlinked : closers l !! t = Some (Unlinking rest) →
    life_step l (set_closer t (Hanging rest) (close_listener unlinked l))
| step_hang_up t c rest : closers l !! t = Some (Hanging (c :: rest)) →
    life_step l (set_closer t (Hanging rest) (close_socket c l))
| step_wait t : closers l !! t = Some (Hanging []) → life_step l (set_closer t Waiting l)
| step_return t a : closers l !! t = Some Waiting → handlers l = ∅ → remove_answers (file l) a →
    life_step l (close_returns t a l)
| step_successor : file l = Absent → life_step l (set_file Theirs l).

(** After a successful [Listen], with the accept loop of [Serve] running. *)
Definition listening (path : string) : life :=
  mkLife (mkServer path true false ∅) Accepting ∅ ∅ ∅ ∅ true Mine.
Definition life_reachable (path : string) (l : life) : Prop := rtc life_step (listening path) l.

(** [Serve] accepts exactly between a [Listen] that succeeded and the next [Close];
    before the first one it is an error, and after [Close] it returns at once. *)
Lemma Serve_begins_spec path env dir sys s :
  Serve_begins (NewServer path env) = Some (Err "IPC server is not listening") ∧
  Serve_begins (close_server s) = Some (Ok tt) ∧
  (is_Ok (Listen dir sys s).1.1 = true → Serve_begins (Listen dir sys s).1.2 = None).
Proof.
  split; [done|]. split; [done|]. unfold Listen. destruct (listener s); [done|]. destruct (negb (os_mkdir sys)); [done|].
  destruct (removeStaleSocket sys (socketPath s)) as [[r|e] calls]; [|done]. destruct (negb (os_bind sys)); [done|].
  by destruct (negb (os_chmod sys)).
Qed.

(** ** The invariant *)

Definition tracked (h : handler) : bool := match h with Untracked => false | _ => true end.

(** What the caller that shuts the server down still has to do about a connection
    that is open, and whether it has closed the listener. *)
Definition reaches (x : closer) (c : nat) : Prop :=
  match x with Unlinking rest | Hanging rest => c ∈ rest | _ => False end.
Definition past_listener (x : closer) : bool := match x with Unlinking _ | AlreadyClosed => false | _ => true end.
Definition past_wait (x : closer) : bool := match x with Finished _ => true | _ => false end.

(** Once the server is closed one caller of [Close], and no other, is shutting it
    down: it has every open connection that is served before it, or is through
    with them; the listening socket is open until it closes it, and nobody has a
    handler when it has returned. *)
Definition closer_has (l : life) (x : closer) : Prop :=
  (∀ c, c ∈ open l → handlers l !! c = Some Serving → reaches x c) ∧
  bound l = negb (past_listener x) ∧ (past_wait x = true → handlers l = ∅) ∧
  (x = Finished (Ok tt) → file l ≠ Mine).
Definition closing_ok (l : life) : Prop :=
  closed (server l) = true → ∃ t x, closers l !! t = Some x ∧ x ≠ AlreadyClosed
    ∧ (∀ t' x', closers l !! t' = Some x' → x' ≠ AlreadyClosed → t' = t)
    ∧ closer_has l x.
#[global] Arguments closing_ok : simpl never.

Record life_ok (l : life) : Prop := {
  ok_active c : c ∈ active (server l) ↔ ∃ h, handlers l !! c = Some h ∧ tracked h = true;
  ok_open c : c ∈ open l → handlers l !! c = Some Serving ∨ accepting l = Holding c;
  ok_handlers c : is_Some (handlers l !! c) → c ∈ accepted l;
  ok_holding c : accepting l = Holding c → c ∈ accepted l ∧ handlers l !! c = None;
  ok_not_closed : closed (server l) = false → (∀ t, closers l !! t = None) ∧ bound l = true;
  ok_closed : closing_ok l;
  ok_file : file l ≠ Mine → bound l = false;
}.

Lemma listening_ok path : life_ok (listening path).
Proof.
  split; cbn; try done; intros c.
  - rewrite lookup_empty. split; [done|by intros (? & ? & _)].
  - by rewrite lookup_empty; intros [? ?].
Qed.

(** Steps that leave the closers alone keep this when they open no socket of a
    connection that is served and start no handler. *)
Lemma closing_frame l l' : life_ok l →
  closed (server l') = closed (server l) → closers l' = closers l → bound l' = bound l →
  (file l' = Mine → file l = Mine) →
  (∀ c, c ∈ open l' → handlers l' !! c = Some Serving → c ∈ open l ∧ handlers l !! c = Some Serving) →
  (handlers l = ∅ → handlers l' = ∅) → closing_ok l'.
Proof.
  intros Hl Hs Hc Hb Hf Ho He Hcl. rewrite Hs in Hcl.
  destruct (ok_closed l Hl Hcl) as (t & x & H1 & H2 & H3 & H4 & H5 & H6 & H7). exists t, x. rewrite Hc.
  split_and!; [done|done|done|]. split_and!; [|congruence|by intros ?%H6%He|by intros ?%H7 ?%Hf].
  intros c Hc1 Hc2. destruct (Ho c Hc1 Hc2). auto.
Qed.

Lemma accept_ok c l : life_ok l → accepting l = Accepting → bound l = true → c ∉ accepted l → life_ok (accept c l).
Proof.
  intros Hl Ha Hb Hc. pose proof (ok_handlers l Hl c) as Hnew. split; cbn.
  - apply (ok_active l Hl).
  - intros c'. rewrite elem_of_union, elem_of_singleton. intros [->|Ho]; [by right|].
    destruct (ok_open l Hl c' Ho) as [?|?]; [by left|congruence].
  - intros c' Hh. apply elem_of_union_r. by apply (ok_handlers l Hl).
  - intros c' [= <-]. split; [by apply elem_of_union_l, elem_of_singleton|].
    destruct (handlers l !! c); [|done]. destruct Hc. apply Hnew. by eexists.
  - apply (ok_not_closed l Hl).
  - apply (closing_frame l); cbn; try done.
    intros c'. rewrite elem_of_union, elem_of_singleton. intros [->|Ho] Hh; [|done].
    destruct Hc. apply Hnew. by eexists.
  - apply (ok_file l Hl).
Qed.

(** A socket is closed: nothing else is affected. *)
Lemma close_socket_ok c l : life_ok l → life_ok (close_socket c l).
Proof.
  intros Hl. split; cbn.
  - apply (ok_active l Hl).
  - intros c' [Ho _]%elem_of_difference. by apply (ok_open l Hl).
  - apply (ok_handlers l Hl).
  - apply (ok_holding l Hl).
  - apply (ok_not_closed l Hl).
  - apply (closing_frame l); cbn; try done.
    intros c' [Ho _]%elem_of_difference Hh. done.
  - apply (ok_file l Hl).
Qed.

(** The accept loop gives up a connection that is closed, or has none. *)
Lemma stop_accepting_ok l : life_ok l → (∀ c, accepting l = Holding c → c ∉ open l) →
  life_ok (set_accepting Returned l).
Proof.
  intros Hl Hc. split; cbn; try apply Hl; try done.
  - intros c Ho. destruct (ok_open l Hl c Ho) as [?|Ha]; [by left|]. by destruct (Hc c Ha).
Qed.

Lemma track_ok c l : life_ok l → accepting l = Holding c → life_ok (track c l).
Proof.
  intros Hl Ha. unfold track. destruct (closed (server l)) eqn:Hcl.
  - apply stop_accepting_ok; [by apply close_socket_ok|]. cbn. rewrite Ha. intros c' [= <-].
    rewrite elem_of_difference, elem_of_singleton. tauto.
  - destruct (ok_holding l Hl c Ha) as [Hacc Hnone]. split; cbn.
    + intros c'. rewrite elem_of_union, elem_of_singleton, (ok_active l Hl). destruct (decide (c' = c)) as [->|Hne].
      * rewrite lookup_insert_eq. split; [by eexists|by left].
      * rewrite lookup_insert_ne by done. split; [by intros [|]|by right].
    + intros c' Ho. left. destruct (decide (c' = c)) as [->|Hne]; [by rewrite lookup_insert_eq|].
      rewrite lookup_insert_ne by done. destruct (ok_open l Hl c' Ho) as [?|?]; [done|congruence].
    + intros c'. destruct (decide (c' = c)) as [->|Hne]; [done|]. rewrite lookup_insert_ne by done. apply (ok_handlers l Hl).
    + done.
    + apply (ok_not_closed l Hl).
    + intros Hcl'. cbn in Hcl'. congruence.
    + apply (ok_file l Hl).
Qed.

(** A handler moves on after its socket was closed. *)
Lemma handler_ok c h h' l : life_ok l → handlers l !! c = Some h → c ∉ open l →
  life_ok (set_handlers <[c := h']> (set_server (set_active (if tracked h' then ({[c]} ∪.) else (.∖ {[c]}))) l)).
Proof.
  intros Hl Hh Hc. split; cbn.
  - intros c'. destruct (decide (c' = c)) as [->|Hne].
    + rewrite lookup_insert_eq. destruct (tracked h') eqn:Ht; rewrite ?elem_of_union, ?elem_of_difference, elem_of_singleton.
      * split; [by exists h'|by left].
      * split; [by intros [_ []]|]. intros (? & [= <-] & ?). congruence.
    + rewrite lookup_insert_ne, <-(ok_active l Hl) by done.
      destruct (tracked h'); rewrite ?elem_of_union, ?elem_of_difference, elem_of_singleton; tauto.
  - intros c' Ho. rewrite lookup_insert_ne by congruence. by apply (ok_open l Hl).
  - intros c'. destruct (decide (c' = c)) as [->|Hne]; [|rewrite lookup_insert_ne by done; apply (ok_handlers l Hl)].
    intros _. apply (ok_handlers l Hl). by rewrite Hh.
  - intros c' Ha. destruct (ok_holding l Hl c' Ha) as [? Hn]. rewrite lookup_insert_ne; [done|congruence].
  - apply (ok_not_closed l Hl).
  - apply (closing_frame l); cbn; try done.
    + intros c' Ho. rewrite lookup_insert_ne by congruence. done.
    + intros He. by rewrite He, lookup_empty in Hh.
  - apply (ok_file l Hl).
Qed.

Lemma done_ok c l : life_ok l → handlers l !! c = Some Untracked → life_ok (set_handlers (delete c) l).
Proof.
  intros Hl Hh. assert (c ∉ open l) as Hc.
  { intros Ho. destruct (ok_open l Hl c Ho) as [?|[_ ?]%(ok_holding l Hl)]; congruence. }
  split; cbn.
  - intros c'. rewrite (ok_active l Hl). destruct (decide (c' = c)) as [->|Hne].
    + rewrite lookup_delete_eq, Hh. split; [by intros (? & [= <-] & ?)|by intros (? & ? & _)].
    + by rewrite lookup_delete_ne.
  - intros c' Ho. rewrite lookup_delete_ne by congruence. by apply (ok_open l Hl).
  - intros c' [h' [_ Hh']%lookup_delete_Some]. apply (ok_handlers l Hl). by rewrite Hh'.
  - intros c' Ha. destruct (ok_holding l Hl c' Ha) as [? Hn]. by rewrite lookup_delete_ne by congruence.
  - apply (ok_not_closed l Hl).
  - apply (closing_frame l); cbn; try done.
    + intros c' Ho. by rewrite lookup_delete_ne by congruence.
    + intros He. by rewrite He, lookup_empty in Hh.
  - apply (ok_file l Hl).
Qed.

Lemma set_closer_ok t x l : life_ok l → closed (server l) = true → closing_ok (set_closer t x l) →
  life_ok (set_closer t x l).
Proof. intros Hl Hcl Hx. split; cbn; try apply Hl; try done. congruence. Qed.

Lemma close_begins_ok t l : life_ok l → closers l !! t = None → life_ok (close_begins t l).
Proof.
  intros Hl Ht. unfold close_begins. destruct (closed (server l)) eqn:Hcl.
  - apply set_closer_ok; [done..|]. intros _.
    destruct (ok_closed l Hl Hcl) as (t0 & x & H1 & H2 & H3 & H4). exists t0, x. cbn.
    rewrite lookup_insert_ne by congruence. split; [done|]. split; [done|]. split; [|done].
    intros t' x'. destruct (decide (t' = t)) as [->|Hne]; [rewrite lookup_insert_eq; by intros [= <-]|].
    rewrite lookup_insert_ne by done. apply H3.
  - destruct (ok_not_closed l Hl Hcl) as [Hno Hb]. split; cbn; try apply Hl; try done.
    intros _. exists t, (Unlinking (elements (active (server l)))). cbn. rewrite lookup_insert_eq.
    split; [done|]. split; [done|]. split.
    + intros t' x'. destruct (decide (t' = t)) as [->|Hne]; [done|].
      rewrite lookup_insert_ne by done. by rewrite Hno.
    + split_and!; try done. intros c _ Hc. apply elem_of_elements, (ok_active l Hl). by eexists.
Qed.

(** A caller past its critical section is the one that shuts the server down. *)
Lemma closing_caller t x l : life_ok l → closers l !! t = Some x → x ≠ AlreadyClosed →
  closed (server l) = true ∧ closer_has l x ∧ ∀ t' x', closers l !! t' = Some x' → x' ≠ AlreadyClosed → t' = t.
Proof.
  intros Hl Ht Hx. assert (closed (server l) = true) as Hcl.
  { destruct (closed (server l)) eqn:Hcl; [done|]. by rewrite (proj1 (ok_not_closed l Hl Hcl)) in Ht. }
  destruct (ok_closed l Hl Hcl) as (t0 & x0 & H1 & H2 & H3 & H4).
  assert (t = t0) as <- by eauto. assert (x0 = x) as -> by congruence. done.
Qed.

(** It goes on. *)
Lemma closer_ok t x x' l l' : life_ok l → closers l !! t = Some x → x ≠ AlreadyClosed → x' ≠ AlreadyClosed →
  life_ok l' → server l' = server l → closers l' = closers l → closer_has (set_closer t x' l') x' →
  life_ok (set_closer t x' l').
Proof.
  intros Hl Ht Hx Hx' Hl' Hs Hc Hh. destruct (closing_caller t x l Hl Ht Hx) as (Hcl & _ & Hone).
  apply set_closer_ok; [done|by rewrite Hs|]. intros _.
  exists t, x'. cbn. rewrite lookup_insert_eq, Hc. split; [done|]. split; [done|]. split; [|done].
  intros t' y. destruct (decide (t' = t)) as [->|Hne]; [done|]. rewrite lookup_insert_ne by done. apply Hone.
Qed.

Lemma close_listener_ok t rest u l : life_ok l → closers l !! t = Some (Unlinking rest) →
  life_ok (set_closer t (Hanging rest) (close_listener u l)).
Proof.
  intros Hl Ht. destruct (closing_caller t _ l Hl Ht) as (Hcl & (H1 & _) & Hone); [done|].
  split; try (destruct u; cbn; apply Hl); try (destruct u; cbn; congruence).
  - intros _. exists t, (Hanging rest). cbn. rewrite lookup_insert_eq. split; [done|]. split; [done|]. split.
    + intros t' y. destruct (decide (t' = t)) as [->|Hne]; [done|]. rewrite lookup_insert_ne by done.
      destruct u; apply Hone.
    + by split_and!; destruct u.
Qed.

Lemma close_returns_ok t a l : life_ok l → closers l !! t = Some Waiting → handlers l = ∅ →
  remove_answers (file l) a → life_ok (close_returns t a l).
Proof.
  intros Hl Ht Hh Ha. destruct (closing_caller t _ l Hl Ht) as (Hcl & (_ & Hb & _) & Hone); [done|].
  cbn in Hb. unfold close_returns. split; try (destruct a; cbn; apply Hl); try (destruct a; cbn; congruence).
  - intros _. exists t, (Finished (remove_result a)). cbn. rewrite lookup_insert_eq. split; [done|]. split; [done|]. split.
    + intros t' y. destruct (decide (t' = t)) as [->|Hne]; [done|]. rewrite lookup_insert_ne by done.
      destruct a; apply Hone.
    + split_and!; destruct a; cbn; try done; rewrite ?Hh; try done; cbn in Ha; congruence.
Qed.

Lemma file_ok f l : life_ok l → bound l = false → f ≠ Mine → life_ok (set_file f l).
Proof.
  intros Hl Hb Hf. split; cbn; try apply Hl; try done. by apply (closing_frame l).
Qed.

Lemma step_ok l l' : life_ok l → life_step l l' → life_ok l'.
Proof.
  intros Hl Hst.
  assert (∀ c h, handlers l !! c = Some h → h ≠ Serving → c ∉ open l) as Hclosed.
  { intros c h Hh Hne Ho. destruct (ok_open l Hl c Ho) as [?|[_ ?]%(ok_holding l Hl)]; congruence. }
  destruct Hst as [c Ha Hb Hc|Ha|c Ha|c Hh|c Hh|c Hh|c Hh|t Ht|t rest u Ht|t c rest Ht|t Ht|t a Ht Hh Ha|Hf].
  - by apply accept_ok.
  - apply stop_accepting_ok; [done|]. by rewrite Ha.
  - by apply track_ok.
  - pose proof (handler_ok c Serving SocketClosed _ (close_socket_ok c l Hl) Hh) as H. cbn [tracked] in H.
    assert (c ∉ open (close_socket c l)) as Hc by (cbn; rewrite elem_of_difference, elem_of_singleton; tauto).
    specialize (H Hc). destruct l as [s a op hs cl acc bd fl]. destruct s as [p li cs act]. cbn in *.
    assert (({[c]} : gset nat) ∪ act = act) as Hact; [|unfold set_server, set_active in H; cbn in H; rewrite Hact in H; exact H]. apply set_eq. intros c'.
    rewrite elem_of_union, elem_of_singleton. split; [intros [->|?]; [|done]|by right].
    apply (ok_active _ Hl). by eexists.
  - by apply close_socket_ok.
  - by apply (handler_ok c SocketClosed Untracked l Hl Hh), (Hclosed c SocketClosed).
  - by apply done_ok.
  - by apply close_begins_ok.
  - by apply close_listener_ok.
  - destruct (closing_caller t _ l Hl Ht) as (_ & (H1 & H2 & _) & _); [done|].
    apply (closer_ok t (Hanging (c :: rest)) _ l); try done; [by apply close_socket_ok|].
    split_and!; try done; cbn. intros c' [Ho Hne]%elem_of_difference Hh.
    destruct (elem_of_cons rest c' c) as [Hc _]. destruct (Hc (H1 c' Ho Hh)) as [->|?]; [|done].
    by destruct Hne; apply elem_of_singleton.
  - destruct (closing_caller t _ l Hl Ht) as (_ & (H1 & H2 & _) & _); [done|].
    apply (closer_ok t (Hanging []) Waiting l); try done. split_and!; try done. cbn. intros c Ho Hh.
    by apply (not_elem_of_nil c), (H1 c Ho Hh).
  - by apply close_returns_ok.
  - apply file_ok; [done|apply (ok_file l Hl)|]; by rewrite ?Hf.
Qed.

Lemma life_reachable_ok path l : life_reachable path l → life_ok l.
Proof.
  intros H. apply (rtc_invariant _ _ _ _ (λ a b Hs Ha, step_ok a b Ha Hs) H), listening_ok.
Qed.

(** ** Shutdown *)

(** The handlers can always finish. *)
Lemma handler_ends c h l : handlers l !! c = Some h →
  ∃ l', rtc life_step l l' ∧ handlers l' = delete c (handlers l) ∧ closers l' = closers l.
Proof.
  assert (∀ l, handlers l !! c = Some Untracked →
    ∃ l', rtc life_step l l' ∧ handlers l' = delete c (handlers l) ∧ closers l' = closers l) as H1.
  { intros l1 Hh. eexists. split; [eapply rtc_once, step_done, Hh|done]. }
  assert (∀ l, handlers l !! c = Some SocketClosed →
    ∃ l', rtc life_step l l' ∧ handlers l' = delete c (handlers l) ∧ closers l' = closers l) as H2.
  { intros l1 Hh. destruct (H1 (set_handlers <[c := Untracked]> (untrackConn c l1))) as (l' & Hr & Hl & Hcl).
    { cbn. by rewrite lookup_insert_eq. }
    exists l'. split; [eapply rtc_l; [by apply step_untrack|done]|]. split; [|done]. rewrite Hl. cbn. by rewrite delete_insert_eq. }
  intros Hh. destruct h; [|by apply H2|by apply H1].
  destruct (H2 (set_handlers <[c := SocketClosed]> (close_socket c l))) as (l' & Hr & Hl & Hcl).
  { cbn. by rewrite lookup_insert_eq. }
  exists l'. split; [eapply rtc_l; [by apply step_served|done]|]. split; [|done]. rewrite Hl. cbn. by rewrite delete_insert_eq.
Qed.

Lemma handlers_end l : ∃ l', rtc life_step l l' ∧ handlers l' = ∅ ∧ closers l' = closers l.
Proof.
  remember (size (handlers l)) as n eqn:Hn. revert l Hn. induction n as [|n IH]; intros l Hn.
  - exists l. split; [done|]. split; [|done]. by apply map_size_empty_inv.
  - destruct (map_choose (handlers l)) as (c & h & Hh); [intros He; by rewrite He, map_size_empty in Hn|].
    destruct (handler_ends c h l Hh) as (l1 & Hr1 & H1 & Hc1).
    destruct (IH l1) as (l2 & Hr2 & H2 & Hc2).
    { rewrite H1, map_size_delete, Hh. lia. }
    exists l2. split; [by etrans|]. split; [done|]. congruence.
Qed.

(** The caller that shuts the server down can always return, and without an error
    when it has not asked for the removal yet. *)
Lemma waiting_ends t l : handlers l = ∅ → closers l !! t = Some Waiting →
  ∃ l', rtc life_step l l' ∧ closers l' !! t = Some (Finished (Ok tt)).
Proof.
  intros Hh Ht. exists (close_returns t (if decide (file l = Absent) then NotExist else Removed) l). split.
  - apply rtc_once, step_return; [done|done|]. by case_decide.
  - case_decide; cbn; by rewrite lookup_insert_eq.
Qed.

Lemma hanging_ends t rest l : handlers l = ∅ → closers l !! t = Some (Hanging rest) →
  ∃ l', rtc life_step l l' ∧ closers l' !! t = Some (Finished (Ok tt)).
Proof.
  revert l. induction rest as [|c rest IH]; intros l Hh Ht.
  - destruct (waiting_ends t (set_closer t Waiting l)) as (l' & Hr & Hl'); [done|cbn; by rewrite lookup_insert_eq|].
    exists l'. split; [eapply rtc_l; [by apply step_wait|done]|done].
  - destruct (IH (set_closer t (Hanging rest) (close_socket c l))) as (l' & Hr & Hl'); [done|cbn; by rewrite lookup_insert_eq|].
    exists l'. split; [eapply rtc_l; [by eapply step_hang_up|done]|done].
Qed.

Lemma closer_ends t x l : handlers l = ∅ → closers l !! t = Some x → x ≠ AlreadyClosed →
  ∃ l' r, rtc life_step l l' ∧ closers l' !! t = Some (Finished r) ∧ (past_wait x = false → r = Ok tt).
Proof.
  intros Hh Ht Hx. destruct x as [rest|rest| |r|]; [| | |by exists l, r|done].
  - destruct (hanging_ends t rest (set_closer t (Hanging rest) (close_listener true l))) as (l' & Hr & Hl');
      [done|cbn; by rewrite lookup_insert_eq|].
    exists l', (Ok tt). split; [eapply rtc_l; [by apply step_close_listener|done]|done].
  - destruct (hanging_ends t rest l Hh Ht) as (l' & ? & ?). by exists l', (Ok tt).
  - destruct (waiting_ends t l Hh Ht) as (l' & ? & ?). by exists l', (Ok tt).
Qed.

Lemma closed_step l l' : life_ok l → closed (server l) = true → life_step l l' →
  closed (server l') = true ∧ dom (handlers l') ⊆ dom (handlers l).
Proof.
  intros Hl Hcl Hst.
  assert (∀ c h h', handlers l !! c = Some h → dom (<[c := h']> (handlers l)) ⊆ dom (handlers l)) as Hd.
  { intros c h h' Hh. rewrite dom_insert. apply elem_of_dom_2 in Hh. set_solver. }
  destruct Hst; unfold track, close_begins; cbn; rewrite ?Hcl; cbn; try done; eauto;
    try match goal with x : bool |- _ => by destruct x | x : remove_answer |- _ => by destruct x end.
  split; [done|]. rewrite dom_delete. set_solver.
Qed.

(** After the listener is closed nothing is accepted. *)
Lemma nothing_accepted l l' : bound l = false → life_step l l' → accepted l' = accepted l ∧ bound l' = false.
Proof.
  intros Hb Hs. destruct Hs as [| | | | | | |t Ht|t rest u Ht| | |t a| ]; try done; [congruence| | | |].
  - unfold track. by destruct (closed (server l)).
  - unfold close_begins. by destruct (closed (server l)).
  - by destruct u.
  - by destruct a.
Qed.

(** C16. Shutdown. In every reachable state, for any interleaving of the accept
    loop, the connections, the callers of [Close] and a successor that binds the
    path: no socket leaks, an open one is tracked or in the hands of the accept
    loop; one caller of [Close] at most does the work, the others return at once.
    Once it has closed the server no connection gets a handler any more and one
    that is accepted late is closed unserved; once it has closed the listener,
    which it does before it hangs up and waits, nothing is accepted; the socket
    file is there until then. When it has returned, every handler has ended,
    nothing is tracked, every socket is closed but one the accept loop is about to
    close, and the file of this server is gone, unless removing it failed, which
    it then reports. And until it has, it always can, without an error. *)
Theorem shutdown_contract path l : life_reachable path l →
  (∀ c, c ∈ open l → c ∈ active (server l) ∨ accepting l = Holding c) ∧
  (∀ t1 t2 x1 x2, closers l !! t1 = Some x1 → closers l !! t2 = Some x2 →
     x1 ≠ AlreadyClosed → x2 ≠ AlreadyClosed → t1 = t2) ∧
  (closed (server l) = true →
     (∀ l', life_step l l' → closed (server l') = true ∧ dom (handlers l') ⊆ dom (handlers l)) ∧
     (∀ c, accepting l = Holding c → c ∉ open (track c l) ∧ handlers (track c l) = handlers l)) ∧
  (∀ t x, closers l !! t = Some x → x ≠ AlreadyClosed →
     closed (server l) = true ∧ bound l = negb (past_listener x) ∧
     ∃ l' r, rtc life_step l l' ∧ closers l' !! t = Some (Finished r) ∧ (past_wait x = false → r = Ok tt)) ∧
  (bound l = false →
     (∃ t x, closers l !! t = Some x ∧ past_listener x = true) ∧
     ∀ l', life_step l l' → accepted l' = accepted l ∧ bound l' = false) ∧
  (file l ≠ Mine → bound l = false) ∧
  (closed (server l) = true → ∃ t x, closers l !! t = Some x ∧ x ≠ AlreadyClosed) ∧
  (∀ t r, closers l !! t = Some (Finished r) →
     closed (server l) = true ∧ bound l = false ∧ handlers l = ∅ ∧ active (server l) = ∅ ∧
     (∀ c, c ∈ open l → accepting l = Holding c) ∧
     (file l = Mine → ∃ msg, r = Err msg)).
Proof.
  intros Hl%life_reachable_ok. split; [|split; [|split; [|split; [|split; [|split; [|split]]]]]].
  - intros c Hc. destruct (ok_open l Hl c Hc) as [Hs|?]; [left|by right].
    apply (ok_active l Hl). by eexists.
  - intros t1 t2 x1 x2 H1 H2 Hx1 Hx2. destruct (closing_caller t2 x2 l Hl H2 Hx2) as (_ & _ & Hone). eauto.
  - intros Hcl. split; [intros l'; by apply closed_step|]. intros c _. unfold track. rewrite Hcl. cbn.
    split; [|done]. rewrite elem_of_difference, elem_of_singleton. tauto.
  - intros t x Ht Hx. destruct (closing_caller t x l Hl Ht Hx) as (Hcl & (_ & Hb & _) & _). split; [done|]. split; [done|].
    destruct (handlers_end l) as (l1 & Hr1 & Hh1 & Hc1).
    destruct (closer_ends t x l1) as (l2 & r & Hr2 & H2 & H3); [done|by rewrite Hc1|done|].
    exists l2, r. split; [by etrans|done].
  - intros Hb. split; [|intros l'; by apply nothing_accepted].
    destruct (closed (server l)) eqn:Hcl; [|by rewrite (proj2 (ok_not_closed l Hl Hcl)) in Hb].
    destruct (ok_closed l Hl Hcl) as (t & x & Ht & _ & _ & _ & Hx & _). exists t, x. split; [done|].
    rewrite Hb in Hx. by destruct (past_listener x).
  - apply (ok_file l Hl).
  - intros Hcl. destruct (ok_closed l Hl Hcl) as (t & x & Ht & Hx & _). by exists t, x.
  - intros t r Ht. destruct (closing_caller t _ l Hl Ht) as (Hcl & (_ & Hb & Hh & Hf) & _); [done|].
    specialize (Hh eq_refl). split; [done|]. split; [done|]. split; [done|]. split; [|split].
    + apply set_eq. intros c. rewrite (ok_active l Hl), Hh, lookup_empty. set_solver.
    + intros c Hc. destruct (ok_open l Hl c Hc) as [Hs|?]; [by rewrite Hh, lookup_empty in Hs|done].
    + intros Hm. destruct r as [[]|msg]; [by destruct Hf|by exists msg].
Qed.

(** The accept loop can return while a connection is still served and the
    shutdown is under way: [Serve] does not wait for [Close]. *)
Definition shutting_down : life :=
  set_accepting Returned (close_begins 0 (track 7 (accept 7 (listening "s")))).

Lemma shutting_down_reachable : life_reachable "s" shutting_down.
Proof.
  unfold life_reachable, shutting_down.
  eapply rtc_l; [by apply (step_accept _ 7)|]. eapply rtc_l; [by apply (step_track _ 7)|].
  eapply rtc_l; [by apply (step_close _ 0)|]. apply rtc_once. by apply step_accept_fails.
Qed.

Lemma Serve_returns_before_Close :
  ∃ l, life_reachable "s" l ∧ accepting l = Returned ∧ handlers l !! 7%nat = Some Serving ∧ file l = Mine.
Proof. exists shutting_down. split; [apply shutting_down_reachable|]. by vm_compute. Qed.

(** The shutdown up to the wait, when a successor has bound the path meanwhile. *)
Definition succeeded : life :=
  set_closer 0 Waiting (set_file Theirs (set_handlers (delete 7%nat) (set_handlers <[7%nat := Untracked]> (untrackConn 7
    (set_handlers <[7%nat := SocketClosed]> (close_socket 7 (set_closer 0 (Hanging []) (close_socket 7
      (set_closer 0 (Hanging [7%nat]) (close_listener true shutting_down)))))))))).

Lemma succeeded_reachable : life_reachable "s" succeeded.
Proof.
  unfold life_reachable. etransitivity; [apply shutting_down_reachable|].
  eapply rtc_l; [by apply (step_close_listener _ 0 [7%nat] true)|]. eapply rtc_l; [by apply (step_hang_up _ 0 7 [])|].
  eapply rtc_l; [by apply (step_served _ 7)|]. eapply rtc_l; [by apply (step_untrack _ 7)|].
  eapply rtc_l; [by apply (step_done _ 7)|]. eapply rtc_l; [by apply step_successor|].
  apply rtc_once. by apply (step_wait _ 0).
Qed.

(** The listener has unlinked the socket, so a successor may bind the path while
    this server still waits for its handlers; [Close] then removes its socket. *)
Theorem successor_socket_removed : ∃ l l', life_reachable "s" l ∧ life_step l l' ∧
  file l = Theirs ∧ bound l = false ∧ file l' = Absent ∧ closers l' !! 0%nat = Some (Finished (Ok tt)).
Proof.
  exists succeeded, (close_returns 0 Removed succeeded). split; [apply succeeded_reachable|].
  split; [|by vm_compute]. by apply step_return.
Qed.

Lemma shutdown_contract_witness :
  bound shutting_down = true ∧ (∃ l', rtc life_step shutting_down l' ∧ closers l' !! 0%nat = Some (Finished (Ok tt))) ∧
  accepted succeeded = {[7%nat]} ∧ ∀ l', life_step succeeded l' → accepted l' = {[7%nat]}.
Proof.
  split; [by vm_compute|]. split.
  - destruct (shutdown_contract "s" shutting_down shutting_down_reachable) as (_ & _ & _ & H & _).
    destruct (H 0%nat (Unlinking [7%nat])) as (_ & _ & l' & r & H1 & H2 & H3); [by vm_compute|done|].
    exists l'. split; [exact H1|]. by rewrite H2, (H3 eq_refl).
  - assert (accepted succeeded = {[7%nat]}) as Ha by (by vm_compute). split; [exact Ha|].
    destruct (shutdown_contract "s" succeeded succeeded_reachable) as (_ & _ & _ & _ & H & _).
    destruct (H eq_refl) as [_ Hn]. intros l' Hs. rewrite <-Ha. by destruct (Hn l' Hs).
Defined.

(** The accept loop keeps a connection exactly as [trackConn] does. *)
Lemma track_trackConn c l : server (track c l) = (trackConn c (server l)).1.
Proof. unfold track, trackConn. by destruct (closed (server l)). Qed.
