(* ===== verification/Channel.v ===== *)
(** * Channel: forwarding between Cockpit and the bridge

    [internal/channel/channel.go] and [client.go]: the copy loop of one
    direction, [Run], which starts both and closes everything when one of them
    ends, and [Close]. *)
From S2P Require Import Prelude Utf8 Codec.
Open Scope Z_scope.

(** The errors [copy] and [Run] tell apart. *)
Inductive cherr : Type :=
| ChEOF
| ErrNetClosed
| ErrClosed
| ErrClosedPipe
| ChWrite (e : cherr)    (* "write forwarded data: %w" *)
| ChOther (e : string).

(** [errors.Is] looks through the wrapping. *)
Fixpoint closed_error (e : cherr) : bool :=
  match e with
  | ErrNetClosed | ErrClosed | ErrClosedPipe => true
  | ChWrite e => closed_error e
  | _ => false
  end.
Fixpoint is_EOF (e : cherr) : bool :=
  match e with ChEOF => true | ChWrite e => is_EOF e | _ => false end.

(** What a write does: all of the bytes, or the first [n] and an error. *)
Inductive write_answer : Type := WriteAll | WriteFails (n : nat) (e : cherr).

(** One turn of the loop: whether the channel is closed when it looks, what
    [Read] returns, and what the write of these bytes does. *)
Record io_turn : Type := mkIO {
  io_closed : bool;
  io_data : string;
  io_error : option cherr;
  io_write : write_answer;
}.

(** The result of [copy]; [Unfinished] when the turns ran out. *)
Inductive copied : Type := Unfinished | Nil | Failed (e : cherr).

(** The loop: the bytes written so far are [out]. *)
Fixpoint copy_loop (turns : list io_turn) (out : string) : copied * string :=
  match turns with
  | [] => (Unfinished, out)
  | t :: turns' =>
      if io_closed t then (Failed ErrClosed, out)
      else
        let after out :=
          match io_error t with
          | Some e => (if is_EOF e then Nil else Failed (if closed_error e then ErrClosed else e), out)
          | None => copy_loop turns' out
          end in
        if streq (io_data t) "" then after out
        else match io_write t with
             | WriteAll => after (out +:+ io_data t)
             | WriteFails n e =>
                 (Failed (if closed_error e then ErrClosed else ChWrite e), out +:+ stake n (io_data t))
             end
  end.
Definition copy (closed : bool) (turns : list io_turn) : copied * string :=
  if closed then (Failed ErrClosed, "") else copy_loop turns "".

(** The bytes the turns of the loop read before it ends. *)
Fixpoint received (turns : list io_turn) : string :=
  match turns with
  | [] => ""
  | t :: turns' =>
      if io_closed t then ""
      else io_data t +:+ match io_error t, io_write t with
                         | None, WriteAll => received turns'
                         | None, WriteFails _ _ => if streq (io_data t) "" then received turns' else ""
                         | Some _, _ => ""
                         end
  end.

(** What was written is a prefix of the input; it is shorter only when the
    channel was closed or a write failed. *)
Definition forwards (input out : string) (res : copied * string) : Prop :=
  ∃ sent rest, input = sent +:+ rest ∧ res.2 = out +:+ sent ∧
    (rest ≠ "" → res.1 = Failed ErrClosed ∨ ∃ e, res.1 = Failed (ChWrite e)).

Lemma forwards_all input out r : forwards input out (r, out +:+ input).
Proof. exists input, "". by rewrite sapp_nil_r. Qed.

Lemma forwards_nil out r : forwards "" out (r, out).
Proof. exists "", "". by rewrite !sapp_nil_r. Qed.

Lemma forwards_app data input out res :
  forwards input (out +:+ data) res → forwards (data +:+ input) out res.
Proof.
  intros (sent & rest & -> & Hw & Hr). exists (data +:+ sent), rest. by rewrite Hw, !sapp_assoc.
Qed.

Lemma copy_loop_forwards turns out : forwards (received turns) out (copy_loop turns out).
Proof.
  revert out. induction turns as [|t turns IH]; intros out; cbn [copy_loop received].
  { apply forwards_nil. }
  destruct (io_closed t); [apply forwards_nil|].
  destruct (streq (io_data t) "") eqn:Hd; [apply streq_true in Hd; rewrite Hd|].
  - destruct (io_error t) as [e|].
    + rewrite sapp_nil_l. apply forwards_nil.
    + rewrite sapp_nil_l. by destruct (io_write t).
  - destruct (io_write t) as [|n e].
    + destruct (io_error t) as [e|]; [rewrite sapp_nil_r; apply forwards_all|].
      by apply forwards_app.
    + replace (match io_error t with Some _ => "" | None => "" end) with "" by (by destruct (io_error t)).
      exists (stake n (io_data t)), (sdrop n (io_data t)). rewrite sapp_nil_r, stake_sdrop.
      split; [done|]. split; [done|]. intros _. cbn. destruct (closed_error e); [by left|right; by exists e].
Qed.

(** ** Both directions *)

(** [Run] ignores these errors: a direction that ended this way ended normally. *)
Definition benign (r : copied) : bool :=
  match r with Failed e => is_EOF e || closed_error e | _ => true end.

(** The transports and the channel itself, when [Run] returns. *)
Record transports : Type := mkTransports { cockpit_closed : bool; bridge_closed : bool; channel_closed : bool }.
Definition all_closed : transports := mkTransports true true true.

(** [Run] with the results of the two directions in the order in which they
    arrive; [present] says that both transports were given. *)
Definition run_error (r : copied) : option cherr :=
  match r with Failed e => if benign r then None else Some e | _ => None end.
Definition Run (present : bool) (first second : copied) (t : transports) : option cherr * transports :=
  if negb present then (Some ErrClosed, t)
  else match run_error first with
       | Some e => (Some e, all_closed)
       | None => (run_error second, all_closed)
       end.

Lemma run_error_None r : run_error r = None ↔ benign r = true.
Proof. destruct r as [| |e]; [done..|]. unfold run_error. by destruct (benign (Failed e)). Qed.
Lemma run_error_Some r e : run_error r = Some e ↔ r = Failed e ∧ benign r = false.
Proof.
  destruct r as [| |e']; [by split; [|intros []]..|]. unfold run_error.
  destruct (benign (Failed e')) eqn:Hb; (split; [|intros [[= ->] ?]]); [done|congruence|by intros [= ->]|done].
Qed.

(** [Close]: the context is cancelled and the connection closed once. *)
Record Channel : Type := mkChannel { ch_closed : bool; ch_conn : option bool; ch_cancelled : bool }.
Definition New : Channel := mkChannel false None false.
Definition SetConn (c : Channel) : Channel := mkChannel (ch_closed c) (Some false) (ch_cancelled c).
Definition Channel_Close (c : Channel) : Channel :=
  if ch_closed c then c
  else mkChannel true (match ch_conn c with Some _ => Some true | None => None end) true.

(** C29. Forwarding. Whatever the transports do, a direction writes a prefix of
    the bytes it reads, in order and unchanged, and all of them unless the
    channel was closed or a write failed; it reports success only at the end of
    its input. [Run] returns with everything closed, with an error exactly when
    a direction failed otherwise than by the end or the closing of a transport,
    and then with the first such error. *)
Theorem forwarding_contract :
  (∀ closed turns, forwards (if (closed : bool) then "" else received turns) "" (copy closed turns)) ∧
  (∀ closed turns, (copy closed turns).1 = Nil → ∃ t e, t ∈ turns ∧ io_error t = Some e ∧ is_EOF e = true) ∧
  (∀ first second t, let '(r, t') := Run true first second t in
     t' = all_closed ∧ (r = None ↔ benign first = true ∧ benign second = true) ∧
     (∀ e, r = Some e ↔ first = Failed e ∧ benign first = false
        ∨ benign first = true ∧ second = Failed e ∧ benign second = false)).
Proof.
  split; [|split].
  - intros closed turns. unfold copy. destruct closed; [apply forwards_nil|apply copy_loop_forwards].
  - intros closed turns. unfold copy. destruct closed; [done|]. generalize "" as out.
    induction turns as [|t turns IH]; intros out; cbn [copy_loop]; [done|].
    assert (∀ out', (copy_loop turns out').1 = Nil →
      ∃ t' e, t' ∈ t :: turns ∧ io_error t' = Some e ∧ is_EOF e = true) as Hrest.
    { intros out' Hn. destruct (IH _ Hn) as (t' & e' & ? & ?). exists t', e'. split; [by right|done]. }
    assert (∀ e out', io_error t = Some e →
      (if is_EOF e then Nil else Failed (if closed_error e then ErrClosed else e), out' : string).1 = Nil →
      ∃ t' e', t' ∈ t :: turns ∧ io_error t' = Some e' ∧ is_EOF e' = true) as Hhere.
    { intros e out' He. destruct (is_EOF e) eqn:Hf; [|done]. intros _. exists t, e. split; [by left|done]. }
    destruct (io_closed t); [done|].
    destruct (io_error t) as [e|]; destruct (streq (io_data t) ""), (io_write t); eauto; done.
  - intros first second t. unfold Run. cbn [negb].
    destruct (run_error first) as [e1|] eqn:H1; (split; [done|]).
    + apply run_error_Some in H1 as [-> Hb]. split; [split; [done|intros [? _]; congruence]|].
      intros e. split; [intros [= <-]; by left|]. intros [[[= <-] _]|[? _]]; [done|congruence].
    + apply run_error_None in H1. split; [rewrite run_error_None; tauto|]. intros e. rewrite run_error_Some.
      split; [by right|]. intros [[_ ?]|(_ & ? & ?)]; [congruence|done].
Qed.
