(* ===== verification/Wire.v ===== *)
(** * Wire: what the daemon sends can be sent

    The composition of the marshallers (Printing.v), the codec (Codec.v), the
    dispatcher (Dispatcher.v) and the streams (Stream.v): a reply or an event
    whose JSON the encoder refused would close the connection, so none may. *)
From S2P Require Import Prelude Utf8 Json Message JsonValidation Codec CommandPayload Connection Authorization.
From S2P Require Import Schema OpenApi NodeCache NodeSource Stream StreamHistory Printing Dispatcher.
Open Scope Z_scope.

(** ** Numbers of decoded values fit a machine word *)

Fixpoint narrow (t : gotype) : bool :=
  match t with
  | TInt bits => (1 <=? bits) && (bits <=? 64)
  | TSlice t' | TPtr t' => narrow t'
  | TStruct fs => forallb (λ f, narrow f.2) fs
  | _ => true
  end.

Definition typed_narrow (v : goval) : Prop := ∃ t, has_type t v = true ∧ narrow t = true.

Lemma fields_typed_In (ht : gotype → goval → bool) fs xs p :
  fields_typed ht fs xs = true → p ∈ xs → ∃ f, f ∈ fs ∧ ht f.2 p.2 = true.
Proof.
  revert xs. induction fs as [|[n t] fs IH]; intros [|[n' y] xs]; cbn; try done; [by intros _ ?%elem_of_nil|].
  intros [[_ Ht]%andb_true_iff Hr]%andb_true_iff [->|Hin]%elem_of_cons; [by exists (n, t); split; [left|]|].
  destruct (IH xs Hr Hin) as (f & Hf & ?). exists f. split; [by right|done].
Qed.

Lemma field_narrow name v x : typed_narrow v → field name v = Some x → typed_narrow x.
Proof.
  intros (t & Ht & Hn) Hf. destruct v as [| | | | | | | |xs]; try done. destruct t as [| |b| | | | | | |fs]; try done.
  unfold field, assoc in Hf. destruct (find _ xs) as [p|] eqn:Hfind; [|done]. injection Hf as <-.
  apply find_some in Hfind as [Hp%list_elem_of_In _].
  destruct (fields_typed_In has_type fs xs p Ht Hp) as (f & Hfs & Hft). exists f.2. split; [done|].
  change (forallb (λ f, narrow f.2) fs = true) in Hn. rewrite forallb_forall in Hn. by apply Hn, list_elem_of_In.
Qed.

Lemma deref_narrow v x : typed_narrow v → deref (Some v) = Some x → typed_narrow x.
Proof.
  intros (t & Ht & Hn) Hd. destruct v as [| | | | | | |[y|]|]; try done. injection Hd as <-.
  destruct t as [| |b| | | | | |t|fs]; try done. by exists t.
Qed.

Lemma as_int_narrow v z : typed_narrow v → as_int (Some v) = Some z → machine_int z.
Proof.
  intros (t & Ht & Hn) Hv. destruct v as [| |w| | | | | |]; try done. injection Hv as <-.
  destruct t as [| |b| | | | | | |fs]; try done. cbn in Ht, Hn. unfold fits in Ht. split_bools.
  unfold machine_int. apply orb_true_iff in Ht as [Ht|Ht]; [|apply Z.eqb_eq in Ht as ->; lia].
  apply andb_true_iff in Ht as [H1%Z.leb_le H2%Z.ltb_lt].
  assert (2 ^ (b - 1) ≤ 2 ^ 63) by (apply Z.pow_le_mono_r; lia). lia.
Qed.

Lemma opt_int_narrow name v z : typed_narrow v → opt_int name v = Some z → machine_int z.
Proof.
  intros Hv. unfold opt_int. destruct (field name v) as [x|] eqn:Hf; [|done].
  apply (field_narrow _ _ _ Hv) in Hf. destruct (deref (Some x)) as [y|] eqn:Hd; [|done].
  apply (deref_narrow _ _ Hf) in Hd. by apply as_int_narrow.
Qed.

Lemma machine_int_0 : machine_int 0.
Proof. done. Qed.

Lemma MapSlurmNode_numbers now inn : typed_narrow inn → node_numbers (MapSlurmNode now inn).
Proof.
  intros Hi.
  assert (∀ name, machine_int (default 0 (opt_int name inn))) as Hint.
  { intros name. destruct (opt_int name inn) as [z|] eqn:Hz; [|done]. by apply (opt_int_narrow name inn). }
  assert (machine_int (default 0 (free_memory inn))) as Hfree.
  { unfold free_memory. destruct (deref (field "free_mem" inn)) as [v|] eqn:Hv; [|done]. cbn.
    destruct (opt_int "number" v) as [z|] eqn:Hz; [|done]. cbn.
    destruct (as_bool _) as [[]|]; [|done..]. cbn.
    destruct (field "free_mem" inn) as [x|] eqn:Hf; [|done]. apply (field_narrow _ _ _ Hi) in Hf.
    apply (deref_narrow _ _ Hf) in Hv. by apply (opt_int_narrow "number" v). }
  unfold node_numbers. split_and!; [done|apply Hint..|exact Hfree].
Qed.

Lemma as_slice_narrow v l y : typed_narrow v → as_slice (Some v) = Some l → y ∈ l → typed_narrow y.
Proof.
  intros (t & Ht & Hn) Hs Hy. destruct v as [| | | | | |n b| |]; try done. injection Hs as <-.
  destruct t as [| |b'| | | | |t| |fs]; try done. cbn in Ht. apply andb_true_iff in Ht as [_ Ht].
  exists t. split; [|done]. rewrite forallb_forall in Ht. apply Ht, list_elem_of_In.
  apply list_elem_of_lookup in Hy as [i Hi]. apply lookup_take_Some in Hi as [Hi _]. by eapply list_elem_of_lookup_2.
Qed.

Lemma ListNodes_Ok exec now ns : ListNodes exec now = Ok ns →
  ∃ out resp, unmarshal V0043OpenapiNodesResp out = Some resp ∧
    ns = imap (λ k inn, MapSlurmNode (now k) inn) (slice_field "nodes" resp).
Proof.
  unfold ListNodes. intros H. destruct (exec scontrol_command) as [out|[]]; [|discriminate H..].
  destruct (unmarshal_shape out) as [ms|]; [|discriminate H].
  destruct (shape_lookup "nodes" ms) as [raw|]; [|discriminate H].
  apply bind_Ok_inv in H as ([] & _ & H).
  destruct (unmarshal V0043OpenapiNodesResp out) as [resp|] eqn:Hu; [|discriminate H].
  apply bind_Ok_inv in H as ([] & _ & H). injection H as <-. by exists out, resp.
Qed.

Lemma ListNodes_numbers exec now ns : ListNodes exec now = Ok ns → Forall node_numbers ns.
Proof.
  intros (out & resp & Hu & ->)%ListNodes_Ok.
  assert (typed_narrow resp) as Hr.
  { exists V0043OpenapiNodesResp. split; [by apply (unmarshal_typed _ out)|by vm_compute]. }
  clear Hu. apply Forall_lookup. intros k n. rewrite list_lookup_imap.
  destruct (slice_field "nodes" resp !! k) as [inn|] eqn:Hk; [|done]. intros [= <-].
  apply MapSlurmNode_numbers. unfold slice_field in Hk.
  destruct (field "nodes" resp) as [v|] eqn:Hf; [|done]. apply (field_narrow _ _ _ Hr) in Hf.
  destruct (as_slice (Some v)) as [l|] eqn:Hs; [|done]. apply list_elem_of_lookup_2 in Hk.
  by apply (as_slice_narrow v l).
Qed.

(** ** The cache *)

(** Every node the daemon holds has machine-sized numbers. *)
Definition cache_numbers (c : NodeCache) : Prop :=
  machine_int (generation c) ∧ map_Forall (λ _, node_numbers) (nodes c).

Lemma machine_int_wrap z : machine_int (uint64_wrap z).
Proof. unfold machine_int, uint64_wrap. pose proof (Z.mod_pos_bound z (2 ^ 64) ltac:(lia)). lia. Qed.

Lemma stamped_numbers n z : node_numbers n → node_numbers (set_generation (uint64_wrap z) n).
Proof. intros (_ & H). split; [apply machine_int_wrap|exact H]. Qed.

Lemma commit_numbers o1 o2 o3 ns c batch changed c' :
  fair o1 → fair o2 → fair o3 → cache_ok c → cache_numbers c → Forall node_numbers ns →
  replaceSnapshot o1 o2 o3 ns c = (batch, changed, c') →
  cache_numbers c' ∧ Forall (λ ch, node_numbers (ch_Node ch)) (b_Changes batch) ∧ machine_int (b_Generation batch).
Proof.
  intros H1 H2 H3 Hc [Hg Hn] Hns Hr.
  destruct (commit_forall node_numbers o1 o2 o3 ns c batch changed c' H1 H2 H3 Hc) as [Hc' Hb]; [|done..|].
  { intros n. apply stamped_numbers. }
  split; [split; [|done]|split; [done|]]; clear -Hr Hg; unfold replaceSnapshot in Hr;
    case_bool_decide; injection Hr as <- <- <-; cbn; try done; apply machine_int_wrap.
Qed.

Lemma snapshot_numbers o c : fair o → cache_numbers c →
  machine_int (s_Generation (cache_Snapshot o c)) ∧ Forall node_numbers (s_Nodes (cache_Snapshot o c)).
Proof.
  intros Ho [Hg Hn]. split; [done|]. cbn. apply Forall_forall. intros n ([k n'] & -> & Hin)%list_elem_of_fmap.
  apply (fair_elem o _ _ _ Ho) in Hin. by apply (Hn k).
Qed.

(** ** Message IDs *)

Lemma set_envelope_valid f raw v e :
  strings_ok v = true → valid_utf8 (MessageID e) = true → valid_utf8 (MessageID (set_envelope f raw v e).1) = true.
Proof.
  intros Hv He. destruct e as [pr ve id ty ts pl]. unfold set_envelope. cbn [MessageID] in *.
  repeat case_match; try done. by apply decode_string_valid.
Qed.

Lemma Decode_valid_id r message r' : Decode r = ((message, None), r') → valid_utf8 (MessageID message) = true.
Proof.
  unfold Decode. destruct (ReadFull r _) as [[header|e] r1]; [|done].
  destruct (_ =? 0); [done|]. destruct (_ <? _); [done|].
  destruct (ReadFull r1 _) as [[payload|e] r2]; [|done]. unfold decode_payload.
  destruct (validateUniqueJSONKeys payload); [|done].
  destruct (parse_value _ _) as [[v rest]|] eqn:Hp; [|done]. apply parse_value_valid in Hp.
  pose proof (decode_struct_ind true envelope_names set_envelope (λ e, valid_utf8 (MessageID e) = true)
    v empty_envelope Hp) as Hi.
  destruct (decode_struct _ _ _ _ _) as [env ok]. destruct ok; [|done].
  destruct (at_end rest); [|done]. cbn [negb].
  destruct (ValidateEnvelope env) as [[]|] eqn:Hv; [|done]. intros [= <- _].
  apply Hi; [|done]. intros f raw w st _. apply set_envelope_valid.
Qed.

(** ** The texts of [strconv.Quote] as JSON *)

Section not_found.
Context (printable : Z → bool).

(** A text of runes that are printed as they are. *)
Inductive plain : string → Prop :=
| plain_nil : plain ""
| plain_cons r s : valid_rune r = true → (32 ≤ r < 127 ∨ 128 ≤ r ∧ printable r = true) → plain s →
    plain (encode_valid r +:+ s).

Lemma plain_app a b : plain a → plain b → plain (a +:+ b).
Proof. induction 1 as [|r a Hv Hr _ IH]; [done|]. intros Hb. rewrite sapp_assoc. constructor; auto. Qed.

Definition plain_char (c : ascii) : bool := (32 <=? code c) && (code c <? 127).

Lemma plain_ascii s : sforallb plain_char s = true → plain s.
Proof.
  induction s as [|c s IH]; [constructor|]. cbn [sforallb]. intros [[H1%Z.leb_le H2%Z.ltb_lt]%andb_true_iff Hs]%andb_true_iff.
  replace (String c s) with (encode_valid (code c) +:+ s).
  - constructor; [apply valid_rune_true; lia|by left|auto].
  - rewrite encode_valid_ascii by (pose proof (code_range c); lia). by rewrite chr_code.
Qed.

Lemma plain_hex z : 0 ≤ z < 16 → plain_char (hex_digit z) = true.
Proof.
  intros Hz. unfold hex_digit, plain_char. destruct (Z.ltb_spec z 10); rewrite code_chr by lia;
    apply andb_true_iff; rewrite Z.leb_le, Z.ltb_lt; lia.
Qed.

Lemma plain_hex2 z : 0 ≤ z < 256 → sforallb plain_char (hex2 z) = true.
Proof.
  intros Hz. unfold hex2. cbn [sforallb]. pose proof (Z.mod_pos_bound z 16 ltac:(lia)).
  assert (0 ≤ z / 16 < 16) by (split; [apply Z.div_pos|apply Z.div_lt_upper_bound]; lia).
  by rewrite !plain_hex.
Qed.

Lemma plain_hex4 z : 0 ≤ z < 65536 → sforallb plain_char (hex4_text z) = true.
Proof.
  intros Hz. unfold hex4_text. pose proof (Z.mod_pos_bound z 256 ltac:(lia)).
  assert (0 ≤ z / 256 < 256) by (split; [apply Z.div_pos|apply Z.div_lt_upper_bound]; lia).
  by rewrite sforallb_app, !plain_hex2.
Qed.

Lemma plain_escape c s : plain_char c = true → sforallb plain_char s = true → plain (bs (String c s)).
Proof. intros Hc Hs. apply plain_ascii. unfold bs. cbn [sforallb]. by rewrite Hc, Hs. Qed.

Lemma valid_rune_max r : valid_rune r = true → 0 ≤ r < 1114112.
Proof. intros Hr%valid_rune_true. lia. Qed.

Lemma plain_quote_rune r : valid_rune r = true → plain (quote_rune printable r (encode_valid r)).
Proof.
  intros Hv. pose proof (valid_rune_max r Hv) as Hb. unfold quote_rune.
  assert ((r =? rune_error) && (slen (encode_valid r) =? 1)%nat = false) as ->.
  { destruct (Z.eqb_spec r rune_error) as [->|]; [by vm_compute|done]. }
  destruct ((r =? 34) || (r =? 92)) eqn:Hq.
  { apply orb_true_iff in Hq as [->%Z.eqb_eq| ->%Z.eqb_eq]; by apply plain_ascii; vm_compute. }
  destruct (Z.ltb_spec r 128) as [Hlt|Hge].
  - destruct ((32 <=? r) && (r <? 127)) eqn:Hp.
    { apply andb_true_iff in Hp as [H1%Z.leb_le H2%Z.ltb_lt]. rewrite <-(sapp_nil_r (encode_valid r)).
      constructor; [done|by left|constructor]. }
    repeat (destruct (_ =? _); [by apply plain_ascii; vm_compute|]).
    apply plain_escape; [done|]. apply plain_hex2. lia.
  - destruct (printable r) eqn:Hp.
    { rewrite <-(sapp_nil_r (encode_valid r)). constructor; [done|by right|constructor]. }
    destruct (Z.ltb_spec r 65536); [apply plain_escape; [done|]; apply plain_hex4; lia|].
    pose proof (Z.mod_pos_bound r 65536 ltac:(lia)).
    assert (0 ≤ r / 65536 < 65536) by (split; [apply Z.div_pos|apply Z.div_lt_upper_bound]; lia).
    apply plain_escape; [done|]. by rewrite sforallb_app, !plain_hex4.
Qed.

Definition quoted_body (s : string) : string := sconcat (map (λ x, quote_rune printable x.1 x.2) (segs s)).

Lemma plain_quoted_body s : plain (quoted_body s).
Proof.
  unfold quoted_body. induction s as [|s Hs IH] using rune_ind; [constructor|].
  rewrite segs_cons by done. cbn [map]. rewrite sconcat_cons. apply plain_app; [|exact IH]. cbn [fst snd].
  destruct (decode_rune s) as [r n] eqn:Hd. cbn [fst snd].
  destruct (seg_valid (r, stake n s)) eqn:Hv.
  - destruct (decode_rune_canonical s r n Hs Hd Hv) as [Hr ->]. by apply plain_quote_rune.
  - unfold seg_valid in Hv. apply negb_false_iff in Hv. cbn [fst snd] in Hv. unfold quote_rune. rewrite Hv.
    apply andb_true_iff in Hv as [_ Hl%Nat.eqb_eq]. destruct (stake n s) as [|c t]; [done|].
    apply plain_escape; [done|]. apply plain_hex2. pose proof (code_range c). lia.
Qed.

Lemma plain_Quote s : plain (strconv_Quote printable s).
Proof.
  change (plain (String dquote (quoted_body s +:+ String dquote ""))).
  change (plain (String dquote "" +:+ (quoted_body s +:+ String dquote ""))).
  apply plain_app; [by apply plain_ascii|]. apply plain_app; [apply plain_quoted_body|by apply plain_ascii].
Qed.

(** Quoting a plain text escapes quotes and backslashes only: it is JSON. *)
Lemma scan_plain_char c t : plain_char c = true → negb ((code c =? 34) || (code c =? 92)) = true →
  scan_string (String c t) = prepend (String c "") (scan_string t).
Proof. intros H1 H2. by byte_cases c. Qed.

Lemma scan_quoted s rest : plain s →
  scan_string (quoted_body s +:+ String dquote rest) = Some (quoted_body s, rest).
Proof.
  unfold quoted_body. induction 1 as [|r s Hv Hr _ IH]; [done|]. pose proof (valid_rune_max r Hv) as Hb.
  rewrite segs_encode by done. cbn [map fst snd]. rewrite sconcat_cons, sapp_assoc. unfold quote_rune at 1 3.
  assert ((r =? rune_error) && (slen (encode_valid r) =? 1)%nat = false) as ->.
  { destruct (Z.eqb_spec r rune_error) as [->|]; [by vm_compute|done]. }
  set (t := sconcat _ +:+ String dquote rest) in *.
  destruct ((r =? 34) || (r =? 92)) eqn:Hq.
  { assert (scan_string (bs (encode_valid r) +:+ t) = prepend (bs (encode_valid r)) (scan_string t)) as ->.
    { apply orb_true_iff in Hq as [->%Z.eqb_eq| ->%Z.eqb_eq]; done. }
    by rewrite IH. }
  destruct (Z.ltb_spec r 128) as [Hlt|Hge].
  - destruct Hr as [Hr|[? _]]; [|lia].
    replace ((32 <=? r) && (r <? 127)) with true
      by (symmetry; apply andb_true_iff; rewrite Z.leb_le, Z.ltb_lt; lia).
    rewrite encode_valid_ascii by lia. rewrite sapp_cons, sapp_nil_l, scan_plain_char, IH; [done| |].
    + unfold plain_char. rewrite code_chr by lia. apply andb_true_iff. rewrite Z.leb_le, Z.ltb_lt. lia.
    + rewrite code_chr by lia. by rewrite Hq.
  - destruct Hr as [?|[_ Hp]]; [lia|]. rewrite Hp, scan_string_high, IH; [done|]. by apply encode_valid_high.
Qed.

Lemma prints_quoted d s : plain s → prints d (strconv_Quote printable s) (JStr (unquote (quoted_body s))).
Proof.
  intros Hs. change (strconv_Quote printable s) with (String dquote (quoted_body s +:+ String dquote "")).
  split; [done|]. intros t _. rewrite sapp_cons, sapp_assoc, sapp_cons, sapp_nil_l.
  rewrite parse_value_scalar by done. cbn [scan_scalar]. replace (dquote =a dquote) with true by done.
  by rewrite scan_quoted.
Qed.

Lemma plain_error_text e : plain (query_error_text printable e).
Proof.
  destruct e as [| |name]; [by apply plain_ascii; vm_compute..|]. cbn [query_error_text].
  apply plain_app; [by apply plain_ascii; vm_compute|apply plain_Quote].
Qed.

(** The answer to a query that fails is a JSON object whatever was asked for. *)
Lemma not_found_json e :
  is_Some (parse_document (print_object
    [("code", quote "NOT_FOUND"); ("message", strconv_Quote printable (query_error_text printable e))])).
Proof.
  eexists. apply (parse_document_prints 1); [rewrite max_depth_S; unfold inner_depth; lia|].
  apply prints_object. constructor; [split; [by vm_compute|by apply prints_quote; vm_compute]|].
  constructor; [split; [by vm_compute|apply prints_quoted, plain_error_text]|constructor].
Qed.
End not_found.

(** ** Replies *)

(** A message of the daemon under [id] whose payload its own encoder accepts
    and its peer's decoder reads back. *)
Inductive printed_message (now : Z) (id : string) : Envelope → Prop :=
| printed_intro ty payload : ty ∈ known_types → Printing.printable 6 payload →
    printed_message now id (NewEnvelope now id ty payload).

Create HintDb wire.

Lemma known ty : IsKnown ty = true → ty ∈ known_types.
Proof. apply bool_decide_eq_true_1. Qed.
#[export] Hint Extern 2 (_ ∈ known_types) => (apply known; vm_compute; reflexivity) : wire.

Lemma printed_deep d now id ty payload : (d ≤ 6)%nat → ty ∈ known_types → Printing.printable d payload →
  printed_message now id (NewEnvelope now id ty payload).
Proof. intros Hd Ht Hp. constructor; [done|by apply (printable_mono d)]. Qed.

Lemma printed_error now id e : printed_message now id (NewErrorEnvelope now id e).
Proof. unfold NewErrorEnvelope. apply (printed_deep 2); [lia|auto with wire|apply printable_error]. Qed.

Lemma printed_sendable now id m : id ≠ "" → valid_utf8 id = true → printed_message now id m →
  Z.of_nat (slen (frame_body m)) ≤ MaxPayloadSize → sendable m.
Proof.
  intros Hid Hv [ty p Ht Hp] Hsz. apply (NewEnvelope_sendable now id ty p 6); [done..| |done|done].
  unfold inner_depth. lia.
Qed.

Lemma marshal_envelope_Some m : is_Some (parse_document (Payload m)) → is_Some (marshal_envelope m).
Proof.
  intros [j Hj]. unfold marshal_envelope, marshal_raw. destruct (streq (Payload m) ""); [by eexists|].
  rewrite Hj. by eexists.
Qed.

Lemma printable_parses d p : (d ≤ inner_depth)%nat → Printing.printable d p → is_Some (parse_document p).
Proof.
  intros Hd (j & Hj & _). exists j. apply (parse_document_prints d); [|done]. rewrite max_depth_S. lia.
Qed.

Lemma printed_marshals now id m : printed_message now id m → is_Some (marshal_envelope m).
Proof.
  intros [ty p _ Hp]. apply marshal_envelope_Some, (printable_parses 6); [unfold inner_depth; lia|done].
Qed.
#[export] Hint Resolve printed_error : wire.

Section replies.
Context {W : Type} (is_print : Z → bool) (o : order) (read : W → NodeCache).
Context (resolver : option CapabilityContextResolver) (command : AuthenticatedHandler (W := W)).

Lemma printed_capabilities now user msg :
  printed_message now (MessageID msg) (CapabilitiesHandler_Handle now resolver user msg).
Proof.
  unfold CapabilitiesHandler_Handle, capabilityUnavailable. cbn zeta. repeat case_match; auto with wire.
  apply (printed_deep 2); [lia|auto with wire|apply printable_capabilities].
Qed.

(** What a query asks for that the daemon does not have. *)
Definition foreign_query (msg : Envelope) : option string :=
  if streq (Type_ msg) MessageQuery then
    r ← decode_query (Payload msg);
    if streq r "" || streq r "nodes" then None else Some r
  else None.

Definition not_found_payload (name : string) : string :=
  print_object [("code", quote "NOT_FOUND");
    ("message", strconv_Quote is_print (query_error_text is_print (UnsupportedResource name)))].

Lemma printed_invalid_query now id detail :
  printed_message now id (NewEnvelope now id MessageError (invalid_query detail)).
Proof. apply (printed_deep 1); [lia|auto with wire|]. unfold invalid_query. print_fields_tac. Qed.

Lemma query_reply now c msg : fair o → cache_numbers c → Type_ msg = MessageQuery →
  let reply := QueryHandler_Handle is_print o now (Some c) msg in
  match foreign_query msg with
  | Some name => reply = NewEnvelope now (MessageID msg) MessageError (not_found_payload name)
  | None => printed_message now (MessageID msg) reply
  end.
Proof.
  intros Ho Hc Ht. cbn zeta. unfold foreign_query, QueryHandler_Handle. rewrite Ht, streq_refl.
  destruct (decode_query (Payload msg)) as [r|]; cbn [mbind option_bind]; [|apply printed_invalid_query].
  destruct (streq r "") eqn:He; cbn [orb]; [apply printed_invalid_query|].
  unfold Query. rewrite He. cbn [negb guard_err mbind result_bind].
  destruct (streq r "nodes"); cbn [guard_err mbind result_bind]; [|done].
  destruct (snapshot_numbers o c Ho Hc) as [Hg Hn].
  destruct (mapM marshal_node _) as [nodes|] eqn:Hm.
  - apply (printed_deep 5); [lia|auto with wire|].
    pose proof (printable_mapM _ _ 3 _ _ (printable_node 0) Hn Hm). print_fields_tac.
  - apply (printed_deep 1); [lia|auto with wire|]. print_fields_tac.
Qed.

Lemma route_reply now user msg w :
  fair o → cache_numbers (read w) → Type_ msg ≠ MessageCommand →
  let reply := (route is_print o read resolver command now user msg w).1 in
  match foreign_query msg with
  | Some name => reply = NewEnvelope now (MessageID msg) MessageError (not_found_payload name)
  | None => printed_message now (MessageID msg) reply
  end.
Proof.
  intros Ho Hc Hcmd%streq_false. cbn zeta. unfold route, as_named. rewrite Hcmd.
  destruct (streq (Type_ msg) MessageCapabilitiesRequest) eqn:Hcap.
  { unfold foreign_query. apply streq_true in Hcap. rewrite Hcap. change (streq _ MessageQuery) with false. cbn match.
    repeat case_match; cbn [fst]; auto using printed_capabilities with wire. }
  case_bool_decide as Hop; cbn [fst].
  2: { unfold foreign_query. destruct (streq (Type_ msg) MessageQuery) eqn:Hq; [|apply printed_error].
       apply streq_true in Hq. destruct Hop. apply elem_of_open. auto. }
  unfold open_reply. apply elem_of_open in Hop as [Ht|[Ht|Ht]].
  - unfold foreign_query. rewrite Ht. change (streq MessageHello MessageQuery) with false.
    rewrite streq_refl. apply (printed_deep 1); [lia|auto with wire|]. print_fields_tac.
  - unfold foreign_query. rewrite Ht. change (streq MessagePing MessageQuery) with false.
    change (streq MessagePing MessageHello) with false. rewrite streq_refl.
    apply (printed_deep 1); [lia|auto with wire|]. print_fields_tac.
  - pose proof (query_reply now (read w) msg Ho Hc Ht) as Hq. rewrite Ht.
    change (streq MessageQuery MessageHello) with false. change (streq MessageQuery MessagePing) with false. exact Hq.
Qed.

(** C24. Every message is answered by one that can be sent. The reply of the
    daemon to a message its decoder accepted, other than a command, carries the
    ID of that message and marshals; unless it refuses a query for a resource
    that does not exist, and as long as it fits a frame, it is sendable: the
    frame is written in one piece and the peer decodes it to the same message. *)
Theorem replies_encode d now user r msg r' w :
  daemon_dispatcher is_print o read resolver command = Ok d → fair o → cache_numbers (read w) →
  Decode r = ((msg, None), r') → Type_ msg ≠ MessageCommand →
  let reply := (dispatch now user msg d w).1 in
  MessageID reply = MessageID msg ∧ is_Some (marshal_envelope reply) ∧
  match foreign_query msg with
  | Some name => Payload reply = not_found_payload name
  | None => Z.of_nat (slen (frame_body reply)) ≤ MaxPayloadSize → sendable reply
  end.
Proof.
  intros Hd Ho Hc Hdec Hcmd. cbn zeta. pose proof (Decode_well_formed _ _ _ Hdec) as Hwf.
  rewrite (dispatch_route _ _ _ _ _ d now user msg w Hd (enveloped_well_formed _ Hwf)). cbn [fst].
  pose proof (route_reply now user msg w Ho Hc Hcmd) as Hr. cbn zeta in Hr.
  generalize dependent (route is_print o read resolver command now user msg w).1. intros reply Hr.
  destruct (foreign_query msg) as [name|].
  - subst reply. split; [done|]. split; [|done]. apply marshal_envelope_Some, not_found_json.
  - split; [by destruct Hr|]. split; [by eapply printed_marshals|].
    apply (printed_sendable now (MessageID msg)); [apply Hwf|by eapply Decode_valid_id|done].
Qed.
End replies.

Definition query_message : Envelope :=
  NewEnvelope 1753920000 "m-9" MessageQuery (print_object [("resource", quote "nodes")]).
Definition query_input : Codec.reader := mkReader [frame query_message] EEOF.
Definition refusing_command : AuthenticatedHandler (W := NodeCache) := λ now _ msg w, ((pingHandler now msg w).1, w).

Lemma replies_encode_witness : ∃ d,
  daemon_dispatcher (λ _, false) map_to_list (λ c : NodeCache, c) None refusing_command = Ok d ∧
  (Decode query_input).1 = (query_message, None) ∧
  is_Some (marshal_envelope (dispatch 7 (Some alice) query_message d NewNodeCache).1).
Proof.
  destruct (daemon_routes (λ _, false) map_to_list (λ c : NodeCache, c) None refusing_command) as (d & Hd & _).
  assert ((Decode query_input).1 = (query_message, None)) as Hq by (by vm_compute).
  exists d. split; [exact Hd|]. split; [exact Hq|].
  assert (Decode query_input = ((query_message, None), (Decode query_input).2)) as Hdec.
  { rewrite <-Hq. apply surjective_pairing. }
  destruct (replies_encode (λ _, false) map_to_list (λ c : NodeCache, c) None refusing_command d 7 (Some alice)
    query_input query_message (Decode query_input).2 NewNodeCache Hd fair_map_to_list
    (conj machine_int_0 (map_Forall_empty _)) Hdec) as (_ & Hr & _); [done|exact Hr].
Defined.

(** ** Events *)

Lemma event_printed now payload r env r' : event_envelope now payload r = Some (env, r') →
  (∀ p, payload = Some p → Printing.printable 6 p) →
  Z.of_nat (slen (frame_body env)) ≤ MaxPayloadSize → sendable env.
Proof.
  unfold event_envelope. destruct payload as [p|]; [|done]. cbn. intros [= <- _] Hp Hsz.
  eapply printed_sendable; [| |constructor; [auto with wire|auto]|exact Hsz]; [done|].
  apply valid_utf8_digits. rewrite sforallb_app, ascii_fmt_0d. by vm_compute.
Qed.

(** What a stream sends of a cache and of a commit, as long as it fits a frame. *)
Definition cache_sendable (c : NodeCache) : Prop := ∀ o now r env r',
  fair o → snapshotEnvelope now (cache_Snapshot o c) r = Some (env, r') →
  Z.of_nat (slen (frame_body env)) ≤ MaxPayloadSize → sendable env.
Definition batch_sendable (b : NodeChangeBatch) : Prop := ∀ now r env r',
  eventEnvelope now b r = Some (env, r') →
  Z.of_nat (slen (frame_body env)) ≤ MaxPayloadSize → sendable env.

Lemma numbers_cache_sendable c : cache_numbers c → cache_sendable c.
Proof.
  intros Hc o now r env r' Ho He. apply (event_printed _ _ _ _ _ He). intros p Hp.
  destruct (snapshot_numbers o c Ho Hc). apply (printable_mono 5); [lia|]. by eapply printable_snapshot.
Qed.

Lemma numbers_batch_sendable b :
  machine_int (b_Generation b) → Forall (λ ch, node_numbers (ch_Node ch)) (b_Changes b) → batch_sendable b.
Proof.
  intros Hg Hn now r env r' He. apply (event_printed _ _ _ _ _ He). intros p Hp. by eapply printable_batch.
Qed.

Section events.
Context {P : Type} `{!NodeChangePublisher P} (I : P → Prop).
Hypothesis publish_ok : ∀ b p, batch_sendable b → I p → I (NodeSource.Publish b p).
Context (o1 o2 o3 : order) (H1 : fair o1) (H2 : fair o2) (H3 : fair o3).

(** The listings of the daemon are those of its node source. *)
Definition from_source (e : wakeup) : Prop :=
  match e with
  | Tick listing _ => ∃ exec clock, listing = ListNodes exec clock
  | Done => True
  end.

Definition synchronized (st : NodeCache * option P) : Prop :=
  NodeCache.cache_ok st.1 ∧ cache_numbers st.1 ∧ (∀ p, st.2 = Some p → I p).

Lemma Refresh_synchronized exec clock ended st :
  synchronized st → synchronized (Refresh o1 o2 o3 (ListNodes exec clock) ended st).2.
Proof.
  intros (Hok & Hn & Hp). unfold Refresh. destruct (ListNodes exec clock) as [ns|] eqn:Hl; [|done].
  destruct ended; [done|]. destruct (validateNodeSnapshot ns); [|done]. cbn [snd].
  unfold ReplaceSnapshotAndPublish. destruct (replaceSnapshot o1 o2 o3 ns st.1) as [[batch changed] c'] eqn:Hr.
  cbn [snd]. destruct (commit_numbers _ _ _ _ _ _ _ _ H1 H2 H3 Hok Hn (ListNodes_numbers _ _ _ Hl) Hr) as (Hn' & Hb & Hg).
  split; [|split; [done|]]; cbn [fst snd].
  - pose proof (replaceSnapshot_ok o1 o2 o3 ns st.1 H1 H2 H3 Hok) as Hc. by rewrite Hr in Hc.
  - destruct changed; [|done]. intros p (q & Hq & ->)%fmap_Some. apply publish_ok; [|auto].
    by apply numbers_batch_sendable.
Qed.

(** C25. However long the synchronizer runs, on whatever the listing command
    prints, the cache stays well formed and holds machine-sized numbers only;
    so a snapshot of it and every batch it publishes, when it fits a frame, is
    sendable: a client can always decode what a stream sends. [I] is any
    invariant of the publisher that publishing sendable batches keeps. *)
Theorem Run_sendable events st st' :
  synchronized st → Forall from_source events → NodeSource.Run o1 o2 o3 events st = Some st' →
  synchronized st' ∧ cache_sendable st'.1.
Proof.
  intros Hst Hev Hrun. cut (synchronized st').
  { intros Hst'. split; [done|]. apply numbers_cache_sendable, Hst'. }
  revert st Hst Hrun. induction Hev as [|e events He _ IH]; intros st Hst Hrun; [done|].
  destruct e as [listing ended|]; cbn in Hrun; [|by injection Hrun as <-].
  destruct He as (exec & clock & ->). by apply (IH _ (Refresh_synchronized exec clock ended st Hst)).
Qed.
End events.

#[local] Instance batch_log : NodeChangePublisher (list NodeChangeBatch) := λ b l, l ++ [b].
Definition two_ticks : list wakeup :=
  [Tick (ListNodes (λ _, Ok example_document) (λ _, (0, 0))) false;
   Tick (ListNodes (λ _, Ok "{}") (λ _, (0, 0))) false; Done].

Lemma Run_sendable_witness : ∃ st,
  NodeSource.Run map_to_list map_to_list map_to_list two_ticks (NewNodeCache, Some []) = Some st ∧
  generation st.1 = 1 ∧ cache_sendable st.1 ∧ ∀ l, st.2 = Some l → Forall batch_sendable l.
Proof.
  destruct (NodeSource.Run map_to_list map_to_list map_to_list two_ticks (NewNodeCache, Some [])) as [st|] eqn:Hr;
    [|by vm_compute in Hr].
  exists st. split; [done|]. split.
  { assert (generation <$> (fst <$> NodeSource.Run map_to_list map_to_list map_to_list two_ticks (NewNodeCache, Some []))
      = Some 1) as Hg by (by vm_compute). rewrite Hr in Hg. by injection Hg. }
  assert (synchronized (Forall batch_sendable) (NewNodeCache, Some [])) as Hst.
  { split; [exact NewNodeCache_ok|]. split; [split; [done|apply map_Forall_empty]|]. intros p [= <-]. constructor. }
  assert (Forall from_source two_ticks) as Hev by (repeat constructor; by eexists _, _).
  pose proof (Run_sendable (Forall batch_sendable)
    (λ b l Hb Hl, proj2 (Forall_app _ l [b]) (conj Hl (proj2 (Forall_singleton _ b) Hb)))
    map_to_list map_to_list map_to_list fair_map_to_list fair_map_to_list fair_map_to_list
    two_ticks (NewNodeCache, Some []) st Hst Hev Hr) as [(_ & _ & Hl) Hs].
  by split.
Defined.
