(* ===== verification/Startup.v ===== *)
(** * Startup: what [main] puts together

    [cmd/cockpit-slurm/main.go]: the daemon opens the ledger, loads the first
    snapshot, wires the command service and the dispatcher, and only then takes
    over the socket. The theorem connects the components: what [main] hands to
    [Serve] is the state the theorems on each component start from. *)
From S2P Require Import Prelude Utf8 Json Message Codec Connection Authorization NodeHelper Sacctmgr Service.
From S2P Require Import Ledger LedgerLogic LedgerFacts LedgerHistory Schema OpenApi NodeCache NodeSource Stream StreamHistory.
From S2P Require Import Dispatcher Server Wire.
Open Scope Z_scope.

(** ** What the host answers *)

(** The files and the database of the ledger, [scontrol] and the clock when the
    first listing arrives, [sacctmgr], the accounts, the system bus, the
    environment and the calls of [Listen]. *)
Record host : Type := mkHost {
  h_file : list bool;
  h_cwd : string;
  h_store : store;
  h_answers : list answer;
  h_now : Z;
  h_scontrol : list string → result exec_error string;
  h_clock : nat → Z * Z;
  h_ended : bool;
  h_sacctmgr : list string → option string;
  h_accounts : string → option (string * string);
  h_bus : bool;
  h_euid : Z;
  h_names : string → option string;
  h_env : string;
  h_dir : string → string;
  h_os : os;
}.

(** The calls of [log.Fatalf] before the daemon serves. *)
Inductive fatal : Type :=
| FLedger (e : lerror)
| FStreams (e : string)
| FSynchronizer (e : string)
| FSnapshot (e : refresh_error)
| FRegistry
| FHelper
| FService (e : string)
| FDispatcher (e : string)
| FListen (e : serror).

Definition lift {E A} (f : E → fatal) (r : result E A) : result fatal A :=
  match r with Ok a => Ok a | Err e => Err (f e) end.

Lemma lift_Ok {E A} (f : E → fatal) (r : result E A) a : lift f r = Ok a → r = Ok a.
Proof. destruct r; [intros [= ->]|]; done. Qed.

Section startup.
Context {W : Type} (is_print : Z → bool) (o o1 o2 o3 : order) (read : W → NodeCache).
(** How the command service runs in the state of the daemon. *)
Context (command : Service.Service → AuthenticatedHandler (W := W)).

(** The variables of [main]. *)
Record daemon : Type := mkDaemon {
  d_ledger : Ledger;
  d_cache : NodeCache;
  d_streams : Stream.registry;
  d_interval : Z;
  d_resolver : CapabilityContextResolver;
  d_registry : Authorization.registry;
  d_executor : ExecutionIdentity;
  d_service : Service.Service;
  d_dispatcher : MessageDispatcher (W := W);
  d_server : Server.Server;
}.

(** No stream is registered yet: the first commit has nobody to reach. *)
#[local] Instance no_streams : NodeChangePublisher Stream.registry := stream_publisher 0 [] (λ _, false).

(** From the opened ledger to the server: what does not touch the socket. *)
Definition assemble (h : host) (l : Ledger) : result fatal daemon :=
  streams ← lift FStreams (NewNodeStreamRegistry true (Z.of_nat DefaultNodeStreamQueueSize));
  interval ← lift FSynchronizer (NewNodeSynchronizer true true DefaultNodeSyncInterval);
  let '(refreshed, (cache, published)) :=
    Refresh o1 o2 o3 (ListNodes (h_scontrol h) (h_clock h)) (h_ended h) (NewNodeCache, Some streams) in
  lift FSnapshot refreshed;;
  let resolver := Resolve (Some (NewSacctmgrUserLookup (h_sacctmgr h))) in
  registry ← lift (λ _, FRegistry) NewNodeRegistry;
  executor ← match NewDBusExecutor (h_accounts h) (h_bus h) with Some e => Ok e | None => Err FHelper end;
  service ← lift FService (NewService true registry (h_euid h) (h_names h));
  let service := SetNodeRefresh true service in
  dispatcher ← lift FDispatcher (daemon_dispatcher is_print o read (Some resolver) (command service));
  Ok (mkDaemon l cache (default streams published) interval resolver registry executor service dispatcher
        (NewServer "" (h_env h))).

(** [main] up to [Serve]: the daemon or the fatal error, the content of the
    database and the calls on the socket path. *)
Definition start_up (h : host) : result fatal daemon * store * list os_call :=
  match Ledger.Open (h_file h) (h_cwd h) DefaultPath (h_now h) (h_store h) (h_answers h) with
  | (Err e, s) => (Err (FLedger e), s, [])
  | (Ok l, s) =>
      match assemble h l with
      | Err e => (Err e, s, [])
      | Ok d =>
          let '(r, server, calls) := Listen (h_dir h) (h_os h) (d_server d) in
          (match r with
           | Err e => Err (FListen e)
           | Ok _ => Ok (mkDaemon (d_ledger d) (d_cache d) (d_streams d) (d_interval d) (d_resolver d)
                           (d_registry d) (d_executor d) (d_service d) (d_dispatcher d) server)
           end, s, calls)
      end
  end.

(** ** A daemon that serves *)

(** The nodes of the cache are those of a listing. *)
Definition holds_listing (ns : list Node) (c : NodeCache) : Prop :=
  (∀ n, n ∈ ns → ∃ n', nodes c !! Identity n = Some n' ∧ sameNodeState n' n = true) ∧
  (∀ id n', nodes c !! id = Some n' → ∃ n, n ∈ ns ∧ Identity n = id).

Record ready (h : host) (s : store) (d : daemon) : Prop := {
  rd_ledger : at_ (d_ledger d) s None false (Ledger.path (d_ledger d));
  rd_settled : ∀ k r, rows s !! k = Some r → interrupted (status r) = false ∧ h_now h < expires_at r;
  rd_nodes : ∃ ns, ListNodes (h_scontrol h) (h_clock h) = Ok ns ∧ holds_listing ns (d_cache d);
  rd_cache : NodeCache.cache_ok (d_cache d) ∧ cache_numbers (d_cache d);
  rd_streams : (∀ k, time_ok (h_clock h k) = true) →
    StreamHistory.reachable DefaultNodeStreamQueueSize (mkSys (d_cache d) (d_streams d));
  rd_registry : node_registry = Some (d_registry d) ∧ s_registry (d_service d) = Some (d_registry d);
  rd_service : s_serviceUID (d_service d) = h_euid h ∧ s_serviceUser (d_service d) ≠ "" ∧ s_refresh (d_service d) = true;
  rd_executor : ∃ uid_text, h_accounts h SlurmAccount = Some (ex_Username (d_executor d), uid_text)
    ∧ ParseUint32 uid_text = Some (ex_UID (d_executor d));
  rd_dispatcher : daemon_dispatcher is_print o read (Some (d_resolver d)) (command (d_service d)) = Ok (d_dispatcher d);
}.

Context (H1 : fair o1) (H2 : fair o2) (H3 : fair o3).

Lemma ListNodes_times exec clock ns :
  (∀ k, time_ok (clock k) = true) → ListNodes exec clock = Ok ns → Forall node_time_ok ns.
Proof.
  intros Ht (out & resp & _ & ->)%ListNodes_Ok. apply Forall_lookup. intros k n. rewrite list_lookup_imap.
  destruct (slice_field "nodes" resp !! k); [|done]. intros [= <-]. exact (Ht k).
Qed.

Lemma NewService_Ok b r euid lookup s : NewService b r euid lookup = Ok s →
  s_registry s = Some r ∧ s_serviceUID s = euid ∧ s_serviceUser s ≠ "".
Proof.
  unfold NewService. intros ([] & _ & H)%bind_Ok_inv. destruct (lookup _) as [name|]; [|done].
  apply bind_Ok_inv in H as ([] & Hn%guard_err_Ok_inv & H). injection H as <-.
  split; [done|]. split; [done|]. by apply negb_true_iff, streq_false in Hn.
Qed.

Lemma NewDBusExecutor_Some lookup bus e : NewDBusExecutor lookup bus = Some e →
  ∃ uid_text, lookup SlurmAccount = Some (ex_Username e, uid_text) ∧ ParseUint32 uid_text = Some (ex_UID e).
Proof.
  unfold NewDBusExecutor. intros ([name text] & Hl & (uid & Hu & H)%bind_Some)%bind_Some.
  destruct bus; [|done]. injection H as <-. by exists text.
Qed.

(** The first commit, from the empty cache and no streams. *)
Lemma first_refresh exec clock ended c published :
  let r0 := mkRegistry DefaultNodeStreamQueueSize ∅ 0 ∅ in
  Refresh o1 o2 o3 (ListNodes exec clock) ended (NewNodeCache, Some r0) = (Ok tt, (c, published)) →
  (∃ ns, ListNodes exec clock = Ok ns ∧ holds_listing ns c) ∧
  (NodeCache.cache_ok c ∧ cache_numbers c) ∧
  ((∀ k, time_ok (clock k) = true) →
     StreamHistory.reachable DefaultNodeStreamQueueSize (mkSys c (default r0 published))).
Proof.
  intros r0 Hr. pose proof (Refresh_facts o1 o2 o3 H1 H2 H3 (ListNodes exec clock) ended (NewNodeCache, Some r0) NewNodeCache_ok) as Hf.
  assert (synchronized (λ _, True) (NewNodeCache, Some r0)) as Hy.
  { split; [exact NewNodeCache_ok|]. split; [split; [done|apply map_Forall_empty]|done]. }
  apply (Refresh_synchronized (λ _, True) (λ _ _ _ _, I) o1 o2 o3 H1 H2 H3 exec clock ended) in Hy.
  rewrite Hr in Hf, Hy. destruct Hf as (_ & Hok & _ & Hns). destruct Hy as (Hc & Hn & _). split; [|split; [done|]].
  - destruct (proj1 Hok eq_refl) as (ns & Hl & _). exists ns. split; [done|].
    destruct (Hns eq_refl ns Hl) as (? & ? & _). by split.
  - intros Ht. apply rtc_once.
    replace (mkSys c (default r0 published)) with
      (refresh_with o1 o2 o3 0 [] (λ _, false) (ListNodes exec clock) ended (mkSys NewNodeCache r0)).
    + apply step_refresh; try done. intros ns. by apply ListNodes_times.
    + unfold refresh_with. cbn [y_cache y_registry]. change (stream_publisher 0 [] (λ _, false)) with no_streams.
      by rewrite Hr.
Qed.

(** What [main] has when it comes to [Listen]. *)
Lemma assemble_Ok h l s d :
  at_ l s None false (Ledger.path l) →
  (∀ k r, rows s !! k = Some r → interrupted (status r) = false ∧ h_now h < expires_at r) →
  assemble h l = Ok d → ready h s d ∧ d_server d = NewServer "" (h_env h).
Proof.
  intros Hl Hrows. unfold assemble.
  intros (streams & Hs%lift_Ok & (interval & _ & H)%bind_Ok_inv)%bind_Ok_inv. injection Hs as <-.
  destruct (Refresh o1 o2 o3 _ (h_ended h) _) as [refreshed [cache published]] eqn:Hr.
  apply bind_Ok_inv in H as ([] & ->%lift_Ok & (registry & Hreg%lift_Ok & H)%bind_Ok_inv).
  apply bind_Ok_inv in H as (executor & Hex & (service & Hsv%lift_Ok & H)%bind_Ok_inv).
  destruct (NewDBusExecutor (h_accounts h) (h_bus h)) as [e|] eqn:He; [|discriminate Hex].
  injection Hex as <-. pose proof (NewDBusExecutor_Some _ _ _ He) as Hacc.
  apply bind_Ok_inv in H as (dispatcher & Hdisp%lift_Ok & H). injection H as <-.
  apply NewService_Ok in Hsv as (Hsr & Hsu & Hsn). apply first_refresh in Hr as (Hns & Hc & Hreach).
  split; [|reflexivity].
  constructor; cbn [d_ledger d_cache d_streams d_registry d_service d_executor d_dispatcher d_resolver].
  - exact Hl.
  - exact Hrows.
  - exact Hns.
  - exact Hc.
  - exact Hreach.
  - split; [unfold node_registry; by rewrite Hreg|exact Hsr].
  - split; [exact Hsu|]. by split; [exact Hsn|].
  - exact Hacc.
  - exact Hdisp.
Qed.

(** A successful start-up of the ledger leaves nothing to recover. *)
Lemma Open_settled h l s :
  schema_ok (h_store h) →
  Ledger.Open (h_file h) (h_cwd h) DefaultPath (h_now h) (h_store h) (h_answers h) = (Ok l, s) →
  at_ l s None false (Ledger.path l) ∧
  ∀ k r, rows s !! k = Some r → interrupted (status r) = false ∧ h_now h < expires_at r.
Proof.
  intros Hs Ho. pose proof (Open_spec (h_file h) (h_cwd h) DefaultPath (h_now h) (h_store h) (h_answers h) Hs) as Hp.
  rewrite Ho in Hp. cbn [fst snd] in Hp. destruct Hp as ((Hat & _ & _ & Hrows) & _). split; [done|]. intros k r.
  rewrite Hrows, purge_lookup. intros [Hr ?]. split; [by eapply recover_rows_none|done].
Qed.

Lemma Listen_Ok dir sys s s' calls : Listen dir sys s = (Ok tt, s', calls) → s' = server (listening (socketPath s)).
Proof.
  unfold Listen. destruct (listener s); [done|]. destruct (os_mkdir sys); [|done]. cbn [negb].
  destruct (removeStaleSocket sys (socketPath s)) as [[] l]; [|done].
  destruct (os_bind sys), (os_chmod sys); by intros [= <- _].
Qed.

End startup.

(** A host on which the daemon starts, unless the bus is down. *)
Definition example_host (bus : bool) : host :=
  mkHost [] "/" (mkStore 2 (Some (v1_columns ++ ["requesting_gid"; "request_message_id"])) ∅) [] 100
    (λ _, Ok example_document) (λ _, (1753920000, 0)) false (λ _, None) (λ _, Some ("slurm", "64030")) bus 990
    (λ _, Some "cockpit-slurm") "" (λ _, "/run/cockpit-slurm") (mkOs true LNotExist DFailed true true true).
#[local] Notation example_start bus :=
  (start_up (λ _, false) map_to_list map_to_list map_to_list map_to_list (λ c : NodeCache, c) (λ _, refusing_command)
    (example_host bus)).

