(* ===== verification/CommandReply.v ===== *)
(** * CommandReply: every command gets an answer that can be sent

    A stored result comes back from the database as bytes, and the encoder
    refuses a payload that is not JSON. The programs of Service.v are followed
    with the system of AtMostOnce.v: what the ledger holds as a result is what a
    handler has marshalled, so the reply of every handler can be encoded, also
    when it was stored by another one before a crash. *)
From S2P Require Import Prelude Utf8 Json Message Codec CommandPayload Connection Authorization Ledger LedgerLogic.
From S2P Require Import LedgerFacts LedgerHistory Service ServiceTraces AtMostOnce Stream Printing Wire.
From S2P Require NodeHelper.
Open Scope Z_scope.

(** ** What a handler stores and answers *)

(** A result as a handler marshals it. *)
Definition result_printed (p : option string) : Prop := ∃ text, p = Some text ∧ Printing.printable 6 text.

Definition record_printed (r : LedgerRecord) : Prop := l_Status r = StatusSucceeded → result_printed (l_ResultPayload r).
Definition table_printed (m : gmap key Row) : Prop :=
  map_Forall (λ _ r, status r = StatusSucceeded → result_printed (result_payload r)) m.

(** A call to the ledger stores printed results; an answer brings them back. *)
Definition call_printed {X} (o : op X) : Prop :=
  match o with
  | ETransition _ _ _ next data => next = StatusSucceeded → result_printed (t_ResultPayload data)
  | _ => True
  end.
Definition answer_printed {X} (o : op X) : X → Prop :=
  match o in op X return X → Prop with
  | ELookup _ _ => λ x, match x with Ok (Some r) => record_printed r | _ => True end
  | EReserve _ => λ x, match x with Ok (r, _) => record_printed r | _ => True end
  | _ => λ _, True
  end.

(** [delivers Q p]: as long as it is told printed results, [p] stores printed
    results, and its own result satisfies [Q]. [answers id]: that is a printed
    message under [id]. *)
Fixpoint delivers {A} (Q : A → Prop) (p : prog A) : Prop :=
  match p with
  | Ret a => Q a
  | Vis o k => call_printed o ∧ ∀ x, answer_printed o x → delivers Q (k x)
  end.
Definition replied (id : string) (m : Envelope) : Prop := ∃ now, printed_message now id m.
Notation answers id := (delivers (replied id)).

Lemma delivers_bind {A B} (p : prog A) (f : A → prog B) (P : A → Prop) Q :
  delivers P p → (∀ a, P a → delivers Q (f a)) → delivers Q (p ≫= f).
Proof.
  intros Hp Hf. induction p as [a|X o k IH]; cbn in *; [by apply Hf|].
  destruct Hp as [Ho Hk]. split; [done|]. intros x Hx. by apply IH, Hk.
Qed.

(** A call and what is done with its answer. *)
Lemma delivers_call {X B} (o : op X) (f : X → prog B) Q :
  call_printed o → (∀ x, answer_printed o x → delivers Q (f x)) → delivers Q (x ← call o; f x).
Proof. intros Ho Hf. by split. Qed.

Create HintDb replies.

Section replies.
Context (message : Envelope).
Notation id := (MessageID message).

Lemma answers_error p : answers id (reply_error message p).
Proof. apply delivers_call; [done|]. intros now _. exists now.1. apply printed_error. Qed.

Lemma answers_response p : Printing.printable 6 p → answers id (reply message MessageCommandResponse p).
Proof.
  intros Hp. apply delivers_call; [done|]. intros now _. exists now.1. constructor; [by apply known; vm_compute|done].
Qed.

Lemma answers_errorEnvelope c cat d r i : answers id (errorEnvelope message c cat d r i).
Proof. apply answers_error. Qed.

Lemma delivers_anything {A} (Q : A → Prop) (o : op unit) p :
  call_printed o → delivers Q p → delivers Q (call o;; p).
Proof. intros Ho Hp. by apply delivers_call. Qed.

Lemma answers_persistence i : answers id (persistenceError message i).
Proof.
  apply delivers_call; [done|]. intros b _. apply (delivers_bind _ _ (λ _, True)); [|intros _ _; apply answers_errorEnvelope].
  destruct b; cbn; auto.
Qed.

Lemma answers_stored r : answers id (stored_error message r).
Proof.
  unfold stored_error. destruct (unmarshal_error _); [apply answers_error|apply answers_errorEnvelope].
Qed.

Lemma answers_record r : record_printed r → answers id (recordResponse message r).
Proof.
  intros Hr. unfold recordResponse. destruct (l_Status r) eqn:Hs;
    auto using answers_stored, answers_errorEnvelope.
  - apply answers_response, printable_response.
  - destruct (Hr Hs) as (text & -> & Ht). by apply answers_response.
Qed.

Lemma answers_await ticks r fp : record_printed r → answers id (awaitRecord ticks message r fp).
Proof.
  revert r. induction ticks as [|ticks IH]; intros r Hr; cbn [awaitRecord];
    destruct (l_Status r) eqn:Hs; try (by apply answers_record);
    (apply delivers_call; [done|]; intros b _; destruct b; [apply answers_persistence|]);
    try apply answers_errorEnvelope;
    (apply delivers_call; [done|]; intros [[u|]|e] Hu; try apply answers_persistence;
     destruct (negb _); [apply answers_errorEnvelope|by apply IH]).
Qed.

Lemma answers_refresh s p : answers id p → answers id (requestNodeRefresh s;; p).
Proof.
  intros Hp. unfold requestNodeRefresh. destruct (s_refresh s); [by apply delivers_anything|exact Hp].
Qed.

(** A transition that stores no result, and the failure it may meet. *)
Lemma answers_transition uid i expected next data p :
  (next = StatusSucceeded → result_printed (t_ResultPayload data)) → answers id p →
  answers id (r ← call (ETransition uid i expected next data);
              match r with Err _ => persistenceError message i | Ok _ => p end).
Proof.
  intros Hd Hp. apply delivers_call; [done|]. intros [[]|e] _; [done|apply answers_persistence].
Qed.
End replies.

#[export] Hint Resolve answers_error answers_response answers_errorEnvelope answers_persistence answers_record
  answers_await answers_refresh : replies.

(** ** The handler *)

Section handler.
Context (s : Service.Service) (x : Service.context).
Notation id := (MessageID (x_message x)).

Lemma answers_report_failure unknown : answers id (report_failure s x unknown).
Proof.
  unfold report_failure, execution_failure.
  destruct unknown; cbn [eq_status]; (apply answers_transition; [done|]).
  - apply (answers_refresh (x_message x)). auto with replies.
  - apply answers_error.
Qed.

Lemma answers_execute : answers id (execute s x).
Proof.
  unfold execute. apply delivers_call; [done|]. intros [[]|e] _.
  - apply answers_transition.
    + intros _. exists (success_payload (x_request x)). split; [done|]. apply printable_response.
    + apply answers_refresh, answers_response, printable_response.
  - destruct (outcome_unknown e); [apply answers_report_failure|].
    apply delivers_call; [done|]. intros b _. apply answers_report_failure.
Qed.

Lemma answers_accept level : answers id (accept_and_run s x level).
Proof.
  unfold accept_and_run. apply delivers_call; [done|]. intros now _.
  apply answers_transition; [done|]. apply answers_transition; [done|]. apply answers_execute.
Qed.

Lemma answers_authorize : answers id (authorize s x).
Proof.
  unfold authorize. apply delivers_call; [done|]. intros [d|e] _;
    [|apply answers_transition; [done|apply answers_error]].
  destruct (negb (same_identity d x)); [apply answers_transition; [done|apply answers_error]|].
  destruct (negb (Allowed d)); [apply answers_transition; [done|apply answers_error]|].
  destruct (negb _); [apply answers_transition; [done|apply answers_error]|apply answers_accept].
Qed.

Lemma answers_reserve ticks : answers id (reserve s ticks x).
Proof.
  unfold reserve. apply delivers_call; [done|]. intros [[r created]|e] Hr.
  - destruct (negb created); [by apply answers_await|apply answers_authorize].
  - destruct e; auto with replies.
Qed.
End handler.

Lemma answers_new s ticks requester message request fp :
  answers (MessageID message) (handle_new s ticks requester message request fp).
Proof.
  unfold handle_new. cbn zeta.
  destruct (operationFor _) as [op|]; [|apply answers_errorEnvelope].
  destruct (registry_Lookup _ op) as [entry|]; [|apply answers_errorEnvelope].
  destruct (negb _ || _); [apply answers_errorEnvelope|].
  destruct (negb _); [apply answers_errorEnvelope|].
  destruct (NodeHelper.BuildScontrolArgs _ _ _); [|apply answers_errorEnvelope].
  apply delivers_call; [done|]. intros kn _. destruct (negb kn); [apply answers_errorEnvelope|].
  apply delivers_call; [done|]. intros who _. destruct (_ || _); [apply answers_errorEnvelope|].
  exact (answers_reserve s (mkContext message requester request fp op entry _ who) ticks).
Qed.

Lemma answers_Handle s ticks requester message :
  answers (MessageID message) (Handle s ticks requester message).
Proof.
  unfold Handle. destruct (DecodeNodeCommandRequestPayload _) as [request|]; [|apply answers_errorEnvelope].
  destruct (streq _ _); [apply answers_errorEnvelope|].
  apply delivers_call; [done|]. intros b _. destruct b; [apply answers_persistence|].
  apply delivers_anything; [done|]. apply (delivers_bind _ _ (replied (MessageID message))).
  - unfold handle_locked. apply delivers_call; [done|]. intros [[r|]|e] Hr; [|apply answers_new|apply answers_persistence].
    destruct (negb _); [apply answers_errorEnvelope|by apply answers_await].
  - intros response Hr. by apply delivers_anything.
Qed.

(** ** The ledger under the handlers *)

Lemma table_printed_purge now m : table_printed m → table_printed (purge_rows now m).
Proof. intros Hm k r [Hr _]%purge_lookup. by apply (Hm k). Qed.

Lemma table_printed_recover now m : table_printed m → table_printed (recover_rows now m).
Proof.
  intros Hm k r (r0 & <- & Hr0)%lookup_fmap_Some. unfold recover_row.
  destruct (interrupted (status r0)) eqn:Hi; [|by apply (Hm k)].
  cbn. by destruct (status r0).
Qed.

Lemma table_printed_insert k r m :
  (status r = StatusSucceeded → result_printed (result_payload r)) → table_printed m → table_printed (<[k := r]> m).
Proof. intros Hr Hm. by apply map_Forall_insert_2. Qed.

Lemma table_printed_step o m m' :
  (∀ now uid id expected next data, o = OTransition now uid id expected next data →
     call_printed (ETransition uid id expected next data)) →
  table_step o m m' → table_printed m → table_printed m'.
Proof.
  intros Ho [-> |Hs] Hm; [done|]. destruct o as [now claim| |now uid id expected next data|now| |? ? ? now ?]; try done.
  - destruct Hs as [_ ->]. unfold reserve_rows. apply table_printed_purge with (now := now) in Hm.
    destruct (purge_rows now m !! claim_key claim); [done|]. by apply table_printed_insert.
  - destruct Hs as (_ & r & _ & _ & ->). apply table_printed_insert; [|done]. intros Hn.
    destruct (Ho _ _ _ _ _ _ eq_refl Hn) as (text & Ht & Hp). exists text. by cbn; rewrite Ht.
  - subst m'. by apply table_printed_recover.
  - destruct Hs as [-> | ->]; [|apply table_printed_purge]; by apply table_printed_recover.
Qed.

Lemma row_record k m r : table_printed m → m !! k = Some r → record_printed (scanRecord r).
Proof. intros Hm Hr. exact (Hm k r Hr). Qed.

(** One call: the ledger keeps printed results and gives back printed ones. *)
Lemma answered_printed {X} (o : op X) now l x l' :
  answered o now l x l' → at_rest (Up l) → call_printed o → table_printed (rows (stored (dbs l))) →
  table_printed (rows (stored (dbs l'))) ∧ answer_printed o x.
Proof.
  intros Ha Hl Hc Hm.
  assert (∀ o', run_op o' (Up l) = Up l' →
    (∀ now uid id expected next data, o' = OTransition now uid id expected next data →
       call_printed (ETransition uid id expected next data)) → table_printed (rows (stored (dbs l')))) as Hop.
  { intros o' Ho Hp. destruct (run_op_refines o' (Up l) Hl) as [_ Hs]. rewrite Ho in Hs.
    by apply (table_printed_step _ _ _ Hp Hs). }
  destruct o as [| |uid i|claim|uid i expected next data| | | | | | | | |]; cbn in Ha;
    try (subst l'; by split); try (destruct Ha as [_ ->]; by split).
  - split; [|done]. apply (Hop (OReconcile now)); [cbn; by rewrite <-Ha|done].
  - split; [apply (Hop (OLookup now uid i)); [cbn; by rewrite <-Ha|done]|].
    pose proof (Lookup_wp now uid i l _ _ _ (at_rest_at l Hl)) as (b' & _ & Hp). rewrite <-Ha in Hp. cbn [fst] in Hp.
    destruct x as [[r|]|e]; [|done..]. destruct Hp as (_ & row & Hr & _ & ->). by apply (row_record (uid, i) _ row Hm).
  - assert (table_printed (rows (stored (dbs l')))) as Hm' by (apply (Hop (OReserve now claim)); [cbn; by rewrite <-Ha|done]).
    split; [done|].
    pose proof (ReserveAuthorization_wp now claim l _ _ _ (at_rest_at l Hl)) as (s' & b' & [Hs' _ _ _] & Hp).
    rewrite <-Ha in Hp, Hs'. cbn [fst snd] in Hp, Hs'. destruct x as [[r created]|e]; [|done].
    destruct Hp as (_ & _ & _ & _ & row & Hr & -> & _). rewrite <-Hs' in Hr. by apply (row_record (claim_key claim) _ row Hm').
  - split; [|done]. apply (Hop (OTransition now uid i expected next data)); [cbn; by rewrite <-Ha|].
    by intros ? ? ? ? ? ? [= <- <- <- <- <- <-].
Qed.

(** The invariant of the world: handlers on their way to a printed reply, over
    a table of printed results. *)
Record world_printed (w : world) : Prop := {
  wp_rest : at_rest (w_system w);
  wp_table : table_printed (rows (content (w_system w)));
  wp_threads : Forall (λ t, ∃ id, answers id (th_prog t)) (w_threads w);
}.

Lemma wstep_printed w w' : wstep w w' → world_printed w → world_printed w'.
Proof.
  intros Hs [Hr Hm Ht]. destruct Hs as [s ticks requester message request l ts ex lo Hd
    |i requester request tr X o kont now l x l' ts ex lo Hi Ha
    |i requester request tr r l ts ex lo Hi|l ts ex lo|outcomes cwd path now ans s y ex lo ->];
    cbn [w_system w_threads content] in *.
  - split; cbn [w_system w_threads content]; [done..|]. apply Forall_app_2; [done|]. constructor; [|done].
    exists (MessageID message). apply answers_Handle.
  - destruct (proj1 (Forall_lookup _ _) Ht i _ Hi) as (id & Hc & Hk).
    destruct (answered_printed o now l x l' Ha Hr Hc Hm) as [Hm' Hx].
    destruct (answered_step o now l x l' Ha Hr) as [Hr' _].
    split; cbn [w_system w_threads content]; [done..|]. apply Forall_insert; [done|]. exists id. by apply Hk.
  - split; cbn [w_system w_threads content]; [done..|]. by apply Forall_delete.
  - split; cbn [w_system w_threads content]; [by destruct Hr|exact Hm|constructor].
  - destruct (run_op_refines (OOpen outcomes cwd path now ans) (Down s) Hr) as [Hr' Hs].
    split; cbn [w_system w_threads]; [done| |constructor]. eapply table_printed_step; [|exact Hs|exact Hm]. done.
Qed.

Lemma reachable_printed w : reachable w → world_printed w.
Proof.
  intros Hw. apply (rtc_invariant _ _ _ _ wstep_printed Hw). split; cbn; [done|apply map_Forall_empty|constructor].
Qed.

(** C26. Every answer to a command can be sent. In every reachable state of the
    daemon, with handlers interleaved, a failing ledger, crashes and restarts: a
    handler that returns has a reply that marshals, also when it repeats a result
    another handler has stored, perhaps before a crash; under a proper message ID
    and within the size of a frame it is sendable. And every result the ledger
    holds for a succeeded command is one JSON value. *)
Theorem command_replies_encode w : reachable w →
  (∀ t reply, t ∈ w_threads w → th_prog t = Ret reply →
     is_Some (marshal_envelope reply) ∧
     (MessageID reply ≠ "" → valid_utf8 (MessageID reply) = true →
        Z.of_nat (slen (frame_body reply)) ≤ MaxPayloadSize → sendable reply)) ∧
  (∀ k r, rows (content (w_system w)) !! k = Some r → status r = StatusSucceeded →
     ∃ text, result_payload r = Some text ∧ is_Some (parse_document text)).
Proof.
  intros [_ Hm Ht]%reachable_printed. split.
  - intros t reply Hin Hp. rewrite Forall_forall in Ht. destruct (Ht t Hin) as (id & Ha). rewrite Hp in Ha.
    destruct Ha as (now & Ha). split; [by eapply printed_marshals|]. intros Hid Hv.
    apply (printed_sendable now id); destruct Ha; done.
  - intros k r Hr Hs. destruct (Hm k r Hr Hs) as (text & -> & Hp). exists text. split; [done|].
    apply (printable_parses 6); [unfold inner_depth; lia|done].
Qed.

(** A command that has run to its end. *)
Definition finished_world : world := Nat.iter 40 (drive friendly 500) first_arrival.

Lemma command_replies_encode_witness :
  (match w_threads finished_world with [t] => match th_prog t with Ret _ => true | _ => false end | _ => false end) = true ∧
  ∀ t reply, t ∈ w_threads finished_world → th_prog t = Ret reply → is_Some (marshal_envelope reply).
Proof.
  split; [vm_compute; reflexivity|]. intros t reply Hin Hp.
  destruct (command_replies_encode finished_world
    (drive_reachable friendly 500 40 _ first_arrival_reachable)) as [H _].
  exact (proj1 (H t reply Hin Hp)).
Defined.
