(* ===== verification/Lifecycle.v ===== *)
(** * Lifecycle: the goroutines of one connection

    [serveConnection], [writeConnection] and [writeConnectionResponse] of
    [internal/ipc/server.go], statement by statement: the reader, which decodes,
    answers and enqueues, the writer, which sends what is queued, the final
    reply that the reader waits for, and the deferred calls at the end. The
    sequential loop of Session.v is what the reader implements. *)
From S2P Require Import Prelude Utf8 Json Message JsonValidation Codec CommandPayload Connection Authorization.
From S2P Require Import NodeCache NodeSource Stream Dispatcher Session.
Open Scope Z_scope.

(** ** Before the goroutines

    [serveConnection] takes the identity of the peer and enters the connection,
    allocated at [a], into the manager, or closes it; the outer [None] is the
    panic of [mustNewID]. *)
Section entry.
Context (accounts : string → option string).

Definition enter (random1 random2 : option string) (cred : option Ucred) (a : nat) (m : manager)
  : option (option nat * manager) :=
  match NewConnection accounts random1 random2 cred with
  | None => None
  | Some (Err _) => Some (None, m)
  | Some (Ok c) =>
      match Connection.Register (mkManager (connections m) (<[a := c]> (heap m))) (Some a) with
      | (Ok _, m') => Some (Some a, m')
      | (Err _, m') => Some (None, mkManager (connections m') (close_at a (heap m')))
      end
  end.

Definition defaultOutboundQueueSize : nat := 32.
Definition outbound_size (nodeStreams : option registry) : nat :=
  match nodeStreams with Some r => queueSize r | None => defaultOutboundQueueSize end.

(** A connection is served only under its own fresh ID, and giving this ID up
    restores the table; one that is not served leaves the table alone. *)
Lemma enter_spec r1 r2 cred a m served m' :
  heap m !! a = None → manager_ok m → enter r1 r2 cred a m = Some (served, m') →
  manager_ok m' ∧
  match served with
  | Some b => b = a ∧ ∃ c, NewConnection accounts r1 r2 cred = Some (Ok c) ∧ Get m (cn_ID c) = None ∧
      heap m' !! a = Some c ∧ Get m' (cn_ID c) = Some a ∧ connections (Connection.Unregister m' (cn_ID c)) = connections m
  | None => connections m' = connections m ∧ ∀ c, heap m' !! a = Some c → cn_State c = StateClosed
  end.
Proof.
  intros Ha Hm. unfold enter. destruct (NewConnection accounts r1 r2 cred) as [[c|e]|]; [|intros [= <- <-]|done].
  2: { split; [done|]. split; [done|]. congruence. }
  assert (manager_ok (mkManager (connections m) (<[a := c]> (heap m)))) as Hok.
  { intros id b Hb. destruct (Hm id b Hb) as (x & Hx & Hid). exists x. split; [|done].
    cbn. rewrite lookup_insert_ne; [done|congruence]. }
  unfold Connection.Register. cbn. rewrite lookup_insert_eq. cbn. destruct (connections m !! cn_ID c) eqn:Hc; intros [= <- <-].
  - split; [by apply manager_ok_close_at|]. split; [done|]. intros x. unfold close_at. cbn.
    rewrite lookup_alter_eq, lookup_insert_eq. intros [= <-]. apply ConnectionClose_closed.
  - split.
    { intros id b. cbn. rewrite lookup_insert_Some. intros [[<- <-]|[_ Hb]]; [|by apply Hok].
      exists c. by rewrite lookup_insert_eq. }
    split; [done|]. exists c. unfold Get. cbn. rewrite !lookup_insert_eq.
    split_and!; try done. by rewrite delete_insert_eq, delete_id.
Qed.
End entry.

(** ** The state of a connection *)

(** Who enqueued a message; the final reply is the one with a [written] channel. *)
Inductive origin : Type := OEvent | OReply | OFinal.
#[export] Instance origin_eq_dec : EqDecision origin.
Proof. solve_decision. Defined.
Record outboundMessage : Type := mkOut { envelope : Envelope; from : origin }.

(** Why the reader left its loop. *)
Inductive reason : Type := NoStream | ContextDone | InputEnded | Refused | Limit | Dropped | Written (ok : bool).

(** Where the reader is: registering its stream, at the head of the loop, in
    [Decode], enqueueing a reply, closing the connection itself, in the two
    [select]s of [writeConnectionResponse], or in the deferred calls. *)
Inductive reader_pc : Type :=
| Starting
| LoopTop
| Decoding
| Replying (m : Envelope) (close : bool)
| ClosingSelf (why : reason)
| Refusing (m : Envelope)
| Awaiting
| Unregistering (why : reason)
| Closing (why : reason)
| Joining (why : reason)
| Forgetting (why : reason)
| Gone (why : reason).

(** Where the writer is; [WFailed] is about to close the connection. *)
Inductive writer_pc : Type := WTop | WSelect | WEncoding (m : outboundMessage) | WFailed | WDone.

Section connection.
Context {W : Type} (user : UserContext) (size : nat) (streams : bool).

(** [lc_accepted] and [lc_history] are what was ever enqueued and answered;
    [lc_note] is the buffered channel of the final reply; [lc_stream] is the node
    stream of the connection, and [lc_subscribed] says whether the registry has it. *)
Record life : Type := mkLife {
  lc_ctx : bool;
  lc_queue : list outboundMessage;
  lc_reader : reader_pc;
  lc_writer : writer_pc;
  lc_note : option bool;
  lc_sent : list outboundMessage;
  lc_accepted : list outboundMessage;
  lc_input : Codec.reader;
  lc_session : Session.state (W := W);
  lc_history : list exchange;
  lc_member : bool;
  lc_stream : stream_state;
  lc_subscribed : bool;
}.

Definition cancel (l : life) : life :=
  mkLife true (lc_queue l) (lc_reader l) (lc_writer l) (lc_note l) (lc_sent l) (lc_accepted l)
    (lc_input l) (lc_session l) (lc_history l) (lc_member l) (lc_stream l) (lc_subscribed l).
Definition goto (pc : reader_pc) (l : life) : life :=
  mkLife (lc_ctx l) (lc_queue l) pc (lc_writer l) (lc_note l) (lc_sent l) (lc_accepted l)
    (lc_input l) (lc_session l) (lc_history l) (lc_member l) (lc_stream l) (lc_subscribed l).
Definition wgoto (pc : writer_pc) (l : life) : life :=
  mkLife (lc_ctx l) (lc_queue l) (lc_reader l) pc (lc_note l) (lc_sent l) (lc_accepted l)
    (lc_input l) (lc_session l) (lc_history l) (lc_member l) (lc_stream l) (lc_subscribed l).
Definition push_out (m : outboundMessage) (l : life) : life :=
  mkLife (lc_ctx l) (lc_queue l ++ [m]) (lc_reader l) (lc_writer l) (lc_note l) (lc_sent l) (lc_accepted l ++ [m])
    (lc_input l) (lc_session l) (lc_history l) (lc_member l) (lc_stream l) (lc_subscribed l).
Definition forget (l : life) : life :=
  mkLife (lc_ctx l) (lc_queue l) (lc_reader l) (lc_writer l) (lc_note l) (lc_sent l) (lc_accepted l)
    (lc_input l) (lc_session l) (lc_history l) false (lc_stream l) (lc_subscribed l).


(** [set_life_stream] is what happens to the stream and its entry in the registry. *)
Definition set_life_stream (st : stream_state) (subscribed : bool) (l : life) : life :=
  mkLife (lc_ctx l) (lc_queue l) (lc_reader l) (lc_writer l) (lc_note l) (lc_sent l) (lc_accepted l)
    (lc_input l) (lc_session l) (lc_history l) (lc_member l) st subscribed.
(** [NodeStream.Unregister]: the body of the [sync.Once] it shares with [Close]. *)
Definition unregister (l : life) : life :=
  match lc_stream l with StreamOpen => set_life_stream StreamClosed false l | _ => l end.

Definition room (l : life) : Prop := (length (lc_queue l) < size)%nat.

(** The deferred calls begin with the stream, if there is one. *)
Definition leave (why : reason) (l : life) : life :=
  goto (if streams then Unregistering why else Closing why) l.

(** The reader has decoded a request and computed its answer. *)
Definition answer_request (now : Z) (m : Envelope) (a : answered) (input : Codec.reader) (s : Session.state (W := W))
  (l : life) : life :=
  mkLife (lc_ctx l) (lc_queue l) (Replying (a_reply a) (a_close a)) (lc_writer l) (lc_note l) (lc_sent l) (lc_accepted l)
    input s (lc_history l ++ [mkExchange m now (a_reply a) (a_fresh a)]) (lc_member l) (lc_stream l) (lc_subscribed l).

(** The writer takes the oldest message; it has written it, or failed to. *)
Definition take (m : outboundMessage) (q : list outboundMessage) (l : life) : life :=
  mkLife (lc_ctx l) q (lc_reader l) (WEncoding m) (lc_note l) (lc_sent l) (lc_accepted l)
    (lc_input l) (lc_session l) (lc_history l) (lc_member l) (lc_stream l) (lc_subscribed l).
Definition signal (ok : bool) (m : outboundMessage) (note : option bool) : option bool :=
  match from m with OFinal => Some ok | _ => note end.
Definition wrote (m : outboundMessage) (l : life) : life :=
  mkLife (lc_ctx l) (lc_queue l) (lc_reader l) WTop (signal true m (lc_note l)) (lc_sent l ++ [m]) (lc_accepted l)
    (lc_input l) (lc_session l) (lc_history l) (lc_member l) (lc_stream l) (lc_subscribed l).
Definition wrote_not (m : outboundMessage) (l : life) : life :=
  mkLife (lc_ctx l) (lc_queue l) (lc_reader l) WFailed (signal false m (lc_note l)) (lc_sent l) (lc_accepted l)
    (lc_input l) (lc_session l) (lc_history l) (lc_member l) (lc_stream l) (lc_subscribed l).

Definition ends_input (e : perror) : bool := match e with EEOF | EUnexpectedEOF => true | _ => false end.

(** ** The steps *)

(** The two [select]s of [writeConnectionResponse], which send the final reply. A
    [select] with several ready cases takes any of them, and its default only when
    none is ready. *)
Inductive response_step (l : life) : life → Prop :=
| r_refuse m : lc_reader l = Refusing m → room l → response_step l (goto Awaiting (push_out (mkOut m OFinal) l))
| r_refuse_dropped m : lc_reader l = Refusing m → lc_ctx l = true ∨ ¬ room l → response_step l (leave Dropped l)
| r_await_written ok : lc_reader l = Awaiting → lc_note l = Some ok → response_step l (leave (Written ok) l)
| r_await_done : lc_reader l = Awaiting → lc_ctx l = true → response_step l (leave ContextDone l).

(** The reader. A cancelled context means a closed socket: [Decode] may then fail
    for this reason. *)
Inductive reader_step (l : life) : life → Prop :=
| r_no_streams : lc_reader l = Starting → streams = false → reader_step l (goto LoopTop l)
| r_registered env : lc_reader l = Starting → streams = true → room l →
    reader_step l (goto LoopTop (push_out (mkOut env OEvent) (set_life_stream StreamOpen true l)))
| r_snapshot_fails : lc_reader l = Starting → streams = true → reader_step l (goto (Closing NoStream) (cancel l))
| r_register_refused : lc_reader l = Starting → streams = true → lc_ctx l = true ∨ ¬ room l →
    reader_step l (goto (Closing NoStream) (cancel (set_life_stream StreamClosed false l)))
| r_top_done : lc_reader l = LoopTop → lc_ctx l = true → reader_step l (leave ContextDone l)
| r_top : lc_reader l = LoopTop → lc_ctx l = false → reader_step l (goto Decoding l)
| r_request now m input a s : lc_reader l = Decoding → Decode (lc_input l) = ((m, None), input) →
    answer user now m (lc_session l) = (a, s) → reader_step l (answer_request now m a input s l)
| r_end m e input : lc_reader l = Decoding → Decode (lc_input l) = ((m, Some e), input) → ends_input e = true →
    reader_step l (leave InputEnded l)
| r_bad now m e input : lc_reader l = Decoding → Decode (lc_input l) = ((m, Some e), input) → ends_input e = false →
    reader_step l (goto (Refusing (decodeErrorEnvelope now (MessageID m) e)) l)
| r_socket_closed now e : lc_reader l = Decoding → lc_ctx l = true → ends_input e = false →
    reader_step l (goto (Refusing (decodeErrorEnvelope now "" e)) l)
| r_reply m close : lc_reader l = Replying m close → room l →
    reader_step l (goto (if (close : bool) then ClosingSelf Limit else LoopTop) (push_out (mkOut m OReply) l))
| r_reply_refused m close : lc_reader l = Replying m close → lc_ctx l = true ∨ ¬ room l →
    reader_step l (goto (ClosingSelf Refused) l)
| r_close_self why : lc_reader l = ClosingSelf why → reader_step l (leave why (cancel l))
| r_respond l' : response_step l l' → reader_step l l'
| r_unregister why : lc_reader l = Unregistering why → reader_step l (goto (Closing why) (unregister l))
| r_close why : lc_reader l = Closing why → reader_step l (goto (Joining why) (cancel l))
| r_join why : lc_reader l = Joining why → lc_writer l = WDone → reader_step l (goto (Forgetting why) l)
| r_forget why : lc_reader l = Forgetting why → reader_step l (goto (Gone why) (forget l)).

Inductive writer_step (l : life) : life → Prop :=
| w_top_done : lc_writer l = WTop → lc_ctx l = true → writer_step l (wgoto WDone l)
| w_top : lc_writer l = WTop → lc_ctx l = false → writer_step l (wgoto WSelect l)
| w_select_done : lc_writer l = WSelect → lc_ctx l = true → writer_step l (wgoto WDone l)
| w_select m q : lc_writer l = WSelect → lc_queue l = m :: q → writer_step l (take m q l)
| w_written m : lc_writer l = WEncoding m → writer_step l (wrote m l)
| w_fails m : lc_writer l = WEncoding m → writer_step l (wrote_not m l)
| w_close : lc_writer l = WFailed → writer_step l (wgoto WDone (cancel l)).

(** Others: [Publish] enqueues a batch for the stream of this connection; [Publish],
    when that fails, and [CloseAll] take the stream out of the registry, and then
    close it ([NodeStream.Close]), which closes the connection unless the stream
    was closed before; or somebody closes the connection. *)
Inductive outside_step (l : life) : life → Prop :=
| o_publish env : lc_subscribed l = true → lc_stream l = StreamOpen → room l →
    outside_step l (push_out (mkOut env OEvent) l)
| o_drop : lc_subscribed l = true → outside_step l (set_life_stream (lc_stream l) false l)
| o_stream_close : lc_stream l = StreamOpen → outside_step l (cancel (unregister l))
| o_close : outside_step l (cancel l).

Definition goroutine (l l' : life) : Prop := reader_step l l' ∨ writer_step l l'.
Definition step (l l' : life) : Prop := goroutine l l' ∨ outside_step l l'.

(** A connection that the manager has registered and whose writer has started. *)
Definition accepted (input : Codec.reader) (s : Session.state (W := W)) : life :=
  mkLife false [] Starting WTop None [] [] input s [] true Stream.NoStream false.
Definition reachable (input : Codec.reader) (s : Session.state (W := W)) (l : life) : Prop :=
  rtc step (accepted input s) l.

(** ** The invariant *)

Definition reason_of (pc : reader_pc) : option reason :=
  match pc with
  | ClosingSelf why | Unregistering why | Closing why | Joining why | Forgetting why | Gone why => Some why
  | _ => None
  end.

Definition of_origin (o : origin) (ms : list outboundMessage) : list outboundMessage := filter (λ m, from m = o) ms.
#[local] Arguments of_origin : simpl never.
Definition replies (ms : list outboundMessage) : list Envelope := map envelope (of_origin OReply ms).
#[local] Arguments replies : simpl never.

(** The messages between the queue and the wire. *)
Definition in_writer (w : writer_pc) (ms : list outboundMessage) : Prop :=
  match w with
  | WTop | WSelect => ms = []
  | WEncoding m => ms = [m]
  | WFailed | WDone => (length ms ≤ 1)%nat
  end.

(** The answers computed are those enqueued, but for one that is pending or was
    refused by the queue. *)
Definition answers_enqueued (l : life) : Prop :=
  let answers := map x_reply (lc_history l) in
  match lc_reader l with
  | Replying m _ => answers = replies (lc_accepted l) ++ [m]
  | pc => match reason_of pc with
          | Some Refused => ∃ m, answers = replies (lc_accepted l) ++ [m]
          | _ => answers = replies (lc_accepted l)
          end
  end.

(** The final reply has left the queue and the writer. *)
Definition final_gone (l : life) : Prop :=
  of_origin OFinal (lc_queue l) = [] ∧ match lc_writer l with WEncoding m => from m ≠ OFinal | _ => True end.

(** The final reply: there is one from [Awaiting] on, and [note] tells its fate. *)
Definition final_ok (l : life) : Prop :=
  let finals := of_origin OFinal (lc_accepted l) in
  match lc_note l with
  | Some ok => (∃ m, finals = [m] ∧ (ok = true → m ∈ lc_sent l)) ∧ final_gone l
  | None => (length finals ≤ 1)%nat
  end ∧
  match lc_reader l with
  | Awaiting => ∃ m, finals = [m]
  | pc => match reason_of pc with
          | Some (Written ok) => lc_note l = Some ok
          | Some ContextDone => True
          | _ => finals = []
          end
  end.

(** The sequential loop answers the same requests. *)
Definition running (pc : reader_pc) : bool :=
  match pc with Starting | LoopTop | Decoding | Replying _ false => true | _ => false end.
Definition serves (input : Codec.reader) (s : Session.state (W := W)) (l : life) : Prop :=
  if running (lc_reader l) then
    ∀ turns', ∃ turns, serve user turns input s =
      let '(xs, why, s') := serve user turns' (lc_input l) (lc_session l) in (lc_history l ++ xs, why, s')
  else ∃ turns why, serve user turns input s = (lc_history l, why, lc_session l).

Definition closed_pc (pc : reader_pc) : bool :=
  match pc with Joining _ | Forgetting _ | Gone _ => true | _ => false end.

Record life_ok (input : Codec.reader) (s : Session.state (W := W)) (l : life) : Prop := {
  lk_fifo : ∃ ms, lc_accepted l = lc_sent l ++ ms ++ lc_queue l ∧ in_writer (lc_writer l) ms;
  lk_room : (length (lc_queue l) ≤ size)%nat;
  lk_answers : answers_enqueued l;
  lk_final : final_ok l;
  lk_serves : serves input s l;
  lk_ctx : lc_writer l = WDone ∨ closed_pc (lc_reader l) = true → lc_ctx l = true;
  lk_joined : match lc_reader l with Forgetting _ | Gone _ => lc_writer l = WDone | _ => True end;
  lk_member : lc_member l = match lc_reader l with Gone _ => false | _ => true end;
}.

Lemma serves_stopped input s l : serves input s l → ∃ turns why, serve user turns input s = (lc_history l, why, lc_session l).
Proof.
  unfold serves. destruct (running (lc_reader l)); [|done]. intros Hs. destruct (Hs []) as [turns Ht].
  exists turns, Running. rewrite Ht. cbn. by rewrite app_nil_r.
Qed.

Lemma serves_answer input s l now m r a s' :
  lc_reader l = Decoding → Decode (lc_input l) = ((m, None), r) → answer user now m (lc_session l) = (a, s') →
  serves input s l → serves input s (answer_request now m a r s' l).
Proof.
  intros Hpc Hd Ha Hs. unfold serves in Hs. rewrite Hpc in Hs. cbn in Hs. unfold serves. cbn.
  destruct (a_close a) eqn:Hclose.
  - destruct (Hs [mkTurn false now true]) as [turns Ht]. exists turns, LimitReached. rewrite Ht.
    cbn. by rewrite Hd, Ha, Hclose.
  - intros turns'. destruct (Hs (mkTurn false now true :: turns')) as [turns Ht]. exists turns. rewrite Ht.
    cbn [serve t_done t_now t_accepts negb]. rewrite Hd, Ha, Hclose.
    destruct (serve user turns' r s') as [[xs why] s'']. by rewrite <-app_assoc.
Qed.

Lemma of_origin_push o m ms :
  of_origin o (ms ++ [m]) = of_origin o ms ++ (if decide (from m = o) then [m] else []).
Proof. unfold of_origin. rewrite filter_app, filter_cons, filter_nil. done. Qed.

Lemma of_origin_other o m ms : from m ≠ o → of_origin o (ms ++ [m]) = of_origin o ms.
Proof. intros Hm. rewrite of_origin_push, decide_False by done. apply app_nil_r. Qed.

Lemma replies_push m ms :
  replies (ms ++ [m]) = replies ms ++ (if decide (from m = OReply) then [envelope m] else []).
Proof. unfold replies. rewrite of_origin_push, map_app. by case_decide. Qed.

Lemma accepted_ok input s : life_ok input s (accepted input s).
Proof.
  split; try done.
  - exists []. done.
  - cbn. lia.
  - unfold final_ok, of_origin. cbn. split; [lia|done].
  - cbn. intros turns. exists turns. by destruct (serve user turns input s) as [[xs why] s'].
  - cbn. intros [?|?]; done.
Qed.

(** A step that only moves the reader. *)
Lemma ok_goto input s pc l :
  life_ok input s l → answers_enqueued (goto pc l) → final_ok (goto pc l) →
  (running pc = true → running (lc_reader l) = true) →
  (closed_pc pc = true → lc_ctx l = true) →
  match pc with Forgetting _ | Gone _ => lc_writer l = WDone | _ => True end →
  match pc with Gone _ => false | _ => true end = true → match lc_reader l with Gone _ => false | _ => true end = true →
  life_ok input s (goto pc l).
Proof.
  intros [H1 H2 H3 H4 H5 H6 H7 H8] Ha Hf Hr Hc Hj Hg Hg'. split; try done.
  - unfold serves. cbn. destruct (running pc) eqn:Hp; [|by apply serves_stopped in H5].
    unfold serves in H5. by rewrite (Hr eq_refl) in H5.
  - cbn. intros [Hw|Hw]; [apply H6; by left|by apply Hc].
  - cbn. by rewrite H8, Hg, Hg'.
Qed.

Lemma ok_cancel input s l : life_ok input s l → life_ok input s (cancel l).
Proof. intros []. by split. Qed.

Lemma ok_stream input s st b l : life_ok input s l → life_ok input s (set_life_stream st b l).
Proof. intros []. by split. Qed.

Lemma ok_unregister input s l : life_ok input s l → life_ok input s (unregister l).
Proof. intros Hl. unfold unregister. by destruct (lc_stream l); [|apply ok_stream|]. Qed.

(** [unregister] touches the stream only. *)
Lemma unregister_keeps l :
  unregister l = set_life_stream (if decide (lc_stream l = StreamOpen) then StreamClosed else lc_stream l)
                   (if decide (lc_stream l = StreamOpen) then false else lc_subscribed l) l.
Proof. unfold unregister. destruct l as [? ? ? ? ? ? ? ? ? ? ? st sub]. by destruct st. Qed.

Lemma ok_event input s env l : life_ok input s l → room l → life_ok input s (push_out (mkOut env OEvent) l).
Proof.
  intros [(ms & Hm & Hw) H2 H3 H4 H5 H6 H7 H8] Hroom. unfold room in Hroom.
  split; try done.
  - exists ms. cbn. by rewrite Hm, <-!app_assoc.
  - cbn. rewrite length_app. cbn. lia.
  - unfold answers_enqueued, replies in *. cbn. by rewrite of_origin_other.
  - unfold final_ok, final_gone in *. cbn. by rewrite !of_origin_other.
Qed.

Lemma ok_leave input s why l :
  life_ok input s l → answers_enqueued (goto (Closing why) l) → final_ok (goto (Closing why) l) →
  match lc_reader l with Gone _ => false | _ => true end = true → life_ok input s (leave why l).
Proof. intros Hl Ha Hf Hg. unfold leave. destruct streams; by apply ok_goto. Qed.

(** A reply or the final reply goes into the queue, and the reader on. *)
Lemma ok_push input s m pc l :
  life_ok input s l → room l → answers_enqueued (goto pc (push_out m l)) → final_ok (goto pc (push_out m l)) →
  (running pc = true → running (lc_reader l) = true) → closed_pc pc = false →
  match lc_reader l with Gone _ => false | _ => true end = true → life_ok input s (goto pc (push_out m l)).
Proof.
  intros [(ms & Hm & Hw) H2 H3 H4 H5 H6 H7 H8] Hroom Ha Hf Hr Hc Hg. unfold room in Hroom. split; try done.
  - exists ms. cbn. by rewrite Hm, <-!app_assoc.
  - cbn. rewrite length_app. cbn. lia.
  - unfold serves. cbn. destruct (running pc) eqn:Hp; [|by apply serves_stopped in H5].
    unfold serves in H5. by rewrite (Hr eq_refl) in H5.
  - cbn. intros [Hx|Hx]; [apply H6; by left|congruence].
  - by destruct pc.
  - cbn. rewrite H8, Hg. by destruct pc.
Qed.

Lemma reader_step_ok input s l l' : reader_step l l' → life_ok input s l → life_ok input s l'.
Proof.
  intros Hs Hl. pose proof Hl as [_ _ Ha Hf Hv Hc Hj Hm]. unfold answers_enqueued, final_ok in Ha, Hf.
  destruct Hs as [H Hst|env H Hst Hr|H Hst|H Hst Hx|H Hx|H Hx|now m r a st H Hd Hans|m e r H Hd He|now m e r H Hd He|now e H Hx He
    |m close H Hr|m close H Hr|why H|l' [m H Hr|m H Hr|ok H Hn|H Hx]|why H|why H|why H Hw|why H]; rewrite H in *; cbn in Ha, Hf.
  - apply ok_goto; rewrite ?H; done.
  - apply ok_goto; [by apply ok_event; [apply ok_stream|]|..]; cbn; rewrite ?H; try done.
    + unfold answers_enqueued. cbn. rewrite replies_push. cbn. by rewrite app_nil_r.
    + unfold final_ok, final_gone. cbn. by rewrite !of_origin_other.
  - apply ok_goto; [by apply ok_cancel|..]; cbn; rewrite ?H; done.
  - apply ok_goto; [by apply ok_cancel, ok_stream|..]; cbn; rewrite ?H; done.
  - apply ok_leave; rewrite ?H; [done|done|by split; [apply Hf|]|done].
  - apply ok_goto; rewrite ?H; done.
  - destruct Hl as [H1 H2 _ _ Hv' _ _ _]. split; cbn; try done.
    + unfold answers_enqueued. cbn. by rewrite map_app, Ha.
    + apply (serves_answer input s l); done.
  - apply ok_leave; rewrite ?H; done.
  - apply ok_goto; rewrite ?H; done.
  - apply ok_goto; rewrite ?H; done.
  - apply ok_push; rewrite ?H; try done; destruct close; try done.
    all: try (unfold answers_enqueued; cbn; rewrite replies_push; by rewrite Ha).
    all: unfold final_ok, final_gone; cbn; by rewrite !of_origin_other.
  - apply ok_goto; rewrite ?H; try done. unfold answers_enqueued. cbn. by exists m.
  - apply ok_leave; [by apply ok_cancel|..]; cbn; rewrite ?H; done.
  - apply ok_push; rewrite ?H; try done.
    + unfold answers_enqueued. cbn. rewrite replies_push. cbn. by rewrite app_nil_r.
    + destruct Hf as [Hn Hf]. unfold final_ok. cbn [lc_note lc_accepted lc_reader push_out goto].
      rewrite of_origin_push, Hf, decide_True by done. split; [|by eexists].
      destruct (lc_note l); [|done]. destruct Hn as [(x & Hx & _) _]. congruence.
  - apply ok_leave; rewrite ?H; done.
  - apply ok_leave; rewrite ?H; try done. split; [apply Hf|]. done.
  - apply ok_leave; rewrite ?H; try done. split; [apply Hf|]. done.
  - apply ok_goto; [by apply ok_unregister|..]; rewrite ?unregister_keeps; cbn; rewrite ?H; done.
  - apply ok_goto; [by apply ok_cancel|..]; cbn; rewrite ?H; done.
  - apply ok_goto; rewrite ?H; try done. intros _. apply Hc. by left.
  - destruct Hl as [H1 H2 _ _ Hv' _ _ _]. split; cbn; try done; rewrite ?H; try done.
    + by apply serves_stopped in Hv'.
Qed.

(** The writer's signal: the message it had was the final one, or it changes nothing. *)
Lemma final_wrote input s ok m l l' :
  life_ok input s l → lc_writer l = WEncoding m →
  lc_note l' = signal ok m (lc_note l) → lc_reader l' = lc_reader l → lc_accepted l' = lc_accepted l →
  lc_sent l' = (if (ok : bool) then lc_sent l ++ [m] else lc_sent l) → lc_queue l' = lc_queue l →
  match lc_writer l' with WEncoding _ => False | _ => True end → final_ok l'.
Proof.
  intros [(ms & Hm & Hw) _ _ [Hn Hr] _ _ _ _] Hwr Hnote Hreader Hacc Hsent Hqueue Hwr'.
  rewrite Hwr in Hw. cbn in Hw. subst ms.
  assert (lc_sent l ⊆ lc_sent l') as Hsub by (rewrite Hsent; destruct ok; set_solver).
  assert (of_origin OFinal (lc_queue l) = [] → final_gone l') as Hgone.
  { intros Hq. split; [by rewrite Hqueue|]. by destruct (lc_writer l'). }
  unfold final_ok. rewrite Hnote, Hreader, Hacc. unfold signal. destruct (from m) eqn:Hfrom.
  1, 2: split; [|done]; destruct (lc_note l) as [b|]; [|done]; destruct Hn as [(x & ? & Hx) Hg];
    (split; [|apply Hgone, Hg]); exists x; split; [done|auto].
  destruct (lc_note l) as [b|].
  { destruct Hn as [_ [_ Hg]]. by rewrite Hwr in Hg. }
  assert (of_origin OFinal (lc_accepted l) = [m] ∧ of_origin OFinal (lc_queue l) = []) as [Hone Hq].
  { rewrite Hm in *. unfold of_origin in *. rewrite !filter_app, !length_app in Hn. rewrite !filter_app.
    rewrite !filter_cons, !decide_True, filter_nil in * by done. cbn in Hn.
    destruct (filter _ (lc_sent l)), (filter _ (lc_queue l)); cbn in Hn; try lia. done. }
  split.
  - split; [|by apply Hgone]. exists m. split; [done|]. intros ->. rewrite Hsent. set_solver.
  - destruct (lc_reader l); cbn in *; try done; destruct why; try done; congruence.
Qed.

(** A writer that is not encoding has nothing of the final reply. *)
Lemma final_wgoto pc l : match pc with WEncoding _ => False | _ => True end → final_ok l → final_ok (wgoto pc l).
Proof.
  intros Hpc [Hn Hr]. split; [|done]. cbn [lc_note lc_accepted wgoto]. destruct (lc_note l); [|done].
  destruct Hn as [Hm [Hq _]]. split; [done|]. split; [done|]. cbn. by destruct pc.
Qed.

Lemma ok_wgoto input s pc l :
  life_ok input s l → match pc with WEncoding _ => False | _ => True end →
  (∀ ms, in_writer (lc_writer l) ms → in_writer pc ms) → (pc = WDone → lc_ctx l = true) →
  (lc_writer l = WDone → pc = WDone) → life_ok input s (wgoto pc l).
Proof.
  intros [(ms & Hm & Hw) Hq Ha Hf Hv Hc Hj Hmem] Hpc Hin Hdone Hstay.
  split; try done; cbn.
  - exists ms. split; [done|by apply Hin].
  - by apply final_wgoto.
  - intros [?|?]; [auto|apply Hc; by right].
  - destruct (lc_reader l); auto.
Qed.

Lemma writer_step_ok input s l l' : writer_step l l' → life_ok input s l → life_ok input s l'.
Proof.
  intros Hs Hl. pose proof Hl as [(ms & Hm & Hw) Hq Ha Hf Hv Hc Hj Hmem].
  assert (∀ pc, lc_writer l ≠ WDone → match lc_reader l with Forgetting _ | Gone _ => lc_writer l = WDone | _ => True end →
    match lc_reader l with Forgetting _ | Gone _ => pc = WDone | _ => True end) as Hjoin by (intros pc ?; by destruct (lc_reader l)).
  destruct Hs as [H Hx|H Hx|H Hx|m q H Hque|m H|m H|H].
  - apply ok_wgoto; rewrite ?H; try done. intros ? ->. cbn. lia.
  - by apply ok_wgoto; rewrite ?H.
  - apply ok_wgoto; rewrite ?H; try done. intros ? ->. cbn. lia.
  - rewrite H in Hw. cbn in Hw. subst ms. split; try done; cbn.
    + exists [m]. by rewrite Hm, Hque.
    + rewrite Hque in Hq. cbn in Hq. lia.
    + destruct Hf as [Hn Hr]. split; [|done]. cbn. destruct (lc_note l); [|done].
      destruct Hn as [Hfin [Hqn _]]. split; [done|]. unfold of_origin in *. rewrite Hque, filter_cons in Hqn.
      case_decide; [done|by split].
    + intros [?|?]; [done|apply Hc; by right].
    + apply Hjoin; [by rewrite H|done].
  - rewrite H in Hw. cbn in Hw. subst ms. split; try done; cbn.
    + exists []. by rewrite Hm, <-app_assoc.
    + by apply (final_wrote input s true m l).
    + intros [?|?]; [done|apply Hc; by right].
    + apply Hjoin; [by rewrite H|done].
  - rewrite H in Hw. cbn in Hw. subst ms. split; try done; cbn.
    + exists [m]. split; [done|]. cbn. lia.
    + by apply (final_wrote input s false m l).
    + intros [?|?]; [done|apply Hc; by right].
    + apply Hjoin; [by rewrite H|done].
  - apply ok_wgoto; [by apply ok_cancel|..]; cbn; rewrite ?H; done.
Qed.

Lemma goroutine_step_ok input s l l' : step l l' → life_ok input s l → life_ok input s l'.
Proof.
  intros [[Hs|Hs]|Hs] Hl; [by eapply reader_step_ok|by eapply writer_step_ok|].
  destruct Hs; [by apply ok_event|by apply ok_stream|by apply ok_cancel, ok_unregister|by apply ok_cancel].
Qed.

Lemma goroutines_ok input s l : reachable input s l → life_ok input s l.
Proof.
  intros Hr. apply (rtc_invariant _ _ _ _ (goroutine_step_ok input s) Hr), accepted_ok.
Qed.

(** C10. One connection. Whatever the peer sends, whatever streams publish to it
    and whenever anybody closes it, in every state its goroutines reach: the
    requests were answered as the sequential session answers them, from the same
    input and state; the replies enqueued are these answers, in order, but for
    one that is on its way or was refused; and the peer has been sent a prefix
    of what was enqueued, the rest being in the queue, which is bounded, but for
    one message in the hands of the writer. *)
Theorem connection_refines_session input s l : reachable input s l →
  (∃ turns why, serve user turns input s = (lc_history l, why, lc_session l)) ∧
  (let answers := map x_reply (lc_history l) in
   let enqueued := replies (lc_accepted l) in
   enqueued `prefix_of` answers ∧ (length answers ≤ 1 + length enqueued)%nat) ∧
  (∃ ms, lc_accepted l = lc_sent l ++ ms ++ lc_queue l ∧ (length ms ≤ 1)%nat) ∧
  (length (lc_queue l) ≤ size)%nat.
Proof.
  intros [(ms & Hm & Hw) Hq Ha _ Hv _ _ _]%goroutines_ok. split; [by apply serves_stopped in Hv|].
  split; [|split; [|done]].
  - cbn zeta. assert (map x_reply (lc_history l) = replies (lc_accepted l) ∨
      ∃ m, map x_reply (lc_history l) = replies (lc_accepted l) ++ [m]) as [-> |(m & ->)].
    { unfold answers_enqueued in Ha. destruct (lc_reader l); cbn in Ha; eauto; destruct why; auto. }
    + split; [done|lia].
    + split; [by apply prefix_app_r|rewrite length_app; cbn; lia].
  - exists ms. split; [done|]. destruct (lc_writer l); cbn in Hw; subst; cbn; lia.
Qed.

(** ** The end of a connection *)

Definition reader_rank (pc : reader_pc) : nat :=
  match pc with
  | Decoding => 9 | Starting | Replying _ _ => 8 | LoopTop | ClosingSelf _ | Refusing _ => 7 | Awaiting => 6
  | Unregistering _ => 5 | Closing _ => 4 | Joining _ => 3 | Forgetting _ => 2 | Gone _ => 0
  end.
Definition writer_rank (pc : writer_pc) : nat :=
  match pc with WSelect => 4 | WEncoding _ => 3 | WFailed => 2 | WTop => 1 | WDone => 0 end.
Definition rank (l : life) : nat := reader_rank (lc_reader l) + writer_rank (lc_writer l).

(** Both goroutines have returned; the stream, if there was one, is closed and the
    registry does not have it; the manager does not have the connection. *)
Definition finished (l : life) : Prop :=
  (∃ why, lc_reader l = Gone why) ∧ lc_writer l = WDone ∧ lc_member l = false ∧
  lc_subscribed l = false ∧ lc_stream l ≠ StreamOpen.

(** The registry has the stream only while it is open, and it is open only
    between the registration and the deferred [Unregister]. *)
Definition stream_ok (l : life) : Prop :=
  (lc_subscribed l = true → lc_stream l = StreamOpen) ∧
  match lc_reader l with
  | Starting => lc_stream l = Stream.NoStream
  | Closing _ | Joining _ | Forgetting _ | Gone _ => lc_stream l ≠ StreamOpen
  | _ => lc_stream l = StreamOpen → streams = true
  end.

Lemma stream_ok_step l l' : step l l' → stream_ok l → stream_ok l'.
Proof.
  intros Hs [Hsub Hpc].
  destruct Hs as [[Hs|Hs]|Hs]; destruct Hs; try match goal with E : response_step _ _ |- _ => destruct E end;
    unfold stream_ok, leave; rewrite ?unregister_keeps;
    repeat match goal with E : lc_reader _ = _ |- _ => rewrite E in * end; cbn in *;
    try match goal with |- context [if ?b then ClosingSelf _ else _] => destruct b end;
    try (destruct streams eqn:?); repeat case_decide; split; cbn in *; auto; try congruence;
    try (destruct (lc_reader l); cbn in *; auto; congruence).
  all: naive_solver congruence.
Qed.

Lemma streams_ok input s l : reachable input s l → stream_ok l.
Proof. intros Hr. by apply (rtc_invariant _ _ _ _ stream_ok_step Hr). Qed.

Lemma goroutine_rank l l' : goroutine l l' → lc_ctx l = true → (rank l' < rank l)%nat ∧ lc_ctx l' = true.
Proof.
  intros Hs Hctx. split.
  - destruct Hs as [Hs|Hs]; destruct Hs; try match goal with E : response_step _ _ |- _ => destruct E end;
      try congruence; unfold rank, leave; rewrite ?unregister_keeps; try destruct close; destruct streams;
      cbn; repeat match goal with E : lc_reader _ = _ |- _ => rewrite E | E : lc_writer _ = _ |- _ => rewrite E end; cbn; lia.
  - destruct Hs as [Hs|Hs]; destruct Hs; try match goal with E : response_step _ _ |- _ => destruct E end;
      try done; unfold leave; rewrite ?unregister_keeps; destruct streams; done.
Qed.

Lemma outside_rank l l' : outside_step l l' → lc_ctx l = true → rank l' = rank l ∧ lc_ctx l' = true.
Proof. intros []; try done; intros; by rewrite unregister_keeps. Qed.

(** A cancelled connection that has not finished has something to do. *)
Lemma goroutine_progress input s l :
  life_ok input s l → stream_ok l → lc_ctx l = true → finished l ∨ ∃ l', goroutine l l'.
Proof.
  intros [_ _ _ _ _ _ Hj Hm] [Hsub Hst] Hctx. unfold goroutine.
  destruct (lc_writer l) eqn:Hw.
  1: right; eexists; right; by apply w_top_done.
  1: right; eexists; right; by apply w_select_done.
  1: right; eexists; right; by apply w_written.
  1: right; eexists; right; by apply w_close.
  destruct (lc_reader l) eqn:Hr.
  - right. destruct streams eqn:Hs; eexists; left; [by apply r_snapshot_fails|by apply r_no_streams].
  - right. eexists. left. by apply r_top_done.
  - right. eexists. left. by apply (r_socket_closed _ 0 EShortWrite).
  - right. eexists. left. eapply r_reply_refused; [done|by left].
  - right. eexists. left. by apply r_close_self.
  - right. eexists. left. apply r_respond. eapply r_refuse_dropped; [done|by left].
  - right. eexists. left. by apply r_respond, r_await_done.
  - right. eexists. left. by apply r_unregister.
  - right. eexists. left. by apply r_close.
  - right. eexists. left. by apply r_join.
  - right. eexists. left. by apply r_forget.
  - left. split_and!; [by eexists|done|done| |done]. destruct (lc_subscribed l); [|done]. by destruct Hst, Hsub.
Qed.

Lemma goroutine_nsteps n l l' : nsteps goroutine n l l' → lc_ctx l = true → (n + rank l' ≤ rank l)%nat ∧ lc_ctx l' = true.
Proof.
  induction 1 as [l|n l1 l2 l3 Hs _ IH]; [split; [lia|done]|]. intros Hctx.
  destruct (goroutine_rank _ _ Hs Hctx) as [Hr Hctx2]. destruct (IH Hctx2). split; [lia|done].
Qed.

Lemma goroutine_finishes input s n l :
  (rank l ≤ n)%nat → life_ok input s l → stream_ok l → lc_ctx l = true → ∃ l', rtc goroutine l l' ∧ finished l'.
Proof.
  revert l. induction n as [n IH] using lt_wf_ind. intros l Hn Hl Hso Hctx.
  destruct (goroutine_progress input s l Hl Hso Hctx) as [Hf|[l1 Hs]]; [by exists l|].
  destruct (goroutine_rank _ _ Hs Hctx) as [Hr Hctx1].
  destruct (IH (rank l1) ltac:(lia) l1) as (l' & Hl' & Hf);
    [lia|by eapply goroutine_step_ok; [left|]|by eapply stream_ok_step; [left|]|done|].
  exists l'. split; [by eapply rtc_l|done].
Qed.

(** What is finished stays as it is. *)
Lemma finished_stays l l' : finished l → lc_ctx l = true → step l l' → l' = l.
Proof.
  intros ([why Hr] & Hw & _ & Hsub & Hst) Hctx [[Hs|Hs]|Hs].
  - destruct Hs; try match goal with E : response_step _ _ |- _ => destruct E end; congruence.
  - destruct Hs; congruence.
  - destruct Hs; [congruence|congruence|done|]. destruct l; cbn in *. by subst.
Qed.

(** A reader that has left its loop while the context is live is in one of the
    deferred statements, and moves on whatever the others do. *)
Lemma left_reader_cancels input s l why :
  life_ok input s l → reason_of (lc_reader l) = Some why → lc_ctx l = false →
  (lc_reader l = ClosingSelf why ∨ lc_reader l = Unregistering why ∨ lc_reader l = Closing why) ∧
  (∃ l', reader_step l l') ∧
  (∀ l', reader_step l l' → lc_ctx l' = true ∨ lc_reader l = Unregistering why ∧ lc_reader l' = Closing why).
Proof.
  intros [_ _ _ _ _ Hc _ _] Hwhy Hctx. assert (closed_pc (lc_reader l) = false) as Hcl.
  { destruct (closed_pc (lc_reader l)); [|done]. rewrite Hc in Hctx by (by right). done. }
  destruct (lc_reader l) eqn:Hr; try done; injection Hwhy as ->; (split; [by auto|split]).
  - eexists. by apply r_close_self.
  - intros l' Hs. left. destruct Hs; try match goal with E : response_step _ _ |- _ => destruct E end; try congruence.
    unfold leave. by destruct streams.
  - eexists. by apply r_unregister.
  - intros l' Hs. right. split; [done|].
    destruct Hs; try match goal with E : response_step _ _ |- _ => destruct E end; try congruence.
    rewrite unregister_keeps. cbn. congruence.
  - eexists. by apply r_close.
  - intros l' Hs. left. destruct Hs; try match goal with E : response_step _ _ |- _ => destruct E end; (done || congruence).
Qed.

(** C11. A closed connection goes away. Once the context of a connection is
    cancelled, by whomever, it stays cancelled, its goroutines have at most
    thirteen statements of their own left to do, none of which can block for
    ever, and what others do meanwhile does not add to them; they end with the
    writer joined, the stream closed and out of the registry and the connection
    out of the manager, and then nothing anybody does changes that. And a reader
    that has left its loop, while the context is not cancelled yet, can always
    move and cancels it with its next statement, or with the one after when it
    is unregistering its stream. *)
Theorem connection_ends input s l : reachable input s l →
  (lc_ctx l = true →
    (∀ l', step l l' → lc_ctx l' = true ∧ (rank l' ≤ rank l)%nat) ∧
    (∀ n l', nsteps goroutine n l l' → (n ≤ 13)%nat) ∧
    (∀ l', rtc goroutine l l' → (∀ l2, ¬ goroutine l' l2) → finished l') ∧
    (∃ l', rtc goroutine l l' ∧ finished l') ∧
    (finished l → ∀ l', step l l' → l' = l)) ∧
  (∀ why, reason_of (lc_reader l) = Some why → lc_ctx l = false →
    (lc_reader l = ClosingSelf why ∨ lc_reader l = Unregistering why ∨ lc_reader l = Closing why) ∧
    (∃ l', reader_step l l') ∧
    (∀ l', reader_step l l' → lc_ctx l' = true ∨ lc_reader l = Unregistering why ∧ lc_reader l' = Closing why)).
Proof.
  intros Hreach. pose proof (goroutines_ok _ _ _ Hreach) as Hl. pose proof (streams_ok _ _ _ Hreach) as Hso.
  split; [|intros why; by apply (left_reader_cancels input s)]. intros Hctx. split_and!.
  - intros l' [Hs|Hs]; [destruct (goroutine_rank _ _ Hs Hctx)|destruct (outside_rank _ _ Hs Hctx)]; split; (done || lia).
  - intros n l' Hs. destruct (goroutine_nsteps _ _ _ Hs Hctx) as [Hr _].
    assert (rank l ≤ 13)%nat; [|lia]. unfold rank. destruct (lc_reader l), (lc_writer l); cbn; lia.
  - intros l' Hs Hstuck. assert (life_ok input s l' ∧ stream_ok l' ∧ lc_ctx l' = true) as (Hl' & Hso' & Hctx').
    { clear Hstuck Hreach. induction Hs as [l|l1 l2 l3 Hs _ IH]; [done|].
      apply IH; [by eapply goroutine_step_ok; [left|]|by eapply stream_ok_step; [left|]|by apply (goroutine_rank _ _ Hs)]. }
    destruct (goroutine_progress input s l' Hl' Hso' Hctx') as [?|[l2 ?]]; [done|by destruct (Hstuck l2)].
  - by apply (goroutine_finishes input s (rank l)).
  - intros Hf l'. by apply finished_stays.
Qed.

(** C12. The reply to a message that cannot be decoded is the last word. When the
    reader is past it, it has been sent, unless the queue was full or somebody
    else closed the connection, or writing it failed: the reader waits for the
    writer before it closes. *)
Theorem error_reply_sent input s l why m :
  reachable input s l → reason_of (lc_reader l) = Some why → m ∈ lc_accepted l → from m = OFinal →
  m ∈ lc_sent l ∨ why = ContextDone ∨ why = Written false.
Proof.
  intros [_ _ _ [Hn Hr] _ _ _ _]%goroutines_ok Hwhy Hm Hf.
  assert (m ∈ of_origin OFinal (lc_accepted l)) as Hin by (by apply list_elem_of_filter).
  assert (why = ContextDone ∨ (∃ ok, why = Written ok ∧ lc_note l = Some ok) ∨ of_origin OFinal (lc_accepted l) = [])
    as [->|[(ok & -> & Hnote)|He]].
  { destruct (lc_reader l); cbn in *; try done; injection Hwhy as ->; destruct why; eauto. }
  - auto.
  - rewrite Hnote in Hn. destruct Hn as [(x & Hx & Hsent) _]. rewrite Hx in Hin.
    apply list_elem_of_singleton in Hin as ->. destruct ok; auto.
  - rewrite He in Hin. by apply elem_of_nil in Hin.
Qed.

(** ** Runs *)

(** A request is answered and its reply sent. *)
Lemma exchange_run l now m input a s :
  lc_ctx l = false → lc_reader l = LoopTop → lc_writer l = WTop → lc_queue l = [] → (0 < size)%nat →
  Decode (lc_input l) = ((m, None), input) → answer user now m (lc_session l) = (a, s) → a_close a = false →
  rtc goroutine l
    (mkLife false [] LoopTop WTop (lc_note l) (lc_sent l ++ [mkOut (a_reply a) OReply])
       (lc_accepted l ++ [mkOut (a_reply a) OReply]) input s
       (lc_history l ++ [mkExchange m now (a_reply a) (a_fresh a)]) (lc_member l) (lc_stream l) (lc_subscribed l)).
Proof.
  destruct l as [ctx q r w note sent acc inp ses hist mem str sub]. cbn. intros -> -> -> -> Hsize Hd Ha Hc.
  eapply rtc_l; [left; by apply r_top|]. eapply rtc_l; [left; by eapply r_request|].
  eapply rtc_l; [left; apply (r_reply _ (a_reply a) false); [by cbn; rewrite Hc|exact Hsize]|].
  eapply rtc_l; [right; by apply w_top|]. eapply rtc_l; [right; by eapply w_select|].
  eapply rtc_l; [right; by apply w_written|]. done.
Qed.

(** The reply that announces the limit is queued and the connection closed at
    once: the writer, which looks at the context first, may never send it,
    although nobody else does anything and no write fails. *)
Lemma limit_reply_lost input s now m r a s' :
  streams = false → (0 < size)%nat → Decode input = ((m, None), r) → answer user now m s = (a, s') → a_close a = true →
  ∃ l, rtc goroutine (accepted input s) l ∧ lc_reader l = Gone Limit ∧
    mkOut (a_reply a) OReply ∈ lc_accepted l ∧ lc_sent l = [].
Proof.
  intros Hst Hsize Hd Ha Hc. eexists. split.
  { eapply rtc_l; [left; by apply r_no_streams|]. eapply rtc_l; [left; by apply r_top|].
    eapply rtc_l; [left; by eapply r_request|].
    eapply rtc_l; [left; apply (r_reply _ (a_reply a) true); [by cbn; rewrite Hc|exact Hsize]|].
    eapply rtc_l; [left; by eapply r_close_self|]. unfold leave. rewrite Hst.
    eapply rtc_l; [right; by apply w_top_done|]. eapply rtc_l; [left; by eapply r_close|].
    eapply rtc_l; [left; by eapply r_join|]. eapply rtc_l; [left; by eapply r_forget|]. reflexivity. }
  split; [done|]. split; [by left|done].
Qed.
End connection.

(** ** An example

    A command, then a frame of length zero: the command is answered, the frame
    gets the final reply, and the connection goes away. *)

Definition bad_input : Codec.reader := mkReader [frame (example_message MessageCommand); PutUint32 0] EEOF.
Definition example_state : Session.state := (∅, (counting_daemon, 0%nat)).

Lemma runs_reachable l l' :
  rtc (goroutine alice 2 false) l l' → reachable alice 2 false bad_input example_state l →
  reachable alice 2 false bad_input example_state l'.
Proof.
  unfold reachable. induction 1 as [l|l1 l2 l3 Hs _ IH]; [done|]. intros Hl. apply IH. eapply rtc_r; [exact Hl|by left].
Qed.

Lemma split_decoded {A B C} (x : A * B * C) b : x.1.2 = b → x = ((x.1.1, b), x.2).
Proof. destruct x as [[? ?] ?]. by intros <-. Qed.

Lemma example_run : ∃ l,
  reachable alice 2 false bad_input example_state l ∧ lc_reader l = Gone (Written true) ∧
  map (λ m, (from m, Type_ (envelope m))) (lc_sent l) = [(OReply, MessageCommandResponse); (OFinal, MessageError)] ∧
  lc_accepted l = lc_sent l ∧ length (lc_history l) = 1%nat.
Proof.
  assert (Decode bad_input = (((Decode bad_input).1.1, None), (Decode bad_input).2)) as Hd.
  { apply split_decoded. by vm_compute. }
  assert ((λ a, (a_close a, Type_ (a_reply a))) (answer alice 5 (Decode bad_input).1.1 example_state).1
    = (false, MessageCommandResponse)) as Hx by (by vm_compute).
  assert ((Decode (Decode bad_input).2).1.2 = Some (ErrInvalidMessage "zero-length frame")) as Hz by (by vm_compute).
  destruct (answer alice 5 (Decode bad_input).1.1 example_state) as [a s'] eqn:Ha.
  cbn [fst] in Hx. apply pair_equal_spec in Hx as [Hc Hty].
  eexists. split.
  { eapply runs_reachable; [|apply rtc_refl].
    eapply rtc_l; [left; by apply r_no_streams|].
    etransitivity; [exact (exchange_run alice 2 false (goto LoopTop (accepted bad_input example_state)) 5 _ _ _ _
      eq_refl eq_refl eq_refl eq_refl Nat.lt_0_2 Hd Ha Hc)|].
    eapply rtc_l; [left; by apply r_top|].
    eapply rtc_l; [left; eapply (r_bad _ _ _ _ 6 _ (ErrInvalidMessage "zero-length frame")); [done| |done]|].
    { by apply split_decoded. }
    eapply rtc_l; [left; apply r_respond; eapply r_refuse; [done|vm_compute; lia]|].
    eapply rtc_l; [right; by apply w_top|]. eapply rtc_l; [right; by eapply w_select|].
    eapply rtc_l; [right; by apply w_written|].
    eapply rtc_l; [left; by apply r_respond, r_await_written|]. eapply rtc_l; [left; by eapply r_close|].
    eapply rtc_l; [right; by apply w_top_done|]. eapply rtc_l; [left; by eapply r_join|].
    eapply rtc_l; [left; by eapply r_forget|]. reflexivity. }
  cbn -[Decode decodeErrorEnvelope].
  split; [reflexivity|]. split; [rewrite Hty; reflexivity|]. split; reflexivity.
Qed.

Lemma connection_refines_session_witness : ∃ l,
  length (lc_sent l) = 2%nat ∧ length (lc_history l) = 1%nat ∧
  ∃ turns why, serve alice turns bad_input example_state = (lc_history l, why, lc_session l).
Proof.
  destruct example_run as (l & Hl & _ & Hs & _ & Hh). exists l. split.
  { apply (f_equal length) in Hs. rewrite length_map in Hs. exact Hs. }
  split; [exact Hh|]. destruct (connection_refines_session alice 2 false bad_input example_state l Hl) as [H _]. exact H.
Defined.

(** Of a connection with a stream whose peer sends nothing: it is closed by
    somebody, or it ends when the peer hangs up. *)
Definition no_input : Codec.reader := mkReader [] EEOF.
Lemma connection_ends_witness : ∃ l l1 l' : life (W := nat),
  lc_subscribed l = true ∧ rtc (goroutine alice 2 true) l l' ∧ finished l' ∧
  lc_subscribed l1 = true ∧ lc_ctx l1 = false ∧ lc_reader l1 = Unregistering InputEnded ∧
  ∃ l2, reader_step alice 2 true l1 l2.
Proof.
  set (registered := goto LoopTop (push_out (mkOut (example_message MessageEvent) OEvent)
    (set_life_stream StreamOpen true (accepted no_input example_state)))).
  assert (reachable alice 2 true no_input example_state registered) as Hreg.
  { apply rtc_once. left. left. apply r_registered; [reflexivity|reflexivity|vm_compute; lia]. }
  assert (reachable alice 2 true no_input example_state (cancel registered)) as Hcan.
  { eapply rtc_r; [exact Hreg|]. right. apply o_close. }
  assert (reachable alice 2 true no_input example_state (leave true InputEnded (goto Decoding registered))) as Hend.
  { eapply rtc_r; [eapply rtc_r; [exact Hreg|left; left; by apply r_top]|]. left. left.
    eapply (r_end _ _ _ _ _ EEOF); [reflexivity| |reflexivity]. by apply split_decoded; vm_compute. }
  exists (cancel registered), (leave true InputEnded (goto Decoding registered)).
  destruct (connection_ends alice 2 true no_input example_state _ Hcan) as [Hends _].
  destruct (Hends eq_refl) as (_ & _ & _ & (l' & Hl' & Hf) & _).
  destruct (connection_ends alice 2 true no_input example_state _ Hend) as [_ Hleft].
  destruct (Hleft InputEnded eq_refl eq_refl) as (_ & Hmove & _).
  exists l'. split; [reflexivity|]. split; [exact Hl'|]. split; [exact Hf|].
  split; [reflexivity|]. split; [reflexivity|]. split; [reflexivity|exact Hmove].
Defined.

Lemma error_reply_sent_witness : ∃ l m,
  reachable alice 2 false bad_input example_state l ∧ from m = OFinal ∧
  (m ∈ lc_sent l ∨ Written true = ContextDone ∨ Written true = Written false).
Proof.
  destruct example_run as (l & Hl & Hr & Hs & Ha & _). destruct (lc_sent l) as [|m1 [|m2 [|]]] eqn:Hsent; try discriminate Hs.
  injection Hs as _ _ H2 _. exists l, m2. split; [exact Hl|]. split; [exact H2|].
  apply (error_reply_sent alice 2 false bad_input example_state l (Written true) m2 Hl); [by rewrite Hr| |exact H2].
  rewrite Ha, ?Hsent. right. left.
Defined.

(** A session that has used up its requests, for [limit_reply_lost]. *)
Definition full_cache : gmap string cachedRequest :=
  list_to_map (map (λ n, (pretty n, mkCached "" empty_envelope)) (seq 0 4096)).
Lemma limit_is_reached : a_close (answer alice 5 (Decode bad_input).1.1 (full_cache, (counting_daemon, 0%nat))).1 = true.
Proof. by vm_compute. Qed.
