(* ===== verification/Boundary.v ===== *)
(** * Boundary: the locks around the cache and the streams

    [Refresh], [ReplaceSnapshotAndPublish], [WithSnapshotBoundary], [Publish],
    [Register], [NodeStream.Close] and [CloseAll] (internal/resource and
    internal/stream) at the grain of their locks: [refreshMu], [publicationMu],
    the mutexes of the cache and of the registry, and the [sync.Once] of a
    stream. StreamHistory.v takes each of them as one step; here other goroutines
    run between the critical sections, the turns of the loop of [Publish]
    included. *)
From stdpp Require Import sorting relations.
From S2P Require Import Prelude Utf8 Json Message NodeCache NodeSource Stream StreamHistory.
Open Scope Z_scope.

(** ** The state *)

(** What the holder of [publicationMu] is doing. [PLoop] also holds the mutex of
    the registry; [before] is the cache before the commit, for the proofs. *)
Inductive phase : Type :=
| PFree
| PCommit (ns : list Node)
| PPublish (before : NodeCache) (b : NodeChangeBatch)
| PLoop (before : NodeCache) (b : NodeChangeBatch) (env : Envelope) (todo slow : list nat)
| PClosing (slow : list nat)
| PSnapshot (id : nat)
| PBaseline (id : nat) (env : Envelope)
| PAbandon (id : nat).

(** What the holder of [refreshMu] is doing. *)
Inductive refresher : Type := RIdle | RListing | RWriting.

(** Inside the [sync.Once] of a stream whose [done] is closed already: before
    [Unregister], and before the connection is closed. *)
Inductive closing : Type := CUnregister (closes : bool) | CConnection.

(** [sh_listed] counts the listings that were begun; [sh_log] has the number of
    the listing of each commit. *)
Record shared : Type := mkShared {
  sh_cache : NodeCache;
  sh_reg : registry;
  sh_pub : phase;
  sh_refresh : refresher;
  sh_closing : gmap nat closing;
  sh_listed : nat;
  sh_log : list nat;
}.

Definition set_pub (p : phase) (f : shared) : shared :=
  mkShared (sh_cache f) (sh_reg f) p (sh_refresh f) (sh_closing f) (sh_listed f) (sh_log f).
Definition set_reg (g : registry → registry) (f : shared) : shared :=
  mkShared (sh_cache f) (g (sh_reg f)) (sh_pub f) (sh_refresh f) (sh_closing f) (sh_listed f) (sh_log f).
Definition set_refresh (r : refresher) (f : shared) : shared :=
  mkShared (sh_cache f) (sh_reg f) (sh_pub f) r (sh_closing f) (sh_listed f) (sh_log f).
Definition set_closing (g : gmap nat closing → gmap nat closing) (f : shared) : shared :=
  mkShared (sh_cache f) (sh_reg f) (sh_pub f) (sh_refresh f) (g (sh_closing f)) (sh_listed f) (sh_log f).
Definition update (id : nat) (g : conn → conn) : shared → shared := set_reg (set_conns (alter g id)).

Definition in_loop (p : phase) : bool := match p with PLoop _ _ _ _ _ => true | _ => false end.
Definition locked (f : shared) : bool := in_loop (sh_pub f).

(** [refreshMu] is taken and [ListNodes] begins. *)
Definition begin_listing (f : shared) : shared :=
  mkShared (sh_cache f) (sh_reg f) (sh_pub f) RListing (sh_closing f) (S (sh_listed f)) (sh_log f).

(** [replaceSnapshot], under the mutex of the cache; without a change the two
    locks are given up. *)
Definition commit (r : NodeChangeBatch * bool * NodeCache) (f : shared) : shared :=
  let '(b, changed, c') := r in
  mkShared c' (sh_reg f) (if (changed : bool) then PPublish (sh_cache f) b else PFree)
    (if changed then RWriting else RIdle) (sh_closing f) (sh_listed f) (sh_log f ++ [sh_listed f]).

(** [close.Do]: the first caller closes [done] and goes on alone. *)
Definition once_begins (id : nat) (closes : bool) (f : shared) : shared :=
  set_closing <[id := CUnregister closes]> (update id (set_stream StreamClosed) f).
Definition once_unregisters (id : nat) (closes : bool) (f : shared) : shared :=
  set_closing (if closes then <[id := CConnection]> else delete id) (set_reg (Unregister id) f).
Definition once_closes (id : nat) (f : shared) : shared := set_closing (delete id) (update id cancel f).

(** [close.Do] returns to the others only when it has returned to the first. *)
Definition once_done (id : nat) (f : shared) : Prop :=
  sh_closing f !! id = None ∧ ∀ k, conns (sh_reg f) !! id = Some k → c_stream k ≠ StreamOpen.

Definition opened (id : nat) (k : conn) (f : shared) : Prop :=
  conns (sh_reg f) !! id = Some k ∧ c_stream k = StreamOpen.

(** The stream that the holder of [publicationMu] closes next. *)
Definition to_close (p : phase) : option nat :=
  match p with PClosing (id :: _) => Some id | PAbandon id => Some id | _ => None end.

(** ** The steps *)

(** The holder of [publicationMu], and whoever is inside a [sync.Once]. *)
Inductive inner_step (f : shared) : shared → Prop :=
| i_commit o1 o2 o3 ns : sh_pub f = PCommit ns → fair o1 → fair o2 → fair o3 →
    inner_step f (commit (replaceSnapshot o1 o2 o3 ns (sh_cache f)) f)
| i_rejected before b now : sh_pub f = PPublish before b →
    valid_batch b = false ∨ eventEnvelope now b (sh_reg f) = None → inner_step f (set_pub (PClosing []) f)
| i_publish before b now env r todo : sh_pub f = PPublish before b → valid_batch b = true →
    eventEnvelope now b (sh_reg f) = Some (env, r) → todo ≡ₚ elements (streams r) →
    inner_step f (set_pub (PLoop before b env todo []) (set_reg (λ _, r) f))
| i_offer before b env id todo slow pick r slow' : sh_pub f = PLoop before b env (id :: todo) slow →
    offer pick env (sh_reg f, slow) id = (r, slow') →
    inner_step f (set_pub (PLoop before b env todo slow') (set_reg (λ _, r) f))
| i_unlock before b env slow : sh_pub f = PLoop before b env [] slow → inner_step f (set_pub (PClosing slow) f)
| i_close id k : to_close (sh_pub f) = Some id → opened id k f → inner_step f (once_begins id true f)
| i_closed id slow : sh_pub f = PClosing (id :: slow) → once_done id f → inner_step f (set_pub (PClosing slow) f)
| i_published : sh_pub f = PClosing [] → inner_step f (set_refresh RIdle (set_pub PFree f))
| i_snapshot o now id env r : sh_pub f = PSnapshot id → fair o →
    snapshotEnvelope now (cache_Snapshot o (sh_cache f)) (sh_reg f) = Some (env, r) →
    inner_step f (set_pub (PBaseline id env) (set_reg (λ _, r) f))
| i_no_snapshot o now id : sh_pub f = PSnapshot id → fair o →
    snapshotEnvelope now (cache_Snapshot o (sh_cache f)) (sh_reg f) = None →
    inner_step f (set_pub PFree (update id cancel f))
| i_register id env pick k k' : sh_pub f = PBaseline id env → conns (sh_reg f) !! id = Some k →
    stream_enqueue (queueSize (sh_reg f)) pick env (set_stream StreamOpen k) = (true, k') →
    inner_step f (set_pub PFree (set_reg (λ r, set_streams ({[id]} ∪.) (set_conns <[id := k']> r)) f))
| i_register_fails id env pick k k' : sh_pub f = PBaseline id env → conns (sh_reg f) !! id = Some k →
    stream_enqueue (queueSize (sh_reg f)) pick env (set_stream StreamOpen k) = (false, k') →
    inner_step f (set_pub (PAbandon id) (set_reg (set_conns <[id := k']>) f))
| i_abandoned id : sh_pub f = PAbandon id → once_done id f → inner_step f (set_pub PFree f)
| i_unregister id closes : sh_closing f !! id = Some (CUnregister closes) → locked f = false →
    inner_step f (once_unregisters id closes f)
| i_connection id : sh_closing f !! id = Some CConnection → inner_step f (once_closes id f).

(** Everybody else: connections that come, answer, write and end, the requests to
    register, the refreshes that begin, and the server that closes all streams.
    A refresh that wants to write is a step only while the generation does not
    wrap around and the clock of the nodes can be encoded. *)
Inductive outer_step (f : shared) : shared → Prop :=
| x_accept id : conns (sh_reg f) !! id = None → outer_step f (set_reg (set_conns <[id := new_conn]>) f)
| x_respond id m pick : Type_ m ≠ MessageEvent →
    outer_step f (update id (λ k, (server_enqueue (queueSize (sh_reg f)) pick m k).2) f)
| x_write id written : outer_step f (update id (write_next written) f)
| x_cancel id : outer_step f (update id cancel f)
| x_close id k closes : opened id k f → outer_step f (once_begins id closes f)
| x_close_all : locked f = false → outer_step f (set_reg (set_streams (λ _, ∅)) f)
| x_register id k : sh_pub f = PFree → conns (sh_reg f) !! id = Some k → c_stream k = NoStream →
    outer_step f (set_pub (PSnapshot id) f)
| x_list : sh_refresh f = RIdle → outer_step f (begin_listing f)
| x_list_fails : sh_refresh f = RListing → outer_step f (set_refresh RIdle f)
| x_write_listing ns : sh_refresh f = RListing → sh_pub f = PFree → validateNodeSnapshot ns = Ok tt →
    Forall node_time_ok ns → generation (sh_cache f) < 2 ^ 64 - 1 →
    outer_step f (set_refresh RWriting (set_pub (PCommit ns) f)).

Definition step (f f' : shared) : Prop := inner_step f f' ∨ outer_step f f'.
Definition start (size : nat) : shared := mkShared NewNodeCache (mkRegistry size ∅ 0 ∅) PFree RIdle ∅ 0 [].
Definition reachable (size : nat) (f : shared) : Prop := rtc step (start size) f.

(** ** The invariant *)

(** The cache as the stream of [id] should know it: while a batch is on its way,
    those that have not been offered it are at the cache before. *)
Definition view (p : phase) (c : NodeCache) (id : nat) : NodeCache :=
  match p with
  | PPublish before _ => before
  | PLoop before _ _ todo _ => if bool_decide (id ∈ todo) then before else c
  | _ => c
  end.

(** The batch leads from one cache to the other. *)
Record leads (before : NodeCache) (b : NodeChangeBatch) (c : NodeCache) : Prop := {
  ld_valid : valid_batch b = true;
  ld_encodes : is_Some (marshal_batch b);
  ld_generation : b_Generation b = generation before + 1 ∧ generation c = b_Generation b;
  ld_changes : apply_changes (nodes before) (b_Changes b) = nodes c;
}.

Definition fresh (r : registry) (id : nat) : Prop := ∃ k, conns r !! id = Some k ∧ c_stream k = NoStream.
Definition known (r : registry) (id : nat) : Prop := ∃ k, conns r !! id = Some k ∧ c_stream k ≠ NoStream.
Definition departed (r : registry) (id : nat) : Prop := id ∉ streams r ∧ known r id.

Definition phase_ok (p : phase) (c : NodeCache) (r : registry) : Prop :=
  match p with
  | PFree => True
  | PCommit ns => Forall node_time_ok ns ∧ generation c < 2 ^ 64 - 1
  | PPublish before b => leads before b c
  | PLoop before b env todo slow =>
      leads before b c ∧ Type_ env = MessageEvent ∧ marshal_batch b = Some (Payload env) ∧ NoDup todo ∧
      Forall (.∈ streams r) todo ∧ Forall (departed r) slow
  | PClosing slow => Forall (departed r) slow
  | PSnapshot id => fresh r id
  | PBaseline id env =>
      fresh r id ∧ Type_ env = MessageEvent ∧ ∃ o, fair o ∧ marshal_snapshot (cache_Snapshot o c) = Some (Payload env)
  | PAbandon id => departed r id
  end.

(** A registered stream is open, or its [sync.Once] is about to unregister it;
    and who is inside a [sync.Once] has closed the stream. *)
Definition members_ok (r : registry) (closings : gmap nat closing) : Prop :=
  (∀ id, id ∈ streams r → ∃ k, conns r !! id = Some k ∧
    (c_stream k = StreamOpen ∨ c_stream k = StreamClosed ∧ ∃ closes, closings !! id = Some (CUnregister closes))) ∧
  ∀ id x, closings !! id = Some x → ∃ k, conns r !! id = Some k ∧ c_stream k = StreamClosed.

(** Commits happen in the order in which their listings began. *)
Definition order_ok (f : shared) : Prop :=
  StronglySorted lt (sh_log f) ∧ Forall (λ t, t ≤ sh_listed f)%nat (sh_log f) ∧
  (sh_refresh f = RListing → Forall (λ t, t < sh_listed f)%nat (sh_log f)) ∧
  match sh_pub f with
  | PCommit _ => sh_refresh f = RWriting ∧ Forall (λ t, t < sh_listed f)%nat (sh_log f)
  | PPublish _ _ | PLoop _ _ _ _ _ | PClosing _ => sh_refresh f = RWriting
  | _ => sh_refresh f ≠ RWriting
  end.

Record shared_ok (f : shared) : Prop := {
  so_cache : cache_ok (sh_cache f);
  so_times : map_Forall (λ _ n, node_time_ok n) (nodes (sh_cache f));
  so_bound : ∀ id k, conns (sh_reg f) !! id = Some k → (length (c_queue k) ≤ queueSize (sh_reg f))%nat;
  so_members : members_ok (sh_reg f) (sh_closing f);
  so_live : ∀ id k, id ∈ streams (sh_reg f) → opened id k f → c_writing k = true →
    let c := view (sh_pub f) (sh_cache f) id in feed (enqueued k) (generation c, nodes c);
  so_none : ∀ id k, conns (sh_reg f) !! id = Some k → c_stream k = NoStream → enqueued k = [];
  so_past : ∀ id k, conns (sh_reg f) !! id = Some k → feed_prefix (enqueued k);
  so_phase : phase_ok (sh_pub f) (sh_cache f) (sh_reg f);
  so_order : order_ok f;
}.

(** Every connection is given no further event, and at most closes its stream. *)
Definition calm (r r' : registry) : Prop :=
  queueSize r' = queueSize r ∧ streams r' ⊆ streams r ∧
  (∀ id k', conns r' !! id = Some k' → ∃ k, conns r !! id = Some k ∧ quiet (queueSize r) k k' ∧
     (c_stream k' = c_stream k ∨ c_stream k = StreamOpen ∧ c_stream k' = StreamClosed)) ∧
  ∀ id, is_Some (conns r !! id) → is_Some (conns r' !! id).

Lemma calm_refl r : calm r r.
Proof. split_and!; try done. intros id k Hk. exists k. split_and!; [done|apply quiet_refl|by left]. Qed.

Lemma calm_alter r id g :
  (∀ k, quiet (queueSize r) k (g k) ∧ (c_stream (g k) = c_stream k ∨ c_stream k = StreamOpen ∧ c_stream (g k) = StreamClosed)) →
  calm r (set_conns (alter g id) r).
Proof.
  intros Hg. split_and!; try done; cbn.
  - intros i k'. rewrite lookup_alter. case_decide as Hi; [subst|].
    + destruct (conns r !! i) as [k|]; [|done]. intros [= <-]. exists k. destruct (Hg k). auto.
    + intros Hk. exists k'. split_and!; [done|apply quiet_refl|by left].
  - intros i [k Hk]. rewrite lookup_alter. case_decide; [subst|]; rewrite Hk; by eexists.
Qed.

Lemma calm_fresh r r' id : calm r r' → fresh r' id ↔ fresh r id.
Proof.
  intros (_ & _ & Hc & Hd). split.
  - intros (k' & Hk' & Hs). destruct (Hc id k' Hk') as (k & Hk & _ & [H | [_ H]]); [|congruence].
    exists k. split; congruence.
  - intros (k & Hk & Hs). destruct (Hd id) as [k' Hk']; [by eexists|]. exists k'. split; [done|].
    destruct (Hc id k' Hk') as (k0 & Hk0 & _ & [H | [H _]]); congruence.
Qed.

Lemma calm_known r r' id : calm r r' → known r id → known r' id.
Proof.
  intros (_ & Hs & Hc & Hd) (k & Hk & Hst).
  destruct (Hd id) as [k' Hk']; [by eexists|]. exists k'. split; [done|].
  destruct (Hc id k' Hk') as (k0 & Hk0 & _ & [H | [_ H]]); congruence.
Qed.

(** The phase is kept when streams leave, and connections keep what they are. *)
Lemma phase_mono p c r r' :
  streams r' ⊆ streams r → (in_loop p = true → streams r ⊆ streams r') →
  (∀ id, known r id → known r' id) → (∀ id, fresh r id → fresh r' id) →
  phase_ok p c r → phase_ok p c r'.
Proof.
  intros Hs Hs' Hk Hf. assert (∀ id, departed r id → departed r' id) as Hd by (intros id [H1 H2]; split; [by intros ?%Hs|auto]).
  assert (∀ (P Q : nat → Prop) (l : list nat), (∀ i, P i → Q i) → Forall P l → Forall Q l) as Hall
    by (intros P Q l H Hl; eapply Forall_impl; eauto).
  destruct p; cbn; try done; naive_solver.
Qed.

Lemma calm_phase p c r r' :
  calm r r' → (in_loop p = true → streams r ⊆ streams r') → phase_ok p c r → phase_ok p c r'.
Proof.
  intros Hc Hs. apply phase_mono; [apply Hc|done|intros id; by apply calm_known|intros id; by rewrite (calm_fresh r r')].
Qed.

(** The steps that enqueue no event. *)
Lemma ok_calm f f' :
  shared_ok f → sh_cache f' = sh_cache f → calm (sh_reg f) (sh_reg f') →
  members_ok (sh_reg f') (sh_closing f') → phase_ok (sh_pub f') (sh_cache f) (sh_reg f') → order_ok f' →
  (∀ id, id ∈ streams (sh_reg f') → view (sh_pub f') (sh_cache f) id = view (sh_pub f) (sh_cache f) id) →
  shared_ok f'.
Proof.
  intros [Hc Ht Hb Hm Hl Hn Hp Hph Ho] Hcache Hcalm Hm' Hph' Ho' Hview.
  pose proof Hcalm as (Hq & Hs & Hk & Hd).
  split; rewrite ?Hcache, ?Hq; try done.
  - intros id k' Hk'. destruct (Hk id k' Hk') as (k & Hk0 & Hqu & _). by eapply q_bound, Hb.
  - intros id k' Hid [Hk' Hst] Hw. destruct (Hk id k' Hk') as (k & Hk0 & Hqu & Hst').
    destruct (q_writing _ _ _ Hqu Hw) as [Hw0 ->]. rewrite Hview by done. apply (Hl id k); [by apply Hs|split; [done|]|done].
    destruct Hst' as [? | [_ ?]]; congruence.
  - intros id k' Hk' Hst. destruct (Hk id k' Hk') as (k & Hk0 & Hqu & [H | [_ H]]); [|congruence].
    pose proof (q_prefix _ _ _ Hqu) as Hpre. rewrite (Hn id k Hk0) in Hpre by congruence.
    by apply prefix_nil_inv in Hpre.
  - intros id k' Hk'. destruct (Hk id k' Hk') as (k & Hk0 & Hqu & _).
    destruct (q_prefix _ _ _ Hqu) as [es He]. specialize (Hp id k Hk0). rewrite He in Hp. by apply feed_prefix_app in Hp.
Qed.

Lemma ok_quiet f f' :
  shared_ok f → sh_cache f' = sh_cache f → sh_pub f' = sh_pub f → calm (sh_reg f) (sh_reg f') →
  (locked f = true → streams (sh_reg f) ⊆ streams (sh_reg f')) →
  members_ok (sh_reg f') (sh_closing f') → order_ok f' → shared_ok f'.
Proof.
  intros Hf Hcache Hp Hcalm Hl Hm Ho. apply (ok_calm f); try done; rewrite Hp; [|done].
  by eapply calm_phase, (so_phase _ Hf).
Qed.

Lemma members_alter r cl id g :
  (∀ k, c_stream (g k) = c_stream k) → members_ok r cl → members_ok (set_conns (alter g id) r) cl.
Proof.
  intros Hg [Hm Hx].
  assert (∀ i k, conns r !! i = Some k → ∃ k', alter g id (conns r) !! i = Some k' ∧ c_stream k' = c_stream k) as Halt.
  { intros i k Hk. rewrite lookup_alter. case_decide; [subst i; exists (g k)|exists k]; rewrite Hk; (split; [reflexivity|]); [apply Hg|done]. }
  split; cbn.
  - intros i Hi. destruct (Hm i Hi) as (k & Hk & Hst). destruct (Halt i k Hk) as (k' & -> & He).
    exists k'. rewrite He. auto.
  - intros i x Hi. destruct (Hx i x Hi) as (k & Hk & Hst). destruct (Halt i k Hk) as (k' & -> & He).
    exists k'. rewrite He. auto.
Qed.

(** One connection changes, but neither its stream nor its events. *)
Lemma ok_update f id g :
  shared_ok f → (∀ k, quiet (queueSize (sh_reg f)) k (g k) ∧ c_stream (g k) = c_stream k) → shared_ok (update id g f).
Proof.
  intros Hf Hg. apply (ok_quiet f); try done.
  - apply calm_alter. intros k. destruct (Hg k). auto.
  - apply members_alter; [intros k; apply Hg|apply (so_members _ Hf)].
  - apply (so_order _ Hf).
Qed.

(** Only the locks change. *)
Lemma ok_locks f p r n :
  shared_ok f → phase_ok p (sh_cache f) (sh_reg f) →
  (∀ id, id ∈ streams (sh_reg f) → view p (sh_cache f) id = view (sh_pub f) (sh_cache f) id) →
  let f' := mkShared (sh_cache f) (sh_reg f) p r (sh_closing f) n (sh_log f) in order_ok f' → shared_ok f'.
Proof. intros Hf Hp Hv f' Ho. apply (ok_calm f); try done; [apply calm_refl|apply (so_members _ Hf)]. Qed.

Lemma members_begin f id k closes :
  shared_ok f → opened id k f → members_ok (sh_reg (once_begins id closes f)) (sh_closing (once_begins id closes f)).
Proof.
  intros Hf [Hk Hst]. destruct (so_members _ Hf) as [Hm Hx]. split; cbn.
  - intros i Hi. rewrite lookup_alter. case_decide as He; [subst i|].
    + rewrite Hk. eexists. split; [done|]. right. split; [done|]. exists closes. apply lookup_insert_eq.
    + destruct (Hm i Hi) as (k' & Hk' & Hs). exists k'. split; [done|]. by rewrite lookup_insert_ne.
  - intros i x. rewrite lookup_insert_Some, lookup_alter. intros [[<- <-] | [He Hi]].
    + rewrite decide_True, Hk by done. by eexists.
    + rewrite decide_False by done. by apply (Hx i x).
Qed.

Lemma quiet_set_closed size k : quiet size k (set_stream StreamClosed k).
Proof. by split. Qed.

Lemma ok_begins f id k closes : shared_ok f → opened id k f → shared_ok (once_begins id closes f).
Proof.
  intros Hf Hk. apply (ok_quiet f); try done; [|by apply (members_begin f id k)|apply (so_order _ Hf)].
  destruct Hk as [Hk Hst]. split_and!; try done; cbn.
  - intros i k'. rewrite lookup_alter. case_decide as Hi; [subst|].
    + rewrite Hk. intros [= <-]. exists k. split_and!; [done|apply quiet_set_closed|by right].
    + intros Hi'. exists k'. split_and!; [done|apply quiet_refl|by left].
  - intros i [k' Hi]. rewrite lookup_alter. case_decide; [subst|]; rewrite Hi; by eexists.
Qed.

Lemma ok_unregisters f id closes :
  shared_ok f → sh_closing f !! id = Some (CUnregister closes) → locked f = false →
  shared_ok (once_unregisters id closes f).
Proof.
  intros Hf Hcl Hlock. destruct (so_members _ Hf) as [Hm Hx]. apply (ok_quiet f); try done.
  - split_and!; try done; cbn; [set_solver|]. intros i k Hk. exists k. split_and!; [done|apply quiet_refl|by left].
  - congruence.
  - assert (∀ i, i ≠ id → sh_closing (once_unregisters id closes f) !! i = sh_closing f !! i) as Hne.
    { intros i Hi. cbn. destruct closes; [by rewrite lookup_insert_ne|by rewrite lookup_delete_ne]. }
    split.
    + cbn. intros i [Hi Hne']%elem_of_difference. destruct (Hm i Hi) as (k & Hk & Hs). exists k. split; [done|].
      destruct Hs as [? | [? [c Hc]]]; [by left|right]. split; [done|]. exists c. rewrite Hne; [done|set_solver].
    + intros i x Hi. destruct (decide (i = id)) as [->|Hi']; [|apply (Hx i x); by rewrite <-Hne].
      by apply (Hx id (CUnregister closes)).
  - apply (so_order _ Hf).
Qed.

Lemma ok_closes f id : shared_ok f → sh_closing f !! id = Some CConnection → shared_ok (once_closes id f).
Proof.
  intros Hf Hcl. apply (ok_update f id cancel) in Hf; [|intros k; by split; [apply quiet_cancel|]].
  destruct (so_members _ Hf) as [Hm Hx]. apply (ok_quiet (update id cancel f)); try done.
  - apply calm_refl.
  - split.
    + intros i Hi. destruct (Hm i Hi) as (k & Hk & Hs). exists k. split; [done|].
      destruct Hs as [? | [? [c Hc]]]; [by left|right]. split; [done|]. exists c. cbn. rewrite lookup_delete_ne; [done|].
      intros ->. cbn in Hc. congruence.
    + intros i x. cbn. intros [_ Hi]%lookup_delete_Some. by apply (Hx i x).
  - apply (so_order _ Hf).
Qed.

(** One connection is new, or has been given its baseline. *)
Lemma ok_insert f f' id k' :
  shared_ok f → id ∉ streams (sh_reg f) → sh_closing f !! id = None →
  sh_cache f' = sh_cache f → queueSize (sh_reg f') = queueSize (sh_reg f) → sh_closing f' = sh_closing f →
  conns (sh_reg f') = <[id := k']> (conns (sh_reg f)) →
  (∀ i, i ≠ id → i ∈ streams (sh_reg f') → i ∈ streams (sh_reg f)) →
  (id ∈ streams (sh_reg f') → c_stream k' = StreamOpen) →
  (c_writing k' = true → c_stream k' = StreamOpen → id ∈ streams (sh_reg f') →
     let c := view (sh_pub f') (sh_cache f) id in feed (enqueued k') (generation c, nodes c)) →
  (c_stream k' = NoStream → enqueued k' = []) → feed_prefix (enqueued k') →
  (length (c_queue k') ≤ queueSize (sh_reg f))%nat →
  (∀ i, i ≠ id → i ∈ streams (sh_reg f) → view (sh_pub f') (sh_cache f) i = view (sh_pub f) (sh_cache f) i) →
  phase_ok (sh_pub f') (sh_cache f) (sh_reg f') → order_ok f' → shared_ok f'.
Proof.
  intros [Hc Ht Hb [Hm Hx] Hl Hn Hp Hph Ho] Hid Hcl Hcache Hq Hclosing Hcs Hs Hopen Hlive Hnone Hpast Hlen Hview Hph' Ho'.
  assert (∀ i k, conns (sh_reg f') !! i = Some k → i = id ∧ k = k' ∨ i ≠ id ∧ conns (sh_reg f) !! i = Some k) as Hcase.
  { intros i k. rewrite Hcs, lookup_insert_Some. naive_solver. }
  split; rewrite ?Hcache, ?Hq; try done.
  - intros i k Hk. destruct (Hcase i k Hk) as [[-> ->] | [_ H]]; [done|by apply (Hb i)].
  - split.
    + intros i Hi. rewrite Hcs. destruct (decide (i = id)) as [->|Hne].
      * exists k'. rewrite lookup_insert_eq. auto.
      * rewrite lookup_insert_ne by done. rewrite Hclosing. by apply Hm, Hs.
    + intros i x. rewrite Hclosing. intros Hi. rewrite Hcs, lookup_insert_ne by congruence. by apply (Hx i x).
  - intros i k Hi [Hk Hst] Hw. destruct (Hcase i k Hk) as [[-> ->] | [Hne H]]; [by apply Hlive|].
    rewrite Hview by auto. apply (Hl i k); [by apply Hs|by split|done].
  - intros i k Hk. destruct (Hcase i k Hk) as [[-> ->] | [_ H]]; [done|by apply (Hn i)].
  - intros i k Hk. destruct (Hcase i k Hk) as [[-> ->] | [_ H]]; [done|by apply (Hp i)].
Qed.

(** A connection without a stream is no business of the registry. *)
Lemma fresh_outside f id : shared_ok f → fresh (sh_reg f) id ∨ conns (sh_reg f) !! id = None →
  id ∉ streams (sh_reg f) ∧ sh_closing f !! id = None.
Proof.
  intros Hf Hid. destruct (so_members _ Hf) as [Hm Hx]. split.
  - intros Hs. destruct (Hm id Hs) as (k & Hk & Hst). destruct Hid as [(k' & Hk' & ?)|?]; [|congruence].
    rewrite Hk in Hk'. injection Hk' as <-. destruct Hst as [?|[? _]]; congruence.
  - destruct (sh_closing f !! id) as [x|] eqn:Hcl; [|done]. destruct (Hx id x Hcl) as (k & Hk & Hst).
    destruct Hid as [(k' & Hk' & ?)|?]; congruence.
Qed.

(** The phase, after a new connection. *)
Lemma phase_accept p c r id : conns r !! id = None → phase_ok p c r → phase_ok p c (set_conns <[id := new_conn]> r).
Proof.
  intros Hid. apply phase_mono; [done|done| |]; intros i (k & Hk & Hst); exists k; cbn; by rewrite lookup_insert_ne by congruence.
Qed.

Lemma ok_accept f id : shared_ok f → conns (sh_reg f) !! id = None → shared_ok (set_reg (set_conns <[id := new_conn]>) f).
Proof.
  intros Hf Hid. destruct (fresh_outside f id Hf) as [Hs Hcl]; [by right|].
  apply (ok_insert f _ id new_conn); try done; cbn; [by left|lia| |apply (so_order _ Hf)].
  apply phase_accept; [done|apply (so_phase _ Hf)].
Qed.

(** The connection that registers. *)
Lemma phase_baseline f id env k :
  shared_ok f → sh_pub f = PBaseline id env → conns (sh_reg f) !! id = Some k →
  c_stream k = NoStream ∧ id ∉ streams (sh_reg f) ∧ sh_closing f !! id = None ∧ enqueued k = [] ∧
  (length (c_queue k) ≤ queueSize (sh_reg f))%nat ∧
  Type_ env = MessageEvent ∧ feed [env] (generation (sh_cache f), nodes (sh_cache f)).
Proof.
  intros Hf Hp Hk. pose proof (so_phase _ Hf) as Hph. rewrite Hp in Hph. destruct Hph as (Hfr & Hty & o & Ho & Hm).
  destruct (fresh_outside f id Hf) as [Hs Hcl]; [by left|]. destruct Hfr as (k' & Hk' & Hst).
  rewrite Hk in Hk'. injection Hk' as <-.
  split_and!; try done; [by apply (so_none _ Hf id)|by apply (so_bound _ Hf id)|].
  apply (feed_snapshot o); [done|apply (so_cache _ Hf)|done|done].
Qed.

Lemma enqueue_cases size pick m k ok k' : stream_enqueue size pick m k = (ok, k') →
  if (ok : bool) then c_stream k = StreamOpen ∧ k' = push m k ∧ (length (c_queue k) < size)%nat else k' = k.
Proof.
  unfold stream_enqueue, server_enqueue. destruct (c_stream k); try (by intros [= <- <-]).
  destruct (c_ctx k && _); [by intros [= <- <-]|].
  destruct (length (c_queue k) <? size)%nat eqn:Hr; intros [= <- <-]; [|done]. by apply Nat.ltb_lt in Hr.
Qed.

Lemma order_locks f f' :
  sh_log f' = sh_log f → sh_listed f' = sh_listed f → sh_refresh f' = sh_refresh f →
  match sh_pub f with PFree | PSnapshot _ | PBaseline _ _ | PAbandon _ => True | _ => False end →
  match sh_pub f' with PFree | PSnapshot _ | PBaseline _ _ | PAbandon _ => True | _ => False end →
  order_ok f → order_ok f'.
Proof.
  intros H1 H2 H3 Hp Hp' (Ho1 & Ho2 & Ho3 & Ho4). unfold order_ok. rewrite H1, H2, H3. split_and!; try done.
  by destruct (sh_pub f), (sh_pub f').
Qed.

Lemma ok_register f id env pick k k' :
  shared_ok f → sh_pub f = PBaseline id env → conns (sh_reg f) !! id = Some k →
  stream_enqueue (queueSize (sh_reg f)) pick env (set_stream StreamOpen k) = (true, k') →
  shared_ok (set_pub PFree (set_reg (λ r, set_streams ({[id]} ∪.) (set_conns <[id := k']> r)) f)).
Proof.
  intros Hf Hp Hk He. destruct (phase_baseline f id env k Hf Hp Hk) as (Hst & Hs & Hcl & Hnil & Hlen & Hty & Hfeed).
  apply enqueue_cases in He as (_ & -> & Hroom).
  assert (enqueued (push env (set_stream StreamOpen k)) = if c_writing k then [env] else []) as Henq.
  { destruct (c_writing k) eqn:Hw; [rewrite enqueued_push by done|rewrite enqueued_dead by done];
      change (enqueued (set_stream StreamOpen k)) with (enqueued k); by rewrite Hnil. }
  apply (ok_insert f _ id (push env (set_stream StreamOpen k))); try done; cbn -[push enqueued]; try done.
  - set_solver.
  - intros Hw _ _. change (c_writing k = true) in Hw. rewrite Henq, Hw. exact Hfeed.
  - rewrite Henq. destruct (c_writing k); [right; by eexists|by left].
  - cbn. rewrite length_app. cbn in *. lia.
  - intros i _ _. by rewrite Hp.
  - eapply order_locks, (so_order _ Hf); rewrite ?Hp; done.
Qed.

Lemma ok_register_fails f id env pick k k' :
  shared_ok f → sh_pub f = PBaseline id env → conns (sh_reg f) !! id = Some k →
  stream_enqueue (queueSize (sh_reg f)) pick env (set_stream StreamOpen k) = (false, k') →
  shared_ok (set_pub (PAbandon id) (set_reg (set_conns <[id := k']>) f)).
Proof.
  intros Hf Hp Hk He. destruct (phase_baseline f id env k Hf Hp Hk) as (Hst & Hs & Hcl & Hnil & Hlen & _).
  apply enqueue_cases in He as ->.
  apply (ok_insert f _ id (set_stream StreamOpen k)); try done; cbn; try done.
  - left. exact Hnil.
  - intros i _ _. by rewrite Hp.
  - split; [done|]. exists (set_stream StreamOpen k). cbn. by rewrite lookup_insert_eq.
  - eapply order_locks, (so_order _ Hf); rewrite ?Hp; done.
Qed.

Lemma ok_snapshot f o now id env r :
  shared_ok f → sh_pub f = PSnapshot id → fair o →
  snapshotEnvelope now (cache_Snapshot o (sh_cache f)) (sh_reg f) = Some (env, r) →
  shared_ok (set_pub (PBaseline id env) (set_reg (λ _, r) f)).
Proof.
  intros Hf Hp Ho He. unfold snapshotEnvelope, event_envelope in He.
  destruct (marshal_snapshot _) as [p|] eqn:Hm; [|done]. cbn in He. injection He as <- <-.
  pose proof (so_phase _ Hf) as Hph. rewrite Hp in Hph. apply (ok_calm f); try done; cbn.
  - split_and!; try done. intros i k Hk. exists k. split_and!; [done|apply quiet_refl|by left].
  - apply (so_members _ Hf).
  - split_and!; try done. by exists o.
  - eapply order_locks, (so_order _ Hf); rewrite ?Hp; done.
  - intros i _. by rewrite Hp.
Qed.

Lemma ok_commit f o1 o2 o3 ns :
  shared_ok f → sh_pub f = PCommit ns → fair o1 → fair o2 → fair o3 →
  shared_ok (commit (replaceSnapshot o1 o2 o3 ns (sh_cache f)) f).
Proof.
  intros Hf Hp H1 H2 H3. pose proof Hf as [Hc Ht Hb Hm Hl Hn Hpast Hph (Ho1 & Ho2 & Ho3 & Ho4)]. rewrite Hp in Hph, Ho4.
  destruct Hph as [Hns Hg]. destruct Ho4 as [Href Hlt].
  destruct (replaceSnapshot o1 o2 o3 ns (sh_cache f)) as [[b changed] c'] eqn:Hr.
  pose proof (replaceSnapshot_ok o1 o2 o3 ns _ H1 H2 H3 Hc) as Hc'. rewrite Hr in Hc'. cbn in Hc'.
  destruct (commit_times o1 o2 o3 ns _ b changed c' H1 H2 H3 Hc Hns Ht Hr) as [Ht' Htb].
  assert (changed = false → c' = sh_cache f) as Hsame.
  { intros ->. revert Hr. unfold replaceSnapshot. case_bool_decide; by intros [= _ <-]. }
  assert (order_ok (commit (b, changed, c') f)) as Ho.
  { unfold order_ok, commit. cbn. split_and!.
    - clear -Ho1 Hlt. induction Ho1 as [|t l Hs IH Hall]; cbn; [by repeat constructor|]. apply Forall_cons in Hlt as [? ?].
      constructor; [by apply IH|]. apply Forall_app. split; [done|by repeat constructor].
    - apply Forall_app. split; [done|by repeat constructor].
    - by destruct changed.
    - by destruct changed. }
  split; try done.
  - intros id k Hid Hk Hw. specialize (Hl id k Hid Hk Hw). rewrite Hp in Hl. destruct changed; cbn; [done|].
    by rewrite (Hsame eq_refl).
  - cbn. destruct changed; [|done].
    destruct (commit_valid o1 o2 o3 ns _ b c' H1 H2 H3 Hc Hg Hr) as [Hv Hg'].
    destruct (replaceSnapshot_commit o1 o2 o3 ns _ b c' H1 H2 H3 Hc Hr) as (_ & _ & _ & Hbg & _ & _ & _ & Ha).
    split; [done|by apply marshal_batch_some|lia|done].
Qed.

Lemma order_writing f f' :
  sh_log f' = sh_log f → sh_listed f' = sh_listed f → sh_refresh f' = sh_refresh f →
  match sh_pub f with PPublish _ _ | PLoop _ _ _ _ _ | PClosing _ => True | _ => False end →
  match sh_pub f' with PPublish _ _ | PLoop _ _ _ _ _ | PClosing _ => True | _ => False end →
  order_ok f → order_ok f'.
Proof.
  intros H1 H2 H3 Hp Hp' (Ho1 & Ho2 & Ho3 & Ho4). unfold order_ok. rewrite H1, H2, H3. split_and!; try done.
  by destruct (sh_pub f), (sh_pub f').
Qed.

Lemma ok_publish f before b now env r todo :
  shared_ok f → sh_pub f = PPublish before b → eventEnvelope now b (sh_reg f) = Some (env, r) →
  todo ≡ₚ elements (streams r) → shared_ok (set_pub (PLoop before b env todo []) (set_reg (λ _, r) f)).
Proof.
  intros Hf Hp He Htodo. apply eventEnvelope_Some in He as (Hpay & Hty & Hq & Hst & Hcs). rewrite Hst in Htodo.
  assert (∀ id, id ∈ todo ↔ id ∈ streams (sh_reg f)) as Hin by (intros id; by rewrite Htodo, elem_of_elements).
  pose proof (so_phase _ Hf) as Hph. rewrite Hp in Hph. apply (ok_calm f); try done; cbn.
  - split_and!; try done; [by rewrite Hst| |by rewrite Hcs]. intros i k. rewrite Hcs. intros Hk. exists k.
    split_and!; [done|apply quiet_refl|by left].
  - unfold members_ok. rewrite Hst, Hcs. apply (so_members _ Hf).
  - split_and!; try done; [rewrite Htodo; apply NoDup_elements|]. apply Forall_forall. intros id. rewrite Hst. apply Hin.
  - eapply order_writing, (so_order _ Hf); rewrite ?Hp; done.
  - intros id Hid. rewrite Hst in Hid. rewrite Hp. cbn. by rewrite bool_decide_true by by apply Hin.
Qed.

Lemma members_frame r r' cl :
  streams r' ⊆ streams r → (∀ id k, conns r !! id = Some k → ∃ k', conns r' !! id = Some k' ∧ c_stream k' = c_stream k) →
  members_ok r cl → members_ok r' cl.
Proof.
  intros Hs Hc [Hm Hx]. split.
  - intros id Hid%Hs. destruct (Hm id Hid) as (k & Hk & H). destruct (Hc id k Hk) as (k' & ? & Hst). exists k'. by rewrite Hst.
  - intros id x Hid. destruct (Hx id x Hid) as (k & Hk & H). destruct (Hc id k Hk) as (k' & ? & Hst). exists k'. by rewrite Hst.
Qed.

Lemma ok_offer f before b env id todo slow pick r slow' :
  shared_ok f → sh_pub f = PLoop before b env (id :: todo) slow → offer pick env (sh_reg f, slow) id = (r, slow') →
  shared_ok (set_pub (PLoop before b env todo slow') (set_reg (λ _, r) f)).
Proof.
  intros Hf Hp He. pose proof Hf as [Hc Ht Hb Hm Hl Hn Hpast Hph Ho]. rewrite Hp in Hl, Hph.
  destruct Hph as (Hleads & Hty & Hpay & [Hnotin Hnd]%NoDup_cons & [Hid Hin]%Forall_cons & Hslow).
  destruct Hm as [Hm Hx]. destruct (Hm id Hid) as (k & Hk & Hst). unfold offer in He. rewrite Hk in He.
  destruct (stream_enqueue (queueSize (sh_reg f)) (pick id) env k) as [ok k'] eqn:Henq. apply enqueue_cases in Henq.
  assert (∀ i, i ≠ id → view (PLoop before b env todo slow') (sh_cache f) i = view (PLoop before b env (id :: todo) slow) (sh_cache f) i) as Hview.
  { intros i Hi. cbn. repeat case_bool_decide; set_solver. }
  assert (∀ i x, <[id := k']> (conns (sh_reg f)) !! i = Some x →
    i = id ∧ x = k' ∨ i ≠ id ∧ conns (sh_reg f) !! i = Some x) as Hcase.
  { intros i x. rewrite lookup_insert_Some. naive_solver. }
  destruct ok.
  - destruct Henq as (Hopen & -> & Hroom). injection He as <- <-.
    assert (c_writing k = true → feed (enqueued k ++ [env]) (generation (sh_cache f), nodes (sh_cache f))) as Hfeed.
    { intros Hw. destruct Hleads as [_ _ [Hg1 Hg2] Ha]. rewrite Hg2, <-Ha.
      specialize (Hl id k Hid (conj Hk Hopen) Hw). cbn in Hl. rewrite bool_decide_true in Hl by by left.
      by eapply feed_changes. }
    assert (∀ i x, conns (sh_reg f) !! i = Some x → ∃ x', <[id := push env k]> (conns (sh_reg f)) !! i = Some x' ∧ c_stream x' = c_stream x) as Hsame.
    { intros i x Hi. destruct (decide (i = id)) as [->|Hne]; [|exists x; by rewrite lookup_insert_ne].
      rewrite lookup_insert_eq. eexists. split; [done|]. rewrite Hk in Hi. by injection Hi as <-. }
    split; cbn -[push enqueued view]; try done.
    + intros i x Hi. destruct (Hcase i x Hi) as [[-> ->]|[_ H]]; [|by apply (Hb i)]. cbn. rewrite length_app. cbn. lia.
    + by eapply members_frame, (conj Hm Hx).
    + intros i x Hi [Hix Hs] Hw. cbn -[push] in Hix. destruct (Hcase i x Hix) as [[-> ->]|[Hne H]].
      * change (c_writing k = true) in Hw. rewrite enqueued_push by done. cbn. rewrite bool_decide_false by done. by apply Hfeed.
      * rewrite Hview by done. by apply (Hl i x).
    + intros i x Hix Hs. destruct (Hcase i x Hix) as [[-> ->]|[Hne H]]; [cbn in Hs; congruence|by apply (Hn i)].
    + intros i x Hix. destruct (Hcase i x Hix) as [[-> ->]|[Hne H]]; [|by apply (Hpast i)].
      destruct (c_writing k) eqn:Hw; [rewrite enqueued_push by done|rewrite enqueued_dead by done; by apply (Hpast id)].
      right. eexists. by apply Hfeed.
    + split_and!; try done. eapply Forall_impl; [exact Hslow|]. intros i [Hi (x & Hix & Hs)]. split; [done|].
      destruct (Hsame i x Hix) as (x' & Hx' & Hs'). exists x'. by rewrite Hs'.
    + eapply order_writing, Ho; rewrite ?Hp; done.
  - subst k'. injection He as <- <-. rewrite insert_id in Hcase by done.
    apply (ok_calm f); try done; cbn -[view].
    + split_and!; cbn; rewrite ?insert_id by done; [done|set_solver| |done]. intros i x Hi. exists x.
      split_and!; [done|apply quiet_refl|by left].
    + eapply members_frame, (conj Hm Hx); cbn; [set_solver|]. rewrite insert_id by done. by eauto.
    + split_and!; try done.
      * apply Forall_forall. intros i Hi. rewrite Forall_forall in Hin. cbn. specialize (Hin i Hi). set_solver.
      * apply Forall_app. split; [|repeat constructor]; cbn; rewrite ?insert_id by done.
        -- eapply Forall_impl; [exact Hslow|]. intros i [Hi Hkn]. split; [set_solver|]. cbn. unfold known. cbn. by rewrite insert_id.
        -- set_solver.
        -- exists k. cbn. rewrite lookup_insert_eq. split; [done|]. destruct Hst as [?|[? _]]; congruence.
    + eapply order_writing, Ho; rewrite ?Hp; done.
    + intros i [Hi Hne]%elem_of_difference. rewrite Hp. apply Hview. set_solver.
Qed.

Lemma leads_published before b c now r : leads before b c → valid_batch b ≠ false ∧ eventEnvelope now b r ≠ None.
Proof.
  intros [Hv [p Hp] _ _]. split; [congruence|]. unfold eventEnvelope, event_envelope. by rewrite Hp.
Qed.

Lemma inner_ok f f' : inner_step f f' → shared_ok f → shared_ok f'.
Proof.
  intros Hs Hf. pose proof (so_phase _ Hf) as Hph. pose proof (so_order _ Hf) as (Ho1 & Ho2 & Ho3 & Ho4).
  destruct Hs as [o1 o2 o3 ns Hp|before b now Hp He|before b now env r todo Hp Hv He Ht
    |before b env id todo slow pick r slow' Hp He|before b env slow Hp|id k Hp Hk|id slow Hp Hd|Hp
    |o now id env r Hp Ho He|o now id Hp Ho He|id env pick k k' Hp Hk He|id env pick k k' Hp Hk He|id Hp Hd
    |id closes Hx Hl|id Hx]; try rewrite Hp in Hph, Ho4.
  - by apply ok_commit.
  - destruct (leads_published _ _ _ now (sh_reg f) Hph). naive_solver.
  - by apply (ok_publish f before b now).
  - by apply (ok_offer f before b env id todo slow pick).
  - apply (ok_locks f (PClosing slow) (sh_refresh f) (sh_listed f) Hf); [apply Hph| |by unfold order_ok; cbn; split_and!].
    intros id _. by rewrite Hp.
  - by apply (ok_begins f id k).
  - apply (ok_locks f (PClosing slow) (sh_refresh f) (sh_listed f) Hf); [exact (Forall_inv_tail Hph)| |by unfold order_ok; cbn; split_and!].
    intros i _. by rewrite Hp.
  - apply (ok_locks f PFree RIdle (sh_listed f) Hf); [done| |by unfold order_ok; cbn; split_and!]. intros i _. by rewrite Hp.
  - by apply (ok_snapshot f o now).
  - apply (ok_update f id cancel) in Hf; [|intros k; by split; [apply quiet_cancel|]].
    apply (ok_locks _ PFree (sh_refresh f) (sh_listed f) Hf); [done| |by unfold order_ok; cbn; split_and!].
    intros i _. cbn. by rewrite Hp.
  - by apply (ok_register f id env pick k).
  - by apply (ok_register_fails f id env pick k).
  - apply (ok_locks f PFree (sh_refresh f) (sh_listed f) Hf); [done| |by unfold order_ok; cbn; split_and!]. intros i _. by rewrite Hp.
  - by apply ok_unregisters.
  - by apply ok_closes.
Qed.

Lemma outer_ok f f' : outer_step f f' → shared_ok f → shared_ok f'.
Proof.
  intros Hs Hf. pose proof (so_phase _ Hf) as Hph. pose proof (so_order _ Hf) as (Ho1 & Ho2 & Ho3 & Ho4).
  destruct Hs as [id Hid|id m pick Hm|id written|id|id k closes Hk|Hl|id k Hp Hk Hst|Hr|Hr|ns Hr Hp Hv Ht Hg];
    try rewrite Hp in Hph, Ho4.
  - by apply ok_accept.
  - apply ok_update; [done|]. intros k. by apply quiet_enqueue.
  - apply ok_update; [done|]. intros k. apply quiet_write.
  - apply ok_update; [done|]. intros k. by split; [apply quiet_cancel|].
  - by apply (ok_begins f id k).
  - apply (ok_quiet f); try done.
    + split_and!; try done. intros i k Hk. exists k. split_and!; [done|apply quiet_refl|by left].
    + congruence.
    + eapply (members_frame (sh_reg f)), (so_members _ Hf); [done|]. cbn. eauto.
  - apply (ok_locks f (PSnapshot id) (sh_refresh f) (sh_listed f) Hf); [by exists k| |by unfold order_ok; cbn; split_and!].
    intros i _. by rewrite Hp.
  - apply (ok_locks f (sh_pub f) RListing (S (sh_listed f)) Hf); [done|done|]. rewrite Hr in Ho4.
    unfold order_ok; cbn; split_and!; try done; [|intros _|]; try (eapply Forall_impl; [exact Ho2|]; cbn; lia).
    destruct (sh_pub f); try done; destruct Ho4; done.
  - apply (ok_locks f (sh_pub f) RIdle (sh_listed f) Hf); [done|done|]. rewrite Hr in Ho4.
    unfold order_ok; cbn; split_and!; try done.
    destruct (sh_pub f); try done; destruct Ho4; done.
  - apply (ok_locks f (PCommit ns) RWriting (sh_listed f) Hf); [done| |unfold order_ok; cbn; split_and!; auto]. intros i _. by rewrite Hp.
Qed.

Lemma start_ok size : shared_ok (start size).
Proof.
  split; [apply NewNodeCache_ok|apply map_Forall_empty| | | | | | |].
  all: try (intros; cbn in *; done).
  repeat (split; [by constructor|]). done.
Qed.

Lemma interleaving_ok size f : reachable size f → shared_ok f.
Proof.
  intros Hf. refine (rtc_invariant _ _ _ _ _ Hf (start_ok size)). intros f1 f2 [Hs|Hs] H; [by eapply inner_ok|by eapply outer_ok].
Qed.

Definition publishing (p : phase) : bool := match p with PPublish _ _ | PLoop _ _ _ _ _ => true | _ => false end.

Lemma view_cases p c r id : phase_ok p c r →
  view p c id = c ∨ publishing p = true ∧ generation c = generation (view p c id) + 1.
Proof.
  destruct p; cbn; auto.
  - intros [_ _ [H1 H2] _]. right. split; [done|lia].
  - intros ([_ _ [H1 H2] _] & _). case_bool_decide; [right; split; [done|lia]|by left].
Qed.

(** C13. The continuity of the feeds at the grain of the locks. Between any two
    critical sections, turns of the loop of [Publish] included: what a connection
    was sent is a snapshot followed by batches of consecutive generations, each
    of which a reader can apply; a reader that gets everything enqueued for a
    stream that is open and registered is at the generation and the nodes of the
    cache, or, while a commit is being published that has not come to this stream,
    at those one generation before; no queue exceeds its capacity; a stream that
    is closed and whose [sync.Once] has returned is no longer registered; and
    commits happen in the order in which their listings began. *)
Theorem feed_continuity_between_locks size f : reachable size f →
  (∀ id k, conns (sh_reg f) !! id = Some k → feed_prefix (events_of (c_sent k))) ∧
  (∀ id k, id ∈ streams (sh_reg f) → opened id k f → c_writing k = true →
     ∃ c, feed (events_of (c_sent k ++ c_queue k)) (generation c, nodes c) ∧
     (c = sh_cache f ∨ publishing (sh_pub f) = true ∧ generation (sh_cache f) = generation c + 1)) ∧
  (∀ id k, conns (sh_reg f) !! id = Some k → (length (c_queue k) ≤ queueSize (sh_reg f))%nat) ∧
  (∀ id, once_done id f → id ∉ streams (sh_reg f)) ∧
  StronglySorted lt (sh_log f).
Proof.
  intros [Hc Ht Hb [Hm Hx] Hl Hn Hp Hph Ho]%interleaving_ok. split_and!; try done.
  - intros id k Hk. specialize (Hp id k Hk). destruct (sent_enqueued k) as [es He]. rewrite He in Hp.
    by apply feed_prefix_app in Hp.
  - intros id k Hid Hk Hw. specialize (Hl id k Hid Hk Hw). unfold enqueued in Hl. rewrite Hw in Hl.
    eexists. split; [exact Hl|]. by eapply view_cases.
  - intros id [Hcl Hst] Hid. destruct (Hm id Hid) as (k & Hk & [H|[_ [closes H]]]); [by apply (Hst k)|congruence].
  - apply Ho.
Qed.

(** ** The locks are released *)

(** What a [sync.Once] and the holder of [publicationMu] have left to do. *)
Definition closing_work (x : closing) : nat := match x with CUnregister true => 2 | _ => 1 end.
Definition closings_work (m : gmap nat closing) : nat := map_fold (λ _ x n, closing_work x + n)%nat 0%nat m.
Definition stream_work (r : registry) (id : nat) : nat :=
  match conns r !! id with Some k => match c_stream k with StreamOpen => 4 | _ => 1 end | None => 1 end.
Definition slow_work (r : registry) (l : list nat) : nat := foldr (λ id n, stream_work r id + n)%nat 0%nat l.
Definition phase_work (p : phase) (r : registry) : nat :=
  match p with
  | PFree => 0
  | PCommit _ => 4 + 5 * size (streams r)
  | PPublish _ _ => 3 + 5 * size (streams r)
  | PLoop _ _ _ todo slow => 2 + 5 * length todo + slow_work r slow
  | PClosing slow => 1 + slow_work r slow
  | PSnapshot _ => 7
  | PBaseline _ _ => 6
  | PAbandon id => 1 + stream_work r id
  end.
Definition work (f : shared) : nat := closings_work (sh_closing f) + phase_work (sh_pub f) (sh_reg f).

Lemma closings_insert m id x : m !! id = None → closings_work (<[id := x]> m) = (closing_work x + closings_work m)%nat.
Proof. intros H. unfold closings_work. rewrite map_fold_insert_L; [done| |done]. intros. lia. Qed.
Lemma closings_delete m id x : m !! id = Some x → closings_work m = (closing_work x + closings_work (delete id m))%nat.
Proof. intros H. rewrite <-(insert_delete_id m id x H) at 1. apply closings_insert, lookup_delete_eq. Qed.

Lemma slow_mono r r' l : (∀ id, stream_work r' id ≤ stream_work r id)%nat → (slow_work r' l ≤ slow_work r l)%nat.
Proof. intros H. unfold slow_work. induction l as [|i l IH]; cbn; [lia|]. specialize (H i). lia. Qed.

Lemma stream_work_bounds r id : (1 ≤ stream_work r id ≤ 4)%nat.
Proof. unfold stream_work. destruct (conns r !! id) as [k|]; [destruct (c_stream k)|]; lia. Qed.

(** Connections keep their streams, or close them, and streams leave. *)
Definition wanes (r r' : registry) : Prop :=
  (∀ id, stream_work r' id ≤ stream_work r id)%nat ∧ streams r' ⊆ streams r.

Lemma phase_wanes p r r' : wanes r r' → (phase_work p r' ≤ phase_work p r)%nat.
Proof.
  intros [Hw Hs]. pose proof (subseteq_size _ _ Hs). destruct p as [| | |? ? ? ? slow|slow| | |id]; cbn; try lia.
  - pose proof (slow_mono r r' slow Hw). lia.
  - pose proof (slow_mono r r' slow Hw). lia.
  - specialize (Hw id). lia.
Qed.

Lemma wanes_alter r id g :
  (∀ k, c_stream (g k) = c_stream k ∨ c_stream (g k) = StreamClosed) → wanes r (set_conns (alter g id) r).
Proof.
  intros Hg. split; [|done]. intros i. unfold stream_work. cbn. rewrite lookup_alter. case_decide as Hi; [subst|done].
  destruct (conns r !! i) as [k|]; [|done]. cbn. destruct (Hg k) as [-> | ->]; [done|]. destruct (c_stream k); lia.
Qed.

Lemma slow_app r l id : slow_work r (l ++ [id]) = (slow_work r l + stream_work r id)%nat.
Proof. unfold slow_work. induction l as [|i l IH]; cbn; [lia|]. rewrite IH. lia. Qed.

Lemma enqueue_stream size pick m k : c_stream (stream_enqueue size pick m k).2 = c_stream k.
Proof. apply stream_enqueue_state. Qed.

Lemma offer_work pick env r slow id r' slow' : offer pick env (r, slow) id = (r', slow') →
  (slow_work r' slow' ≤ slow_work r slow + 4)%nat.
Proof.
  unfold offer. destruct (conns r !! id) as [k|] eqn:Hk; [|intros [= <- <-]; lia].
  destruct (stream_enqueue _ _ _ _) as [ok k'] eqn:He.
  assert (c_stream k' = c_stream k) as Hst by (pose proof (enqueue_stream (queueSize r) (pick id) env k) as H; by rewrite He in H).
  assert (∀ g, slow_work (set_streams g (set_conns <[id := k']> r)) slow ≤ slow_work r slow)%nat as Hle.
  { intros g. apply slow_mono. intros i. unfold stream_work. cbn. destruct (decide (i = id)) as [->|Hne].
    - rewrite lookup_insert_eq, Hk, Hst. done.
    - by rewrite lookup_insert_ne. }
  destruct ok; intros [= <- <-].
  - specialize (Hle (λ s, s)). unfold slow_work, stream_work in *. cbn in *. lia.
  - unfold Unregister. rewrite slow_app. specialize (Hle (.∖ {[id]})).
    pose proof (stream_work_bounds (set_streams (.∖ {[id]}) (set_conns <[id := k']> r)) id). lia.
Qed.

(** Closing a stream that is in the way leaves less to do. *)
Lemma begins_work f id k : shared_ok f → to_close (sh_pub f) = Some id → opened id k f →
  (work (once_begins id true f) < work f)%nat.
Proof.
  intros Hf Hp [Hk Hst]. unfold work, once_begins. cbn [sh_closing sh_pub sh_reg set_closing update set_reg].
  assert (sh_closing f !! id = None) as Hcl.
  { destruct (sh_closing f !! id) as [x|] eqn:Hx; [|done]. destruct (so_members _ Hf) as [_ Hm].
    destruct (Hm id x Hx) as (k' & ? & ?). congruence. }
  rewrite closings_insert by done. cbn [closing_work].
  set (r' := set_conns (alter (set_stream StreamClosed) id) (sh_reg f)).
  assert (stream_work (sh_reg f) id = 4 ∧ stream_work r' id = 1)%nat as [H4 H1].
  { unfold stream_work, r'. cbn. by rewrite lookup_alter_eq, Hk, Hst. }
  assert (wanes (sh_reg f) r') as [Hw _] by (apply wanes_alter; by right).
  destruct (sh_pub f); try done; cbn in Hp |- *.
  - destruct slow as [|i slow]; [done|]. injection Hp as ->. cbn. pose proof (slow_mono _ _ slow Hw).
    unfold slow_work in *. lia.
  - injection Hp as ->. lia.
Qed.

Lemma inner_work f f' : shared_ok f → inner_step f f' → (work f' < work f)%nat.
Proof.
  intros Hf Hs. destruct Hs as [o1 o2 o3 ns Hp|before b now Hp He|before b now env r todo Hp Hv He Ht
    |before b env id todo slow pick r slow' Hp He|before b env slow Hp|id k Hp Hk|id slow Hp Hd|Hp
    |o now id env r Hp Ho He|o now id Hp Ho He|id env pick k k' Hp Hk He|id env pick k k' Hp Hk He|id Hp Hd
    |id closes Hx Hl|id Hx]; try (unfold work; rewrite Hp); cbn -[closings_work].
  - destruct (replaceSnapshot _ _ _ _ _) as [[b []] c']; cbn; lia.
  - lia.
  - apply eventEnvelope_Some in He as (_ & _ & _ & Hst & _).
    assert (length todo = size (streams (sh_reg f))) as ->; [|lia].
    by rewrite Ht, Hst.
  - apply offer_work in He. lia.
  - lia.
  - by apply (begins_work f id k).
  - pose proof (stream_work_bounds (sh_reg f) id). unfold slow_work. cbn. lia.
  - lia.
  - lia.
  - lia.
  - lia.
  - pose proof (stream_work_bounds (set_conns <[id := k']> (sh_reg f)) id). lia.
  - pose proof (stream_work_bounds (sh_reg f) id). lia.
  - assert (wanes (sh_reg f) (Unregister id (sh_reg f))) as Hw by (split; [done|cbn; set_solver]).
    apply (phase_wanes (sh_pub f)) in Hw. unfold work. cbn -[Unregister]. destruct closes.
    + pose proof (closings_delete _ _ _ Hx) as Hd. rewrite <-insert_delete_eq, closings_insert by apply lookup_delete_eq.
      cbn in *. lia.
    + pose proof (closings_delete _ _ _ Hx) as Hd. cbn in *. lia.
  - assert (wanes (sh_reg f) (set_conns (alter cancel id) (sh_reg f))) as Hw by (apply wanes_alter; by left).
    apply (phase_wanes (sh_pub f)) in Hw. unfold work. cbn -[set_conns].
    pose proof (closings_delete _ _ _ Hx) as Hd. cbn in *. lia.
Qed.

(** A lock that is held has a holder that can go on. *)
Lemma inner_progress f : shared_ok f → (sh_pub f = PFree ∧ sh_closing f = ∅) ∨ ∃ f', inner_step f f'.
Proof.
  intros Hf. pose proof (so_phase _ Hf) as Hph.
  assert (∀ id, locked f = false → once_done id f ∨ (∃ k, opened id k f) ∨ ∃ f', inner_step f f') as Hclose.
  { intros id Hl. destruct (sh_closing f !! id) as [[closes|]|] eqn:Hcl.
    - right. right. eexists. by apply (i_unregister f id closes).
    - right. right. eexists. by apply (i_connection f id).
    - destruct (conns (sh_reg f) !! id) as [k|] eqn:Hk; [|left; split; [done|congruence]].
      destruct (decide (c_stream k = StreamOpen)) as [Hst|Hst]; [right; left; by exists k|].
      left. split; [done|]. intros k'. rewrite Hk. by intros [= <-]. }
  destruct (sh_pub f) as [|ns|before b|before b env todo slow|slow|id|id env|id] eqn:Hp.
  - destruct (map_choose_or_empty (sh_closing f)) as [(id & x & Hx)|He]; [|by left]. right.
    destruct (Hclose id) as [[H _]|[(k & Hk & Hst)|H]]; [unfold locked; by rewrite Hp|congruence| |done].
    destruct (so_members _ Hf) as [_ Hm]. destruct (Hm id x Hx) as (k' & ? & ?). congruence.
  - right. eexists. by apply (i_commit f map_to_list map_to_list map_to_list ns Hp); apply fair_map_to_list.
  - right. destruct (eventEnvelope 0 b (sh_reg f)) as [[env r]|] eqn:He.
    + eexists. by apply (i_publish f before b 0 env r (elements (streams r)) Hp); [apply Hph|..].
    + eexists. apply (i_rejected f before b 0 Hp). by right.
  - right. destruct todo as [|id todo]; [eexists; by eapply i_unlock|].
    destruct (offer (λ _, false) env (sh_reg f, slow) id) as [r slow'] eqn:He. eexists. by eapply i_offer.
  - right. destruct slow as [|id slow]; [eexists; by apply i_published|].
    destruct (Hclose id) as [Hd|[[k Hk]|H]]; [unfold locked; by rewrite Hp|..|done].
    + eexists. by eapply i_closed.
    + eexists. eapply (i_close f id k); [by rewrite Hp|done].
  - right. destruct (snapshotEnvelope 0 (cache_Snapshot map_to_list (sh_cache f)) (sh_reg f)) as [[env r]|] eqn:He.
    + eexists. by eapply i_snapshot; [done|apply fair_map_to_list|].
    + eexists. by eapply i_no_snapshot; [done|apply fair_map_to_list|].
  - right. destruct Hph as ((k & Hk & _) & _).
    destruct (stream_enqueue (queueSize (sh_reg f)) false env (set_stream StreamOpen k)) as [[] k'] eqn:He.
    + eexists. by eapply i_register.
    + eexists. by eapply i_register_fails.
  - right. destruct (Hclose id) as [Hd|[[k Hk]|H]]; [unfold locked; by rewrite Hp|..|done].
    + eexists. by eapply i_abandoned.
    + eexists. eapply (i_close f id k); [by rewrite Hp|done].
Qed.

Lemma inner_run f f' : rtc inner_step f f' → shared_ok f → shared_ok f'.
Proof. induction 1 as [|f1 f2 f3 Hs _ IH]; [done|]. intros H. apply IH. by eapply inner_ok. Qed.

Lemma inner_nsteps n f f' : nsteps inner_step n f f' → shared_ok f → (n + work f' ≤ work f)%nat.
Proof.
  induction 1 as [|n f1 f2 f3 Hs _ IH]; [lia|]. intros Hf. pose proof (inner_work _ _ Hf Hs).
  specialize (IH (inner_ok _ _ Hs Hf)). lia.
Qed.

Lemma inner_finishes n f : (work f ≤ n)%nat → shared_ok f →
  ∃ f', rtc inner_step f f' ∧ sh_pub f' = PFree ∧ sh_closing f' = ∅.
Proof.
  revert f. induction n as [n IH] using lt_wf_ind. intros f Hn Hf.
  destruct (inner_progress f Hf) as [[H1 H2]|[f1 Hs]]; [by exists f|]. pose proof (inner_work _ _ Hf Hs).
  destruct (IH (work f1) ltac:(lia) f1) as (f' & Hr & H1 & H2); [lia|by eapply inner_ok|].
  exists f'. split_and!; [by eapply rtc_l|done..].
Qed.

(** C14. No lock is held for ever. From every reachable state, what the holder of
    [publicationMu] and those inside a [sync.Once] still do is bounded, and they
    are never stuck: where nothing of theirs is left to do, the locks are free,
    every [Once] has returned and nobody is writing to the cache; and that
    state can be reached without the help of anybody else. *)
Theorem locks_are_released size f : reachable size f →
  (∀ n f', nsteps inner_step n f f' → (n ≤ work f)%nat) ∧
  (∀ f', rtc inner_step f f' → (∀ f2, ¬ inner_step f' f2) →
     sh_pub f' = PFree ∧ sh_closing f' = ∅ ∧ sh_refresh f' ≠ RWriting) ∧
  ∃ f', rtc inner_step f f' ∧ sh_pub f' = PFree ∧ sh_closing f' = ∅.
Proof.
  intros Hf%interleaving_ok. split_and!.
  - intros n f' Hs. pose proof (inner_nsteps _ _ _ Hs Hf). lia.
  - intros f' Hr Hstuck. pose proof (inner_run _ _ Hr Hf) as Hf'.
    destruct (inner_progress f' Hf') as [[H1 H2]|[f2 Hs]]; [|by destruct (Hstuck f2)].
    split_and!; try done. pose proof (so_order _ Hf') as (_ & _ & _ & Ho). by rewrite H1 in Ho.
  - by apply (inner_finishes (work f)).
Qed.

(** ** The steps of StreamHistory.v are runs *)

Lemma inner_run_step f f' : rtc inner_step f f' → rtc step f f'.
Proof. induction 1 as [|f1 f2 f3 Hs _ IH]; [done|]. eapply rtc_l; [by left|done]. Qed.

Definition after (closes : bool) : conn → conn := if closes then cancel else λ k, k.

(** Closing or unregistering a stream. *)
Lemma once_run f id closes : locked f = false → sh_closing f = ∅ → rtc step f (set_reg (once id (after closes)) f).
Proof.
  intros Hl Hcl. destruct f as [c r p ref cl n log]. unfold locked in Hl. cbn in Hl, Hcl. subst cl.
  unfold once, set_reg. cbn [sh_reg]. destruct (conns r !! id) as [k|] eqn:Hk; [|done].
  destruct (c_stream k) eqn:Hst; try done.
  eapply rtc_l; [right; by eapply (x_close _ id k closes)|].
  eapply rtc_l; [left; eapply (i_unregister _ id closes); [apply lookup_insert_eq|done]|].
  unfold once_unregisters, once_begins, update, set_closing, set_reg, Unregister, set_conns, set_streams.
  cbn -[lookup insert delete alter]. destruct closes.
  - eapply rtc_l; [left; eapply (i_connection _ id), lookup_insert_eq|].
    unfold once_closes, update, set_closing, set_reg, set_conns. cbn -[lookup insert delete alter].
    rewrite insert_insert_eq, delete_insert_eq, delete_empty.
    assert (alter cancel id (alter (set_stream StreamClosed) id (conns r)) = <[id := cancel (set_stream StreamClosed k)]> (conns r)) as ->; [|done].
    apply map_eq. intros i. destruct (decide (i = id)) as [->|Hne].
    + by rewrite lookup_insert_eq, !lookup_alter_eq, Hk.
    + by rewrite lookup_insert_ne, !lookup_alter_ne by done.
  - rewrite delete_insert_eq, delete_empty.
    assert (alter (set_stream StreamClosed) id (conns r) = <[id := set_stream StreamClosed k]> (conns r)) as ->; [|done].
    apply map_eq. intros i. destruct (decide (i = id)) as [->|Hne].
    + by rewrite lookup_insert_eq, lookup_alter_eq, Hk.
    + by rewrite lookup_insert_ne, lookup_alter_ne by done.
Qed.

Lemma once_not_open id g r : ∀ k, conns (once id g r) !! id = Some k → (∀ k, c_stream (g k) = c_stream k) → c_stream k ≠ StreamOpen.
Proof.
  intros k. unfold once. destruct (conns r !! id) as [k0|] eqn:Hk; [|congruence].
  destruct (c_stream k0) eqn:Hst; cbn; rewrite ?lookup_insert_eq, ?Hk; intros [= <-] Hg; rewrite ?Hg; cbn; congruence.
Qed.

Lemma closing_run f slow : sh_pub f = PClosing slow → sh_closing f = ∅ →
  rtc step f (set_refresh RIdle (set_pub PFree (set_reg (λ r, foldl (λ r id, stream_Close id r) r slow) f))).
Proof.
  revert f. induction slow as [|id slow IH]; intros f Hp Hcl.
  - destruct f as [c r p ref cl n log]. cbn in *. subst. apply rtc_once. left. by apply i_published.
  - etransitivity; [apply (once_run f id true); [unfold locked; by rewrite Hp|done]|].
    eapply rtc_l; [left; apply (i_closed _ id slow); [done|]|].
    { split; [by cbn; rewrite Hcl|]. intros k Hk. cbn in Hk. by eapply once_not_open. }
    apply (IH (set_pub (PClosing slow) (set_reg (stream_Close id) f))); done.
Qed.

Lemma loop_run before b env pick todo f slow r slow' :
  sh_pub f = PLoop before b env todo slow → foldl (offer pick env) (sh_reg f, slow) todo = (r, slow') →
  rtc inner_step f (set_pub (PClosing slow') (set_reg (λ _, r) f)).
Proof.
  revert f slow. induction todo as [|id todo IH]; intros f slow Hp He.
  - injection He as <- <-. apply rtc_once. destruct f as [c r p ref cl n log]. cbn in *. subst p. by eapply i_unlock.
  - cbn [foldl] in He. destruct (offer pick env (sh_reg f, slow) id) as [r1 slow1] eqn:Ho.
    eapply rtc_l; [by eapply i_offer|].
    apply (IH (set_pub (PLoop before b env todo slow1) (set_reg (λ _, r1) f)) slow1 eq_refl He).
Qed.

Lemma publish_run f before b now ids pick :
  sh_pub f = PPublish before b → sh_closing f = ∅ → ids ≡ₚ elements (streams (sh_reg f)) →
  rtc step f (set_refresh RIdle (set_pub PFree (set_reg (Publish now ids pick b) f))).
Proof.
  intros Hp Hcl Hids. unfold set_reg.
  assert (valid_batch b = false ∨ eventEnvelope now b (sh_reg f) = None ∨
    valid_batch b = true ∧ ∃ env r, eventEnvelope now b (sh_reg f) = Some (env, r)) as Hcases.
  { destruct (valid_batch b); [|by left]. right. destruct (eventEnvelope now b (sh_reg f)) as [[env r]|]; eauto. }
  destruct Hcases as [H|[H|(Hv & env & r & He)]].
  1, 2: rewrite Publish_skip by auto; eapply rtc_l; [left; eapply (i_rejected f before b now Hp); auto|];
    apply (closing_run (set_pub (PClosing []) f) []); done.
  pose proof (eventEnvelope_Some _ _ _ _ _ He) as (_ & _ & _ & Hst & _).
  eapply rtc_l; [left; apply (i_publish f before b now env r ids Hp Hv He); by rewrite Hst|].
  assert (Publish now ids pick b (sh_reg f)
    = let '(r2, slow) := foldl (offer pick env) (r, []) ids in foldl (λ r id, stream_Close id r) r2 slow) as ->.
  { unfold Publish. destruct (_ || _ || _ || _) eqn:Hg.
    - exfalso. revert Hv Hg. unfold valid_batch. by destruct (streq (b_Resource b) "node"), (streq (b_Event b) "changes"),
        (b_Generation b =? 0), (length (b_Changes b) =? 0)%nat.
    - by rewrite He. }
  destruct (foldl (offer pick env) (r, []) ids) as [r2 slow] eqn:Hf.
  etransitivity; [apply inner_run_step, (loop_run before b env pick ids (set_pub (PLoop before b env ids []) (set_reg (λ _, r) f)) [] r2 slow eq_refl Hf)|].
  apply (closing_run (set_pub (PClosing slow) (set_reg (λ _, r2) f)) slow); done.
Qed.

Lemma add_remove id r : id ∉ streams r → Unregister id (set_streams ({[id]} ∪.) r) = r.
Proof. destruct r as [q s m c]. unfold Unregister, set_streams. cbn. intros H. f_equal. set_solver. Qed.

Lemma register_run f o now id pick k :
  sh_pub f = PFree → sh_closing f = ∅ → fair o → id ∉ streams (sh_reg f) →
  conns (sh_reg f) !! id = Some k → c_stream k = NoStream →
  rtc step f (set_reg (λ r, (Register o now id pick (sh_cache f) r).2) f).
Proof.
  intros Hp Hcl Ho Hid Hk Hst. destruct f as [c r p ref cl n log]. cbn in Hp, Hcl, Hid, Hk. subst p cl.
  eapply rtc_l; [right; by eapply (x_register _ id k)|]. unfold set_reg, Register. cbn [sh_cache sh_reg sh_pub sh_refresh sh_closing sh_listed sh_log].
  destruct (snapshotEnvelope now (cache_Snapshot o c) r) as [[env r1]|] eqn:He.
  2: { apply rtc_once. left. by apply (i_no_snapshot (set_pub (PSnapshot id) (mkShared c r PFree ref ∅ n log)) o now id). }
  assert (conns r1 = conns r ∧ streams r1 = streams r) as [Hcs Hss].
  { revert He. unfold snapshotEnvelope, event_envelope. destruct (marshal_snapshot _); [|done]. by intros [= _ <-]. }
  eapply rtc_l; [left; by eapply (i_snapshot _ o now id env r1)|]. rewrite Hcs, Hk.
  destruct (stream_enqueue (queueSize r1) pick env (set_stream StreamOpen k)) as [ok k'] eqn:Hen. destruct ok; cbn [snd].
  - apply rtc_once. left.
    apply (i_register (mkShared c r1 (PBaseline id env) ref ∅ n log) id env pick k k'); [done|cbn; by rewrite Hcs|done].
  - eapply rtc_l; [left; eapply (i_register_fails _ id env pick k k'); [done|cbn; by rewrite Hcs|done]|].
    rewrite add_remove by (cbn; by rewrite Hss).
    etransitivity; [by apply (once_run _ id true)|]. apply rtc_once. left.
    apply (i_abandoned (mkShared c (stream_Close id (set_conns <[id:=k']> r1)) (PAbandon id) ref ∅ n log) id); [done|].
    split; [done|]. intros x Hx. by eapply once_not_open.
Qed.

(** The two models agree when nobody holds a lock. *)
Definition at_rest (y : sys) (f : shared) : Prop :=
  sh_cache f = y_cache y ∧ sh_reg f = y_registry y ∧ sh_pub f = PFree ∧ sh_refresh f = RIdle ∧ sh_closing f = ∅.

Lemma refresh_run o1 o2 o3 now ids pick listing ctx_ended c r f :
  fair o1 → fair o2 → fair o3 → ids ≡ₚ elements (streams r) → generation c < 2 ^ 64 - 1 →
  (∀ ns, listing = Ok ns → Forall node_time_ok ns) → at_rest (mkSys c r) f →
  ∃ f', rtc step f f' ∧ at_rest (refresh_with o1 o2 o3 now ids pick listing ctx_ended (mkSys c r)) f'.
Proof.
  intros H1 H2 H3 Hids Hg Hns (Hc & Hr & Hp & Href & Hcl). destruct f as [c0 r0 p ref cl n log]. cbn in *. subst.
  assert (∀ y', y' = mkSys c r → ∃ f', rtc step (mkShared c r PFree RIdle ∅ n log) f' ∧ at_rest y' f') as Hfail.
  { intros y' ->. exists (set_refresh RIdle (begin_listing (mkShared c r PFree RIdle ∅ n log))). split; [|done].
    eapply rtc_l; [right; by apply x_list|]. apply rtc_once. right. by apply x_list_fails. }
  unfold refresh_with, Refresh. cbn [y_cache y_registry].
  destruct listing as [ns|e]; [|by apply Hfail]. destruct ctx_ended; [by apply Hfail|].
  destruct (validateNodeSnapshot ns) as [[]|e] eqn:Hv; [|by apply Hfail]. clear Hfail.
  unfold ReplaceSnapshotAndPublish. cbn [fst snd].
  destruct (replaceSnapshot o1 o2 o3 ns c) as [[b changed] c'] eqn:Hrs.
  set (f1 := set_refresh RWriting (set_pub (PCommit ns) (begin_listing (mkShared c r PFree RIdle ∅ n log)))).
  assert (rtc step (mkShared c r PFree RIdle ∅ n log) (commit (b, changed, c') f1)) as Hrun.
  { eapply rtc_l; [right; by apply x_list|]. eapply rtc_l; [right; by apply (x_write_listing _ ns); auto|].
    apply rtc_once. left. rewrite <-Hrs. by apply (i_commit f1 o1 o2 o3 ns). }
  destruct changed.
  - exists (set_refresh RIdle (set_pub PFree (set_reg (Publish now ids pick b) (commit (b, true, c') f1)))).
    split; [|done]. etransitivity; [exact Hrun|]. by eapply (publish_run _ c b).
  - by exists (commit (b, false, c') f1).
Qed.

Lemma close_all_run f ids : at_rest (mkSys (sh_cache f) (sh_reg f)) f →
  rtc step f (set_reg (λ r, CloseAll ids r) f).
Proof.
  intros (_ & _ & Hp & _ & Hcl). eapply rtc_l; [right; apply x_close_all; unfold locked; by rewrite Hp|].
  unfold CloseAll. change (set_reg (λ r, foldl (λ r id, stream_Close id r) (set_streams (λ _, ∅) r) ids) f)
    with (set_reg (λ r, foldl (λ r id, stream_Close id r) r ids) (set_reg (set_streams (λ _, ∅)) f)).
  assert (∀ g : shared, locked g = false → sh_closing g = ∅ →
    rtc step g (set_reg (λ r, foldl (λ r id, stream_Close id r) r ids) g)) as H; [|by apply H; [unfold locked; cbn; by rewrite Hp|]].
  induction ids as [|id ids IH]; intros g Hl Hg; [by destruct g|].
  etransitivity; [by apply (once_run g id true)|]. by apply (IH (set_reg (stream_Close id) g)).
Qed.

Lemma step_run y y' f : feeds_ok y → StreamHistory.step y y' → at_rest y f → ∃ f', rtc step f f' ∧ at_rest y' f'.
Proof.
  intros Hy Hs Hf. destruct Hs as [id c r Hid|o now id pick c r k Ho Hk Hst|o1 o2 o3 now ids pick listing ctx c r H1 H2 H3 Hids Hg Hns
    |id m pick c r Hm|id written c r|id c r|id c r|id c r|ids c r Hids].
  3: by apply refresh_run.
  all: pose proof Hf as (Hc & Hr & Hp & Href & Hcl); destruct f as [c0 r0 p ref cl n log]; cbn in Hc, Hr, Hp, Href, Hcl; subst.
  - eexists. split; [apply rtc_once; right; by apply x_accept|done].
  - eexists. split; [eapply (register_run _ o now id pick k); try done|done].
    cbn. intros Hin. destruct (rk_open _ (fk_registry _ Hy) id Hin) as (k' & Hk' & ?). cbn in Hk'. congruence.
  - eexists. split; [apply rtc_once; right; by apply (x_respond _ id m pick)|done].
  - eexists. split; [apply rtc_once; right; apply (x_write _ id written)|done].
  - eexists. split; [apply rtc_once; right; apply (x_cancel _ id)|done].
  - eexists. split; [by apply (once_run _ id true)|done].
  - eexists. split; [by apply (once_run _ id false)|done].
  - eexists. split; [by apply (close_all_run _ ids)|done].
Qed.

(** C15. The steps of the abstract system are runs of this one. Whatever state
    refreshes, registrations, publications and closings reach when each is taken
    as one step is reached here too, with all locks free, by the critical sections
    of which the code makes them. *)
Theorem atomic_steps_are_runs size y : StreamHistory.reachable size y → ∃ f, reachable size f ∧ at_rest y f.
Proof.
  unfold StreamHistory.reachable. intros Hy.
  assert (∀ y0, rtc StreamHistory.step y0 y → feeds_ok y0 → (∃ f, reachable size f ∧ at_rest y0 f) →
    ∃ f, reachable size f ∧ at_rest y f) as H.
  { clear Hy. intros y0 Hr. induction Hr as [|y1 y2 y3 Hs _ IH]; [done|]. intros Hok (f & Hf & Hrest).
    destruct (step_run y1 y2 f Hok Hs Hrest) as (f' & Hrun & Hrest').
    apply IH; [by eapply step_feeds|]. exists f'. split; [|done]. unfold reachable in *. by etransitivity. }
  apply (H _ Hy); [apply start_feeds|]. exists (start size). split; [by apply rtc_refl|done].
Qed.

(** ** An example

    Two connections have registered; a refresh has committed a node and is
    publishing it, with the first connection behind it and the second before. *)

Definition register_one (id : nat) (f : shared) : shared :=
  set_reg (λ r, (Register map_to_list 1753920000 id false (sh_cache f) r).2) (set_reg (set_conns <[id := new_conn]>) f).
Definition registered_two : shared := register_one 1 (register_one 0 (start 2)).
Definition committed : shared :=
  commit (replaceSnapshot map_to_list map_to_list map_to_list [example_node "n1" "IDLE"] NewNodeCache)
    (set_refresh RWriting (set_pub (PCommit [example_node "n1" "IDLE"]) (begin_listing registered_two))).

Lemma register_one_reachable id f :
  reachable 2 f → at_rest (mkSys (sh_cache f) (sh_reg f)) f → conns (sh_reg f) !! id = None → id ∉ streams (sh_reg f) →
  reachable 2 (register_one id f).
Proof.
  unfold reachable. intros Hf (_ & _ & Hp & _ & Hcl) Hk Hs.
  etransitivity; [exact Hf|]. eapply rtc_l; [right; by apply x_accept|].
  apply (register_run (set_reg (set_conns <[id := new_conn]>) f) map_to_list _ id false new_conn); try done;
    [apply fair_map_to_list|apply lookup_insert_eq].
Qed.

Lemma committed_reachable : reachable 2 committed.
Proof.
  assert (reachable 2 registered_two) as H.
  { apply register_one_reachable; [apply register_one_reachable; [apply rtc_refl|done|done|set_solver]|done|by vm_compute|].
    apply (bool_decide_unpack _). by vm_compute. }
  unfold reachable in *. etransitivity; [exact H|]. eapply rtc_l; [right; by apply x_list|].
  eapply rtc_l; [right; apply (x_write_listing _ [example_node "n1" "IDLE"]); try done; by repeat constructor|].
  apply rtc_once. left. by apply i_commit; [|apply fair_map_to_list..].
Qed.

Definition seen (r : registry) (id : nat) : option (nat * bool * stream_state) :=
  (λ k, (length (c_queue k), c_writing k, c_stream k)) <$> conns r !! id.

Lemma publishing_reachable : ∃ f, reachable 2 f ∧ publishing (sh_pub f) = true ∧ generation (sh_cache f) = 1 ∧
  seen (sh_reg f) 0 = Some (2%nat, true, StreamOpen) ∧ seen (sh_reg f) 1 = Some (1%nat, true, StreamOpen) ∧
  streams (sh_reg f) = {[0%nat; 1%nat]}.
Proof.
  assert (match sh_pub committed with
    | PPublish _ b =>
        match eventEnvelope 1753920005 b (sh_reg committed) with
        | Some (env, r) =>
            let '(r', slow) := offer (λ _, false) env (r, []) 0 in
            (valid_batch b, bool_decide ([0; 1]%nat ≡ₚ elements (streams r)), seen r' 0, seen r' 1,
             bool_decide (streams r' = {[0%nat; 1%nat]}))
        | None => (false, false, None, None, false)
        end
    | _ => (false, false, None, None, false)
    end = (true, true, Some (2%nat, true, StreamOpen), Some (1%nat, true, StreamOpen), true)) as H by by vm_compute.
  destruct (sh_pub committed) as [| |before b| | | | |] eqn:Hp; try discriminate H.
  destruct (eventEnvelope 1753920005 b (sh_reg committed)) as [[env r]|] eqn:He; [|discriminate H].
  destruct (offer (λ _, false) env (r, []) 0) as [r' slow] eqn:Ho.
  injection H as Hv Hids H0 H1 Hs. apply bool_decide_eq_true in Hids, Hs.
  set (f1 := set_pub (PLoop before b env [0%nat; 1%nat] []) (set_reg (λ _, r) committed)).
  exists (set_pub (PLoop before b env [1%nat] slow) (set_reg (λ _, r') f1)).
  split; [|by split_and!].
  pose proof committed_reachable as Hc. unfold reachable in *. eapply rtc_r; [eapply rtc_r; [exact Hc|]|].
  - left. by apply (i_publish committed before b 1753920005 env r [0%nat; 1%nat]).
  - left. by apply (i_offer f1 before b env 0 [1%nat] [] (λ _, false)).
Qed.

Lemma feed_continuity_between_locks_witness : ∃ f k0 k1 c,
  publishing (sh_pub f) = true ∧ conns (sh_reg f) !! 0%nat = Some k0 ∧ conns (sh_reg f) !! 1%nat = Some k1 ∧
  length (c_queue k0) = 2%nat ∧ length (c_queue k1) = 1%nat ∧
  feed (events_of (c_sent k1 ++ c_queue k1)) (generation c, nodes c).
Proof.
  destruct publishing_reachable as (f & Hf & Hp & Hg & H0 & H1 & Hs). unfold seen in *.
  destruct (conns (sh_reg f) !! 0%nat) as [k0|] eqn:Hk0; [|discriminate H0].
  destruct (conns (sh_reg f) !! 1%nat) as [k1|] eqn:Hk1; [|discriminate H1].
  injection H0 as Hl0 Hw0 Hst0. injection H1 as Hl1 Hw1 Hst1.
  destruct (feed_continuity_between_locks 2 f Hf) as (_ & H & _).
  destruct (H 1%nat k1) as (c & Hc & _); [rewrite Hs; set_solver|by split|done|].
  exists f, k0, k1, c. by split_and!.
Defined.

Lemma locks_are_released_witness : ∃ f f', publishing (sh_pub f) = true ∧ rtc inner_step f f' ∧ sh_pub f' = PFree.
Proof.
  destruct publishing_reachable as (f & Hf & Hp & _).
  destruct (locks_are_released 2 f Hf) as (_ & _ & f' & Hr & Hfree & _). by exists f, f'.
Defined.

Lemma atomic_steps_are_runs_witness : ∃ f, reachable 2 f ∧ sh_pub f = PFree ∧ generation (sh_cache f) = 1.
Proof.
  destruct (atomic_steps_are_runs 2 example_sys example_sys_reachable) as (f & Hf & Hc & _ & Hp & _).
  exists f. split; [exact Hf|]. split; [exact Hp|]. rewrite Hc. by vm_compute.
Defined.
