(* ===== verification/Daemon.v ===== *)
(** * Daemon: from the sockets to the executor

    The composition of Session.v, Dispatcher.v, Service.v and AtMostOnce.v: any
    number of connections, each with its input, its cache of requests and at most
    one request in work, over one ledger. A message is decoded from the bytes of
    a connection, answered from the cache or dispatched; the dispatcher of [main]
    hands commands to the handler of the service, the calls of which interleave
    with those of other connections; the daemon may crash and restart. *)
From S2P Require Import Prelude Utf8 Json Message JsonValidation Codec CommandPayload Connection Authorization NodeCache Dispatcher Session.
From S2P Require Import Ledger LedgerLogic LedgerFacts LedgerHistory Service ServiceTraces AtMostOnce.
Open Scope Z_scope.

(** ** The cache of a connection, in two halves

    [requestReplayCache.Dispatch] around the call of [dispatch]: the answer when
    it is not called, and what is stored when it has returned. *)
Definition cached_answer (now : Z) (message : Envelope) (c : requestReplayCache) : option Session.answered :=
  let error e close := Some (mkAnswered (NewErrorEnvelope now (MessageID message) e) false close) in
  match requestFingerprint message with
  | None => error invalid_message false
  | Some f =>
      match c !! MessageID message with
      | Some previous =>
          if streq (fingerprint previous) f then Some (mkAnswered (response previous) false false)
          else error message_conflict false
      | None => if maxCachedRequestsPerConnection <=? Z.of_nat (size c) then error request_limit true else None
      end
  end.
Definition store_answer (message response : Envelope) (c : requestReplayCache) : requestReplayCache :=
  <[MessageID message := mkCached (default "" (requestFingerprint message)) response]> c.

Lemma cached_answer_spec {S} now message (dispatch : S → Envelope * S) c s :
  cache_Dispatch requestFingerprint now message dispatch c s =
  match cached_answer now message c with
  | Some a => (a, (c, s))
  | None => let '(r, s') := dispatch s in (mkAnswered r true false, (store_answer message r c, s'))
  end.
Proof.
  unfold cache_Dispatch, cached_answer, store_answer. destruct (requestFingerprint message) as [f|]; [|done].
  destruct (c !! MessageID message) as [previous|]; [by destruct (streq (fingerprint previous) f)|].
  by destruct (_ <=? _).
Qed.

(** ** Connections and the daemon *)

(** A request that was dispatched: whether it went to the command handler, the
    calls made for it and what is left to do. *)
Record work : Type := mkWork {
  wk_message : Envelope;
  wk_now : Z;
  wk_command : bool;
  wk_trace : list event;
  wk_prog : prog Envelope;
}.

Record peer : Type := mkPeerState {
  pr_user : UserContext;
  pr_input : Codec.reader;
  pr_cache : requestReplayCache;
  pr_work : option work;
  pr_history : list exchange;
}.

(** [dm_next] numbers the connections; [dm_log] has the messages that reached the
    command handler, with their connection and its user. *)
Record daemon : Type := mkDaemonState {
  dm_system : system;
  dm_peers : gmap nat peer;
  dm_next : nat;
  dm_execs : list key;
  dm_lost : list key;
  dm_log : list (nat * UserContext * Envelope);
}.

Definition set_peer (id : nat) (p : peer) (d : daemon) : daemon :=
  mkDaemonState (dm_system d) (<[id := p]> (dm_peers d)) (dm_next d) (dm_execs d) (dm_lost d) (dm_log d).
Definition remove_peer (id : nat) (d : daemon) : daemon :=
  mkDaemonState (dm_system d) (delete id (dm_peers d)) (dm_next d) (dm_execs d) (dm_lost d) (dm_log d).

(** A connection was accepted; it was answered at once; its request was
    dispatched; the handler of its request has made a call, or has returned. *)
Definition new_peer (user : UserContext) (input : Codec.reader) : peer := mkPeerState user input ∅ None [].
Definition answer_now (m : Envelope) (now : Z) (a : Session.answered) (input : Codec.reader) (p : peer) : peer :=
  mkPeerState (pr_user p) input (pr_cache p) None (pr_history p ++ [mkExchange m now (a_reply a) (a_fresh a)]).
Definition set_work (input : Codec.reader) (w : work) (p : peer) : peer :=
  mkPeerState (pr_user p) input (pr_cache p) (Some w) (pr_history p).
Definition work_on {X} (o : op X) (x : X) (rest : prog Envelope) (w : work) : work :=
  mkWork (wk_message w) (wk_now w) (wk_command w) (wk_trace w ++ [Ev o x]) rest.
Definition work_done (w : work) (r : Envelope) (p : peer) : peer :=
  mkPeerState (pr_user p) (pr_input p) (store_answer (wk_message w) r (pr_cache p)) None
    (pr_history p ++ [mkExchange (wk_message w) (wk_now w) r true]).

(** The user and the command of a request in work. *)
Definition work_key (user : UserContext) (w : work) : key :=
  (UID user, match DecodeNodeCommandRequestPayload (Payload (wk_message w)) with Ok r => CommandID r | Err _ => "" end).

Section daemon.
Context (s : Service) (ticks : nat).
Context (printable : Z → bool) (o : order) (resolver : option CapabilityContextResolver).

(** The dispatcher of [main]. Its command handler is synchronous in Dispatcher.v;
    here it hands the message over, to be handled call by call. *)
Definition handed : Type := NodeCache * list (UserContext * Envelope).
Definition hand_over : AuthenticatedHandler (W := handed) := λ _ user m w, (m, (w.1, w.2 ++ [(user, m)])).
Definition dispatch_work (disp : MessageDispatcher (W := handed)) (now : Z) (user : UserContext) (cache : NodeCache) (m : Envelope) : work :=
  let '(r, (_, (_, calls))) := DispatchWithUser now user m disp (cache, []) in
  match calls with
  | [] => mkWork m now false [] (Ret r)
  | (user, m) :: _ => mkWork m now true [] (HandleAuthenticated s ticks user m)
  end.

(** What happens to the connections and the daemon between the calls. *)
Inductive local_step (disp : MessageDispatcher (W := handed)) : daemon → daemon → Prop :=
| d_accept l peers n ex lo log user input :
    local_step disp (mkDaemonState (Up l) peers n ex lo log)
      (mkDaemonState (Up l) (<[n := new_peer user input]> peers) (S n) ex lo log)
| d_cached d id p now m input a : dm_peers d !! id = Some p → pr_work p = None →
    Decode (pr_input p) = ((m, None), input) → cached_answer now m (pr_cache p) = Some a →
    local_step disp d (if a_close a then remove_peer id d else set_peer id (answer_now m now a input p) d)
| d_dispatch sys peers n ex lo log id p now cache m input w : peers !! id = Some p → pr_work p = None →
    Decode (pr_input p) = ((m, None), input) → cached_answer now m (pr_cache p) = None →
    w = dispatch_work disp now (pr_user p) cache m →
    local_step disp (mkDaemonState sys peers n ex lo log)
      (mkDaemonState sys (<[id := set_work input w p]> peers) n ex lo
         (log ++ if wk_command w then [(id, pr_user p, m)] else []))
| d_return d id p w r : dm_peers d !! id = Some p → pr_work p = Some w → wk_prog w = Ret r →
    local_step disp d (set_peer id (work_done w r p) d)
| d_leave d id p : dm_peers d !! id = Some p → pr_work p = None → local_step disp d (remove_peer id d)
| d_crash l peers n ex lo log :
    local_step disp (mkDaemonState (Up l) peers n ex lo log) (mkDaemonState (Down (Close l)) ∅ n ex lo log)
| d_open outcomes cwd path now ans st y n ex lo log : y = run_op (OOpen outcomes cwd path now ans) (Down st) →
    local_step disp (mkDaemonState (Down st) ∅ n ex lo log)
      (mkDaemonState y ∅ n ex (lost (rows st) (rows (content y)) ++ lo) log).

(** A handler makes a call, which is answered; the key is that of its request. *)
Inductive call_step : key → event → daemon → daemon → Prop :=
| d_call peers n ex lo log id p w X (o : op X) k now l x l' : peers !! id = Some p → pr_work p = Some w →
    wk_prog w = Vis o k → answered o now l x l' →
    call_step (work_key (pr_user p) w) (Ev o x) (mkDaemonState (Up l) peers n ex lo log)
      (mkDaemonState (Up l') (<[id := set_work (pr_input p) (work_on o x (k x) w) p]> peers) n
         (execution o (work_key (pr_user p) w) ++ ex)
         (lost (rows (stored (dbs l))) (rows (stored (dbs l'))) ++ lo) log).

Definition dstep (disp : MessageDispatcher (W := handed)) (d d' : daemon) : Prop :=
  local_step disp d d' ∨ ∃ k e, call_step k e d d'.

Definition dstart : daemon := mkDaemonState (Down empty_store) ∅ 0 [] [] [].
Definition dreachable (disp : MessageDispatcher (W := handed)) (d : daemon) : Prop := rtc (dstep disp) dstart d.

(** ** What is dispatched *)

Context (disp : MessageDispatcher (W := handed)) (Hdisp : daemon_dispatcher printable o fst resolver hand_over = Ok disp).

(** Commands of a named user go to the handler, and everything else is answered
    as the daemon's dispatcher answers it, whatever the command handler is. *)
Lemma dispatch_work_spec now user cache m : well_formed m →
  dispatch_work disp now user cache m =
  if streq (Type_ m) MessageCommand && negb (streq (Username user) "")
  then mkWork m now true [] (Handle s ticks user m)
  else mkWork m now false []
         (Ret (route printable o (λ c : NodeCache, c) resolver (λ _ _ m c, (m, c)) now (Some user) m cache).1).
Proof.
  intros Hm%enveloped_well_formed. unfold dispatch_work, DispatchWithUser.
  rewrite (dispatch_route _ _ _ _ _ disp now (Some user) m (cache, []) Hdisp Hm). unfold route, as_named, hand_over.
  unfold open_reply, helloHandler, pingHandler, HandleAuthenticated.
  destruct (streq (Type_ m) MessageCommand); [destruct (streq (Username user) ""); reflexivity|]. cbn [fst snd andb].
  destruct (streq (Type_ m) MessageCapabilitiesRequest);
    [destruct (streq (Username user) ""); cbn [fst snd]; reflexivity|].
  destruct (bool_decide _); cbn [fst snd]; reflexivity.
Qed.

(** ** The threads of AtMostOnce.v *)

Definition thread_of (user : UserContext) (w : work) : option thread :=
  if wk_command w then
    match DecodeNodeCommandRequestPayload (Payload (wk_message w)) with
    | Ok request => Some (mkThread user request (wk_trace w) (wk_prog w))
    | Err _ => None
    end
  else None.
Definition peer_threads (p : peer) : list thread := option_list (pr_work p ≫= thread_of (pr_user p)).
Definition threads (peers : gmap nat peer) : list thread := (map_to_list peers).*2 ≫= peer_threads.

(** What has no thread only reads the clock. *)
Definition plain (p : prog Envelope) : Prop :=
  match p with
  | Ret _ => True
  | Vis op k => match op in Service.op X return (X → prog Envelope) → Prop with
                | ENow => λ k, ∀ x, ∃ r, k x = Ret r
                | _ => λ _, False
                end k
  end.

(** What a message was handed over for: a command of the log. *)
Definition asked (log : list (nat * UserContext * Envelope)) (k : key) : Prop :=
  ∃ id u m r, (id, u, m) ∈ log ∧ DecodeNodeCommandRequestPayload (Payload m) = Ok r ∧ k = (UID u, CommandID r).

Definition accounted (p : peer) (m : Envelope) : Prop :=
  is_Some (pr_cache p !! MessageID m) ∨ ∃ w, pr_work p = Some w ∧ wk_message w = m.

Record daemon_ok (d : daemon) : Prop := {
  dk_world : ∃ w, AtMostOnce.reachable w ∧ w_system w = dm_system d ∧ w_threads w ≡ₚ threads (dm_peers d) ∧
    w_execs w = dm_execs d ∧ w_lost w = dm_lost d;
  dk_plain : ∀ id p w, dm_peers d !! id = Some p → pr_work p = Some w → thread_of (pr_user p) w = None → plain (wk_prog w);
  dk_log : ∀ id p w, dm_peers d !! id = Some p → pr_work p = Some w → wk_command w = true →
    (id, pr_user p, wk_message w) ∈ dm_log d;
  dk_execs : ∀ k, k ∈ dm_execs d → asked (dm_log d) k;
  dk_once : NoDup (map (λ x, (x.1.1, MessageID x.2)) (dm_log d));
  dk_used : ∀ id u m p, (id, u, m) ∈ dm_log d → dm_peers d !! id = Some p → accounted p m;
  dk_down : match dm_system d with Up _ => True | Down _ => dm_peers d = ∅ end;
  dk_next : (∀ id u m, (id, u, m) ∈ dm_log d → (id < dm_next d)%nat) ∧
    ∀ id, is_Some (dm_peers d !! id) → (id < dm_next d)%nat;
}.

Lemma threads_delete peers id p : peers !! id = Some p → threads peers ≡ₚ peer_threads p ++ threads (delete id peers).
Proof.
  intros Hp. unfold threads. rewrite <-(map_to_list_delete peers id p Hp) at 1. done.
Qed.
Lemma threads_insert peers id p : threads (<[id := p]> peers) ≡ₚ peer_threads p ++ threads (delete id peers).
Proof.
  rewrite (threads_delete _ id p) by apply lookup_insert_eq. by rewrite delete_insert_eq.
Qed.

Lemma pick_thread (ts rest : list thread) t : ts ≡ₚ t :: rest →
  ∃ i, ts !! i = Some t ∧ delete i ts ≡ₚ rest ∧ ∀ t', <[i := t']> ts ≡ₚ t' :: rest.
Proof.
  intros Hp. assert (t ∈ ts) as (i & Hi)%list_elem_of_lookup by (rewrite Hp; by left).
  exists i. split; [done|]. pose proof (delete_Permutation ts i t Hi) as Hd.
  assert (delete i ts ≡ₚ rest) as Hrest by (apply (Permutation_cons_inv (a := t)); by rewrite <-Hd).
  split; [done|]. intros t'. rewrite insert_take_drop by (by eapply lookup_lt_Some).
  rewrite <-Hrest, delete_take_drop. by rewrite Permutation_middle.
Qed.

Lemma lost_same m : lost m m = [].
Proof.
  unfold lost. apply elem_of_nil_inv. intros k [Hk _]%list_elem_of_filter. by rewrite andb_negb_r in Hk.
Qed.

Lemma threads_update peers id p p' : peers !! id = Some p → peer_threads p' = peer_threads p →
  threads (<[id := p']> peers) ≡ₚ threads peers.
Proof. intros Hp He. by rewrite threads_insert, (threads_delete peers id p Hp), He. Qed.
Lemma threads_idle peers id p : peers !! id = Some p → pr_work p = None → threads (delete id peers) ≡ₚ threads peers.
Proof. intros Hp Hw. rewrite (threads_delete peers id p Hp). unfold peer_threads. by rewrite Hw. Qed.

(** What holds of the peers after one of them has changed. *)
Lemma peers_insert (P : nat → peer → Prop) (peers : gmap nat peer) id p :
  (∀ i q, peers !! i = Some q → P i q) → P id p → ∀ i q, <[id := p]> peers !! i = Some q → P i q.
Proof. intros Hall Hp i q. rewrite lookup_insert_Some. naive_solver. Qed.

(** The world does what a peer does. *)
Definition world_of (d : daemon) (ts : list thread) : Prop :=
  ∃ w, AtMostOnce.reachable w ∧ w_system w = dm_system d ∧ w_threads w ≡ₚ ts ∧ w_execs w = dm_execs d ∧ w_lost w = dm_lost d.

(** One peer changes. *)
Lemma ok_peer d d' id p p' extra :
  daemon_ok d → dm_peers d !! id = Some p → pr_user p' = pr_user p →
  dm_peers d' = <[id := p']> (dm_peers d) → dm_next d' = dm_next d → dm_log d' = dm_log d ++ extra →
  match dm_system d' with Up _ => True | Down _ => dm_system d' = dm_system d end →
  world_of d' (peer_threads p' ++ threads (delete id (dm_peers d))) →
  (∀ k, k ∈ dm_execs d' → k ∈ dm_execs d ∨ asked (dm_log d) k) →
  (∀ w, pr_work p' = Some w → (thread_of (pr_user p) w = None → plain (wk_prog w)) ∧
    (wk_command w = true → (id, pr_user p, wk_message w) ∈ dm_log d ++ extra)) →
  (∀ m, accounted p m → accounted p' m) →
  (∀ i u m, (i, u, m) ∈ extra → i = id ∧ accounted p' m) →
  NoDup (map (λ x, (x.1.1, MessageID x.2)) (dm_log d ++ extra)) → daemon_ok d'.
Proof.
  intros [Hw Hpl Hl He Ho Hu Hd [Hn1 Hn2]] Hp Huser Hpeers Hnext Hlog Hdown Hw' Hexecs Hwork Hacc Hextra Hnd.
  split; rewrite ?Hlog, ?Hnext; rewrite ?Hpeers; try done.
  - destruct Hw' as (w & H1 & H2 & H3 & H4). exists w. split_and!; try done; [|apply H4..]. by rewrite threads_insert.
  - intros i q w. revert i q. apply (peers_insert (λ i q, pr_work q = Some w → thread_of (pr_user q) w = None → plain (wk_prog w)));
      [intros i q; apply Hpl|]. rewrite Huser. intros H. by apply Hwork.
  - intros i q w. revert i q.
    apply (peers_insert (λ i q, pr_work q = Some w → wk_command w = true → (i, pr_user q, wk_message w) ∈ dm_log d ++ extra)).
    + intros i q Hq H1 H2. apply elem_of_app. left. by apply (Hl i).
    + rewrite Huser. intros H. by apply Hwork.
  - intros k Hk. assert (asked (dm_log d) k) as (i & u & m & r & H1 & H2) by (destruct (Hexecs k Hk) as [H|H]; [by apply He|done]).
    exists i, u, m, r. split; [|done]. apply elem_of_app. by left.
  - assert (∀ i q, <[id:=p']> (dm_peers d) !! i = Some q → ∀ u m, (i, u, m) ∈ dm_log d ++ extra → accounted q m) as H.
    { intros i q [[<- <-]|[Hne Hq]]%lookup_insert_Some u m [Hin|Hin]%elem_of_app.
      - apply Hacc. by apply (Hu id u).
      - by apply (Hextra id u).
      - by apply (Hu i u).
      - destruct (Hextra i u m Hin) as [-> _]. done. }
    intros i u m q Hin Hq. by apply (H i q Hq u).
  - destruct (dm_system d'); [done|]. rewrite <-Hdown in Hd. rewrite Hd in Hp. by rewrite lookup_empty in Hp.
  - split.
    + intros i u m [Hin|Hin]%elem_of_app; [by apply (Hn1 i u m)|]. destruct (Hextra i u m Hin) as [-> _]. apply Hn2. by eexists.
    + intros i. rewrite lookup_insert_is_Some. intros [<-|[_ H]]; [apply Hn2; by eexists|by apply Hn2].
Qed.

(** The world does not see a peer that has no thread. *)
Lemma world_same d d' id p p' : daemon_ok d → dm_peers d !! id = Some p → peer_threads p' = peer_threads p →
  dm_system d' = dm_system d → dm_execs d' = dm_execs d → dm_lost d' = dm_lost d →
  world_of d' (peer_threads p' ++ threads (delete id (dm_peers d))).
Proof.
  intros Hd Hp He E1 E2 E3. destruct (dk_world _ Hd) as (w & H1 & H2 & H3 & H4). exists w. rewrite E1, E2, E3.
  split_and!; try done; [|apply H4..]. by rewrite H3, (threads_delete _ id p Hp), He.
Qed.

Lemma idle_threads p : pr_work p = None → peer_threads p = [].
Proof. unfold peer_threads. by intros ->. Qed.

Lemma ok_remove d id p : daemon_ok d → dm_peers d !! id = Some p → pr_work p = None → daemon_ok (remove_peer id d).
Proof.
  intros [Hw Hpl Hl He Ho Hu Hd [Hn1 Hn2]] Hp Hwk.
  assert (∀ i q, delete id (dm_peers d) !! i = Some q → dm_peers d !! i = Some q) as Hsub
    by (intros i q; rewrite lookup_delete_Some; by intros [_ ?]).
  split; cbn; try done.
  - destruct Hw as (w & H1 & H2 & H3 & H4). exists w. split_and!; try done; [|apply H4..]. rewrite H3. symmetry.
    by eapply threads_idle.
  - intros i q w Hq. by apply (Hpl i), Hsub.
  - intros i q w Hq. by apply (Hl i), Hsub.
  - intros i u m q Hin Hq. by apply (Hu i u m q Hin), Hsub.
  - destruct (dm_system d); [done|]. rewrite Hd in Hp. by rewrite lookup_empty in Hp.
  - split; [done|]. intros i [q Hq]. apply Hn2. exists q. by apply Hsub.
Qed.

Lemma ok_cached d id p now m input a : daemon_ok d → dm_peers d !! id = Some p → pr_work p = None →
  daemon_ok (set_peer id (answer_now m now a input p) d).
Proof.
  intros Hd Hp Hw. assert (dm_log d ++ [] = dm_log d) as Hnil by apply app_nil_r.
  apply (ok_peer d _ id p (answer_now m now a input p) [] Hd Hp); try done; rewrite ?Hnil.
  - cbn. by destruct (dm_system d).
  - apply (world_same d _ id p); try done. by rewrite !idle_threads.
  - auto.
  - intros x [H|(w & H & _)]; [by left|congruence].
  - intros i u x Hx. by apply elem_of_nil in Hx.
  - apply (dk_once _ Hd).
Qed.

Lemma ok_return d id p w r : daemon_ok d → dm_peers d !! id = Some p → pr_work p = Some w → wk_prog w = Ret r →
  daemon_ok (set_peer id (work_done w r p) d).
Proof.
  intros Hd Hp Hw Hr. assert (dm_log d ++ [] = dm_log d) as Hnil by apply app_nil_r.
  apply (ok_peer d _ id p (work_done w r p) [] Hd Hp); try done; rewrite ?Hnil.
  - cbn. by destruct (dm_system d).
  - destruct (thread_of (pr_user p) w) as [t|] eqn:Ht.
    2: { apply (world_same d _ id p); try done. unfold peer_threads. rewrite Hw. cbn. by rewrite Ht. }
    destruct (dk_world _ Hd) as ([sys ts ex lo] & H1 & H2 & H3 & H4 & H5). cbn in H2, H3, H4, H5. subst.
    assert (ts ≡ₚ t :: threads (delete id (dm_peers d))) as Hts.
    { rewrite H3, (threads_delete _ id p Hp). unfold peer_threads. rewrite Hw. cbn. by rewrite Ht. }
    destruct (pick_thread _ _ _ Hts) as (i & Hi & Hrest & _).
    assert (∃ l, dm_system d = Up l) as [l Hup].
    { pose proof (dk_down _ Hd) as Hdn. destruct (dm_system d) as [l|st]; [by exists l|].
      rewrite Hdn in Hp. by rewrite lookup_empty in Hp. }
    assert (t = mkThread (th_requester t) (th_request t) (th_trace t) (Ret r)) as Heq.
    { revert Ht. unfold thread_of. destruct (wk_command w); [|done].
      destruct (DecodeNodeCommandRequestPayload _); [|done]. intros [= <-]. cbn. by rewrite Hr. }
    exists (mkWorld (dm_system d) (delete i ts) (dm_execs d) (dm_lost d)). split; [|by split_and!].
    eapply rtc_r; [exact H1|]. rewrite Hup. rewrite Heq in Hi. by eapply step_return.
  - auto.
  - intros x [[y Hy]|(w' & H & <-)].
    + left. cbn. unfold store_answer. destruct (decide (MessageID (wk_message w) = MessageID x)) as [->|Hne].
      * rewrite lookup_insert_eq. by eexists.
      * rewrite lookup_insert_ne by done. by exists y.
    + left. rewrite Hw in H. injection H as <-. cbn. unfold store_answer. rewrite lookup_insert_eq. by eexists.
  - intros i u x Hx. by apply elem_of_nil in Hx.
  - apply (dk_once _ Hd).
Qed.

Lemma up_of d id p : daemon_ok d → dm_peers d !! id = Some p → ∃ l, dm_system d = Up l.
Proof.
  intros Hd Hp. pose proof (dk_down _ Hd) as Hdn. destruct (dm_system d) as [l|st]; [by exists l|].
  rewrite Hdn in Hp. by rewrite lookup_empty in Hp.
Qed.

(** The handler of a request that does not decode only reads the clock. *)
Lemma plain_Handle user m e : DecodeNodeCommandRequestPayload (Payload m) = Err e → plain (Handle s ticks user m).
Proof. unfold Handle. intros ->. cbn. intros x. by eexists. Qed.

(** A message that reaches the cache for the first time is in no log entry. *)
Lemma fresh_message d id p now m : daemon_ok d → dm_peers d !! id = Some p → pr_work p = None →
  cached_answer now m (pr_cache p) = None → ∀ u x, (id, u, x) ∈ dm_log d → MessageID x ≠ MessageID m.
Proof.
  intros Hd Hp Hw Hc u x Hin He.
  assert (pr_cache p !! MessageID m = None) as Hnone.
  { revert Hc. unfold cached_answer. destruct (requestFingerprint m); [|done].
    destruct (pr_cache p !! MessageID m) as [previous|]; [|done]. by destruct (streq _ _). }
  destruct (dk_used _ Hd id u x p Hin Hp) as [[y Hy]|(w & H & _)]; [|congruence]. rewrite He in Hy. congruence.
Qed.

Lemma ok_dispatch sys peers n ex lo log id p now cache m input :
  let d := mkDaemonState sys peers n ex lo log in
  let w := dispatch_work disp now (pr_user p) cache m in
  daemon_ok d → peers !! id = Some p → pr_work p = None → well_formed m → cached_answer now m (pr_cache p) = None →
  daemon_ok (mkDaemonState sys (<[id := set_work input w p]> peers) n ex lo
    (log ++ if wk_command w then [(id, pr_user p, m)] else [])).
Proof.
  intros d w Hd Hp Hwk Hm Hc. pose proof (fresh_message d id p now m Hd Hp Hwk Hc) as Hfresh.
  assert (wk_message w = m ∧ wk_trace w = [] ∧ wk_prog w = if wk_command w then Handle s ticks (pr_user p) m else wk_prog w) as (Hwm & Hwt & Hwp).
  { unfold w. rewrite dispatch_work_spec by done. by destruct (_ && _). }
  assert (wk_command w = false → plain (wk_prog w)) as Hplain.
  { unfold w. rewrite dispatch_work_spec by done. by destruct (_ && _). }
  clearbody w.
  apply (ok_peer d _ id p (set_work input w p) (if wk_command w then [(id, pr_user p, m)] else []) Hd Hp); try done.
  - cbn. by destruct sys.
  - destruct (thread_of (pr_user p) w) as [t|] eqn:Ht.
    + assert (peer_threads (set_work input w p) = [t]) as -> by (unfold peer_threads; cbn; by rewrite Ht).
      unfold thread_of in Ht. destruct (wk_command w); [|done]. rewrite Hwm, Hwp, Hwt in Ht.
      destruct (DecodeNodeCommandRequestPayload (Payload m)) as [request|] eqn:Hreq; [|done]. injection Ht as <-.
      destruct (up_of d id p Hd Hp) as [l Hl]. cbn in Hl. subst sys.
      destruct (dk_world _ Hd) as ([sy ts x y] & H1 & H2 & H3 & H4 & H5). cbn in H2, H3, H4, H5. subst sy x y.
      exists (mkWorld (Up l) (ts ++ [mkThread (pr_user p) request [] (Handle s ticks (pr_user p) m)]) ex lo).
      split; [eapply rtc_r; [exact H1|]; by apply step_arrive|]. split; [done|]. split; [|done]. cbn [w_threads].
      rewrite H3, (threads_delete peers id p Hp), (idle_threads p Hwk). cbn [app dm_peers d].
      by rewrite <-Permutation_cons_append.
    + apply (world_same d _ id p); try done. rewrite (idle_threads p Hwk). unfold peer_threads. cbn. by rewrite Ht.
  - auto.
  - intros x [= <-]. split.
    + unfold thread_of. destruct (wk_command w); [|by auto]. rewrite Hwm, Hwp.
      destruct (DecodeNodeCommandRequestPayload (Payload m)) eqn:Hreq; [done|]. intros _. by eapply plain_Handle.
    + intros Hcmd. rewrite Hcmd, Hwm. apply elem_of_app. right. by left.
  - intros x [H|(y & H & _)]; [by left|congruence].
  - intros i u x. destruct (wk_command w); [|by intros ?%elem_of_nil].
    intros [= -> -> ->]%list_elem_of_singleton. split; [done|]. right. by exists w.
  - cbn. rewrite map_app. apply NoDup_app. split; [apply (dk_once _ Hd)|]. split.
    + intros [i y] Hin. destruct (wk_command w); [|by intros ?%elem_of_nil]. cbn.
      intros [= -> ->]%list_elem_of_singleton. apply list_elem_of_fmap in Hin as ([[i u] x] & [= -> Hx] & Hin).
      by apply (Hfresh u x Hin).
    + destruct (wk_command w); cbn; [apply NoDup_singleton|constructor].
Qed.

Lemma ok_call l peers n ex lo log id p w X (op : Service.op X) k now x l' :
  let d := mkDaemonState (Up l) peers n ex lo log in
  daemon_ok d → peers !! id = Some p → pr_work p = Some w → wk_prog w = Vis op k → answered op now l x l' →
  daemon_ok (mkDaemonState (Up l') (<[id := set_work (pr_input p) (work_on op x (k x) w) p]> peers) n
    (execution op (work_key (pr_user p) w) ++ ex) (lost (rows (stored (dbs l))) (rows (stored (dbs l'))) ++ lo) log).
Proof.
  intros d Hd Hp Hw Hk Ha. assert (log ++ [] = log) as Hnil by apply app_nil_r.
  destruct (dk_world _ Hd) as ([sy ts x0 y0] & H1 & H2 & H3 & H4 & H5). cbn in H2, H3, H4, H5. subst sy x0 y0.
  assert (peer_threads p = option_list (thread_of (pr_user p) w)) as Hold by (unfold peer_threads; by rewrite Hw).
  set (p' := set_work (pr_input p) (work_on op x (k x) w) p).
  destruct (thread_of (pr_user p) w) as [t|] eqn:Ht.
  - assert (wk_command w = true ∧ ∃ request, DecodeNodeCommandRequestPayload (Payload (wk_message w)) = Ok request ∧
      t = mkThread (pr_user p) request (wk_trace w) (Vis op k)) as (Hcmd & request & Hreq & ->).
    { revert Ht. unfold thread_of. destruct (wk_command w); [|done].
      destruct (DecodeNodeCommandRequestPayload _) as [request|] eqn:Hreq; [|done]. intros [= <-].
      split; [done|]. exists request. by rewrite Hk. }
    assert (work_key (pr_user p) w = (UID (pr_user p), CommandID request)) as Hkey by (unfold work_key; by rewrite Hreq).
    assert (peer_threads p' = [mkThread (pr_user p) request (wk_trace w ++ [Ev op x]) (k x)]) as Hnew.
    { unfold peer_threads, p', thread_of. cbn. by rewrite Hcmd, Hreq. }
    apply (ok_peer d _ id p p' [] Hd Hp); cbn [dm_log d]; try done; rewrite ?Hnil; try done.
    + rewrite Hnew. assert (ts ≡ₚ mkThread (pr_user p) request (wk_trace w) (Vis op k) :: threads (delete id peers)) as Hts
        by (by rewrite H3, (threads_delete peers id p Hp), Hold).
      destruct (pick_thread _ _ _ Hts) as (i & Hi & _ & Hins).
      eexists. split; [eapply rtc_r; [exact H1|]; by apply (step_call i (pr_user p) request (wk_trace w) X op k now l x l' ts ex lo)|].
      cbn [w_system w_threads w_execs w_lost dm_system dm_execs dm_lost]. rewrite Hkey. split; [done|]. split; [apply Hins|done].
    + cbn [dm_execs]. intros y [Hy|Hy]%elem_of_app; [right|by left]. assert (y = work_key (pr_user p) w) as ->.
      { destruct op; cbn in Hy; try (by apply elem_of_nil in Hy). by apply list_elem_of_singleton in Hy. }
      exists id, (pr_user p), (wk_message w), request. split; [by apply (dk_log _ Hd id p w)|by rewrite Hkey].
    + intros y [= <-]. cbn. rewrite ?Hnil. split; [|intros _; by apply (dk_log _ Hd id p w)]. unfold thread_of. cbn. by rewrite Hcmd, Hreq.
    + intros m [H|(w' & H & <-)]; [by left|right]. rewrite Hw in H. injection H as <-. by eexists.
    + intros i u m Hin. by apply elem_of_nil in Hin.
    + apply (dk_once _ Hd).
  - pose proof (dk_plain _ Hd id p w Hp Hw Ht) as Hpl. rewrite Hk in Hpl.
    assert (l' = l ∧ (∀ key, execution op key = []) ∧ ∃ r, k x = Ret r) as (-> & Hex & r & Hr).
    { by destruct op. }
    rewrite lost_same, Hex. cbn [app].
    apply (ok_peer d _ id p p' [] Hd Hp); cbn [dm_log d]; try done; rewrite ?Hnil; try done.
    + apply (world_same d _ id p); try done. rewrite Hold. unfold peer_threads, p', thread_of in *. cbn.
      destruct (wk_command w); [|done]. by destruct (DecodeNodeCommandRequestPayload _).
    + auto.
    + intros y [= <-]. cbn. rewrite ?Hnil. split; [intros _; by rewrite Hr|]. intros Hcmd. by apply (dk_log _ Hd id p w).
    + intros m [H|(w' & H & <-)]; [by left|right]. rewrite Hw in H. injection H as <-. by eexists.
    + intros i u m Hin. by apply elem_of_nil in Hin.
    + apply (dk_once _ Hd).
Qed.

Lemma ok_new_peer l peers n ex lo log user input : daemon_ok (mkDaemonState (Up l) peers n ex lo log) →
  daemon_ok (mkDaemonState (Up l) (<[n := new_peer user input]> peers) (S n) ex lo log).
Proof.
  intros [Hw Hpl Hl He Ho Hu Hd [Hn1 Hn2]]. cbn in *.
  assert (peers !! n = None) as Hnone by (destruct (peers !! n) eqn:Hp; [|done]; specialize (Hn2 n ltac:(by eexists)); lia).
  assert (∀ i q, <[n:=new_peer user input]> peers !! i = Some q → i = n ∧ q = new_peer user input ∨ peers !! i = Some q) as Hcase
    by (intros i q; rewrite lookup_insert_Some; naive_solver).
  split; cbn; try done.
  - destruct Hw as (w & H1 & H2 & H3 & H4). exists w. split_and!; try done; [|apply H4..].
    rewrite H3, threads_insert, delete_id by done. done.
  - intros i q w Hq. destruct (Hcase i q Hq) as [[-> ->]|H]; [done|by apply (Hpl i)].
  - intros i q w Hq. destruct (Hcase i q Hq) as [[-> ->]|H]; [done|by apply (Hl i)].
  - intros i u m q Hin Hq. destruct (Hcase i q Hq) as [[-> ->]|H]; [|by apply (Hu i u m)].
    specialize (Hn1 n u m Hin). lia.
  - split.
    + intros i u m Hin. specialize (Hn1 i u m Hin). lia.
    + intros i [q Hq]. destruct (Hcase i q Hq) as [[-> ->]|H]; [lia|]. specialize (Hn2 i ltac:(by eexists)). lia.
Qed.

(** Without peers there are no threads. *)
Lemma ok_restart sys n ex lo log sys' lo' : daemon_ok (mkDaemonState sys ∅ n ex lo log) →
  (∃ w, AtMostOnce.reachable w ∧ w = mkWorld sys' [] ex lo') → daemon_ok (mkDaemonState sys' ∅ n ex lo' log).
Proof.
  intros [_ _ _ He Ho _ _ [Hn1 _]] (w & Hw & ->). cbn in *. split; cbn; try done.
  - eexists. split; [exact Hw|]. by split_and!.
  - by destruct sys'.
  - split; [done|]. intros i [p Hp]. by rewrite lookup_empty in Hp.
Qed.

Lemma dstep_ok d d' : dstep disp d d' → daemon_ok d → daemon_ok d'.
Proof.
  intros [Hs|(key & e & Hs)] Hd; [destruct Hs as [l peers n ex lo log user input|d id p now m input a Hp Hw Hdec Hc
    |sys peers n ex lo log id p now cache m input w Hp Hw Hdec Hc ->
    |d id p w r Hp Hw Hr|d id p Hp Hw|l peers n ex lo log|outcomes cwd path now ans st y n ex lo log ->]
    |destruct Hs as [peers n ex lo log id p w X op k now l x l' Hp Hw Hk Ha]].
  - by apply ok_new_peer.
  - destruct (a_close a); [by eapply ok_remove|by apply ok_cached].
  - apply ok_dispatch; try done. by eapply Decode_well_formed.
  - by apply ok_return.
  - by eapply ok_remove.
  - destruct (dk_world _ Hd) as ([sy ts x0 y0] & H1 & H2 & H3 & H4 & H5). cbn in H2, H4, H5. subst.
    destruct Hd as [_ _ _ He Ho _ _ [Hn1 _]]. cbn in *. split; cbn; try done.
    + eexists. split; [eapply rtc_r; [exact H1|apply step_crash]|]. by split_and!.
    + split; [done|]. intros i [p Hp]. by rewrite lookup_empty in Hp.
  - destruct (dk_world _ Hd) as ([sy ts x0 y0] & H1 & H2 & H3 & H4 & H5). cbn in H2, H3, H4, H5. subst.
    apply (ok_restart _ _ _ _ _ _ _ Hd). eexists. split; [|done].
    apply Permutation_nil_r in H3. cbn in H3. subst ts.
    eapply rtc_r; [exact H1|]. by eapply step_open.
  - by eapply (ok_call l peers n ex lo log id p w X op k now x l').
Qed.

Lemma dreachable_ok d : dreachable disp d → daemon_ok d.
Proof.
  intros Hd. apply (rtc_invariant _ _ _ _ dstep_ok Hd).
  split; cbn; try done.
  - exists AtMostOnce.start. split; [apply rtc_refl|done].
  - by intros k ?%elem_of_nil.
  - constructor.
  - split; [by intros i u m ?%elem_of_nil|]. intros i [p Hp]. by rewrite lookup_empty in Hp.
Qed.
End daemon.

(** ** From the bytes of the peers to the executor *)

Section composed.
Context (s : Service) (ticks : nat) (printable : Z → bool) (o : order) (resolver : option CapabilityContextResolver).
Context (disp : MessageDispatcher (W := handed)).

(** C9. The composed daemon is a run of the concurrent handlers of AtMostOnce.v.
    Whatever bytes arrive on however many connections, in whatever order their
    requests, the calls of their handlers, departures, crashes and restarts
    happen: there is a reachable world with the same ledger, the same executions
    and the same lost records, the threads of which are the commands in work. *)
Theorem daemon_refines_handlers d :
  daemon_dispatcher printable o fst resolver hand_over = Ok disp → dreachable s ticks disp d →
  ∃ w, AtMostOnce.reachable w ∧ w_system w = dm_system d ∧ w_threads w ≡ₚ threads (dm_peers d) ∧
    w_execs w = dm_execs d ∧ w_lost w = dm_lost d.
Proof. intros Hdisp Hd. apply (dreachable_ok s ticks printable o resolver disp Hdisp d Hd). Qed.

(** C2. From the socket to the executor. In the composed daemon a command of a
    user is executed at most once for every record the ledger has kept or lost,
    on whichever connections it arrives; it is executed only if a message that
    carries it was decoded from a connection of that user and reached the command
    handler; and a message ID reaches the command handler at most once on a
    connection. *)
Theorem daemon_executes_once d k :
  daemon_dispatcher printable o fst resolver hand_over = Ok disp → dreachable s ticks disp d →
  (count k (dm_execs d) ≤ 1 + count k (dm_lost d))%nat ∧
  (k ∈ dm_execs d → asked (dm_log d) k) ∧
  NoDup (map (λ x, (x.1.1, MessageID x.2)) (dm_log d)).
Proof.
  intros Hdisp Hd. destruct (dreachable_ok s ticks printable o resolver disp Hdisp d Hd) as [(w & Hw & _ & _ & <- & <-) _ _ He Ho _ _ _].
  split; [by apply at_most_once|]. by split; [apply He|].
Qed.
End composed.

(** ** An example: a drain request, from its bytes to its execution *)

Definition example_dispatcher : MessageDispatcher (W := handed) :=
  match daemon_dispatcher (λ _, true) map_to_list fst None hand_over with Ok d => d | Err _ => mkDispatcher ∅ ∅ 0 end.
Notation example_dstep := (dstep example_service 5 example_dispatcher).
Notation example_reachable := (dreachable example_service 5 example_dispatcher).

(** One call for the request in work on connection 0. *)
Definition drive_peer (ans : oracle) (now : Z) (d : daemon) : daemon :=
  match dm_system d, dm_peers d !! 0%nat with
  | Up l, Some p =>
      match pr_work p with
      | Some (mkWork m at_ c tr (Vis op k)) =>
          let '(x, l') := ledger_answer op now l (ans _ tr op) in
          mkDaemonState (Up l')
            (<[0%nat := set_work (pr_input p) (work_on op x (k x) (mkWork m at_ c tr (Vis op k))) p]> (dm_peers d)) (dm_next d)
            (execution op (work_key (pr_user p) (mkWork m at_ c tr (Vis op k))) ++ dm_execs d)
            (lost (rows (stored (dbs l))) (rows (stored (dbs l'))) ++ dm_lost d) (dm_log d)
      | _ => d
      end
  | _, _ => d
  end.

Lemma drive_peer_step ans now d : example_reachable d → example_reachable (drive_peer ans now d).
Proof.
  destruct d as [sys peers n ex lo log]. intros Hd. unfold drive_peer. cbn [dm_system dm_peers]. destruct sys as [l|st]; [|exact Hd].
  destruct (peers !! 0%nat) as [p|] eqn:Hp; [|exact Hd]. destruct (pr_work p) as [[m at_ c tr [r|X op k]]|] eqn:Hw; try exact Hd.
  pose proof (ledger_answered op now l (ans X tr op)) as Ha.
  destruct (ledger_answer op now l (ans X tr op)) as [x l']. eapply rtc_r; [exact Hd|].
  right. do 2 eexists. by apply (d_call peers n ex lo log 0 p (mkWork m at_ c tr (Vis op k)) X op k now l x l').
Qed.
Lemma drive_peer_reachable ans now n d : example_reachable d → example_reachable (Nat.iter n (drive_peer ans now) d).
Proof. intros Hd. induction n as [|n IH]; [exact Hd|]. by apply drive_peer_step. Qed.

Definition drain_input : Codec.reader := mkReader [frame drain_message] EEOF.
Definition drain_decoded : Envelope := (Decode drain_input).1.1.
Definition accepted_daemon : daemon :=
  mkDaemonState (w_system opened_world) {[0%nat := new_peer alice drain_input]} 1 [] [] [].
Definition dispatched_daemon : daemon :=
  let w := dispatch_work example_service 5 example_dispatcher 1753920000 alice NewNodeCache drain_decoded in
  mkDaemonState (w_system opened_world)
    {[0%nat := set_work (Decode drain_input).2 w (new_peer alice drain_input)]} 1 [] [] [(0%nat, alice, drain_decoded)].

Lemma dispatched_locally : rtc (local_step example_service 5 example_dispatcher) dstart dispatched_daemon.
Proof.
  assert (Decode drain_input = ((drain_decoded, None), (Decode drain_input).2)) as Hdec.
  { unfold drain_decoded. assert ((Decode drain_input).1.2 = None) as H by (by vm_compute).
    destruct (Decode drain_input) as [[m e] r]. cbn in *. by subst. }
  unfold dispatched_daemon, opened_world. cbn [w_system].
  destruct (run_op (OOpen [] "/" "" 100 []) (Down empty_store)) as [l|st] eqn:Hl; [|by vm_compute in Hl].
  assert (cached_answer 1753920000 drain_decoded ∅ = None) as Hc by (by vm_compute).
  assert (wk_command (dispatch_work example_service 5 example_dispatcher 1753920000 alice NewNodeCache drain_decoded) = true) as Hcmd
    by (by vm_compute).
  assert (rtc (local_step example_service 5 example_dispatcher) dstart (mkDaemonState (Up l) ∅ 0 [] [] [])) as H0.
  { eapply rtc_once. exact (d_open example_service 5 example_dispatcher [] "/" "" 100 [] empty_store (Up l) 0 [] [] [] (eq_sym Hl)). }
  eapply rtc_r; [eapply rtc_r; [exact H0|apply (d_accept _ _ _ l ∅ 0 [] [] [] alice drain_input)]|].
  pose proof (d_dispatch example_service 5 example_dispatcher (Up l) {[0%nat := new_peer alice drain_input]} 1 [] [] [] 0
    (new_peer alice drain_input) 1753920000 NewNodeCache drain_decoded (Decode drain_input).2 _
    (lookup_singleton_eq _ _) eq_refl Hdec Hc eq_refl) as H.
  change (pr_user (new_peer alice drain_input)) with alice in H. rewrite Hcmd in H. rewrite insert_singleton_eq in H. exact H.
Qed.
Lemma dispatched_reachable : example_reachable dispatched_daemon.
Proof. eapply (rtc_subrel _ _ _ _ _ dispatched_locally). Unshelve. intros d d' Hs. by left. Qed.

Definition executed_daemon : daemon := Nat.iter 15 (drive_peer friendly 500) dispatched_daemon.

Lemma daemon_refines_handlers_witness :
  dm_execs executed_daemon = [(1000%Z, "c-1")] ∧
  ∃ w, AtMostOnce.reachable w ∧ w_execs w = dm_execs executed_daemon.
Proof.
  split; [by vm_compute|].
  destruct (daemon_refines_handlers example_service 5 (λ _, true) map_to_list None example_dispatcher executed_daemon
    eq_refl (drive_peer_reachable friendly 500 15 _ dispatched_reachable)) as (w & Hw & _ & _ & He & _).
  exists w. split; [exact Hw|exact He].
Defined.

Lemma daemon_executes_once_witness :
  dm_execs executed_daemon = [(1000%Z, "c-1")] ∧
  (count (1000%Z, "c-1") (dm_execs executed_daemon) ≤ 1 + count (1000%Z, "c-1") (dm_lost executed_daemon))%nat.
Proof.
  split; [by vm_compute|].
  exact (proj1 (daemon_executes_once example_service 5 (λ _, true) map_to_list None example_dispatcher executed_daemon
    (1000%Z, "c-1") eq_refl (drive_peer_reachable friendly 500 15 _ dispatched_reachable))).
Defined.
