(* ===== verification/Privilege.v ===== *)
(** * Privilege: from the sockets to scontrol

    The daemon of Daemon.v with its real authorizer and executor: the client and
    the helper of NodeHelper.v with the D-Bus daemon between them, the authorizer
    of Authorization.v over the users Slurm knows, and a log of the command lines
    that scontrol was run with. *)
From S2P Require Import Prelude Utf8 Json Message Codec CommandPayload Connection Authorization Dispatcher Session.
From S2P Require Import Ledger LedgerLogic LedgerFacts LedgerHistory Service ServiceTraces AtMostOnce Daemon.
From S2P Require NodeHelper.
Open Scope Z_scope.

(** ** One privileged call *)

(** What the bus does with a method call and its reply: it may not deliver the
    call, or not the reply, and the client then sees an error of the bus; it may
    bring the helper's error by pointer or by value; or the client gets something
    the helper never sent, whether the call was delivered or not. The D-Bus daemon
    delivers a call at most once. *)
Inductive delivery : Type :=
| Lost (e : NodeHelper.cerror)
| ReplyLost (e : NodeHelper.cerror)
| Replied (by_value : bool)
| Forged (delivered : bool) (reply : result NodeHelper.cerror string).

(** The bus is faithful: its errors are not named like the helper's, and it forges
    no reply. *)
Definition foreign (e : NodeHelper.cerror) : Prop :=
  match e with NodeHelper.DBusErrorPointer name => name ∉ NodeHelper.definite_error_names | _ => True end.
Definition faithful (b : delivery) : Prop :=
  match b with Lost e | ReplyLost e => foreign e | Replied _ => True | Forged _ _ => False end.

(** The method call as the client sees it, and the command lines it ran. *)
Definition bus_call (svc : option NodeHelper.DBusService) (b : delivery) (sender : option NodeHelper.variant)
  (operation node reason : string) : result NodeHelper.cerror string * list (list string) :=
  let '(reply, runs) := NodeHelper.SetNodeState svc sender operation node reason in
  match b with
  | Lost e => (Err e, [])
  | ReplyLost e => (Err e, runs)
  | Replied by_value =>
      (match reply with
       | Ok r => Ok r
       | Err name => Err (if (by_value : bool) then NodeHelper.DBusErrorValue name else NodeHelper.DBusErrorPointer name)
       end, runs)
  | Forged delivered r => (r, if (delivered : bool) then runs else [])
  end.

(** [DBusExecutor.Execute] over the bus; nothing is sent without a client, nor an
    operation it refuses. *)
Definition sent (client : option bool) (operation : string) : bool :=
  match client with
  | Some true => streq operation NodeHelper.OperationNodeDrain || streq operation NodeHelper.OperationNodeResume
  | _ => false
  end.
Definition privileged_call (client : option bool) (svc : option NodeHelper.DBusService) (b : delivery)
  (sender : option NodeHelper.variant) (operation node reason : string)
  : result NodeHelper.cerror unit * list (list string) :=
  (NodeHelper.Execute client (λ o n r, (bus_call svc b sender o n r).1) operation node reason,
   if sent client operation then (bus_call svc b sender operation node reason).2 else []).

(** Who may have what run. *)
Definition run_allowed (svc : option NodeHelper.DBusService) (sender : option NodeHelper.variant)
  (operation node reason : string) (line : list string) : Prop :=
  (∃ args, line = NodeHelper.ScontrolPath :: args ∧ NodeHelper.BuildScontrolArgs operation node reason = Ok args) ∧
  ∃ s peer_uid name, svc = Some s ∧ NodeHelper.peers s = Some peer_uid ∧
    sender = Some (NodeHelper.VString name) ∧ peer_uid name = Some (NodeHelper.serviceUID s).

(** How a line that was run has ended. *)
Definition ended (svc : option NodeHelper.DBusService) (line : list string) (x : NodeHelper.run_outcome) : Prop :=
  ∃ s run, svc = Some s ∧ NodeHelper.runner s = Some run ∧ run NodeHelper.helperTimeout line = x.

(** What a client may conclude from an outcome. *)
Definition conclusion (svc : option NodeHelper.DBusService) (outcome : result NodeHelper.cerror unit)
  (runs : list (list string)) : Prop :=
  match outcome with
  | Ok _ => ∃ line, runs = [line] ∧ ended svc line (NodeHelper.Exited 0)
  | Err NodeHelper.ErrExecutionOutcomeUnknown => True
  | Err e => runs = [] ∨ ∃ line x, runs = [line] ∧ ended svc line x ∧ x ≠ NodeHelper.Exited 0 ∧
      e = NodeHelper.DBusErrorPointer (NodeHelper.dbusError "ExecutionFailed")
  end.

(** The lines, whatever the bus does. *)
Lemma privileged_lines client svc b sender operation node reason :
  let runs := (privileged_call client svc b sender operation node reason).2 in
  (∀ line, line ∈ runs → run_allowed svc sender operation node reason line) ∧ (length runs ≤ 1)%nat.
Proof.
  cbn [privileged_call snd]. destruct (sent client operation); [|split; [by intros ? ?%elem_of_nil|cbn; lia]].
  unfold bus_call. pose proof (NodeHelper.SetNodeState_cases svc sender operation node reason) as Hc. cbn zeta in Hc.
  destruct (NodeHelper.SetNodeState svc sender operation node reason) as [reply runs]. cbn [fst snd] in Hc.
  assert ((∀ line, line ∈ runs → run_allowed svc sender operation node reason line) ∧ (length runs ≤ 1)%nat) as H.
  { destruct Hc as [(-> & _)|(l & -> & (s & peer_uid & run & args & name & H1 & H2 & _ & H4 & H5 & H6 & _ & H7 & _))];
      (split; [|cbn; lia]); [by intros ? ?%elem_of_nil|].
    intros line ->%list_elem_of_singleton. split; [by exists args|by exists s, peer_uid, name]. }
  destruct b as [e|e|v|[] r]; cbn [snd]; try exact H; (split; [by intros ? ?%elem_of_nil|cbn; lia]).
Qed.

Lemma foreign_unknown e : foreign e → ∀ runs svc,
  conclusion svc (match e with
    | NodeHelper.DBusErrorPointer name =>
        if bool_decide (name ∈ NodeHelper.definite_error_names) then Err (NodeHelper.DBusErrorPointer name)
        else Err NodeHelper.ErrExecutionOutcomeUnknown
    | _ => Err NodeHelper.ErrExecutionOutcomeUnknown
    end) runs.
Proof. intros He runs svc. destruct e; cbn in *; try done. by rewrite bool_decide_eq_false_2. Qed.

(** The outcome, when the bus is faithful. *)
Lemma privileged_conclusion client svc b sender operation node reason : faithful b →
  let r := privileged_call client svc b sender operation node reason in conclusion svc r.1 r.2.
Proof.
  intros Hb. unfold privileged_call. cbn zeta. cbn [fst snd]. unfold NodeHelper.Execute, sent.
  destruct client as [[]|]; [| |by left].
  2: { destruct (negb _ && negb _); [by left|done]. }
  rewrite <-negb_orb. destruct (streq operation NodeHelper.OperationNodeDrain || streq operation NodeHelper.OperationNodeResume);
    cbn [negb]; [|by left].
  unfold bus_call. pose proof (NodeHelper.SetNodeState_cases svc sender operation node reason) as Hc. cbn zeta in Hc.
  destruct (NodeHelper.SetNodeState svc sender operation node reason) as [reply runs]. cbn [fst snd] in Hc.
  destruct b as [e|e|by_value|delivered r]; cbn [fst snd NodeHelper.caller_SetNodeState guard_err]; [| | |done].
  - pose proof (foreign_unknown e Hb [] svc) as H. by destruct e.
  - pose proof (foreign_unknown e Hb runs svc) as H. by destruct e.
  - destruct Hc as [(-> & [-> |[-> | ->]])|(line & -> & (s & peer_uid & run & args & name & H1 & _ & H3 & _ & _ & _ & _ & _ & ->))].
    1: by destruct by_value.
    1, 2: destruct by_value; [done|]; by left.
    destruct (run NodeHelper.helperTimeout line) as [|status| |] eqn:Hr; cbn [NodeHelper.run_failed];
      [|destruct (Z.eqb_spec status 0) as [->|Hne]; cbn [negb]| |].
    2: { exists line. split; [done|]. by exists s, run. }
    all: destruct by_value; [done|]; right; exists line; eexists; split; [done|]; (split; [by exists s, run|]); split; [|done];
      congruence.
Qed.

(** C20. One privileged call. Whatever the bus does with the call and its reply,
    even if it forges one: at most one command line is handed to the runner, only
    the one for the operation, the node and the reason, and only for a sender that
    the bus reports to have the UID of the service account. If the bus is
    faithful, that is, forges no reply and names none of its own errors like the
    helper's: a reported success means that the line was run and exited with zero;
    a definite failure means that nothing was run, or that the helper reported
    the line as failed because it could not be started, exited with another
    status, died of a signal or was killed by the helper's 30 s limit, in which
    last cases it may have reached Slurm. An error of the bus itself is always
    reported as an unknown outcome. *)
Theorem privileged_call_contract client svc b sender operation node reason :
  let '(outcome, runs) := privileged_call client svc b sender operation node reason in
  (∀ line, line ∈ runs → run_allowed svc sender operation node reason line) ∧
  (length runs ≤ 1)%nat ∧
  (faithful b →
   match outcome with
   | Ok _ => ∃ line, runs = [line] ∧ ended svc line (NodeHelper.Exited 0)
   | Err NodeHelper.ErrExecutionOutcomeUnknown => True
   | Err e => runs = [] ∨ ∃ line x, runs = [line] ∧ ended svc line x ∧ x ≠ NodeHelper.Exited 0 ∧
       e = NodeHelper.DBusErrorPointer (NodeHelper.dbusError "ExecutionFailed")
   end) ∧
  (∀ e, client = Some true → b = Lost e ∨ b = ReplyLost e → foreign e →
     operation = NodeHelper.OperationNodeDrain ∨ operation = NodeHelper.OperationNodeResume →
     outcome = Err NodeHelper.ErrExecutionOutcomeUnknown).
Proof.
  pose proof (privileged_conclusion client svc b sender operation node reason) as H.
  pose proof (privileged_lines client svc b sender operation node reason) as [Hl Hn].
  destruct (privileged_call client svc b sender operation node reason) as [outcome runs] eqn:Hcall.
  split; [done|]. split; [done|]. split; [exact H|]. intros e -> Hb He Hop.
  unfold privileged_call, NodeHelper.Execute in Hcall.
  replace (negb _ && negb _) with false in Hcall by (by destruct Hop as [-> | ->]).
  assert ((bus_call svc b sender operation node reason).1 = Err e) as Hbus.
  { unfold bus_call. destruct (NodeHelper.SetNodeState _ _ _ _ _). by destruct Hb as [-> | ->]. }
  rewrite Hbus in Hcall. cbn -[bool_decide sent bus_call NodeHelper.definite_error_names] in Hcall.
  destruct e; try congruence. cbn [foreign] in He. rewrite bool_decide_eq_false_2 in Hcall by done. congruence.
Qed.

(** A helper that has started runs command lines only as SlurmUser, and only for
    the account of the daemon. *)
Theorem helper_privileges accounts euid bus export owner exec peer_uid client uid b sender operation node reason line :
  NodeHelper.Run accounts euid bus export owner = Ok uid →
  line ∈ (privileged_call client (Some (NodeHelper.NewDBusService exec uid (Some peer_uid) None)) b sender operation node reason).2 →
  (∃ name text, accounts NodeHelper.SlurmAccount = Some (name, text) ∧ NodeHelper.ParseUint32 text = Some euid) ∧
  ∃ name text caller, accounts NodeHelper.ServiceAccount = Some (name, text) ∧
    sender = Some (NodeHelper.VString caller) ∧ peer_uid caller = NodeHelper.ParseUint32 text.
Proof.
  intros (_ & Hslurm & name & text & Ha & Hu)%NodeHelper.Run_as_slurm Hline. split; [done|].
  destruct (privileged_lines client (Some (NodeHelper.NewDBusService exec uid (Some peer_uid) None)) b sender operation node reason) as [Hruns _].
  destruct (Hruns line Hline) as (_ & s & p & caller & [= <-] & [= <-] & -> & Hp). exists name, text, caller. by rewrite Hu.
Qed.

(** A definite failure of the helper that the bus library returns by value, and
    not by pointer, is taken for an unknown outcome. *)
Theorem error_by_value_is_unknown svc sender operation node reason name :
  operation = NodeHelper.OperationNodeDrain ∨ operation = NodeHelper.OperationNodeResume →
  (NodeHelper.SetNodeState svc sender operation node reason).1 = Err name →
  (privileged_call (Some true) svc (Replied true) sender operation node reason).1 = Err NodeHelper.ErrExecutionOutcomeUnknown.
Proof.
  intros Hop Hr. unfold privileged_call, NodeHelper.Execute. cbn [fst].
  replace (negb _ && negb _) with false by (by destruct Hop as [-> | ->]).
  unfold bus_call. destruct (NodeHelper.SetNodeState svc sender operation node reason) as [reply runs].
  cbn [fst] in Hr. by subst reply.
Qed.

(** ** The daemon with its collaborators *)

Section system.
Context (s : Service) (ticks : nat) (printable : Z → bool) (o : NodeCache.order) (resolver : option CapabilityContextResolver).
Context (disp : MessageDispatcher (W := handed)).
(** The answers Slurm's user database may give. *)
Context (db : SlurmUserLookup → Prop).

(** The calls to the authorizer and to the executor are answered by the code,
    which runs these command lines, whatever client and helper there are at the
    time, and whatever the bus and scontrol do; AtMostOnce.v answers for the ledger, and the
    others may answer anything. *)
Definition genuine {X} (op : Service.op X) : X → list (list string) → Prop :=
  match op in Service.op X return X → list (list string) → Prop with
  | EAuthorize u operation => λ x runs, runs = [] ∧ ∃ users, db users ∧
      x = Authorize (s_registry s) (Some (Resolve (Some users))) u operation
  | EExecute operation node reason => λ x runs, ∃ client svc b sender,
      (x, runs) = privileged_call client svc b sender operation node reason
  | _ => λ _ runs, runs = []
  end.
Definition genuine_event (e : event) (runs : list (list string)) : Prop := match e with Ev op x => genuine op x runs end.

(** The state: the daemon, and the command lines that were run, each with the
    command it was run for. *)
Definition privileged : Type := daemon * list (key * list string).
Inductive pstep : privileged → privileged → Prop :=
| p_local d d' rs : local_step s ticks disp d d' → pstep (d, rs) (d', rs)
| p_call k e d d' rs runs : call_step k e d d' → genuine_event e runs → pstep (d, rs) (d', map (pair k) runs ++ rs).
Definition preachable (st : privileged) : Prop := rtc pstep (dstart, []) st.

(** ** What a run is justified by *)

(** The command line of a request. *)
Definition line_of (request : NodeCommandRequestPayload) : list string :=
  NodeHelper.ScontrolPath :: "update" :: ("NodeName=" +:+ NodeName (Target request)) ::
  match Reason (Parameters request) with
  | Some reason => ["State=DRAIN"; "Reason=" +:+ reason]
  | None => ["State=RESUME"]
  end.

Definition is_admin (u : UserContext) : Prop :=
  ∃ users su, db users ∧ users (Username u) = Ok (Some su) ∧ su_Username su = Username u ∧
    to_lower (trim_space (su_AdminLevel su)) ∈ ["admin"; "administrator"].

Definition justified (log : list (nat * UserContext * Envelope)) (run : key * list string) : Prop :=
  ∃ id u m request, (id, u, m) ∈ log ∧ DecodeNodeCommandRequestPayload (Payload m) = Ok request ∧
    run = ((UID u, CommandID request), line_of request) ∧ is_admin u.

Definition runs_for (k : key) (rs : list (key * list string)) : nat := length (filter (λ r, r.1 = k) rs).

(** The decision in the past of a handler was the authorizer's. *)
Definition authentic (e : event) : Prop := ∃ runs, genuine_event e runs.

Record privileged_ok (st : privileged) : Prop := {
  pk_daemon : daemon_ok st.1;
  pk_traces : ∀ id p w, dm_peers st.1 !! id = Some p → pr_work p = Some w → Forall authentic (wk_trace w);
  pk_count : ∀ k, (runs_for k st.2 ≤ count k (dm_execs st.1))%nat;
  pk_runs : Forall (justified (dm_log st.1)) st.2;
}.

Lemma justified_mono log log' run : log `prefix_of` log' → justified log run → justified log' run.
Proof.
  intros [l ->] (id & u & m & request & Hin & H). exists id, u, m, request. split; [|done]. apply elem_of_app. by left.
Qed.

(** A request in work that can execute is a thread of the world. *)
Lemma work_permitted d id p w X (op : Service.op X) k request :
  daemon_ok d → dm_peers d !! id = Some p → pr_work p = Some w → wk_prog w = Vis op k → wk_command w = true →
  DecodeNodeCommandRequestPayload (Payload (wk_message w)) = Ok request →
  permitted (pr_user p) request (wk_trace w) op.
Proof.
  intros Hd Hp Hw Hk Hcmd Hreq. destruct (dk_world _ Hd) as (y & Hy & _ & Hts & _).
  pose proof (wk_threads _ (AtMostOnce.reachable_ok y Hy)) as Hall. rewrite Hts, (threads_delete _ id p Hp) in Hall.
  unfold peer_threads in Hall. rewrite Hw in Hall. cbn in Hall. unfold thread_of in Hall.
  rewrite Hcmd, Hreq in Hall. apply Forall_inv in Hall. cbn in Hall. rewrite Hk in Hall. apply Hall.
Qed.

Lemma authorized_admin r users u operation d :
  Authorize r (Some (Resolve (Some users))) u operation = Ok d → decision_ok u d →
  ∃ su, users (Username u) = Ok (Some su) ∧ su_Username su = Username u ∧
    to_lower (trim_space (su_AdminLevel su)) ∈ ["admin"; "administrator"].
Proof.
  unfold Authorize. destruct r as [r|]; [|done]. destruct (registry_Lookup (Some r) operation) as [entry|]; [|done].
  destruct (Resolve (Some users) u) as [c|] eqn:Hr; [|done]. intros H (_ & Hadmin & _). inv_ok. subst d.
  apply Resolve_Ok in Hr as (_ & _ & _ & _ & (lookup & su & [= <-] & Hl & Hs & Ha) & _). cbn in Hadmin. rewrite Hadmin in Ha.
  apply normalizeAdminLevel_admin in Ha. by exists su.
Qed.

(** The operation of a decoded request that makes a command line is its own. *)
Lemma args_line operation request args :
  valid_request request →
  NodeHelper.BuildScontrolArgs operation (NodeName (Target request)) (default "" (Reason (Parameters request))) = Ok args →
  NodeHelper.ScontrolPath :: args = line_of request.
Proof.
  intros [_ _ _ _ Hpar] (_ & Hargs)%NodeHelper.BuildScontrolArgs_iff. unfold line_of.
  destruct Hpar as [(_ & reason & Hr & Hok)| Hp]; [rewrite Hr in *|rewrite Hp in *]; cbn in Hargs |- *.
  - destruct Hargs as [(_ & _ & ->)|(_ & -> & ->)]; [done|]. by vm_compute in Hok.
  - destruct Hargs as [(_ & [Hne _] & ->)|(_ & _ & ->)]; [|done]. by destruct Hne.
Qed.

(** What happens between the calls leaves the executions and the pasts alone. *)
Lemma local_step_facts d d' : local_step s ticks disp d d' →
  dm_execs d' = dm_execs d ∧ dm_log d `prefix_of` dm_log d' ∧
  ∀ id p w, dm_peers d' !! id = Some p → pr_work p = Some w → wk_trace w = [] ∨ dm_peers d !! id = Some p.
Proof.
  assert (∀ (peers : gmap nat peer) i q id p w, (pr_work q = None ∨ ∃ w', pr_work q = Some w' ∧ wk_trace w' = []) →
    <[i := q]> peers !! id = Some p → pr_work p = Some w → wk_trace w = [] ∨ peers !! id = Some p) as Hins.
  { intros peers i q id p w Hq [[<- <-]|[_ Hp]]%lookup_insert_Some Hw; [|by right]. left. destruct Hq as [?|(w' & ? & ?)]; congruence. }
  assert (∀ (peers : gmap nat peer) i id p w, delete i peers !! id = Some p → pr_work p = Some w →
    wk_trace w = [] ∨ peers !! id = Some p) as Hdel by (intros peers i id p w [_ Hp]%lookup_delete_Some _; by right).
  intros [l peers n ex lo log user input|d0 id p now m input a Hp Hw Hdec Hc
    |sys peers n ex lo log id p now cache m input w Hp Hw Hdec Hc ->
    |d0 id p w r Hp Hw Hr|d0 id p Hp Hw|l peers n ex lo log|outcomes cwd path now ans st y n ex lo log ->].
  - split; [done|]. split; [done|]. cbn. intros i q w. apply Hins. by left.
  - destruct (a_close a); (split; [done|]; split; [done|]); intros i q w; [apply Hdel|apply Hins; by left].
  - split; [done|]. split; [by apply prefix_app_r|]. cbn [dm_peers]. intros i q w. apply Hins. right.
    eexists. split; [reflexivity|]. unfold dispatch_work. by destruct (DispatchWithUser _ _ _ _ _) as [r [c [cache' [|[u x] calls]]]].
  - split; [done|]. split; [done|]. intros i q w'. apply Hins. by left.
  - split; [done|]. split; [done|]. intros i q w. apply Hdel.
  - split; [done|]. split; [done|]. cbn. intros i q w Hq. by rewrite lookup_empty in Hq.
  - split; [done|]. split; [done|]. cbn. intros i q w Hq. by rewrite lookup_empty in Hq.
Qed.

Lemma runs_for_app k l1 l2 : runs_for k (l1 ++ l2) = (runs_for k l1 + runs_for k l2)%nat.
Proof. unfold runs_for. by rewrite filter_app, length_app. Qed.
Lemma runs_for_pairs k k' (runs : list (list string)) :
  runs_for k (map (pair k') runs) = if decide (k' = k) then length runs else 0%nat.
Proof.
  unfold runs_for. induction runs as [|line runs IH]; [by destruct (decide _)|]. cbn [map]. rewrite filter_cons. cbn [fst].
  destruct (decide (k' = k)); cbn; by rewrite IH.
Qed.
Lemma count_one k k' : count k [k'] = if decide (k' = k) then 1%nat else 0%nat.
Proof. unfold count. rewrite filter_cons. by repeat case_decide. Qed.

(** A run is a run of the request in work, an administrator's. *)
Lemma run_justified d id p w operation node reason k client svc b sender x runs :
  daemon_ok d → dm_peers d !! id = Some p → pr_work p = Some w → wk_prog w = Vis (EExecute operation node reason) k →
  Forall authentic (wk_trace w) →
  (x, runs) = privileged_call client svc b sender operation node reason →
  (length runs ≤ 1)%nat ∧ Forall (justified (dm_log d)) (map (pair (work_key (pr_user p) w)) runs).
Proof.
  intros Hd Hp Hw Hk Hauth Hcall.
  pose proof (privileged_lines client svc b sender operation node reason) as (Hlines & Hlen).
  rewrite <-Hcall in Hlines, Hlen. cbn [snd] in Hlines, Hlen. split; [done|].
  apply Forall_forall. intros r (line & -> & Hline)%list_elem_of_fmap. destruct (Hlines line Hline) as [(args & -> & Hargs) _].
  assert (∃ request, wk_command w = true ∧ DecodeNodeCommandRequestPayload (Payload (wk_message w)) = Ok request) as (request & Hcmd & Hreq).
  { destruct (thread_of (pr_user p) w) as [t|] eqn:Ht.
    - revert Ht. unfold thread_of. destruct (wk_command w); [|done].
      destruct (DecodeNodeCommandRequestPayload _) as [request|]; [by exists request|done].
    - pose proof (dk_plain _ Hd id p w Hp Hw Ht) as Hpl. by rewrite Hk in Hpl. }
  pose proof (work_permitted d id p w _ _ _ request Hd Hp Hw Hk Hcmd Hreq) as (Hst & _ & -> & -> & _).
  destruct Hst as (claim & record & dec & accept_data & run_data & Hsub & _ & _ & Hdec & _).
  assert (Ev (EAuthorize (pr_user p) operation) (Ok dec) ∈ wk_trace w) as Hin
    by (eapply elem_of_submseteq; [|by apply sublist_submseteq]; right; by left).
  rewrite Forall_forall in Hauth. destruct (Hauth _ Hin) as (runs' & _ & users & Hdb & Ha).
  pose proof (authorized_admin _ _ _ _ _ (eq_sym Ha) Hdec) as (su & Hsu & Hname & Hadmin).
  destruct (decode_request_sound _ _ Hreq) as [Hvalid _].
  exists id, (pr_user p), (wk_message w), request. split; [by apply (dk_log _ Hd id p w)|]. split; [done|]. split.
  - unfold work_key. rewrite Hreq. by rewrite <-(args_line operation request args Hvalid Hargs).
  - by exists users, su.
Qed.

Lemma pstep_ok st st' : daemon_dispatcher printable o fst resolver hand_over = Ok disp →
  pstep st st' → privileged_ok st → privileged_ok st'.
Proof.
  intros Hdisp [d d' rs Hs|key e d d' rs runs Hs Hg] [Hd Htr Hcount Hruns]; cbn [fst snd] in *.
  - destruct (local_step_facts d d' Hs) as (Hex & Hlog & Hwork). split; cbn [fst snd].
    + apply (dstep_ok s ticks printable o resolver disp Hdisp d); [by left|done].
    + intros id p w Hp Hw. destruct (Hwork id p w Hp Hw) as [->|Hold]; [done|by eapply Htr].
    + by rewrite Hex.
    + eapply Forall_impl; [exact Hruns|]. intros run. by apply justified_mono.
  - assert (daemon_ok d') as Hd' by (apply (dstep_ok s ticks printable o resolver disp Hdisp d); [right; by exists key, e|done]).
    destruct Hs as [peers n ex lo log id p w X op k now l x l' Hp Hw Hk Ha].
    assert (Forall authentic (wk_trace w)) as Hauth by (by eapply Htr).
    assert (execution op (work_key (pr_user p) w) = [] ∧ runs = [] ∨
      execution op (work_key (pr_user p) w) = [work_key (pr_user p) w] ∧ (length runs ≤ 1)%nat ∧
      Forall (justified log) (map (pair (work_key (pr_user p) w)) runs)) as Hcase.
    { destruct op; cbn in Hg; try (left; by split); [left; split; [done|apply Hg]|]. right. split; [done|].
      destruct Hg as (client & svc & b & sender & Hcall).
      exact (run_justified _ id p w _ _ _ k client svc b sender x runs Hd Hp Hw Hk Hauth Hcall). }
    split; cbn [fst snd]; [done|..].
    + intros i q y. cbn [dm_peers]. intros [[<- <-]|[_ Hq]]%lookup_insert_Some Hy; [|by eapply Htr].
      injection Hy as <-. cbn. apply Forall_app. split; [done|]. constructor; [by exists runs|done].
    + intros k'. rewrite runs_for_app, runs_for_pairs. cbn [dm_execs]. rewrite count_app.
      specialize (Hcount k'). cbn [dm_execs] in Hcount. destruct Hcase as [[_ ->]|(-> & Hlen & _)].
      * cbn. destruct (decide _); lia.
      * rewrite count_one. destruct (decide _); lia.
    + cbn [dm_log]. apply Forall_app. split; [|done]. by destruct Hcase as [[_ ->]|(_ & _ & H)].
Qed.

Lemma preachable_ok st : daemon_dispatcher printable o fst resolver hand_over = Ok disp → preachable st → privileged_ok st.
Proof.
  intros Hdisp Hst. apply (rtc_invariant _ _ _ _ (λ a b, pstep_ok a b Hdisp) Hst).
  split; cbn; try done. apply (dreachable_ok s ticks printable o resolver disp Hdisp), rtc_refl.
Qed.

(** C1. From the socket to scontrol. In every state the daemon reaches with its
    real dispatcher, command handlers, ledger, authorizer and privileged helper,
    whatever the bytes, the interleaving, the bus, crashes and restarts: every
    command line that was run is the one of a command that was decoded from a
    connection of its user and that Slurm had named an administrator; and scontrol
    ran for a command at most once for every record the ledger has kept or lost. *)
Theorem scontrol_contract d rs :
  daemon_dispatcher printable o fst resolver hand_over = Ok disp → preachable (d, rs) →
  (∀ k line, (k, line) ∈ rs → ∃ id u m request, (id, u, m) ∈ dm_log d ∧
     DecodeNodeCommandRequestPayload (Payload m) = Ok request ∧
     k = (UID u, CommandID request) ∧ line = line_of request ∧ is_admin u) ∧
  ∀ k, (runs_for k rs ≤ 1 + count k (dm_lost d))%nat.
Proof.
  intros Hdisp Hst. destruct (preachable_ok _ Hdisp Hst) as [Hd _ Hcount Hruns]. cbn [fst snd] in *. split.
  - intros k line Hin. rewrite Forall_forall in Hruns.
    destruct (Hruns _ Hin) as (id & u & m & request & H1 & H2 & [= -> ->] & H3). by exists id, u, m, request.
  - intros k. destruct (dk_world _ Hd) as (w & Hw & _ & _ & Hex & Hlo).
    pose proof (at_most_once w k Hw) as Hone. rewrite Hex, Hlo in Hone.
    exact (Nat.le_trans _ _ _ (Hcount k) Hone).
Qed.
End system.

(** A helper for the account 990 over a runner. *)
Definition example_helper (run : NodeHelper.run_outcome) : option NodeHelper.DBusService :=
  Some (NodeHelper.NewDBusService (λ _ _, run) 990 (Some (λ _, Some 990)) None).
Definition example_sender : option NodeHelper.variant := Some (NodeHelper.VString ":1.7").

Lemma privileged_call_contract_witness :
  let r := privileged_call (Some true) (example_helper (NodeHelper.Exited 1)) (Replied false) example_sender "node.resume" "n1" "" in
  r = (Err (NodeHelper.DBusErrorPointer (NodeHelper.dbusError "ExecutionFailed")),
    [[NodeHelper.ScontrolPath; "update"; "NodeName=n1"; "State=RESUME"]]) ∧ (length r.2 ≤ 1)%nat ∧ conclusion (example_helper (NodeHelper.Exited 1)) r.1 r.2 ∧
  (privileged_call (Some true) (example_helper (NodeHelper.Exited 0)) (ReplyLost NodeHelper.ErrDeadlineExceeded) example_sender
     "node.resume" "n1" "").1 = Err NodeHelper.ErrExecutionOutcomeUnknown.
Proof.
  split; [by vm_compute|].
  pose proof (privileged_call_contract (Some true) (example_helper (NodeHelper.Exited 1)) (Replied false) example_sender
    "node.resume" "n1" "") as H.
  destruct (privileged_call _ _ _ _ _ _ _) as [outcome runs]. destruct H as (_ & Hn & Hc & _).
  split; [exact Hn|]. split; [exact (Hc I)|].
  pose proof (privileged_call_contract (Some true) (example_helper (NodeHelper.Exited 0)) (ReplyLost NodeHelper.ErrDeadlineExceeded)
    example_sender "node.resume" "n1" "") as H2.
  destruct (privileged_call _ _ _ _ _ _ _) as [outcome2 runs2]. destruct H2 as (_ & _ & _ & Hu).
  exact (Hu NodeHelper.ErrDeadlineExceeded eq_refl (or_intror eq_refl) I (or_intror eq_refl)).
Defined.

(** ** The drain request of Daemon.v, as far as scontrol *)

(** The authorizer knows alice and the bus delivers everything. *)
Definition real_answer {X} (op : Service.op X) (tr : list event) : X * list (list string) :=
  match op in Service.op X return X → X * list (list string) with
  | EExecute operation node reason => λ _,
      privileged_call (Some true) (example_helper (NodeHelper.Exited 0)) (Replied false) example_sender operation node reason
  | _ => λ x, (x, [])
  end (friendly X tr op).
Notation example_pstep := (pstep example_service 5 example_dispatcher (λ users, users = example_lookup)).
Notation example_preachable :=
  (preachable example_service 5 example_dispatcher (λ users, users = example_lookup)).

Lemma real_answer_genuine {X} (op : Service.op X) tr now l :
  genuine example_service (λ users, users = example_lookup) op
    (ledger_answer op now l (real_answer op tr).1).1 (real_answer op tr).2.
Proof.
  destruct op; cbn; try done; [split; [done|]; by exists example_lookup|].
  exists (Some true), (example_helper (NodeHelper.Exited 0)), (Replied false), example_sender. apply surjective_pairing.
Qed.

(** One call for the request in work on connection 0. *)
Definition drive_scontrol (now : Z) (st : privileged) : privileged :=
  let '(d, rs) := st in
  match dm_system d, dm_peers d !! 0%nat with
  | Up _, Some p =>
      match pr_work p with
      | Some (mkWork m at_ c tr (Vis op k)) =>
          (drive_peer (λ _ tr op, (real_answer op tr).1) now d,
           map (pair (work_key (pr_user p) (mkWork m at_ c tr (Vis op k)))) (real_answer op tr).2 ++ rs)
      | _ => st
      end
  | _, _ => st
  end.

Lemma drive_scontrol_step now st : example_preachable st → example_preachable (drive_scontrol now st).
Proof.
  destruct st as [[sys peers n ex lo log] rs]. intros Hst. unfold drive_scontrol. cbn [dm_system dm_peers].
  destruct sys as [l|store]; [|exact Hst]. destruct (peers !! 0%nat) as [p|] eqn:Hp; [|exact Hst].
  destruct (pr_work p) as [[m at_ c tr [r|X op k]]|] eqn:Hw; try exact Hst.
  pose proof (ledger_answered op now l (real_answer op tr).1) as Ha. pose proof (real_answer_genuine op tr now l) as Hg.
  unfold drive_peer. cbn [dm_system dm_peers]. rewrite Hp, Hw.
  destruct (ledger_answer op now l (real_answer op tr).1) as [x l']. eapply rtc_r; [exact Hst|].
  apply (p_call _ _ _ _ _ (Ev op x)); [|exact Hg].
  by apply (d_call peers n ex lo log 0 p (mkWork m at_ c tr (Vis op k)) X op k now l x l').
Qed.

Lemma drive_scontrol_reachable now n st : example_preachable st → example_preachable (Nat.iter n (drive_scontrol now) st).
Proof. intros Hst. induction n as [|n IH]; [exact Hst|]. by apply drive_scontrol_step. Qed.

Lemma dispatched_preachable : example_preachable (dispatched_daemon, []).
Proof.
  refine (rtc_congruence (λ d, (d, [])) _ _ _ _ dispatched_locally).
  intros d d' Hs. by apply p_local.
Qed.

Definition scontrol_run : privileged := Nat.iter 15 (drive_scontrol 500) (dispatched_daemon, []).
Lemma scontrol_run_reachable : example_preachable (scontrol_run.1, scontrol_run.2).
Proof. rewrite <-surjective_pairing. apply drive_scontrol_reachable, dispatched_preachable. Qed.

Lemma scontrol_contract_witness :
  scontrol_run.2 = [((1000, "c-1"), [NodeHelper.ScontrolPath; "update"; "NodeName=n1"; "State=DRAIN"; "Reason=disk"])] ∧
  ∀ k, (runs_for k scontrol_run.2 ≤ 1 + count k (dm_lost scontrol_run.1))%nat.
Proof.
  split; [by vm_compute|].
  exact (proj2 (scontrol_contract example_service 5 (λ _, true) map_to_list None example_dispatcher
    (λ users, users = example_lookup) scontrol_run.1 scontrol_run.2 eq_refl scontrol_run_reachable)).
Defined.
