(* ===== verification/Process.v ===== *)
(** * Process: from [Serve] to the exit of the daemon

    The second half of [main] in [cmd/cockpit-slurm/main.go], after the start-up
    of Startup.v: the signals, the goroutine of the synchronizer, [Serve] with the
    goroutine that waits for the context, and the deferred calls, over the server
    of Server.v in every interleaving. *)
From S2P Require Import Prelude Server.
Open Scope Z_scope.

(** ** The state of the process *)

(** The deferred calls of [main], in the order in which they run. *)
Inductive deferred : Type := CloseExecutor | CloseLedger | StopNotify.
#[export] Instance deferred_eq_dec : EqDecision deferred.
Proof. solve_decision. Defined.
Definition deferred_calls : list deferred := [CloseExecutor; CloseLedger; StopNotify].

(** [main] is inside [Serve], has returned from it and runs its deferred calls,
    or the process has ended, in success or by [log.Fatalf]. *)
Inductive main_state : Type :=
| InServe
| Returning (rest : list deferred)
| Exited (success : bool).

(** [pr_ctx]: the context is cancelled; [pr_sync]: the synchronizer runs;
    [pr_done]: the deferred calls that were made. *)
Record process : Type := mkProcess {
  pr_server : life;
  pr_ctx : bool;
  pr_sync : bool;
  pr_main : main_state;
  pr_done : list deferred;
}.

Definition alive (p : process) : Prop := ∀ b, pr_main p ≠ Exited b.
Definition set_life (l : life) (p : process) : process := mkProcess l (pr_ctx p) (pr_sync p) (pr_main p) (pr_done p).
Definition set_main (m : main_state) (p : process) : process :=
  mkProcess (pr_server p) (pr_ctx p) (pr_sync p) m (pr_done p).

(** A signal; [stop] cancels the context too. *)
Definition cancel (p : process) : process := mkProcess (pr_server p) true (pr_sync p) (pr_main p) (pr_done p).
Definition sync_ends (p : process) : process := mkProcess (pr_server p) (pr_ctx p) false (pr_main p) (pr_done p).

(** [Serve] has returned: without an error when the server is closed, and else
    [log.Fatalf] ends the process without the deferred calls. *)
Definition served (p : process) : process :=
  set_main (if isClosed (server (pr_server p)) then Returning deferred_calls else Exited false) p.
Definition run_deferred (d : deferred) (rest : list deferred) (p : process) : process :=
  mkProcess (pr_server p) (if bool_decide (d = StopNotify) then true else pr_ctx p) (pr_sync p) (Returning rest) (pr_done p ++ [d]).

(** The only caller of [Close] is the goroutine of [Serve], number 0, when the
    context is cancelled; the other steps of the server call nobody. *)
Inductive process_step (p : process) : process → Prop :=
| p_signal : alive p → process_step p (cancel p)
| p_sync_ends : alive p → pr_ctx p = true → process_step p (sync_ends p)
| p_server l : alive p → life_step (pr_server p) l → dom (closers l) = dom (closers (pr_server p)) →
    process_step p (set_life l p)
| p_close : alive p → pr_ctx p = true → closers (pr_server p) !! 0%nat = None →
    process_step p (set_life (close_begins 0 (pr_server p)) p)
| p_served : pr_main p = InServe → accepting (pr_server p) = Returned → process_step p (served p)
| p_deferred d rest : pr_main p = Returning (d :: rest) → process_step p (run_deferred d rest p)
| p_exit : pr_main p = Returning [] → process_step p (set_main (Exited true) p).

(** [main] when [Listen] has succeeded. *)
Definition serving (path : string) : process := mkProcess (listening path) false true InServe [].
Definition process_reachable (path : string) (p : process) : Prop := rtc process_step (serving path) p.

(** ** The invariant *)

(** Between [Serve] and the end, what is left to do and what is done are the
    deferred calls. *)
Definition main_ok (p : process) : Prop :=
  match pr_main p with
  | InServe | Exited false => pr_done p = []
  | Returning rest => pr_done p ++ rest = deferred_calls
  | Exited true => pr_done p = deferred_calls
  end.
Definition returned_ok (p : process) : Prop :=
  match pr_main p with
  | InServe => True
  | Exited false => accepting (pr_server p) = Returned
  | _ => accepting (pr_server p) = Returned ∧ closed (server (pr_server p)) = true
  end.

Record process_ok (path : string) (p : process) : Prop := {
  po_life : life_reachable path (pr_server p);
  po_closers : ∀ t, is_Some (closers (pr_server p) !! t) → t = 0%nat ∧ pr_ctx p = true;
  po_main : main_ok p;
  po_returned : returned_ok p;
  po_sync : pr_sync p = false → pr_ctx p = true;
}.

(** A closed server was closed because the context was cancelled. *)
Lemma closed_cancelled path p : process_ok path p → closed (server (pr_server p)) = true → pr_ctx p = true.
Proof.
  intros [Hl Hc _ _ _] Hcl. destruct (ok_closed _ (life_reachable_ok _ _ Hl) Hcl) as (t & x & Ht & _).
  apply (Hc t). by exists x.
Qed.

Lemma returned_stays l l' : life_step l l' → accepting l = Returned → accepting l' = Returned.
Proof.
  intros Hs Ha. destruct Hs as [| | | | | | |t Ht|t rest u Ht| | |t a| ]; try congruence; try exact Ha.
  - unfold close_begins. by destruct (closed (server l)).
  - by destruct u.
  - by destruct a.
Qed.

Lemma close_begins_closes t l : closed (server (close_begins t l)) = true.
Proof. unfold close_begins. by destruct (closed (server l)) eqn:Hc. Qed.

(** A step of the server under a live process. *)
Lemma ok_life path p l : alive p → process_ok path p → life_step (pr_server p) l →
  (∀ t, is_Some (closers l !! t) → t = 0%nat ∧ pr_ctx p = true) → process_ok path (set_life l p).
Proof.
  intros Ha [Hl Hc Hm Hr Hs] Hst Hcl. split; try done; [by eapply rtc_r|].
  unfold returned_ok in *. cbn [set_life pr_main pr_server]. destruct (pr_main p) as [|rest|b] eqn:Hmain; [done| |by destruct (Ha b)].
  destruct Hr as [Hr1 Hr2]. split; [by eapply returned_stays|].
  by destruct (closed_step _ _ (life_reachable_ok _ _ Hl) Hr2 Hst).
Qed.

Lemma process_step_ok path p p' : process_step p p' → process_ok path p → process_ok path p'.
Proof.
  intros Hst Hp. pose proof Hp as [Hl Hc Hm Hr Hs].
  destruct Hst as [Ha|Ha Hctx|l Ha Hst Hdom|Ha Hctx Hno|Hmain Hret|d rest Hmain|Hmain].
  - split; try done. intros t Ht. by destruct (Hc t Ht).
  - by split.
  - apply ok_life; try done. intros t Ht%elem_of_dom. rewrite Hdom in Ht. by apply Hc, elem_of_dom.
  - apply ok_life; try done; [by apply step_close|]. intros t. unfold close_begins.
    destruct (closed (server (pr_server p))); cbn; rewrite lookup_insert_is_Some;
      intros [<-|[_ Ht]]; auto.
  - unfold main_ok in Hm. rewrite Hmain in Hm. unfold served. split; try done.
    + unfold main_ok. cbn. destruct (isClosed _); [by rewrite Hm|done].
    + unfold returned_ok, isClosed. cbn. by destruct (closed _) eqn:Hcl.
  - unfold main_ok, returned_ok in Hm, Hr. rewrite Hmain in Hm, Hr. split; try done; cbn.
    + intros t Ht. destruct (Hc t Ht) as [-> ->]. by case_bool_decide.
    + unfold main_ok. cbn. by rewrite <-app_assoc.
    + intros H. rewrite (Hs H). by case_bool_decide.
  - unfold main_ok, returned_ok in Hm, Hr. rewrite Hmain in Hm, Hr. split; try done.
    unfold main_ok. cbn. by rewrite app_nil_r in Hm.
Qed.

Lemma process_reachable_ok path p : process_reachable path p → process_ok path p.
Proof.
  intros Hp. apply (rtc_invariant _ _ _ _ (process_step_ok path) Hp).
  split; try done; [apply rtc_refl|]. intros t [x Hx]. cbn in Hx. by rewrite lookup_empty in Hx.
Qed.

(** ** The process ends *)

Lemma deferred_end p rest : pr_main p = Returning rest → ∃ p', rtc process_step p p' ∧ pr_main p' = Exited true.
Proof.
  revert p. induction rest as [|d rest IH]; intros p Hm.
  - exists (set_main (Exited true) p). split; [|done]. apply rtc_once. by apply p_exit.
  - destruct (IH (run_deferred d rest p) eq_refl) as (p' & Hp' & He). exists p'. split; [|done].
    eapply rtc_l; [by apply p_deferred|done].
Qed.

(** The server is closed, or somebody who is about to call [Close] will. *)
Lemma close_happens path p : process_ok path p → pr_main p = InServe → pr_ctx p = true →
  ∃ p', rtc process_step p p' ∧ pr_main p' = InServe ∧ closed (server (pr_server p')) = true.
Proof.
  intros Hp Hm Hctx. destruct (closed (server (pr_server p))) eqn:Hcl; [by exists p|].
  exists (set_life (close_begins 0 (pr_server p)) p). split; [|split; [done|apply close_begins_closes]].
  apply rtc_once, p_close; [by intros b; rewrite Hm|done|].
  by apply (ok_not_closed _ (life_reachable_ok _ _ (po_life _ _ Hp))).
Qed.

Lemma serve_returns p : pr_main p = InServe → closed (server (pr_server p)) = true →
  ∃ p', rtc process_step p p' ∧ pr_main p' = InServe ∧ closed (server (pr_server p')) = true ∧ accepting (pr_server p') = Returned.
Proof.
  intros Hm Hcl. assert (alive p) as Ha by (by intros b; rewrite Hm).
  destruct (accepting (pr_server p)) as [|c|] eqn:Hacc; [| |by exists p].
  - exists (set_life (set_accepting Returned (pr_server p)) p). split; [|done].
    apply rtc_once. apply p_server; [done|by apply step_accept_fails|done].
  - assert (track c (pr_server p) = set_accepting Returned (close_socket c (pr_server p))) as Ht
      by (unfold track; by rewrite Hcl).
    exists (set_life (track c (pr_server p)) p). rewrite Ht. split; [|done].
    apply rtc_once. apply p_server; [done|rewrite <-Ht; by apply step_track|done].
Qed.

(** C17. The life of the process. From the start of [Serve] on, whatever the
    signals, the connections and the failures of [accept]: the executor and the
    ledger are closed, in this order, only after [Serve] has returned from a
    server that was closed because the context was cancelled; the process ends
    in success only after all its deferred calls, and a failure of [accept] that
    nobody asked for ends it without any; and once the context is cancelled,
    unless it has failed, the process can always end in success. *)
Theorem process_contract path p : process_reachable path p →
  pr_done p `prefix_of` deferred_calls ∧
  (pr_done p ≠ [] → accepting (pr_server p) = Returned ∧ closed (server (pr_server p)) = true ∧ pr_ctx p = true) ∧
  (pr_main p = Exited true → pr_done p = deferred_calls ∧ pr_ctx p = true) ∧
  (pr_main p = Exited false → pr_done p = [] ∧ accepting (pr_server p) = Returned) ∧
  (pr_ctx p = true → pr_main p ≠ Exited false → ∃ p', rtc process_step p p' ∧ pr_main p' = Exited true).
Proof.
  intros Hp%process_reachable_ok. pose proof Hp as [_ _ Hm Hr _]. unfold main_ok, returned_ok in Hm, Hr.
  pose proof (closed_cancelled path p Hp) as Hcancel. split; [|split; [|split; [|split]]].
  - destruct (pr_main p) as [|rest|[]]; [rewrite Hm; apply prefix_nil|by exists rest|by rewrite Hm|rewrite Hm; apply prefix_nil].
  - intros Hne. destruct (pr_main p) as [|rest|[]]; try done; naive_solver.
  - intros He. rewrite He in Hm, Hr. naive_solver.
  - intros He. by rewrite He in Hm, Hr.
  - intros Hctx Hnf. destruct (pr_main p) as [|rest|[]] eqn:Hmain; [|by eapply deferred_end|by exists p|done].
    destruct (close_happens path p Hp Hmain Hctx) as (p1 & H1 & Hm1 & Hc1).
    destruct (serve_returns p1 Hm1 Hc1) as (p2 & H2 & Hm2 & Hc2 & Ha2).
    destruct (deferred_end (served p2) deferred_calls) as (p' & H3 & He); [unfold served, isClosed; by rewrite Hc2|].
    exists p'. split; [|done]. etransitivity; [exact H1|]. etransitivity; [exact H2|]. eapply rtc_l; [by apply p_served|done].
Qed.

(** ** An interrupted command *)

(** A connection is being served when the signal comes; [main] closes the ledger. *)
Definition interrupted_process : process :=
  mkProcess shutting_down true true (Returning [StopNotify]) [CloseExecutor; CloseLedger].

Lemma interrupted_reachable : process_reachable "s" interrupted_process.
Proof.
  unfold process_reachable.
  eapply rtc_l; [apply (p_server _ (accept 7 (listening "s"))); [done|by apply (step_accept _ 7)|done]|].
  eapply rtc_l; [apply (p_server _ (track 7 (accept 7 (listening "s")))); [done|by apply (step_track _ 7)|done]|].
  eapply rtc_l; [by apply p_signal|]. eapply rtc_l; [by apply p_close|].
  eapply rtc_l; [apply (p_server _ shutting_down); [done|by apply step_accept_fails|done]|].
  eapply rtc_l; [by apply p_served|]. eapply rtc_l; [by apply p_deferred|].
  eapply rtc_l; [by apply p_deferred|]. apply rtc_refl.
Qed.

(** The ledger is closed while a connection is served, and the process may end
    with the connection still served and the socket file in its place, since
    nobody waits for the goroutine that calls [Close]. *)
Theorem ledger_closed_under_handlers : ∃ p p', process_reachable "s" p ∧ CloseLedger ∈ pr_done p ∧
  handlers (pr_server p) !! 7%nat = Some Serving ∧
  rtc process_step p p' ∧ pr_main p' = Exited true ∧ handlers (pr_server p') !! 7%nat = Some Serving ∧
  file (pr_server p') = Mine.
Proof.
  exists interrupted_process, (set_main (Exited true) (run_deferred StopNotify [] interrupted_process)).
  split; [apply interrupted_reachable|]. split; [right; by left|]. split; [by vm_compute|]. split; [|by vm_compute].
  eapply rtc_l; [by apply p_deferred|]. apply rtc_once. by apply p_exit.
Qed.

Lemma process_contract_witness :
  pr_done interrupted_process = [CloseExecutor; CloseLedger] ∧
  ∃ p', rtc process_step interrupted_process p' ∧ pr_main p' = Exited true.
Proof.
  split; [done|].
  destruct (process_contract "s" interrupted_process interrupted_reachable) as (_ & _ & _ & _ & H). by apply H.
Defined.
